(** * ATS address selection and bandwidth allocation of GNUnet

    A shallow embedding of
    - [src/ats/gnunet-service-ats_addresses.c]: the address registry, the
      equal-share bandwidth assignment and the LAN/WAN/loopback classifier
      (module [Addresses]);
    - [src/ats/libgnunet_plugin_ats_ril.c]: the reinforcement-learning solver
      (module [Ril]).

    C integers are [Z] with the wrap-around of their width written out,
    [double]s are binary64 floats, linked lists and arrays are lists, a
    [GNUNET_assert] that fails is the result [None]. *)

From Stdlib Require Import ZArith List Bool Lia String Ascii.
From Stdlib Require Import Floats Uint63.
From stdpp Require Import base option list gmap.

Local Open Scope Z_scope.

(** ** Machine integers and byte order *)

Module ByteOrder.

Definition wrap32 (x : Z) : Z := x mod 2 ^ 32.
Definition wrap64 (x : Z) : Z := x mod 2 ^ 64.

(** Byte [k] of [x], counted from the least significant one. *)
Definition byte_of (k x : Z) : Z := (x / 2 ^ (8 * k)) mod 256.

(** [htonl] of a little-endian host: the argument is converted to
    [uint32_t] and its four bytes are reversed.  (On a big-endian host the
    bytes stay in place; every statement below only uses that [ntohl]
    undoes [htonl] and which byte comes first in memory.) *)
Definition htonl (x : Z) : Z :=
  byte_of 0 x * 2 ^ 24 + byte_of 1 x * 2 ^ 16 + byte_of 2 x * 2 ^ 8 + byte_of 3 x.

Definition ntohl (x : Z) : Z := htonl x.

(** The first byte in memory of a 32-bit value stored on this host. *)
Definition first_octet (s_addr : Z) : Z := byte_of 0 s_addr.

(** The IPv4 address [a.b.c.d] as a host-order number and as the
    [s_addr] of a [struct in_addr] (network byte order). *)
Definition ipv4 (a b c d : Z) : Z := a * 2 ^ 24 + b * 2 ^ 16 + c * 2 ^ 8 + d.
Definition inet_addr (a b c d : Z) : Z := htonl (ipv4 a b c d).

End ByteOrder.

Import ByteOrder.

(** ** The address registry: [gnunet-service-ats_addresses.c] *)

Module Addresses.

(** *** Data *)

(** A peer identity is an opaque hash; only equality is used. *)
Abbreviation GNUNET_PeerIdentity := N (only parsing).

(** A [struct ATS_Address *]: the identity of one allocated record. *)
Abbreviation ptr := nat (only parsing).

(** Modelled from the spec: [enum GNUNET_ATS_Network_Type] of
    [gnunet_ats_service.h], which is not under src/ ("NetworkType:
    enumeration UNSPECIFIED, LOOPBACK, LAN, WAN, WLAN"). *)
Inductive GNUNET_ATS_Network_Type :=
| GNUNET_ATS_NET_UNSPECIFIED
| GNUNET_ATS_NET_LOOPBACK
| GNUNET_ATS_NET_LAN
| GNUNET_ATS_NET_WAN
| GNUNET_ATS_NET_WLAN.

(** Modelled from the spec: the kinds of [enum GNUNET_ATS_Property] that
    [GAS_addresses_update] switches on (the header is not under src/); a
    kind is held decoded, i.e. after [ntohl]; any other number is
    [GNUNET_ATS_unsupported]. *)
Inductive GNUNET_ATS_Property :=
| GNUNET_ATS_UTILIZATION_UP
| GNUNET_ATS_UTILIZATION_DOWN
| GNUNET_ATS_QUALITY_NET_DELAY
| GNUNET_ATS_QUALITY_NET_DISTANCE
| GNUNET_ATS_COST_WAN
| GNUNET_ATS_COST_LAN
| GNUNET_ATS_COST_WLAN
| GNUNET_ATS_unsupported (code : Z).

(** [struct GNUNET_ATS_Information]; [value] is in network byte order. *)
Record GNUNET_ATS_Information := mkInfo {
  type : GNUNET_ATS_Property;
  value : Z }.

(** [struct ATS_Address].  The bandwidth and utilization fields hold the
    [value__] of a [GNUNET_BANDWIDTH_Value32NBO], in network byte order;
    [atsp_latency] holds [rel_value]; [active] is [GNUNET_YES] ([true]) or
    [GNUNET_NO] ([false]). *)
Record ATS_Address := mkAddress {
  peer : GNUNET_PeerIdentity;
  session_id : Z;
  addr : list Byte.byte;
  plugin : string;
  ats : list GNUNET_ATS_Information;
  atsp_latency : Z;
  atsp_utilization_in : Z;
  atsp_utilization_out : Z;
  atsp_distance : Z;
  atsp_cost_wan : Z;
  atsp_cost_lan : Z;
  atsp_cost_wlan : Z;
  assigned_bw_in : Z;
  assigned_bw_out : Z;
  active : bool }.

(** The two counts always accompany their arrays. *)
Definition addr_len (aa : ATS_Address) : Z := Z.of_nat (length (addr aa)).
Definition ats_count (aa : ATS_Address) : Z := Z.of_nat (length (ats aa)).

Definition set_session_id (v : Z) (aa : ATS_Address) : ATS_Address :=
  mkAddress (peer aa) v (addr aa) (plugin aa) (ats aa) (atsp_latency aa)
    (atsp_utilization_in aa) (atsp_utilization_out aa) (atsp_distance aa)
    (atsp_cost_wan aa) (atsp_cost_lan aa) (atsp_cost_wlan aa)
    (assigned_bw_in aa) (assigned_bw_out aa) (active aa).

Definition set_ats (v : list GNUNET_ATS_Information) (aa : ATS_Address) : ATS_Address :=
  mkAddress (peer aa) (session_id aa) (addr aa) (plugin aa) v (atsp_latency aa)
    (atsp_utilization_in aa) (atsp_utilization_out aa) (atsp_distance aa)
    (atsp_cost_wan aa) (atsp_cost_lan aa) (atsp_cost_wlan aa)
    (assigned_bw_in aa) (assigned_bw_out aa) (active aa).

Definition set_atsp_latency (v : Z) (aa : ATS_Address) : ATS_Address :=
  mkAddress (peer aa) (session_id aa) (addr aa) (plugin aa) (ats aa) v
    (atsp_utilization_in aa) (atsp_utilization_out aa) (atsp_distance aa)
    (atsp_cost_wan aa) (atsp_cost_lan aa) (atsp_cost_wlan aa)
    (assigned_bw_in aa) (assigned_bw_out aa) (active aa).

Definition set_atsp_utilization_in (v : Z) (aa : ATS_Address) : ATS_Address :=
  mkAddress (peer aa) (session_id aa) (addr aa) (plugin aa) (ats aa) (atsp_latency aa)
    v (atsp_utilization_out aa) (atsp_distance aa)
    (atsp_cost_wan aa) (atsp_cost_lan aa) (atsp_cost_wlan aa)
    (assigned_bw_in aa) (assigned_bw_out aa) (active aa).

Definition set_atsp_utilization_out (v : Z) (aa : ATS_Address) : ATS_Address :=
  mkAddress (peer aa) (session_id aa) (addr aa) (plugin aa) (ats aa) (atsp_latency aa)
    (atsp_utilization_in aa) v (atsp_distance aa)
    (atsp_cost_wan aa) (atsp_cost_lan aa) (atsp_cost_wlan aa)
    (assigned_bw_in aa) (assigned_bw_out aa) (active aa).

Definition set_atsp_distance (v : Z) (aa : ATS_Address) : ATS_Address :=
  mkAddress (peer aa) (session_id aa) (addr aa) (plugin aa) (ats aa) (atsp_latency aa)
    (atsp_utilization_in aa) (atsp_utilization_out aa) v
    (atsp_cost_wan aa) (atsp_cost_lan aa) (atsp_cost_wlan aa)
    (assigned_bw_in aa) (assigned_bw_out aa) (active aa).

Definition set_atsp_cost_wan (v : Z) (aa : ATS_Address) : ATS_Address :=
  mkAddress (peer aa) (session_id aa) (addr aa) (plugin aa) (ats aa) (atsp_latency aa)
    (atsp_utilization_in aa) (atsp_utilization_out aa) (atsp_distance aa)
    v (atsp_cost_lan aa) (atsp_cost_wlan aa)
    (assigned_bw_in aa) (assigned_bw_out aa) (active aa).

Definition set_atsp_cost_lan (v : Z) (aa : ATS_Address) : ATS_Address :=
  mkAddress (peer aa) (session_id aa) (addr aa) (plugin aa) (ats aa) (atsp_latency aa)
    (atsp_utilization_in aa) (atsp_utilization_out aa) (atsp_distance aa)
    (atsp_cost_wan aa) v (atsp_cost_wlan aa)
    (assigned_bw_in aa) (assigned_bw_out aa) (active aa).

Definition set_atsp_cost_wlan (v : Z) (aa : ATS_Address) : ATS_Address :=
  mkAddress (peer aa) (session_id aa) (addr aa) (plugin aa) (ats aa) (atsp_latency aa)
    (atsp_utilization_in aa) (atsp_utilization_out aa) (atsp_distance aa)
    (atsp_cost_wan aa) (atsp_cost_lan aa) v
    (assigned_bw_in aa) (assigned_bw_out aa) (active aa).

Definition set_assigned_bw (v_in v_out : Z) (aa : ATS_Address) : ATS_Address :=
  mkAddress (peer aa) (session_id aa) (addr aa) (plugin aa) (ats aa) (atsp_latency aa)
    (atsp_utilization_in aa) (atsp_utilization_out aa) (atsp_distance aa)
    (atsp_cost_wan aa) (atsp_cost_lan aa) (atsp_cost_wlan aa)
    v_in v_out (active aa).

Definition set_active (v : bool) (aa : ATS_Address) : ATS_Address :=
  mkAddress (peer aa) (session_id aa) (addr aa) (plugin aa) (ats aa) (atsp_latency aa)
    (atsp_utilization_in aa) (atsp_utilization_out aa) (atsp_distance aa)
    (atsp_cost_wan aa) (atsp_cost_lan aa) (atsp_cost_wlan aa)
    (assigned_bw_in aa) (assigned_bw_out aa) v.

(** The calls the registry makes to its three collaborators, with their
    arguments (the address is passed as plugin name, bytes and session). *)
Inductive Downstream :=
| GAS_scheduling_transmit_address_suggestion
    (peer : GNUNET_PeerIdentity) (plugin : string) (addr : list Byte.byte)
    (session_id : Z) (ats : list GNUNET_ATS_Information) (bw_out bw_in : Z)
| GAS_reservations_set_bandwidth (peer : GNUNET_PeerIdentity) (bw_in : Z)
| GAS_performance_notify_clients
    (peer : GNUNET_PeerIdentity) (plugin : string) (addr : list Byte.byte)
    (ats : list GNUNET_ATS_Information) (bw_out bw_in : Z).

(** The file-scope variables: the multi-hash-map [addresses] (its
    entries in the order in which the map yields them, each with the
    pointer that identifies it), the two quotas ([unsigned long long]),
    [active_addr_count] ([unsigned int]); besides them the next pointer
    [GNUNET_malloc] hands out, the statistic "# bandwidth recalculations
    performed" and the calls made so far, oldest first. *)
Record State := mkState {
  addresses : list (ptr * ATS_Address);
  next_ptr : ptr;
  wan_quota_in : Z;
  wan_quota_out : Z;
  active_addr_count : Z;
  bandwidth_recalculations : Z;
  downstream : list Downstream }.

Definition set_addresses (m : list (ptr * ATS_Address)) (st : State) : State :=
  mkState m (next_ptr st) (wan_quota_in st) (wan_quota_out st)
    (active_addr_count st) (bandwidth_recalculations st) (downstream st).

Definition set_active_addr_count (c : Z) (st : State) : State :=
  mkState (addresses st) (next_ptr st) (wan_quota_in st) (wan_quota_out st)
    c (bandwidth_recalculations st) (downstream st).

Definition call (cs : list Downstream) (st : State) : State :=
  mkState (addresses st) (next_ptr st) (wan_quota_in st) (wan_quota_out st)
    (active_addr_count st) (bandwidth_recalculations st) (downstream st ++ cs).

(** What [GAS_addresses_init] leaves behind for the two configured quotas. *)
Definition GAS_addresses_init (quota_in quota_out : Z) : State :=
  mkState [] 0%nat quota_in quota_out 0 0 [].

(** *** The container *)

(** Reading and writing through a pointer to a stored record. *)
Fixpoint deref (p : ptr) (m : list (ptr * ATS_Address)) : option ATS_Address :=
  match m with
  | [] => None
  | (q, aa) :: m' => if Nat.eqb p q then Some aa else deref p m'
  end.

Definition modify (p : ptr) (f : ATS_Address -> ATS_Address)
    (m : list (ptr * ATS_Address)) : list (ptr * ATS_Address) :=
  map (fun e => if Nat.eqb p (fst e) then (fst e, f (snd e)) else e) m.

(** Modelled from the spec: [GNUNET_CONTAINER_multihashmap_put] with
    option MULTIPLE, [_remove], [_get_multiple] and [_iterate] of
    [container_multihashmap.c], which is not under src/.  The map keeps
    several values under one key; an entry is stored under the hash of
    its own [peer] field.  The spec calls the order in which the entries
    of a peer are visited "insertion order", the container itself pushes
    each new entry on the head of its chain; [at_head] selects between
    the two, and the statements below are proved for both. *)
Definition multihashmap_put (at_head : bool) (p : ptr) (aa : ATS_Address)
    (m : list (ptr * ATS_Address)) : list (ptr * ATS_Address) :=
  if at_head then (p, aa) :: m else m ++ [(p, aa)].

Definition multihashmap_remove (p : ptr) (m : list (ptr * ATS_Address))
    : list (ptr * ATS_Address) :=
  List.filter (fun e => negb (Nat.eqb p (fst e))) m.

(** The entries stored under [key], in visiting order. *)
Definition multihashmap_get_multiple (key : GNUNET_PeerIdentity)
    (m : list (ptr * ATS_Address)) : list (ptr * ATS_Address) :=
  List.filter (fun e => N.eqb (peer (snd e)) key) m.

(** A callback that always answers [GNUNET_OK] is run on every value of
    the list in turn; the container fetches the next entry before it
    calls the callback, so a callback may remove its own value. *)
Fixpoint iterate (it : ptr -> State -> option State) (ps : list ptr)
    (st : State) : option State :=
  match ps with
  | [] => Some st
  | p :: ps' =>
      match it p st with
      | None => None
      | Some st' => iterate it ps' st'
      end
  end.

(** [0 == memcmp (a, b, n)]. *)
Definition memcmp0 (a b : list Byte.byte) (n : Z) : bool :=
  if List.list_eq_dec Byte.byte_eq_dec (firstn (Z.to_nat n) a) (firstn (Z.to_nat n) b)
  then true else false.

(** *** Bandwidth assignment *)

(** [update_bw_it]: an inactive address is skipped; an active one gets
    the same share of each quota and is announced to the three
    collaborators.  The quotient is an [unsigned long long]; [htonl]
    takes its low 32 bits. *)
Definition update_bw_it (p : ptr) (st : State) : option State :=
  match deref p (addresses st) with
  | None => Some st
  | Some aa =>
      if negb (active aa) then Some st
      else if negb (0 <? active_addr_count st) then None
      else
        let bw_in := htonl (wan_quota_in st / active_addr_count st) in
        let bw_out := htonl (wan_quota_out st / active_addr_count st) in
        Some (call
                [ GAS_scheduling_transmit_address_suggestion (peer aa) (plugin aa)
                    (addr aa) (session_id aa) (ats aa) bw_out bw_in;
                  GAS_reservations_set_bandwidth (peer aa) bw_in;
                  GAS_performance_notify_clients (peer aa) (plugin aa) (addr aa)
                    (ats aa) bw_out bw_in ]
                (set_addresses (modify p (set_assigned_bw bw_in bw_out) (addresses st)) st))
  end.

Definition count_recalculation (st : State) : State :=
  mkState (addresses st) (next_ptr st) (wan_quota_in st) (wan_quota_out st)
    (active_addr_count st) (bandwidth_recalculations st + 1) (downstream st).

Definition recalculate_assigned_bw (st : State) : option State :=
  iterate update_bw_it (map fst (addresses st)) (count_recalculation st).

(** [destroy_address]: the result says whether the bandwidth has to be
    recalculated; the assertion fails when the map does not hold [p]. *)
Definition destroy_address (p : ptr) (st : State) : option (bool * State) :=
  match deref p (addresses st) with
  | None => None
  | Some aa =>
      let st' := set_addresses (multihashmap_remove p (addresses st)) st in
      if active aa
      then Some (true, set_active_addr_count (wrap32 (active_addr_count st - 1)) st')
      else Some (false, st')
  end.

(** *** Lookup and update *)

(** [compare_address_it] answers [GNUNET_YES] ([true]: go on) unless
    [aa] equals the searched address by length, plugin and bytes, or by a
    session id that is not zero. *)
Definition compare_address_it (search aa : ATS_Address) : bool :=
  (negb (addr_len aa =? addr_len search)
   || negb (String.eqb (plugin aa) (plugin search))
   || negb (memcmp0 (addr aa) (addr search) (addr_len aa)))
  && (negb (session_id aa =? session_id search) || (session_id search =? 0)).

(** [find_address]: the first entry of the peer on which the callback
    stops the iteration. *)
Definition find_address (key : GNUNET_PeerIdentity) (search : ATS_Address)
    (st : State) : option ptr :=
  match find (fun e => negb (compare_address_it search (snd e)))
             (multihashmap_get_multiple key (addresses st)) with
  | Some e => Some (fst e)
  | None => None
  end.

(** One round of the [switch] in [GAS_addresses_update]. *)
Definition update_atsp (i : GNUNET_ATS_Information) (old : ATS_Address) : ATS_Address :=
  match type i with
  | GNUNET_ATS_UTILIZATION_UP => set_atsp_utilization_out (value i) old
  | GNUNET_ATS_UTILIZATION_DOWN => set_atsp_utilization_in (value i) old
  | GNUNET_ATS_QUALITY_NET_DELAY => set_atsp_latency (ntohl (value i)) old
  | GNUNET_ATS_QUALITY_NET_DISTANCE => set_atsp_distance (ntohl (value i)) old
  | GNUNET_ATS_COST_WAN => set_atsp_cost_wan (ntohl (value i)) old
  | GNUNET_ATS_COST_LAN => set_atsp_cost_lan (ntohl (value i)) old
  | GNUNET_ATS_COST_WLAN => set_atsp_cost_wlan (ntohl (value i)) old
  | GNUNET_ATS_unsupported _ => old
  end.

(** The record [GAS_addresses_update] allocates: zeroed by
    [GNUNET_malloc], then filled from the arguments. *)
Definition new_address (peer : GNUNET_PeerIdentity) (plugin_name : string)
    (plugin_addr : list Byte.byte) (session_id : Z)
    (atsi : list GNUNET_ATS_Information) : ATS_Address :=
  mkAddress peer session_id plugin_addr plugin_name atsi 0 0 0 0 0 0 0 0 0 false.

Definition GAS_addresses_update (at_head : bool) (peer : GNUNET_PeerIdentity)
    (plugin_name : string) (plugin_addr : list Byte.byte) (session_id : Z)
    (atsi : list GNUNET_ATS_Information) (st : State) : State :=
  let aa := new_address peer plugin_name plugin_addr session_id atsi in
  match find_address peer aa st with
  | None =>
      let old := next_ptr st in
      let st := mkState (multihashmap_put at_head old aa (addresses st)) (S old)
                  (wan_quota_in st) (wan_quota_out st) (active_addr_count st)
                  (bandwidth_recalculations st) (downstream st) in
      set_addresses (modify old (fun o => fold_left (fun o i => update_atsp i o) atsi o)
                       (addresses st)) st
  | Some old =>
      let st := set_addresses
                  (modify old (fun o => set_ats atsi (set_session_id session_id o))
                     (addresses st)) st in
      set_addresses (modify old (fun o => fold_left (fun o i => update_atsp i o) atsi o)
                       (addresses st)) st
  end.

(** *** Destruction *)

(** [destroy_by_session_id] for the query [info] on the stored value [p]. *)
Definition destroy_by_session_id (info : ATS_Address) (p : ptr) (st : State)
    : option State :=
  match deref p (addresses st) with
  | None => Some st
  | Some aa =>
      if negb (N.eqb (peer aa) (peer info)) then None
      else if (session_id info =? 0) && String.eqb (plugin info) (plugin aa)
              && (addr_len aa =? addr_len info)
              && memcmp0 (addr info) (addr aa) (addr_len aa)
      then
        match destroy_address p st with
        | None => None
        | Some (true, st') => recalculate_assigned_bw st'
        | Some (false, st') => Some st'
        end
      else if negb (session_id aa =? session_id info) then Some st
      else
        let st := set_addresses (modify p (set_session_id 0) (addresses st)) st in
        let st2 :=
          if active aa
          then recalculate_assigned_bw
                 (set_active_addr_count (wrap32 (active_addr_count st - 1))
                    (set_addresses (modify p (set_active false) (addresses st)) st))
          else Some st in
        match st2 with
        | None => None
        | Some st2 =>
            if addr_len aa =? 0
            then match destroy_address p st2 with
                 | None => None
                 | Some (_, st3) => Some st3
                 end
            else Some st2
        end
  end.

Definition GAS_addresses_destroy (peer : GNUNET_PeerIdentity)
    (plugin_name : string) (plugin_addr : list Byte.byte) (session_id : Z)
    (st : State) : option State :=
  let aa := new_address peer plugin_name plugin_addr session_id [] in
  iterate (destroy_by_session_id aa)
    (map fst (multihashmap_get_multiple peer (addresses st))) st.

(** *** Selection *)

(** [find_address_it]: [ap] is the best address so far, [aa] the next
    candidate. *)
Definition find_address_it (ap : option (ptr * ATS_Address))
    (aa : ptr * ATS_Address) : option (ptr * ATS_Address) :=
  match ap with
  | None => Some aa
  | Some ab =>
      if (ntohl (assigned_bw_in (snd ab)) =? 0)
         && (0 <? ntohl (assigned_bw_in (snd aa)))
      then Some aa
      else if atsp_distance (snd aa) <? atsp_distance (snd ab) then Some aa
      else if atsp_latency (snd aa) <? atsp_latency (snd ab) then Some aa
      else Some ab
  end.

(** The address [GAS_addresses_request_address] settles on. *)
Definition find_best (peer : GNUNET_PeerIdentity) (st : State)
    : option (ptr * ATS_Address) :=
  fold_left find_address_it (multihashmap_get_multiple peer (addresses st)) None.

Definition GAS_addresses_request_address (peer : GNUNET_PeerIdentity)
    (st : State) : option State :=
  match find_best peer st with
  | None => Some st
  | Some (p, aa) =>
      if negb (active aa)
      then recalculate_assigned_bw
             (set_active_addr_count (wrap32 (active_addr_count st + 1))
                (set_addresses (modify p (set_active true) (addresses st)) st))
      else Some (call
                   [ GAS_scheduling_transmit_address_suggestion peer (plugin aa)
                       (addr aa) (session_id aa) (ats aa)
                       (assigned_bw_out aa) (assigned_bw_in aa) ] st)
  end.

(** *** Runs of the registry *)

Inductive Request :=
| update (peer : GNUNET_PeerIdentity) (plugin_name : string)
    (plugin_addr : list Byte.byte) (session_id : Z)
    (atsi : list GNUNET_ATS_Information)
| destroy (peer : GNUNET_PeerIdentity) (plugin_name : string)
    (plugin_addr : list Byte.byte) (session_id : Z)
| request_address (peer : GNUNET_PeerIdentity).

Definition handle (at_head : bool) (r : Request) (st : State) : option State :=
  match r with
  | update peer plugin_name plugin_addr session_id atsi =>
      Some (GAS_addresses_update at_head peer plugin_name plugin_addr session_id atsi st)
  | destroy peer plugin_name plugin_addr session_id =>
      GAS_addresses_destroy peer plugin_name plugin_addr session_id st
  | request_address peer => GAS_addresses_request_address peer st
  end.

Fixpoint run (at_head : bool) (rs : list Request) (st : State) : option State :=
  match rs with
  | [] => Some st
  | r :: rs' =>
      match handle at_head r st with
      | None => None
      | Some st' => run at_head rs' st'
      end
  end.

(** The addresses of [key] that are marked active. *)
Definition active_addresses (key : GNUNET_PeerIdentity) (st : State)
    : list (ptr * ATS_Address) :=
  List.filter (fun e => active (snd e)) (multihashmap_get_multiple key (addresses st)).

(** The number of addresses marked active in the whole registry. *)
Definition number_active (m : list (ptr * ATS_Address)) : Z :=
  Z.of_nat (length (List.filter (fun e => active (snd e)) m)).

(** *** Network classification *)

(** A socket address: [struct sockaddr_in] with its [sin_addr.s_addr],
    [struct sockaddr_in6] with the four 32-bit words of its [sin6_addr],
    or an address of another family.  All words are as they lie in
    memory, i.e. in network byte order. *)
Inductive sockaddr :=
| sockaddr_in (s_addr : Z)
| sockaddr_in6 (w0 w1 w2 w3 : Z)
| sockaddr_other.

(** [struct ATS_Network]; the field [length] is called [net_length]. *)
Record ATS_Network := mkNetwork {
  network : sockaddr;
  netmask : sockaddr;
  net_length : Z }.

Definition IN6_IS_ADDR_LOOPBACK (w0 w1 w2 w3 : Z) : bool :=
  (w0 =? 0) && (w1 =? 0) && (w2 =? 0) && (w3 =? htonl 1).

(** The [while] loop of [GAS_addresses_type] over the list that starts
    at [cur].  An entry is read as an address of the family of [addr];
    [interface_proc] stores entries of the family and length of the
    interface they come from, and the length of a [sockaddr_in] differs
    from that of a [sockaddr_in6], so the length test skips the entries
    of the other family. *)
Fixpoint check_local_networks (cur : list ATS_Network) (addr : sockaddr)
    (addrlen : Z) (type : GNUNET_ATS_Network_Type) : GNUNET_ATS_Network_Type :=
  match cur with
  | [] => type
  | c :: next =>
      match type with
      | GNUNET_ATS_NET_UNSPECIFIED =>
          if negb (addrlen =? net_length c)
          then check_local_networks next addr addrlen type
          else
            let type :=
              match addr, network c, netmask c with
              | sockaddr_in a4, sockaddr_in net4, sockaddr_in mask4 =>
                  if Z.land (Z.land a4 mask4) net4 =? net4
                  then GNUNET_ATS_NET_LAN else type
              | _, _, _ => type
              end in
            let type :=
              match addr, network c, netmask c with
              | sockaddr_in6 a0 a1 a2 a3, sockaddr_in6 n0 n1 n2 n3,
                sockaddr_in6 m0 m1 m2 m3 =>
                  if negb (negb (Z.lor (Z.land a0 m0) n0 =? n0)
                           || negb (Z.lor (Z.land a1 m1) n1 =? n1)
                           || negb (Z.lor (Z.land a2 m2) n2 =? n2)
                           || negb (Z.lor (Z.land a3 m3) n3 =? n3))
                  then GNUNET_ATS_NET_LAN else type
              | _, _, _ => type
              end in
            check_local_networks next addr addrlen type
      | _ => type
      end
  end.

(** [GAS_addresses_type]: the network type it determines (the C function
    returns it as the [value] of a [GNUNET_ATS_Information]). *)
Definition GAS_addresses_type (net_head : list ATS_Network) (addr : sockaddr)
    (addrlen : Z) : GNUNET_ATS_Network_Type :=
  let type := GNUNET_ATS_NET_UNSPECIFIED in
  let type :=
    match addr with
    | sockaddr_in s_addr =>
        if Z.land (Z.land s_addr (htonl 0xff000000)) (htonl 0x7f000000)
           =? htonl 0x7f000000
        then GNUNET_ATS_NET_LOOPBACK else type
    | _ => type
    end in
  let type :=
    match addr with
    | sockaddr_in6 w0 w1 w2 w3 =>
        if IN6_IS_ADDR_LOOPBACK w0 w1 w2 w3 then GNUNET_ATS_NET_LOOPBACK else type
    | _ => type
    end in
  let type := check_local_networks net_head addr addrlen type in
  match type with
  | GNUNET_ATS_NET_UNSPECIFIED => GNUNET_ATS_NET_WAN
  | _ => type
  end.

(** [interface_proc]: the network of an interface is its address under
    its netmask; the entry is put in front of the list. *)
Definition interface_proc (addr netmask : sockaddr) (addrlen : Z)
    (net_head : list ATS_Network) : list ATS_Network :=
  match addr, netmask with
  | sockaddr_in addr4, sockaddr_in netmask4 =>
      mkNetwork (sockaddr_in (Z.land addr4 netmask4)) netmask addrlen :: net_head
  | sockaddr_in6 a0 a1 a2 a3, sockaddr_in6 m0 m1 m2 m3 =>
      mkNetwork (sockaddr_in6 (Z.land a0 m0) (Z.land a1 m1) (Z.land a2 m2)
                   (Z.land a3 m3)) netmask addrlen :: net_head
  | _, _ => net_head
  end.

(** [sizeof (struct sockaddr_in)]. *)
Definition sizeof_sockaddr_in : Z := 16.

(** The entry of the interface table for the IPv4 network
    [a.b.c.d] with a netmask of [bits] leading ones. *)
Definition ipv4_network (a b c d bits : Z) : ATS_Network :=
  let mask := htonl (Z.shiftl (Z.ones bits) (32 - bits)) in
  mkNetwork (sockaddr_in (Z.land (inet_addr a b c d) mask)) (sockaddr_in mask)
    sizeof_sockaddr_in.

Definition classify (net_head : list ATS_Network) (a b c d : Z)
    : GNUNET_ATS_Network_Type :=
  GAS_addresses_type net_head (sockaddr_in (inet_addr a b c d)) sizeof_sockaddr_in.

(** *** Shutting down *)

(** [free_address_it]. *)
Definition free_address_it (p : ptr) (st : State) : option State :=
  match destroy_address p st with
  | Some (_, st') => Some st'
  | None => None
  end.

(** [GAS_addresses_destroy_all], between [GAS_addresses_init] and
    [GAS_addresses_done], when [addresses] is not [NULL]. *)
Definition GAS_addresses_destroy_all (st : State) : option State :=
  match iterate free_address_it (map fst (addresses st)) st with
  | Some st' => if active_addr_count st' =? 0 then Some st' else None
  | None => None
  end.

End Addresses.

(** ** The reinforcement-learning solver: [libgnunet_plugin_ats_ril.c] *)

Module Ril.

Notation "'let?' x ':=' a 'in' b" :=
  (match a with Some x => b | None => None end)
  (at level 10, x pattern, a at level 100, b at level 200, only parsing).

(** *** Data *)

Abbreviation GNUNET_PeerIdentity := N (only parsing).

(** A [struct ATS_Address *]. *)
Abbreviation ptr := nat (only parsing).

Definition RIL_ACTION_INVALID : Z := -1.
Definition RIL_FEATURES_NETWORK_COUNT : nat := 4.

(** [enum RIL_Action_Type]; an action is an [int], and the action
    [RIL_ACTION_TYPE_NUM + i] switches to the address with index [i]. *)
Definition RIL_ACTION_NOTHING : Z := 0.
Definition RIL_ACTION_BW_IN_DBL : Z := 1.
Definition RIL_ACTION_BW_IN_HLV : Z := 2.
Definition RIL_ACTION_BW_IN_INC : Z := 3.
Definition RIL_ACTION_BW_IN_DEC : Z := 4.
Definition RIL_ACTION_BW_OUT_DBL : Z := 5.
Definition RIL_ACTION_BW_OUT_HLV : Z := 6.
Definition RIL_ACTION_BW_OUT_INC : Z := 7.
Definition RIL_ACTION_BW_OUT_DEC : Z := 8.
Definition RIL_ACTION_TYPE_NUM : Z := 9.

Inductive RIL_Algorithm := RIL_ALGO_SARSA | RIL_ALGO_Q.

Inductive RIL_E_Modification := RIL_E_SET | RIL_E_ZERO | RIL_E_ACCUMULATE | RIL_E_REPLACE.

(** [struct RIL_Learning_Parameters]; the three C [float]s are held as
    the [double]s they are converted to wherever they are used. *)
Record RIL_Learning_Parameters := mkParameters {
  algorithm : RIL_Algorithm;
  gamma : float;
  alpha : float;
  lambda : float }.

(** The fields of [struct ATS_Address] the solver reads or writes.
    [solver_information] points into the array [network_entries]: it is
    the index of the entry, or [None] for [NULL]. *)
Module Addr.
Record ATS_Address := mkAddress {
  peer : GNUNET_PeerIdentity;
  active : bool;
  assigned_bw_in : Z;
  assigned_bw_out : Z;
  solver_information : option nat }.
End Addr.

(** [struct RIL_Peer_Agent]; [addresses] is the list from
    [addresses_head] to [addresses_tail], each wrapper by its
    [address_naked].  [W] has [n] rows of [m] entries. *)
Record RIL_Peer_Agent := mkAgent {
  peer : GNUNET_PeerIdentity;
  active : bool;
  step_count : Z;
  W : list (list float);
  m : nat;
  n : nat;
  s_old : list float;
  a_old : Z;
  e : list float;
  address_inuse : option ptr;
  addresses : list ptr;
  bw_in : Z;
  bw_out : Z }.

Record RIL_Network := mkNet {
  type : Z;
  bw_in_available : Z;
  bw_in_assigned : Z;
  bw_out_available : Z;
  bw_out_assigned : Z }.

(** [struct GAS_RIL_Handle] (step counter, step interval, task of the
    next step, learning parameters, networks, agents from [agents_head]
    to [agents_tail]) together with the world it acts on: [memory] holds
    the address records behind the pointers, [bandwidth_changed_cb]
    lists the calls of the callback of that name, oldest first, each
    with the address it was given as it was then, and [add_delayed]
    lists the calls of [GNUNET_SCHEDULER_add_delayed], oldest first,
    each with its delay in milliseconds and the task identifier it
    returned.  The field [step_count] of the handle is
    [solver_step_count] here, the agents having a field of the same
    name; it is an [unsigned long long]. *)
Record GAS_RIL_Handle := mkHandle {
  solver_step_count : Z;
  step_time : Z;
  next_step : Z;
  parameters : RIL_Learning_Parameters;
  network_entries : list RIL_Network;
  agents : list RIL_Peer_Agent;
  memory : gmap ptr Addr.ATS_Address;
  bandwidth_changed_cb : list (ptr * Addr.ATS_Address);
  add_delayed : list (Z * Z) }.

Definition networks_count (s : GAS_RIL_Handle) : nat := length (network_entries s).

Definition set_W (v : list (list float)) (a : RIL_Peer_Agent) : RIL_Peer_Agent :=
  mkAgent (peer a) (active a) (step_count a) v (m a) (n a) (s_old a) (a_old a) (e a)
    (address_inuse a) (addresses a) (bw_in a) (bw_out a).

Definition set_e (v : list float) (a : RIL_Peer_Agent) : RIL_Peer_Agent :=
  mkAgent (peer a) (active a) (step_count a) (W a) (m a) (n a) (s_old a) (a_old a) v
    (address_inuse a) (addresses a) (bw_in a) (bw_out a).

Definition set_active (v : bool) (a : RIL_Peer_Agent) : RIL_Peer_Agent :=
  mkAgent (peer a) v (step_count a) (W a) (m a) (n a) (s_old a) (a_old a) (e a)
    (address_inuse a) (addresses a) (bw_in a) (bw_out a).

Definition set_bw_in (v : Z) (a : RIL_Peer_Agent) : RIL_Peer_Agent :=
  mkAgent (peer a) (active a) (step_count a) (W a) (m a) (n a) (s_old a) (a_old a) (e a)
    (address_inuse a) (addresses a) v (bw_out a).

Definition set_bw_out (v : Z) (a : RIL_Peer_Agent) : RIL_Peer_Agent :=
  mkAgent (peer a) (active a) (step_count a) (W a) (m a) (n a) (s_old a) (a_old a) (e a)
    (address_inuse a) (addresses a) (bw_in a) v.

Definition set_address_inuse (v : option ptr) (a : RIL_Peer_Agent) : RIL_Peer_Agent :=
  mkAgent (peer a) (active a) (step_count a) (W a) (m a) (n a) (s_old a) (a_old a) (e a)
    v (addresses a) (bw_in a) (bw_out a).

Definition set_memory (v : gmap ptr Addr.ATS_Address) (s : GAS_RIL_Handle) : GAS_RIL_Handle :=
  mkHandle (solver_step_count s) (step_time s) (next_step s)
    (parameters s) (network_entries s) (agents s) v (bandwidth_changed_cb s)
    (add_delayed s).

Definition set_network_entries (v : list RIL_Network) (s : GAS_RIL_Handle) : GAS_RIL_Handle :=
  mkHandle (solver_step_count s) (step_time s) (next_step s)
    (parameters s) v (agents s) (memory s) (bandwidth_changed_cb s)
    (add_delayed s).

Definition set_agents (v : list RIL_Peer_Agent) (s : GAS_RIL_Handle) : GAS_RIL_Handle :=
  mkHandle (solver_step_count s) (step_time s) (next_step s)
    (parameters s) (network_entries s) v (memory s) (bandwidth_changed_cb s)
    (add_delayed s).

(** Writing through an address pointer; a pointer to nothing is a crash. *)
Definition write (p : ptr) (f : Addr.ATS_Address -> Addr.ATS_Address)
    (s : GAS_RIL_Handle) : option GAS_RIL_Handle :=
  let? aa := memory s !! p in
  Some (set_memory (<[p := f aa]> (memory s)) s).

(** [plugin_envi->bandwidth_changed_cb (cls, address)]. *)
Definition call_bandwidth_changed_cb (p : ptr) (s : GAS_RIL_Handle)
    : option GAS_RIL_Handle :=
  let? aa := memory s !! p in
  Some (mkHandle (solver_step_count s) (step_time s) (next_step s)
          (parameters s) (network_entries s) (agents s) (memory s)
          (bandwidth_changed_cb s ++ [(p, aa)])
          (add_delayed s)).

(** A [for (i = 0; i < n; i++)] loop, run over the indices [range]. *)
Fixpoint for_loop {S : Type} (body : nat -> S -> option S) (range : list nat) (s : S)
    : option S :=
  match range with
  | [] => Some s
  | i :: range' =>
      match body i s with
      | None => None
      | Some s' => for_loop body range' s'
      end
  end.

(** [v[i] = f (v[i])]; an index outside of the array is a crash. *)
Definition update_at {A : Type} (f : A -> option A) (i : nat) (v : list A)
    : option (list A) :=
  let? x := v !! i in
  let? y := f x in
  Some (<[i := y]> v).

(** [v[i] = x]. *)
Definition store {A : Type} (i : nat) (x : A) (v : list A) : option (list A) :=
  update_at (fun _ => Some x) i v.

(** The conversion of an [unsigned long long] to [double]. *)
Definition double_of_u64 (z : Z) : float :=
  if z <? 2 ^ 63 then PrimFloat.of_uint63 (Uint63.of_Z z)
  else PrimFloat.mul
         (PrimFloat.of_uint63 (Uint63.of_Z (Z.lor (Z.shiftr z 1) (Z.land z 1))))
         2%float.

Definition DBL_MAX : float := 0x1.fffffffffffffp1023%float.

(** Modelled from the spec: [GNUNET_array_grow (arr, size, tsize)] of
    [gnunet_common.h], which is not under src/: the grow-vector operation
    that keeps the existing entries and fills the new ones with zero
    bytes; afterwards the size variable holds [tsize]. *)
Definition GNUNET_array_grow {A : Type} (zero : A) (arr : list A) (size tsize : nat)
    : list A :=
  firstn (Nat.min size tsize) arr ++ replicate (tsize - Nat.min size tsize) zero.

(** [ril_cut_from_vector]: the vector without the [hole_length] elements
    from [hole_start] on; [None] when one of its two assertions fails. *)
Definition ril_cut_from_vector {A : Type} (old : list A)
    (hole_start hole_length old_length : nat) : option (list A) :=
  if negb (hole_length <? old_length)%nat then None
  else if negb (hole_start + hole_length <=? old_length)%nat then None
  else Some (firstn hole_start old
             ++ firstn (old_length - hole_start - hole_length)
                  (skipn (hole_start + hole_length) old)).

Section Solver.

(** Modelled from the spec: three things of the plugin environment and
    of headers that are not under src/: the number Q of quality
    properties ([GNUNET_ATS_QualityPropertiesCount]), the minimum
    bandwidth of a peer ([ntohl (GNUNET_CONSTANTS_DEFAULT_BW_IN_OUT.value__)],
    "the configured minimum per-peer bandwidth") and the callback
    [plugin_envi->get_property], which yields the Q normalized
    properties of an address. *)
Variable GNUNET_ATS_QualityPropertiesCount : nat.
Variable min_bw : Z.
Variable get_property : ptr -> list float.

Definition RIL_FEATURES_ADDRESS_COUNT : nat := 3 + GNUNET_ATS_QualityPropertiesCount.

(** *** The agent *)

Definition agent_estimate_q (agent : RIL_Peer_Agent) (state : list float)
    (action : Z) : option float :=
  if action <? 0 then None
  else
    let? row := W agent !! Z.to_nat action in
    for_loop (fun i result =>
                let? x := state !! i in
                let? w := row !! i in
                Some (result + x * w)%float)
      (seq 0 (m agent)) 0%float.

Definition agent_get_action_best (agent : RIL_Peer_Agent) (state : list float)
    : option Z :=
  let? r :=
    for_loop (fun i (r : Z * float) =>
                let? cur_q := agent_estimate_q agent state (Z.of_nat i) in
                if PrimFloat.ltb (snd r) cur_q then Some (Z.of_nat i, cur_q) else Some r)
      (seq 0 (n agent)) (RIL_ACTION_INVALID, (- DBL_MAX)%float) in
  if fst r =? RIL_ACTION_INVALID then None else Some (fst r).

Definition agent_update_weights (solver : GAS_RIL_Handle) (agent : RIL_Peer_Agent)
    (reward : float) (s_next : list float) (a_prime : Z) : option RIL_Peer_Agent :=
  let? q_next := agent_estimate_q agent s_next a_prime in
  let? q_old := agent_estimate_q agent (s_old agent) (a_old agent) in
  let delta := (reward + q_next - q_old)%float in
  let? theta := W agent !! Z.to_nat (a_old agent) in
  let? theta :=
    for_loop (fun i theta =>
                let? e_i := e agent !! i in
                update_at (fun t => Some (t + alpha (parameters solver) * delta * e_i)%float)
                  i theta)
      (seq 0 (m agent)) theta in
  Some (set_W (<[Z.to_nat (a_old agent) := theta]> (W agent)) agent).

Definition agent_modify_eligibility (solver : GAS_RIL_Handle) (agent : RIL_Peer_Agent)
    (modification : RIL_E_Modification) : option RIL_Peer_Agent :=
  let gamma := gamma (parameters solver) in
  let lambda := lambda (parameters solver) in
  let? e :=
    for_loop (fun i e =>
                match modification with
                | RIL_E_ACCUMULATE => update_at (fun x => Some (x + 1)%float) i e
                | RIL_E_REPLACE => store i 1%float e
                | RIL_E_SET => store i (gamma * lambda)%float e
                | RIL_E_ZERO => store i 0%float e
                end)
      (seq 0 (m agent)) (e agent) in
  Some (set_e e agent).

(** *** The suggestion *)

Definition envi_set_active_suggestion (solver : GAS_RIL_Handle)
    (agent : RIL_Peer_Agent) (new_address : option ptr)
    (new_bw_in new_bw_out : Z) (silent : bool)
    : option (GAS_RIL_Handle * RIL_Peer_Agent) :=
  let notify := false in
  (* address change *)
  let? (solver, notify) :=
    if bool_decide (address_inuse agent <> new_address)
    then
      let? solver :=
        match address_inuse agent with
        | Some inuse =>
            write inuse (fun aa => Addr.mkAddress (Addr.peer aa) false (htonl 0) (htonl 0)
                                     (Addr.solver_information aa)) solver
        | None => Some solver
        end in
      let? solver :=
        match new_address with
        | Some new =>
            write new (fun aa => Addr.mkAddress (Addr.peer aa) (active agent)
                                   (htonl (bw_in agent)) (htonl (bw_out agent))
                                   (Addr.solver_information aa)) solver
        | None => Some solver
        end in
      Some (solver, true)
    else Some (solver, notify) in
  let? (solver, agent, notify) :=
    match new_address with
    | Some new =>
        (* activity change *)
        let? aa := memory solver !! new in
        let? solver :=
          if negb (Bool.eqb (Addr.active aa) (active agent))
          then write new (fun aa => Addr.mkAddress (Addr.peer aa) (active agent)
                                      (Addr.assigned_bw_in aa) (Addr.assigned_bw_out aa)
                                      (Addr.solver_information aa)) solver
          else Some solver in
        (* bw change *)
        let? (solver, agent, notify) :=
          if negb (bw_in agent =? new_bw_in)
          then
            let? solver :=
              write new (fun aa => Addr.mkAddress (Addr.peer aa) (Addr.active aa)
                                     (htonl new_bw_out) (Addr.assigned_bw_out aa)
                                     (Addr.solver_information aa)) solver in
            Some (solver, set_bw_in new_bw_in agent, true)
          else Some (solver, agent, notify) in
        if negb (bw_out agent =? new_bw_out)
        then
          let? solver :=
            write new (fun aa => Addr.mkAddress (Addr.peer aa) (Addr.active aa)
                                   (Addr.assigned_bw_in aa) (htonl new_bw_out)
                                   (Addr.solver_information aa)) solver in
          Some (solver, set_bw_out new_bw_out agent, true)
        else Some (solver, agent, notify)
    | None => Some (solver, agent, notify)
    end in
  let? (solver, agent) :=
    if notify && active agent && negb silent
    then
      match new_address with
      | Some new =>
          let? solver := call_bandwidth_changed_cb new solver in
          Some (solver, agent)
      | None =>
          match address_inuse agent with
          | Some inuse =>
              let? aa := memory solver !! inuse in
              if negb (0 =? ntohl (Addr.assigned_bw_in aa)) then None
              else if negb (0 =? ntohl (Addr.assigned_bw_out aa)) then None
              else
                let agent := set_bw_out 0 (set_bw_in 0 agent) in
                (* disconnect *)
                let? solver := call_bandwidth_changed_cb inuse solver in
                Some (solver, agent)
          | None => Some (solver, agent)
          end
      end
    else Some (solver, agent) in
  Some (solver, set_address_inuse new_address agent).

(** *** The state vector *)

Definition envi_get_state (solver : GAS_RIL_Handle) (agent : RIL_Peer_Agent)
    : option (list float) :=
  let state := replicate (m agent) 0%float in
  let? state :=
    for_loop (fun i state =>
                let? net := network_entries solver !! i in
                let? state := store (i * RIL_FEATURES_NETWORK_COUNT + 0)
                                (double_of_u64 (bw_in_assigned net)) state in
                let? state := store (i * RIL_FEATURES_NETWORK_COUNT + 1)
                                (double_of_u64 (bw_in_available net)) state in
                let? state := store (i * RIL_FEATURES_NETWORK_COUNT + 2)
                                (double_of_u64 (bw_out_assigned net)) state in
                store (i * RIL_FEATURES_NETWORK_COUNT + 3)
                  (double_of_u64 (bw_out_available net)) state)
      (seq 0 (networks_count solver)) state in
  let i := (networks_count solver * RIL_FEATURES_NETWORK_COUNT)%nat in
  let? r :=
    for_loop (fun c (r : nat * list float) =>
                let (i, state) := r in
                let? cur_address := addresses agent !! c in
                let? aa := memory solver !! cur_address in
                let? state := store i (if Addr.active aa then 1 else 0)%float state in
                let? state := store (i + 1)
                                (double_of_u64 (if Addr.active aa then bw_in agent else 0))
                                state in
                let? state := store (i + 2)
                                (double_of_u64 (if Addr.active aa then bw_out agent else 0))
                                state in
                let properties := get_property cur_address in
                let? state :=
                  for_loop (fun k state =>
                              let? x := properties !! k in
                              store (i + 3 + k) x state)
                    (seq 0 GNUNET_ATS_QualityPropertiesCount) state in
                Some ((i + 3 + GNUNET_ATS_QualityPropertiesCount)%nat, state))
      (seq 0 (length (addresses agent))) (i, state) in
  Some (snd r).

(** *** The actions *)

Definition envi_action_bw_double (solver : GAS_RIL_Handle) (agent : RIL_Peer_Agent)
    (direction_in : bool) : option (GAS_RIL_Handle * RIL_Peer_Agent) :=
  if direction_in
  then envi_set_active_suggestion solver agent (address_inuse agent)
         (wrap64 (bw_in agent * 2)) (bw_out agent) false
  else envi_set_active_suggestion solver agent (address_inuse agent)
         (bw_in agent) (wrap64 (bw_out agent * 2)) false.

Definition envi_action_bw_halven (solver : GAS_RIL_Handle) (agent : RIL_Peer_Agent)
    (direction_in : bool) : option (GAS_RIL_Handle * RIL_Peer_Agent) :=
  if direction_in
  then
    let new_bw := bw_in agent / 2 in
    let new_bw := if new_bw <? min_bw then min_bw else new_bw in
    envi_set_active_suggestion solver agent (address_inuse agent) new_bw (bw_out agent) false
  else
    let new_bw := bw_out agent / 2 in
    let new_bw := if new_bw <? min_bw then min_bw else new_bw in
    envi_set_active_suggestion solver agent (address_inuse agent) (bw_in agent) new_bw false.

(** [5 * min_bw] is a product of [uint32_t], the sum an [unsigned long long]. *)
Definition envi_action_bw_inc (solver : GAS_RIL_Handle) (agent : RIL_Peer_Agent)
    (direction_in : bool) : option (GAS_RIL_Handle * RIL_Peer_Agent) :=
  if direction_in
  then envi_set_active_suggestion solver agent (address_inuse agent)
         (wrap64 (bw_in agent + wrap32 (5 * min_bw))) (bw_out agent) false
  else envi_set_active_suggestion solver agent (address_inuse agent)
         (bw_in agent) (wrap64 (bw_out agent + wrap32 (5 * min_bw))) false.

Definition envi_action_bw_dec (solver : GAS_RIL_Handle) (agent : RIL_Peer_Agent)
    (direction_in : bool) : option (GAS_RIL_Handle * RIL_Peer_Agent) :=
  if direction_in
  then
    let new_bw := wrap64 (bw_in agent - wrap32 (5 * min_bw)) in
    let new_bw := if new_bw <? min_bw then min_bw else new_bw in
    envi_set_active_suggestion solver agent (address_inuse agent) new_bw (bw_out agent) false
  else
    let new_bw := wrap64 (bw_out agent - wrap32 (5 * min_bw)) in
    let new_bw := if new_bw <? min_bw then min_bw else new_bw in
    envi_set_active_suggestion solver agent (address_inuse agent) (bw_in agent) new_bw false.

Definition envi_action_address_switch (solver : GAS_RIL_Handle) (agent : RIL_Peer_Agent)
    (address_index : nat) : option (GAS_RIL_Handle * RIL_Peer_Agent) :=
  match addresses agent !! address_index with
  | Some cur =>
      envi_set_active_suggestion solver agent (Some cur) (bw_in agent) (bw_out agent) false
  | None => None
  end.

(** [agent_address_get_index]: the index of the first wrapper of
    [address], the last index when there is none. *)
Fixpoint agent_address_get_index_from (i : Z) (cur : list ptr) (address : ptr) : Z :=
  match cur with
  | [] => i
  | c :: next =>
      let i := i + 1 in
      if Nat.eqb c address then i else agent_address_get_index_from i next address
  end.

Definition agent_address_get_index (agent : RIL_Peer_Agent) (address : ptr) : Z :=
  agent_address_get_index_from (-1) (addresses agent) address.

(** [agent_address_get]: the wrapper of [address], by its position in
    the list; [None] for [NULL]. *)
Fixpoint agent_address_get_in (cur : list ptr) (address : ptr) : option nat :=
  match cur with
  | [] => None
  | c :: next =>
      if Nat.eqb c address then Some 0%nat
      else match agent_address_get_in next address with
           | Some k => Some (S k)
           | None => None
           end
  end.

Definition agent_address_get (agent : RIL_Peer_Agent) (address : ptr) : option nat :=
  agent_address_get_in (addresses agent) address.

Definition envi_do_action (solver : GAS_RIL_Handle) (agent : RIL_Peer_Agent)
    (action : Z) : option (GAS_RIL_Handle * RIL_Peer_Agent) :=
  match action with
  | 0 => Some (solver, agent)
  | 1 => envi_action_bw_double solver agent true
  | 2 => envi_action_bw_halven solver agent true
  | 3 => envi_action_bw_inc solver agent true
  | 4 => envi_action_bw_dec solver agent true
  | 5 => envi_action_bw_double solver agent false
  | 6 => envi_action_bw_halven solver agent false
  | 7 => envi_action_bw_inc solver agent false
  | 8 => envi_action_bw_dec solver agent false
  | _ =>
      if (RIL_ACTION_TYPE_NUM <=? action) && (action <? Z.of_nat (n agent))
      then
        let address_index := action - RIL_ACTION_TYPE_NUM in
        let? tail := last (addresses agent) in
        if negb (0 <=? address_index) then None
        else if negb (address_index <=? agent_address_get_index agent tail) then None
        else envi_action_address_switch solver agent (Z.to_nat address_index)
      else None
  end.

(** *** One step *)

(** What a step takes from outside: the reward [envi_get_reward]
    computes from the preferences of the peer, and the two random draws,
    i.e. whether [agent_decide_exploration] says yes and the action
    [agent_get_action_explore] picks. *)
Record Step_Input := mkInput {
  reward : float;
  explore : bool;
  random_action : Z }.

Definition agent_step (solver : GAS_RIL_Handle) (agent : RIL_Peer_Agent)
    (input : Step_Input) : option (GAS_RIL_Handle * RIL_Peer_Agent) :=
  let? s_next := envi_get_state solver agent in
  let reward := reward input in
  let? (agent, a_next) :=
    match algorithm (parameters solver) with
    | RIL_ALGO_SARSA =>
        let? agent := agent_modify_eligibility solver agent RIL_E_SET in
        let? a_next :=
          if explore input then Some (random_action input)
          else agent_get_action_best agent s_next in
        let? agent :=
          if negb (RIL_ACTION_INVALID =? a_old agent)
          then agent_update_weights solver agent reward s_next a_next
          else Some agent in
        Some (agent, a_next)
    | RIL_ALGO_Q =>
        let? a_next := agent_get_action_best agent s_next in
        let? agent :=
          if negb (RIL_ACTION_INVALID =? a_old agent)
          then agent_update_weights solver agent reward s_next a_next
          else Some agent in
        if explore input
        then
          let a_next := random_action input in
          let? agent := agent_modify_eligibility solver agent RIL_E_ZERO in
          Some (agent, a_next)
        else
          let? a_next := agent_get_action_best agent s_next in
          let? agent := agent_modify_eligibility solver agent RIL_E_SET in
          Some (agent, a_next)
    end in
  if RIL_ACTION_INVALID =? a_next then None
  else
    let? agent := agent_modify_eligibility solver agent RIL_E_ACCUMULATE in
    let? (solver, agent) := envi_do_action solver agent a_next in
    Some (solver,
          mkAgent (peer agent) (active agent) (wrap64 (step_count agent + 1)) (W agent)
            (m agent) (n agent) s_next a_next (e agent) (address_inuse agent)
            (addresses agent) (bw_in agent) (bw_out agent)).

(** [ril_periodic_step]: only an active agent that has an address in
    use takes a step; [inputs] yields what the step of the agent at
    position [i] takes from outside.  After the agents the step is
    counted, and the next one is scheduled [step_time] later: [task] is
    the identifier that [GNUNET_SCHEDULER_add_delayed] returns for it. *)
Definition ril_periodic_step (inputs : nat -> Step_Input) (task : Z)
    (solver : GAS_RIL_Handle) : option GAS_RIL_Handle :=
  let? solver :=
    for_loop (fun i solver =>
                let? cur := agents solver !! i in
                if active cur && bool_decide (address_inuse cur <> None)
                then
                  let? (solver, cur) := agent_step solver cur (inputs i) in
                  Some (set_agents (<[i := cur]> (agents solver)) solver)
                else Some solver)
      (seq 0 (length (agents solver))) solver in
  Some (mkHandle (wrap64 (solver_step_count solver + 1)) (step_time solver) task
          (parameters solver) (network_entries solver) (agents solver) (memory solver)
          (bandwidth_changed_cb solver)
          (add_delayed solver ++ [(step_time solver, task)])).

(** *** Agents and networks *)

(** [agent_init]: the new agent, which the caller appends to the list. *)
Definition agent_init (solver : GAS_RIL_Handle) (peer : GNUNET_PeerIdentity)
    : option RIL_Peer_Agent :=
  let n := Z.to_nat RIL_ACTION_TYPE_NUM in
  let m := (networks_count solver * RIL_FEATURES_NETWORK_COUNT)%nat in
  let agent := mkAgent peer false 0 (replicate n (replicate m 0%float)) m n []
                 RIL_ACTION_INVALID (replicate m 0%float) None [] 0 0 in
  let? s_old := envi_get_state solver agent in
  let agent := mkAgent peer false 0 (W agent) m n s_old RIL_ACTION_INVALID (e agent)
                 None [] 0 0 in
  agent_modify_eligibility solver agent RIL_E_ZERO.

Fixpoint ril_get_agent_from (i : nat) (cur : list RIL_Peer_Agent)
    (peer0 : GNUNET_PeerIdentity) : option nat :=
  match cur with
  | [] => None
  | c :: next =>
      if N.eqb peer0 (peer c) then Some i else ril_get_agent_from (S i) next peer0
  end.

(** [ril_get_agent]: the agent by its position in the list; the inner
    [None] is [NULL], the outer one a crash inside [agent_init]. *)
Definition ril_get_agent (solver : GAS_RIL_Handle) (peer : GNUNET_PeerIdentity)
    (create : bool) : option (GAS_RIL_Handle * option nat) :=
  match ril_get_agent_from 0 (agents solver) peer with
  | Some i => Some (solver, Some i)
  | None =>
      if create
      then
        let? agent := agent_init solver peer in
        Some (set_agents (agents solver ++ [agent]) solver, Some (length (agents solver)))
      else Some (solver, None)
  end.

Fixpoint ril_get_network_from (i : nat) (entries : list RIL_Network) (type0 : Z)
    : option nat :=
  match entries with
  | [] => None
  | c :: next =>
      if type c =? type0 then Some i else ril_get_network_from (S i) next type0
  end.

Definition ril_get_network (s : GAS_RIL_Handle) (type : Z) : option nat :=
  ril_get_network_from 0 (network_entries s) type.

Definition ril_network_is_active (solver : GAS_RIL_Handle) (network : Z) : option bool :=
  let? k := ril_get_network solver network in
  let? net := network_entries solver !! k in
  if bw_out_available net <? min_bw then Some false else Some true.

(** [net->bw_in_assigned] and [net->bw_out_assigned] for the network
    behind the pointer [net], changed by [d_in] and [d_out]. *)
Definition assign (net : option nat) (d_in d_out : Z) (s : GAS_RIL_Handle)
    : option GAS_RIL_Handle :=
  let? k := net in
  let? entries :=
    update_at (fun c => Some (mkNet (type c) (bw_in_available c)
                                (wrap64 (bw_in_assigned c + d_in))
                                (bw_out_available c)
                                (wrap64 (bw_out_assigned c + d_out))))
      k (network_entries s) in
  Some (set_network_entries entries s).

(** *** Adding and deleting an address *)

Definition GAS_ril_address_add (s : GAS_RIL_Handle) (address : ptr) (network : Z)
    : option GAS_RIL_Handle :=
  let net := ril_get_network s network in
  let? s := write address (fun aa => Addr.mkAddress (Addr.peer aa) (Addr.active aa)
                                       (Addr.assigned_bw_in aa) (Addr.assigned_bw_out aa)
                                       net) s in
  let? is_active := ril_network_is_active s network in
  if negb is_active then Some s
  else
    let? aa := memory s !! address in
    let? (s, found) := ril_get_agent s (Addr.peer aa) true in
    let? pos := found in
    let? agent := agents s !! pos in
    (* add address *)
    let addresses := addresses agent ++ [address] in
    (* increase size of W *)
    let m_new := (m agent + RIL_FEATURES_ADDRESS_COUNT)%nat in
    let m_old := m agent in
    let n_new := (n agent + 1)%nat in
    let n_old := n agent in
    let W := GNUNET_array_grow [] (W agent) (n agent) n_new in
    let? W :=
      for_loop (fun i W =>
                  if (i <? n_old)%nat
                  then update_at (fun row => Some (GNUNET_array_grow 0%float row m_old m_new)) i W
                  else update_at (fun row => Some (GNUNET_array_grow 0%float row 0 m_new)) i W)
        (seq 0 n_new) W in
    (* increase size of old state vector *)
    let s_old := GNUNET_array_grow 0%float (s_old agent) m_old m_new in
    let e := GNUNET_array_grow 0%float (e agent) m_old m_new in
    let agent := mkAgent (peer agent) (active agent) (step_count agent) W m_new n_new
                   s_old (a_old agent) e (address_inuse agent) addresses
                   (bw_in agent) (bw_out agent) in
    let? (s, agent) :=
      match address_inuse agent with
      | None =>
          let? s := assign net min_bw min_bw s in
          envi_set_active_suggestion s agent (Some address) min_bw min_bw false
      | Some _ => Some (s, agent)
      end in
    Some (set_agents (<[pos := agent]> (agents s)) s).

(** The two early exits of [GAS_ril_address_delete]: the network of the
    address must not be active. *)
Definition address_in_inactive_network (s : GAS_RIL_Handle) (aa : Addr.ATS_Address)
    : option GAS_RIL_Handle :=
  let? k := Addr.solver_information aa in
  let? net := network_entries s !! k in
  let? is_active := ril_network_is_active s (type net) in
  if is_active then None else Some s.

Definition GAS_ril_address_delete (s : GAS_RIL_Handle) (address : ptr)
    (session_only : bool) : option GAS_RIL_Handle :=
  let? aa := memory s !! address in
  let address_was_used := Addr.active aa in
  let? (s, found) := ril_get_agent s (Addr.peer aa) false in
  match found with
  | None => address_in_inactive_network s aa
  | Some pos =>
      let? agent := agents s !! pos in
      let address_index := agent_address_get_index agent address in
      match agent_address_get agent address with
      | None => address_in_inactive_network s aa
      | Some address_wrapped =>
          let addresses := delete address_wrapped (addresses agent) in
          (* decrease W *)
          let m_new := (m agent - RIL_FEATURES_ADDRESS_COUNT)%nat in
          let n_new := (n agent - 1)%nat in
          let hole_start :=
            (networks_count s * RIL_FEATURES_NETWORK_COUNT
             + Z.to_nat address_index * RIL_FEATURES_ADDRESS_COUNT)%nat in
          let? W :=
            for_loop (fun i W =>
                        update_at (fun row => ril_cut_from_vector row hole_start
                                                RIL_FEATURES_ADDRESS_COUNT (m agent)) i W)
              (seq 0 (n agent)) (W agent) in
          let? W := ril_cut_from_vector W (Z.to_nat (RIL_ACTION_TYPE_NUM + address_index))
                      1 (n agent) in
          (* correct last action *)
          let a_old :=
            if RIL_ACTION_TYPE_NUM + address_index <? a_old agent then a_old agent - 1
            else if a_old agent =? RIL_ACTION_TYPE_NUM + address_index
                 then RIL_ACTION_INVALID
                 else a_old agent in
          (* decrease old state vector and eligibility vector *)
          let? s_old := ril_cut_from_vector (s_old agent) hole_start
                          RIL_FEATURES_ADDRESS_COUNT (m agent) in
          let? e := ril_cut_from_vector (e agent) hole_start
                      RIL_FEATURES_ADDRESS_COUNT (m agent) in
          let agent := mkAgent (peer agent) (active agent) (step_count agent) W m_new n_new
                         s_old a_old e (address_inuse agent) addresses
                         (bw_in agent) (bw_out agent) in
          let? (s, agent) :=
            if address_was_used
            then
              let? s := assign (Addr.solver_information aa)
                          (- bw_in agent) (- bw_out agent) s in
              match head addresses with
              | Some first =>
                  let? (s, agent) :=
                    envi_set_active_suggestion s agent (Some first) min_bw min_bw false in
                  let? aa_first := memory s !! first in
                  let? s := assign (Addr.solver_information aa_first)
                              (- min_bw) (- min_bw) s in
                  Some (s, agent)
              | None => envi_set_active_suggestion s agent None 0 0 false
              end
            else Some (s, agent) in
          Some (set_agents (<[pos := agent]> (agents s)) s)
      end
  end.

(** *** Asking for the preferred address *)

Definition GAS_ril_get_preferred_address (s : GAS_RIL_Handle)
    (peer : GNUNET_PeerIdentity) : option (GAS_RIL_Handle * option ptr) :=
  let? (s, found) := ril_get_agent s peer true in
  let? pos := found in
  let? agent := agents s !! pos in
  let agent := set_active true agent in
  let? s :=
    match address_inuse agent with
    | Some inuse =>
        let? aa := memory s !! inuse in
        assign (Addr.solver_information aa) (bw_in agent) (bw_out agent) s
    | None => Some s
    end in
  let? (s, agent) :=
    envi_set_active_suggestion s agent (address_inuse agent) (bw_in agent) (bw_out agent)
      true in
  Some (set_agents (<[pos := agent]> (agents s)) s, address_inuse agent).

(** *** Withdrawing the request *)

(** [GAS_ril_stop_get_preferred_address]; the two early returns after
    [GNUNET_break] leave the solver as it is.  The closing log message
    reads [agent->address_inuse->plugin]: the model takes an agent
    without an address in use as a crash there. *)
Definition GAS_ril_stop_get_preferred_address (s : GAS_RIL_Handle)
    (peer : GNUNET_PeerIdentity) : option GAS_RIL_Handle :=
  let? (s, found) := ril_get_agent s peer false in
  match found with
  | None => Some s
  | Some pos =>
      let? agent := agents s !! pos in
      if negb (active agent) then Some s
      else
        let agent := set_active false agent in
        let? s :=
          match address_inuse agent with
          | Some inuse =>
              let? aa := memory s !! inuse in
              assign (Addr.solver_information aa) (- bw_in agent) (- bw_out agent) s
          | None => Some s
          end in
        let? (s, agent) :=
          envi_set_active_suggestion s agent (address_inuse agent) (bw_in agent)
            (bw_out agent) true in
        let? _ := address_inuse agent in
        Some (set_agents (<[pos := agent]> (agents s)) s)
  end.

(** *** Moving an address to another network *)

(** [GAS_ril_address_change_network]; [ril_network_is_active] is only
    asked about the new network when the address is active. *)
Definition GAS_ril_address_change_network (s : GAS_RIL_Handle) (address : ptr)
    (current_network new_network : Z) : option GAS_RIL_Handle :=
  let? aa := memory s !! address in
  let? gone :=
    if Addr.active aa
    then
      let? is_active := ril_network_is_active s new_network in
      Some (negb is_active)
    else Some false in
  if gone then GAS_ril_address_delete s address false
  else
    let? (s, found) := ril_get_agent s (Addr.peer aa) false in
    match found with
    | None =>
        (* no agent there yet, so add as if the address is new *)
        let? is_active := ril_network_is_active s current_network in
        if is_active then None
        else GAS_ril_address_add s address new_network
    | Some pos =>
        let? agent := agents s !! pos in
        let? s := assign (ril_get_network s current_network)
                    (- bw_in agent) (- bw_out agent) s in
        let net := ril_get_network s new_network in
        let? s := assign net (- min_bw) (- min_bw) s in
        write address (fun aa => Addr.mkAddress (Addr.peer aa) (Addr.active aa)
                                   (Addr.assigned_bw_in aa) (Addr.assigned_bw_out aa)
                                   net) s
    end.

End Solver.

End Ril.

(** * Notions used in the statements *)

(** ** Notions of the network classifier *)

Module ClassifierNotions.

Import Addresses.

(** The test of the spec for an IPv4 address and an entry of the
    interface table: the address under the netmask is the network. *)
Definition spec_ipv4_match (s_addr : Z) (c : ATS_Network) : bool :=
  match network c, netmask c with
  | sockaddr_in net4, sockaddr_in mask4 => Z.land s_addr mask4 =? net4
  | _, _ => false
  end.

(** The test the loop of [GAS_addresses_type] applies to such an entry. *)
Definition code_ipv4_match (s_addr addrlen : Z) (c : ATS_Network) : bool :=
  (addrlen =? net_length c)
  && match network c, netmask c with
     | sockaddr_in net4, sockaddr_in mask4 =>
         Z.land (Z.land s_addr mask4) net4 =? net4
     | _, _ => false
     end.

Definition is_loopback_v4 (s_addr : Z) : bool :=
  Z.land (first_octet s_addr) 127 =? 127.

(** The test the loop of [GAS_addresses_type] applies to an IPv6 address
    and an entry of the interface table. *)
Definition code_ipv6_match (a0 a1 a2 a3 addrlen : Z) (c : ATS_Network) : bool :=
  (addrlen =? net_length c)
  && match network c, netmask c with
     | sockaddr_in6 n0 n1 n2 n3, sockaddr_in6 m0 m1 m2 m3 =>
         (Z.lor (Z.land a0 m0) n0 =? n0) && (Z.lor (Z.land a1 m1) n1 =? n1)
         && (Z.lor (Z.land a2 m2) n2 =? n2) && (Z.lor (Z.land a3 m3) n3 =? n3)
     | _, _ => false
     end.

(** The two loopback tests of [GAS_addresses_type]. *)
Definition is_loopback (a : sockaddr) : bool :=
  match a with
  | sockaddr_in s_addr => is_loopback_v4 s_addr
  | sockaddr_in6 w0 w1 w2 w3 => IN6_IS_ADDR_LOOPBACK w0 w1 w2 w3
  | sockaddr_other => false
  end.

(** [a] and [x] are of the same family as [mask] and agree under it. *)
Definition same_network (a x mask : sockaddr) : bool :=
  match a, x, mask with
  | sockaddr_in a4, sockaddr_in x4, sockaddr_in m4 => Z.land a4 m4 =? Z.land x4 m4
  | sockaddr_in6 a0 a1 a2 a3, sockaddr_in6 x0 x1 x2 x3, sockaddr_in6 m0 m1 m2 m3 =>
      (Z.land a0 m0 =? Z.land x0 m0) && (Z.land a1 m1 =? Z.land x1 m1)
      && (Z.land a2 m2 =? Z.land x2 m2) && (Z.land a3 m3 =? Z.land x3 m3)
  | _, _, _ => false
  end.

End ClassifierNotions.

(** ** Notions of the address registry *)

Module RegistryNotions.

Import Addresses.

Definition alice : GNUNET_PeerIdentity := 1%N.
Definition tcp : string := "tcp".
Definition addr_a : list Byte.byte := [Byte.x0a; Byte.x00; Byte.x00; Byte.x01].
Definition addr_b : list Byte.byte := [Byte.x0a; Byte.x00; Byte.x00; Byte.x02].

(** A report of the distance [d] (in network byte order). *)
Definition distance (d : Z) : list GNUNET_ATS_Information :=
  [mkInfo GNUNET_ATS_QUALITY_NET_DISTANCE (htonl d)].

(** The last address suggestion sent to the scheduling collaborator for
    the peer [p]. *)
Definition is_suggestion_for (p : GNUNET_PeerIdentity) (c : Downstream) : bool :=
  match c with
  | GAS_scheduling_transmit_address_suggestion q _ _ _ _ _ _ => N.eqb p q
  | _ => false
  end.

Definition last_suggestion (p : GNUNET_PeerIdentity) (cs : list Downstream)
    : option Downstream :=
  find (is_suggestion_for p) (rev cs).

Definition keys (m : list (ptr * ATS_Address)) : list ptr := map fst m.

(** The share [update_bw_it] writes into an active entry. *)
Definition share (q_in q_out c : Z) (e : ptr * ATS_Address) : ptr * ATS_Address :=
  if active (snd e)
  then (fst e, set_assigned_bw (htonl (q_in / c)) (htonl (q_out / c)) (snd e))
  else e.

Definition share_of (st : State) := share (wan_quota_in st) (wan_quota_out st) (active_addr_count st).

(** The invariant of the registry: every entry has a pointer of its
    own, handed out earlier, and [active_addr_count] is the number of
    active entries, without wrap-around. *)
Definition Inv (st : State) : Prop :=
  List.NoDup (keys (addresses st))
  /\ (forall p, In p (keys (addresses st)) -> (p < next_ptr st)%nat)
  /\ active_addr_count st = number_active (addresses st)
  /\ active_addr_count st < 2 ^ 32.

(** The first test of [destroy_by_session_id]: the query has no session
    and names the stored address exactly. *)
Definition exact_match (info aa : ATS_Address) : bool :=
  (session_id info =? 0) && String.eqb (plugin info) (plugin aa)
  && (addr_len aa =? addr_len info)
  && memcmp0 (addr info) (addr aa) (addr_len aa).

(** The invariant together with the configured quotas. *)
Definition Inv_with (q_in q_out : Z) (st : State) : Prop :=
  Inv st /\ wan_quota_in st = q_in /\ wan_quota_out st = q_out.

(** The loop over the reported properties. *)
Definition update_atsps (atsi : list GNUNET_ATS_Information) (o : ATS_Address) : ATS_Address :=
  fold_left (fun o i => update_atsp i o) atsi o.

(** What an update does to the record it found. *)
Definition merge (session : Z) (atsi : list GNUNET_ATS_Information) (o : ATS_Address)
    : ATS_Address :=
  update_atsps atsi (set_ats atsi (set_session_id session o)).

(** [find_address] on the list of entries. *)
Definition first_match (key : N) (search : ATS_Address) (m : list (nat * ATS_Address))
    : option nat :=
  match find (fun e => negb (compare_address_it search (snd e)))
             (multihashmap_get_multiple key m) with
  | Some e => Some (fst e)
  | None => None
  end.

Definition bob : N := 2%N.
Definition carol : N := 3%N.
Definition dave : N := 4%N.

(** Four peers, each with one address, each asking for an address. *)
Definition four_peers : list Request :=
  [update alice tcp addr_a 0 []; request_address alice;
   update bob tcp addr_a 0 []; request_address bob;
   update carol tcp addr_a 0 []; request_address carol;
   update dave tcp addr_a 0 []; request_address dave].

Definition four_active : State :=
  Eval vm_compute in
    match run true four_peers (GAS_addresses_init 1000 1000) with
    | Some st => st
    | None => GAS_addresses_init 1000 1000
    end.

Definition four_recalculated : State :=
  Eval vm_compute in
    match recalculate_assigned_bw four_active with
    | Some st => st
    | None => four_active
    end.

Definition address_of_alice : ATS_Address :=
  Eval vm_compute in
    match deref 0%nat (addresses four_recalculated) with
    | Some aa => aa
    | None => new_address alice tcp addr_a 0 []
    end.

(** An active address with session 7 and four raw bytes. *)
Definition session_seven : State :=
  Eval vm_compute in
    match run true [update alice tcp addr_a 7 []; request_address alice]
            (GAS_addresses_init 1000 1000) with
    | Some st => st
    | None => GAS_addresses_init 1000 1000
    end.

Definition address_seven : ATS_Address :=
  Eval vm_compute in
    match deref 0%nat (addresses session_seven) with
    | Some aa => aa
    | None => new_address alice tcp addr_a 7 []
    end.

(** The three calls [update_bw_it] makes for an active address when the
    quotas are [q_in] and [q_out] and [c] addresses are active. *)
Definition announcement (q_in q_out c : Z) (aa : ATS_Address) : list Downstream :=
  [ GAS_scheduling_transmit_address_suggestion (peer aa) (plugin aa) (addr aa)
      (session_id aa) (ats aa) (htonl (q_out / c)) (htonl (q_in / c));
    GAS_reservations_set_bandwidth (peer aa) (htonl (q_in / c));
    GAS_performance_notify_clients (peer aa) (plugin aa) (addr aa) (ats aa)
      (htonl (q_out / c)) (htonl (q_in / c)) ].

(** The calls of one recalculation in the state [st]. *)
Definition announcements (st : State) : list Downstream :=
  flat_map (fun e => if active (snd e)
                     then announcement (wan_quota_in st) (wan_quota_out st)
                            (active_addr_count st) (snd e)
                     else [])
    (addresses st).

(** The calls [update_bw_it] makes for the address behind [p]. *)
Definition calls_at (q_in q_out c : Z) (m : list (ptr * ATS_Address)) (p : ptr)
    : list Downstream :=
  match deref p m with
  | Some aa => if active aa then announcement q_in q_out c aa else []
  | None => []
  end.

(** An entry of the map without its assigned bandwidth. *)
Definition erase_bw (e : ptr * ATS_Address) : ptr * ATS_Address :=
  (fst e, set_assigned_bw 0 0 (snd e)).

(** What [GAS_addresses_destroy] with the query [info] makes of an entry:
    it stays, it goes, or it stays without session and inactive. *)
Definition outcome (info : ATS_Address) (e : ptr * ATS_Address)
    : list (ptr * ATS_Address) :=
  if negb (N.eqb (peer (snd e)) (peer info)) then [e]
  else if exact_match info (snd e) then []
  else if negb (session_id (snd e) =? session_id info) then [e]
  else if addr_len (snd e) =? 0 then []
  else [(fst e, set_active false (set_session_id 0 (snd e)))].

(** [outcome] for the entries behind the pointers [ps] only. *)
Definition outcome_at (info : ATS_Address) (ps : list ptr) (e : ptr * ATS_Address)
    : list (ptr * ATS_Address) :=
  if existsb (Nat.eqb (fst e)) ps then outcome info e else [e].

(** Alice with two addresses, the second one active. *)
Definition two_addresses : State :=
  Eval vm_compute in
    match run true [update alice tcp addr_a 0 []; update alice tcp addr_b 0 [];
                    request_address alice] (GAS_addresses_init 1000 1000) with
    | Some st => st
    | None => GAS_addresses_init 1000 1000
    end.

(** The address holds the share [update_bw_it] would assign in [st]. *)
Definition holds_share (st : State) (aa : ATS_Address) : Prop :=
  assigned_bw_in aa = htonl (wan_quota_in st / active_addr_count st)
  /\ assigned_bw_out aa = htonl (wan_quota_out st / active_addr_count st).

(** Every active address holds that share. *)
Definition equal_shares (st : State) : Prop :=
  forall p aa, In (p, aa) (addresses st) -> active aa = true -> holds_share st aa.

(** Three peers with an active address each, and the address of a
    fourth, reported but not asked for. *)
Definition fourth_reported : State :=
  Eval vm_compute in
    match run true [update alice tcp addr_a 0 []; request_address alice;
                    update bob tcp addr_a 0 []; request_address bob;
                    update carol tcp addr_a 0 []; request_address carol;
                    update dave tcp addr_a 0 []] (GAS_addresses_init 1000 1000) with
    | Some st => st
    | None => GAS_addresses_init 1000 1000
    end.

(** The state in which the request of the fourth peer calls
    [recalculate_assigned_bw]: its address has just been marked active
    and counted, the three others still hold a third of the quota. *)
Definition fourth_activated : State :=
  Eval vm_compute in
    match find_best dave fourth_reported with
    | Some (p, _) =>
        set_active_addr_count (wrap32 (active_addr_count fourth_reported + 1))
          (set_addresses (modify p (set_active true) (addresses fourth_reported))
             fourth_reported)
    | None => fourth_reported
    end.

Definition address_of_dave : ATS_Address :=
  Eval vm_compute in
    match find_best dave fourth_reported with
    | Some (_, aa) => aa
    | None => new_address dave tcp addr_a 0 []
    end.

(** The address of the fourth peer when all four are active. *)
Definition dave_of_four : ATS_Address :=
  Eval vm_compute in
    match deref 3%nat (addresses four_active) with
    | Some aa => aa
    | None => new_address dave tcp addr_a 0 []
    end.

(** The four peers after the address of the fourth was deactivated (a
    destroy that names another address of the peer ends the session of
    this one; the address stays in the registry). *)
Definition one_deactivated : State :=
  Eval vm_compute in
    match run true (four_peers ++ [destroy dave tcp addr_b 0])
            (GAS_addresses_init 1000 1000) with
    | Some st => st
    | None => GAS_addresses_init 1000 1000
    end.

(** The address of the first peer in that state. *)
Definition alice_of_three : ATS_Address :=
  Eval vm_compute in
    match deref 0%nat (addresses one_deactivated) with
    | Some aa => aa
    | None => new_address alice tcp addr_a 0 []
    end.

(** The active addresses of the peer that carry the session. *)
Definition active_in_session (peer0 : GNUNET_PeerIdentity) (session : Z)
    (m : list (ptr * ATS_Address)) : list (ptr * ATS_Address) :=
  List.filter (fun e => N.eqb (peer (snd e)) peer0
                        && (session_id (snd e) =? session) && active (snd e)) m.

(** An active address with session 7 and no raw bytes. *)
Definition placeholder_seven : State :=
  Eval vm_compute in
    match run true [update alice tcp [] 7 []; request_address alice]
            (GAS_addresses_init 1000 1000) with
    | Some st => st
    | None => GAS_addresses_init 1000 1000
    end.

Definition address_placeholder : ATS_Address :=
  Eval vm_compute in
    match deref 0%nat (addresses placeholder_seven) with
    | Some aa => aa
    | None => new_address alice tcp [] 7 []
    end.

(** Alice with an active address in the session 7, and bob with an
    active address without session. *)
Definition seven_and_bob : State :=
  Eval vm_compute in
    match run true [update alice tcp addr_a 7 []; request_address alice;
                    update bob tcp addr_a 0 []; request_address bob]
            (GAS_addresses_init 1000 1000) with
    | Some st => st
    | None => GAS_addresses_init 1000 1000
    end.

Definition alice_of_two : ATS_Address :=
  Eval vm_compute in
    match deref 0%nat (addresses seven_and_bob) with
    | Some aa => aa
    | None => new_address alice tcp addr_a 7 []
    end.

Definition bob_of_two : ATS_Address :=
  Eval vm_compute in
    match deref 1%nat (addresses seven_and_bob) with
    | Some aa => aa
    | None => new_address bob tcp addr_a 0 []
    end.

(** The matching rule in the words of the spec: an address matches the
    arguments of an update by plugin and equal raw bytes, or by a session
    id that is not zero. *)
Definition spec_match (plugin_name : string) (plugin_addr : list Byte.byte)
    (session : Z) (aa : ATS_Address) : bool :=
  (String.eqb (plugin aa) plugin_name
   && if List.list_eq_dec Byte.byte_eq_dec (addr aa) plugin_addr then true else false)
  || (negb (session =? 0) && (session_id aa =? session)).

(** The registry after one address of alice was reported, with the
    session 7. *)
Definition alice_in_session : State :=
  Eval vm_compute in GAS_addresses_update true alice tcp addr_b 7 []
                       (GAS_addresses_init 1000 1000).

End RegistryNotions.

(** ** Notions of the reinforcement-learning solver *)

Module RilNotions.

Import Ril.

(** The three stages of [envi_set_active_suggestion]. *)
Definition address_change (solver : GAS_RIL_Handle) (agent : RIL_Peer_Agent)
    (new_address : option nat) : option (GAS_RIL_Handle * bool) :=
  if bool_decide (address_inuse agent <> new_address)
  then
    let? solver :=
      match address_inuse agent with
      | Some inuse =>
          write inuse (fun aa => Addr.mkAddress (Addr.peer aa) false (htonl 0) (htonl 0)
                                   (Addr.solver_information aa)) solver
      | None => Some solver
      end in
    let? solver :=
      match new_address with
      | Some new =>
          write new (fun aa => Addr.mkAddress (Addr.peer aa) (active agent)
                                 (htonl (bw_in agent)) (htonl (bw_out agent))
                                 (Addr.solver_information aa)) solver
      | None => Some solver
      end in
    Some (solver, true)
  else Some (solver, false).

Definition activity_and_bw_change (solver : GAS_RIL_Handle) (agent : RIL_Peer_Agent)
    (new_address : option nat) (new_bw_in new_bw_out : Z) (notify : bool)
    : option (GAS_RIL_Handle * RIL_Peer_Agent * bool) :=
  match new_address with
  | Some new =>
      let? aa := memory solver !! new in
      let? solver :=
        if negb (Bool.eqb (Addr.active aa) (active agent))
        then write new (fun aa => Addr.mkAddress (Addr.peer aa) (active agent)
                                    (Addr.assigned_bw_in aa) (Addr.assigned_bw_out aa)
                                    (Addr.solver_information aa)) solver
        else Some solver in
      let? (solver, agent, notify) :=
        if negb (bw_in agent =? new_bw_in)
        then
          let? solver :=
            write new (fun aa => Addr.mkAddress (Addr.peer aa) (Addr.active aa)
                                   (htonl new_bw_out) (Addr.assigned_bw_out aa)
                                   (Addr.solver_information aa)) solver in
          Some (solver, set_bw_in new_bw_in agent, true)
        else Some (solver, agent, notify) in
      if negb (bw_out agent =? new_bw_out)
      then
        let? solver :=
          write new (fun aa => Addr.mkAddress (Addr.peer aa) (Addr.active aa)
                                 (Addr.assigned_bw_in aa) (htonl new_bw_out)
                                 (Addr.solver_information aa)) solver in
        Some (solver, set_bw_out new_bw_out agent, true)
      else Some (solver, agent, notify)
  | None => Some (solver, agent, notify)
  end.

Definition notification (solver : GAS_RIL_Handle) (agent : RIL_Peer_Agent)
    (new_address : option nat) (silent notify : bool)
    : option (GAS_RIL_Handle * RIL_Peer_Agent) :=
  if notify && active agent && negb silent
  then
    match new_address with
    | Some new =>
        let? solver := call_bandwidth_changed_cb new solver in
        Some (solver, agent)
    | None =>
        match address_inuse agent with
        | Some inuse =>
            let? aa := memory solver !! inuse in
            if negb (0 =? ntohl (Addr.assigned_bw_in aa)) then None
            else if negb (0 =? ntohl (Addr.assigned_bw_out aa)) then None
            else
              let agent := set_bw_out 0 (set_bw_in 0 agent) in
              let? solver := call_bandwidth_changed_cb inuse solver in
              Some (solver, agent)
        | None => Some (solver, agent)
        end
    end
  else Some (solver, agent).

(** What no write of the solver changes in an address record. *)
Definition shape (aa : Addr.ATS_Address) : N * option nat :=
  (Addr.peer aa, Addr.solver_information aa).

Definition same_shape (m0 m1 : gmap nat Addr.ATS_Address) : Prop :=
  forall q, shape <$> (m1 !! q) = shape <$> (m0 !! q).

(** The solver up to the contents of the address records and the calls. *)
Definition frame (s s1 : GAS_RIL_Handle) : Prop :=
  parameters s1 = parameters s /\ network_entries s1 = network_entries s
  /\ agents s1 = agents s /\ same_shape (memory s) (memory s1).

(** The agent up to its bandwidths and its address in use. *)
Definition frame_agent (a a1 : RIL_Peer_Agent) : Prop :=
  peer a1 = peer a /\ active a1 = active a /\ step_count a1 = step_count a
  /\ W a1 = W a /\ m a1 = m a /\ n a1 = n a /\ s_old a1 = s_old a
  /\ a_old a1 = a_old a /\ e a1 = e a /\ addresses a1 = addresses a.

(** Whether the third stage calls [bandwidth_changed_cb]. *)
Definition notifies (agent : RIL_Peer_Agent) (new_address : option nat)
    (silent notify : bool) : bool :=
  notify && active agent && negb silent
  && (bool_decide (new_address <> None) || bool_decide (address_inuse agent <> None)).

(** Whether a suggestion differs from the current one of the agent. *)
Definition changed (agent : RIL_Peer_Agent) (new_address : option nat)
    (new_bw_in new_bw_out : Z) : bool :=
  bool_decide (address_inuse agent <> new_address)
  || match new_address with
     | Some _ => negb (bw_in agent =? new_bw_in) || negb (bw_out agent =? new_bw_out)
     | None => false
     end.

(** Whether [envi_set_active_suggestion] calls [bandwidth_changed_cb]. *)
Definition calls (agent : RIL_Peer_Agent) (new_address : option nat)
    (new_bw_in new_bw_out : Z) (silent : bool) : bool :=
  changed agent new_address new_bw_in new_bw_out && active agent && negb silent
  && (bool_decide (new_address <> None) || bool_decide (address_inuse agent <> None)).

(** The eligibility trace after a SARSA step as the spec words it: every
    component decays by [gamma * lambda] and is then incremented by 1. *)
Definition spec_sarsa_trace (gamma lambda : float) (e : list float) : list float :=
  map (fun x => x * (gamma * lambda) + 1)%float e.

(** Two quality properties, the same for every address. *)
Definition two_properties (p : nat) : list float := [0.5; 1]%float.

(** A solver with one WAN network and the SARSA algorithm with
    [gamma = alpha = lambda = 0.5]; two address records of the peer 7.
    No step was made yet; the first one was scheduled, as the task 1, a
    second after the start, and the steps are 3 seconds apart. *)
Definition empty_solver : GAS_RIL_Handle :=
  mkHandle 0 3000 1 (mkParameters RIL_ALGO_SARSA 0.5 0.5 0.5)
    [mkNet 3 100000 0 100000 0] []
    (<[1%nat := Addr.mkAddress 7%N false 0 0 None]>
       (<[2%nat := Addr.mkAddress 7%N false 0 0 None]> ∅)) [] [(1000, 1)].

(** The solver after the first address was added and the peer asked for
    an address: the agent is active and uses the address. *)
Definition one_address : GAS_RIL_Handle :=
  Eval vm_compute in
    match GAS_ril_address_add 2 1024 two_properties empty_solver 1%nat 3 with
    | Some s =>
        match GAS_ril_get_preferred_address 2 two_properties s 7%N with
        | Some (s, _) => s
        | None => empty_solver
        end
    | None => empty_solver
    end.

(** The first agent of the list. *)
Definition the_agent (s : GAS_RIL_Handle) : RIL_Peer_Agent :=
  match agents s with
  | a :: _ => a
  | [] => mkAgent 0%N false 0 [] 0 0 [] 0 [] None [] 0 0
  end.

(** The address in use of the agent of [one_address]. *)
Definition address_one : Addr.ATS_Address :=
  Eval vm_compute in
    match memory one_address !! 1%nat with
    | Some aa => aa
    | None => Addr.mkAddress 0%N false 0 0 None
    end.

(** [one_address] and its agent after the inbound bandwidth was set
    to 2048. *)
Definition doubled : GAS_RIL_Handle * RIL_Peer_Agent :=
  Eval vm_compute in
    match envi_set_active_suggestion one_address (the_agent one_address)
            (Some 1%nat) 2048 1024 false with
    | Some r => r
    | None => (one_address, the_agent one_address)
    end.

(** The address records of [s1] are those of [s], except that the
    record behind [address] now points to the network [k]. *)
Definition memory_after_add (address k : nat) (s s1 : GAS_RIL_Handle) : Prop :=
  forall q,
    Addr.peer <$> (memory s1 !! q) = Addr.peer <$> (memory s !! q)
    /\ Addr.solver_information <$> (memory s1 !! q)
       = if decide (q = address) then (fun _ => Some k) <$> (memory s !! q)
         else Addr.solver_information <$> (memory s !! q).

(** An agent whose matrix and vectors have the sizes it records. *)
Definition sized (agent : RIL_Peer_Agent) : Prop :=
  length (W agent) = n agent
  /\ Forall (fun row => length row = m agent) (W agent)
  /\ length (s_old agent) = m agent
  /\ length (e agent) = m agent.

(** A row without the [3 + Q] columns from [hole_start] on. *)
Definition without_columns (Q hole_start : nat) (row : list float) : list float :=
  firstn hole_start row ++ skipn (hole_start + RIL_FEATURES_ADDRESS_COUNT Q) row.

(** The last action after the address with index [idx] is gone. *)
Definition corrected_last_action (idx : nat) (a_old : Z) : Z :=
  if RIL_ACTION_TYPE_NUM + Z.of_nat idx <? a_old then a_old - 1
  else if a_old =? RIL_ACTION_TYPE_NUM + Z.of_nat idx then RIL_ACTION_INVALID
       else a_old.

(** [one_address] after two steps of its agent with reward 1; the second
    step explores and switches to the address with index 0. *)
Definition learned : GAS_RIL_Handle :=
  Eval vm_compute in
    match agent_step 2 1024 two_properties one_address (the_agent one_address)
            (mkInput 1 false RIL_ACTION_NOTHING) with
    | Some (s1, a1) =>
        match agent_step 2 1024 two_properties s1 a1
                (mkInput 1 true RIL_ACTION_TYPE_NUM) with
        | Some (s2, a2) => set_agents [a2] s2
        | None => one_address
        end
    | None => one_address
    end.

(** The four features of a network in the state vector. *)
Definition network_features (net : RIL_Network) : list float :=
  [ double_of_u64 (bw_in_assigned net); double_of_u64 (bw_in_available net);
    double_of_u64 (bw_out_assigned net); double_of_u64 (bw_out_available net) ].

(** The [3 + Q] features of an address of the agent in the state vector. *)
Definition address_features (Q : nat) (get_property : nat -> list float)
    (s : GAS_RIL_Handle) (agent : RIL_Peer_Agent) (p : nat) : list float :=
  match memory s !! p with
  | Some aa =>
      [ (if Addr.active aa then 1 else 0)%float;
        double_of_u64 (if Addr.active aa then bw_in agent else 0);
        double_of_u64 (if Addr.active aa then bw_out agent else 0) ]
      ++ firstn Q (get_property p)
  | None => []
  end.

(** The matrix, the vectors and the counters of an agent fit its list
    of addresses and the networks of the solver. *)
Definition well_formed (Q : nat) (s : GAS_RIL_Handle) (agent : RIL_Peer_Agent) : Prop :=
  sized agent
  /\ n agent = (Z.to_nat RIL_ACTION_TYPE_NUM + length (addresses agent))%nat
  /\ m agent = (networks_count s * RIL_FEATURES_NETWORK_COUNT
                + length (addresses agent) * RIL_FEATURES_ADDRESS_COUNT Q)%nat.

(** The agent with room for one more address at the end of its list. *)
Definition grown (Q : nat) (address : nat) (agent : RIL_Peer_Agent) : RIL_Peer_Agent :=
  mkAgent (peer agent) (active agent) (step_count agent)
    (map (fun row => row ++ replicate (RIL_FEATURES_ADDRESS_COUNT Q) 0%float) (W agent)
     ++ [replicate (m agent + RIL_FEATURES_ADDRESS_COUNT Q) 0%float])
    (m agent + RIL_FEATURES_ADDRESS_COUNT Q) (n agent + 1)
    (s_old agent ++ replicate (RIL_FEATURES_ADDRESS_COUNT Q) 0%float) (a_old agent)
    (e agent ++ replicate (RIL_FEATURES_ADDRESS_COUNT Q) 0%float)
    (address_inuse agent) (addresses agent ++ [address]) (bw_in agent) (bw_out agent).

(** The agent without its address of index [idx]; [hole_start] is the
    first of the columns of that address. *)
Definition shrunk (Q hole_start idx : nat) (agent : RIL_Peer_Agent) : RIL_Peer_Agent :=
  mkAgent (peer agent) (active agent) (step_count agent)
    (firstn (Z.to_nat RIL_ACTION_TYPE_NUM + idx)
       (map (without_columns Q hole_start) (W agent))
     ++ skipn (Z.to_nat RIL_ACTION_TYPE_NUM + idx + 1)
          (map (without_columns Q hole_start) (W agent)))
    (m agent - RIL_FEATURES_ADDRESS_COUNT Q) (n agent - 1)
    (without_columns Q hole_start (s_old agent))
    (corrected_last_action idx (a_old agent))
    (without_columns Q hole_start (e agent))
    (address_inuse agent) (delete idx (addresses agent)) (bw_in agent) (bw_out agent).

(** The address record with the network [net] as solver information. *)
Definition in_network (net : option nat) (aa : Addr.ATS_Address) : Addr.ATS_Address :=
  Addr.mkAddress (Addr.peer aa) (Addr.active aa) (Addr.assigned_bw_in aa)
    (Addr.assigned_bw_out aa) net.

(** The record of the address exists and points to a network of the
    solver, as it does once [GAS_ril_address_add] has seen it. *)
Definition known (s : GAS_RIL_Handle) (p : nat) : bool :=
  match memory s !! p with
  | Some aa =>
      match Addr.solver_information aa with
      | Some k => (k <? networks_count s)%nat
      | None => false
      end
  | None => false
  end.

(** [learned] with the second address of the peer added. *)
Definition learned_two : GAS_RIL_Handle :=
  Eval vm_compute in
    match GAS_ril_address_add 2 1024 two_properties learned 2%nat 3 with
    | Some s => s
    | None => learned
    end.

(** A network whose assigned bandwidths were changed by [d_in] and
    [d_out]. *)
Definition charged (d_in d_out : Z) (net : RIL_Network) : RIL_Network :=
  mkNet (type net) (bw_in_available net) (wrap64 (bw_in_assigned net + d_in))
    (bw_out_available net) (wrap64 (bw_out_assigned net + d_out)).

(** An address record with the activity [b]. *)
Definition with_activity (b : bool) (aa : Addr.ATS_Address) : Addr.ATS_Address :=
  Addr.mkAddress (Addr.peer aa) b (Addr.assigned_bw_in aa) (Addr.assigned_bw_out aa)
    (Addr.solver_information aa).

(** An agent that takes no step: it is not active or has no address in
    use. *)
Definition idle (agent : RIL_Peer_Agent) : bool :=
  negb (active agent && bool_decide (address_inuse agent <> None)).

(** What a step leaves of an agent: who it is for, whether it is active,
    its addresses and the sizes of its matrix. *)
Definition same_agent (a a1 : RIL_Peer_Agent) : Prop :=
  peer a1 = peer a /\ active a1 = active a /\ addresses a1 = addresses a
  /\ n a1 = n a /\ m a1 = m a.

(** The agent [agent_init] makes for a peer: not active, without
    addresses, all weights zero, no last action, and the features of the
    networks as its last state. *)
Definition fresh_agent (s : GAS_RIL_Handle) (peer0 : GNUNET_PeerIdentity)
    : RIL_Peer_Agent :=
  let m0 := (networks_count s * RIL_FEATURES_NETWORK_COUNT)%nat in
  mkAgent peer0 false 0
    (replicate (Z.to_nat RIL_ACTION_TYPE_NUM) (replicate m0 0%float)) m0
    (Z.to_nat RIL_ACTION_TYPE_NUM) (flat_map network_features (network_entries s))
    RIL_ACTION_INVALID (replicate m0 0%float) None [] 0 0.

(** The agent using the address [p] with the bandwidth [bw] in both
    directions. *)
Definition with_suggestion (p : nat) (bw : Z) (agent : RIL_Peer_Agent) : RIL_Peer_Agent :=
  set_address_inuse (Some p) (set_bw_out bw (set_bw_in bw agent)).

(** The record of an address of the network [k] that is suggested with
    the bandwidth [bw]. *)
Definition suggested (b : bool) (bw : Z) (k : option nat) (aa : Addr.ATS_Address)
    : Addr.ATS_Address :=
  Addr.mkAddress (Addr.peer aa) b (htonl bw) (htonl bw) k.

(** No agent of the solver holds the address [p]. *)
Definition unheld (s : GAS_RIL_Handle) (p : nat) : bool :=
  forallb (fun agent => negb (existsb (Nat.eqb p) (addresses agent))) (agents s).

(** [empty_solver] after the first address of the peer was added: its
    agent uses the address and is not active. *)
Definition idle_address : GAS_RIL_Handle :=
  Eval vm_compute in
    match GAS_ril_address_add 2 1024 two_properties empty_solver 1%nat 3 with
    | Some s => s
    | None => empty_solver
    end.

(** [one_address] after a periodic step in which the agent does not
    explore; the next step is the task 2. *)
Definition stepped : GAS_RIL_Handle :=
  Eval vm_compute in
    match ril_periodic_step 2 1024 two_properties
            (fun _ => mkInput 1 false RIL_ACTION_NOTHING) 2 one_address with
    | Some s => s
    | None => one_address
    end.

(** A solver whose only network has less than 1024 available. *)
Definition starved_solver : GAS_RIL_Handle :=
  mkHandle 0 3000 1 (mkParameters RIL_ALGO_SARSA 0.5 0.5 0.5)
    [mkNet 3 100000 0 500 0] []
    (<[1%nat := Addr.mkAddress 7%N false 0 0 None]> ∅) [] [(1000, 1)].

(** [learned] after the second address of the peer was added and
    deleted again. *)
Definition forgotten : GAS_RIL_Handle :=
  Eval vm_compute in
    match GAS_ril_address_add 2 1024 two_properties learned 2%nat 3 with
    | Some s1 =>
        match GAS_ril_address_delete 2 1024 two_properties s1 2%nat false with
        | Some s2 => s2
        | None => learned
        end
    | None => learned
    end.

(** A solver with a WAN and a LAN network after the first address of the
    peer 7 was added in the WAN and the peer asked for an address. *)
Definition two_networks : GAS_RIL_Handle :=
  Eval vm_compute in
    match GAS_ril_address_add 2 1024 two_properties
            (mkHandle 0 3000 1 (mkParameters RIL_ALGO_SARSA 0.5 0.5 0.5)
               [mkNet 3 100000 0 100000 0; mkNet 2 100000 0 100000 0] []
               (<[1%nat := Addr.mkAddress 7%N false 0 0 None]> ∅) [] [(1000, 1)])
            1%nat 3 with
    | Some s =>
        match GAS_ril_get_preferred_address 2 two_properties s 7%N with
        | Some (s, _) => s
        | None => empty_solver
        end
    | None => empty_solver
    end.

End RilNotions.

(** * Properties *)

(** ** Byte order *)

Module ByteOrderFacts.

Ltac unfold_bytes :=
  unfold byte_of; simpl Z.mul; change (2 ^ 0) with 1; rewrite ?Z.div_1_r;
  change (2 ^ 8) with 256; change (2 ^ 16) with 65536;
  change (2 ^ 24) with 16777216; change (2 ^ 32) with 4294967296.

Lemma htonl_range (x : Z) : 0 <= htonl x < 2 ^ 32.
Proof. unfold htonl. unfold_bytes. Z.div_mod_to_equations. lia. Qed.

Lemma ntohl_htonl (x : Z) : ntohl (htonl x) = wrap32 x.
Proof.
  unfold ntohl, htonl, wrap32. unfold_bytes. Z.div_mod_to_equations. lia.
Qed.

Lemma wrap32_small (x : Z) : 0 <= x < 2 ^ 32 -> wrap32 x = x.
Proof. intros H. unfold wrap32. now apply Z.mod_small. Qed.

Lemma first_octet_inet_addr (a b c d : Z) :
  0 <= a < 256 -> 0 <= b < 256 -> 0 <= c < 256 -> 0 <= d < 256 ->
  first_octet (inet_addr a b c d) = a.
Proof.
  intros Ha Hb Hc Hd.
  unfold first_octet, inet_addr, htonl, ipv4. unfold_bytes.
  Z.div_mod_to_equations. lia.
Qed.

Lemma land_255_first_octet (s : Z) : Z.land s 255 = first_octet s.
Proof.
  unfold first_octet, byte_of. change 255 with (Z.ones 8).
  rewrite Z.land_ones by lia. simpl Z.mul. change (2 ^ 0) with 1.
  now rewrite Z.div_1_r.
Qed.

Lemma land_127 (a : Z) : 0 <= a < 256 -> (Z.land a 127 = 127 <-> a = 127 \/ a = 255).
Proof.
  intros Ha. change 127 with (Z.ones 7) at 1. rewrite Z.land_ones by lia.
  change (2 ^ 7) with 128. split.
  - intros H. Z.div_mod_to_equations. lia.
  - intros [-> | ->]; reflexivity.
Qed.

End ByteOrderFacts.

(** ** The network classifier *)

Module ClassifierFacts.

Import Addresses ByteOrderFacts ClassifierNotions.

Lemma check_local_networks_decided cur addr addrlen type :
  type <> GNUNET_ATS_NET_UNSPECIFIED ->
  check_local_networks cur addr addrlen type = type.
Proof. destruct cur, type; simpl; congruence. Qed.

Lemma check_local_networks_ipv4 cur s_addr addrlen :
  check_local_networks cur (sockaddr_in s_addr) addrlen GNUNET_ATS_NET_UNSPECIFIED
  = if existsb (code_ipv4_match s_addr addrlen) cur
    then GNUNET_ATS_NET_LAN else GNUNET_ATS_NET_UNSPECIFIED.
Proof.
  induction cur as [|c cur IH]; simpl; [reflexivity|].
  unfold code_ipv4_match at 1.
  destruct (addrlen =? net_length c); simpl; [|exact IH].
  destruct (network c) as [net4| |]; simpl; try exact IH.
  destruct (netmask c) as [mask4| |]; simpl; try exact IH.
  destruct (Z.land (Z.land s_addr mask4) net4 =? net4); simpl; [|exact IH].
  now apply check_local_networks_decided.
Qed.

Lemma GAS_addresses_type_ipv4 net_head s_addr addrlen :
  GAS_addresses_type net_head (sockaddr_in s_addr) addrlen
  = if is_loopback_v4 s_addr then GNUNET_ATS_NET_LOOPBACK
    else if existsb (code_ipv4_match s_addr addrlen) net_head
         then GNUNET_ATS_NET_LAN else GNUNET_ATS_NET_WAN.
Proof.
  unfold GAS_addresses_type, is_loopback_v4.
  change (htonl 4278190080) with 255. change (htonl 2130706432) with 127.
  rewrite land_255_first_octet.
  destruct (Z.land (first_octet s_addr) 127 =? 127).
  - now rewrite check_local_networks_decided.
  - rewrite check_local_networks_ipv4.
    now destruct (existsb _ _).
Qed.

(** C10.  The IPv4 loopback test looks at the seven low bits of the first
    octet only: for every interface table and address length, the address
    [a.b.c.d] is classified LOOPBACK exactly when [a & 0x7f = 0x7f], that
    is when [a] is 127 or 255; so 255.0.0.1 is LOOPBACK and 126.0.0.1
    never is. *)
Theorem ipv4_loopback_tests_seven_low_bits :
  forall net_head addrlen a b c d,
    0 <= a < 256 -> 0 <= b < 256 -> 0 <= c < 256 -> 0 <= d < 256 ->
    (GAS_addresses_type net_head (sockaddr_in (inet_addr a b c d)) addrlen
       = GNUNET_ATS_NET_LOOPBACK <-> Z.land a 0x7f = 0x7f)
    /\ (Z.land a 0x7f = 0x7f <-> a = 127 \/ a = 255)
    /\ classify net_head 255 0 0 1 = GNUNET_ATS_NET_LOOPBACK
    /\ classify net_head 126 0 0 1 <> GNUNET_ATS_NET_LOOPBACK.
Proof.
  intros net_head addrlen a b c d Ha Hb Hc Hd.
  assert (Hgen : forall tbl len x y z w,
             0 <= x < 256 -> 0 <= y < 256 -> 0 <= z < 256 -> 0 <= w < 256 ->
             GAS_addresses_type tbl (sockaddr_in (inet_addr x y z w)) len
               = GNUNET_ATS_NET_LOOPBACK <-> Z.land x 127 = 127).
  { intros tbl len x y z w Hx Hy Hz Hw.
    rewrite GAS_addresses_type_ipv4. unfold is_loopback_v4.
    rewrite first_octet_inet_addr by assumption.
    destruct (Z.eqb_spec (Z.land x 127) 127) as [E|E].
    - tauto.
    - split; [|tauto]. destruct (existsb _ _); discriminate. }
  split; [now apply Hgen|].
  split; [now apply land_127|].
  split.
  - unfold classify. apply Hgen; lia || reflexivity.
  - unfold classify. rewrite Hgen by lia. discriminate.
Qed.

Lemma ipv4_loopback_example :
  (GAS_addresses_type [] (sockaddr_in (inet_addr 255 0 0 1)) 16
     = GNUNET_ATS_NET_LOOPBACK <-> Z.land 255 0x7f = 0x7f)
  /\ (Z.land 255 0x7f = 0x7f <-> 255 = 127 \/ 255 = 255)
  /\ classify [] 255 0 0 1 = GNUNET_ATS_NET_LOOPBACK
  /\ classify [] 126 0 0 1 <> GNUNET_ATS_NET_LOOPBACK.
Proof.
  apply (ipv4_loopback_tests_seven_low_bits [] 16 255 0 0 1); lia.
Defined.

(** A non-loopback IPv4 address is LAN exactly when some entry of the
    table has its length and passes the test of the code. *)
Lemma ipv4_lan_iff net_head s_addr addrlen :
  is_loopback_v4 s_addr = false ->
  (GAS_addresses_type net_head (sockaddr_in s_addr) addrlen = GNUNET_ATS_NET_LAN
   <-> exists c, In c net_head /\ code_ipv4_match s_addr addrlen c = true)
  /\ (GAS_addresses_type net_head (sockaddr_in s_addr) addrlen = GNUNET_ATS_NET_WAN
      <-> forall c, In c net_head -> code_ipv4_match s_addr addrlen c = false).
Proof.
  intros Hl. rewrite GAS_addresses_type_ipv4, Hl.
  destruct (existsb (code_ipv4_match s_addr addrlen) net_head) eqn:E.
  - apply existsb_exists in E. split; [tauto|].
    split; [discriminate|]. intros H. destruct E as (c & Hc & Hm).
    rewrite (H c Hc) in Hm. discriminate.
  - split.
    + split; [discriminate|]. intros (c & Hc & Hm).
      assert (existsb (code_ipv4_match s_addr addrlen) net_head = true)
        by (apply existsb_exists; eauto).
      congruence.
    + split; [|reflexivity]. intros _ c Hc.
      destruct (code_ipv4_match s_addr addrlen c) eqn:Hm; [|reflexivity].
      assert (existsb (code_ipv4_match s_addr addrlen) net_head = true)
        by (apply existsb_exists; eauto).
      congruence.
Qed.

(** C3.  With the interface table [192.168.0.0/24], 192.168.0.5 is LAN
    and 8.8.8.8 is WAN, as the claim says; but 192.169.0.5 is classified
    LAN as well, although it is not loopback and no entry [(network,
    netmask)] of the table satisfies [(addr & mask) == network]: the
    code tests [((addr & mask) & network) == network]. *)
Theorem ipv4_lan_test_admits_foreign_address :
  let table := [ipv4_network 192 168 0 0 24] in
  classify table 192 168 0 5 = GNUNET_ATS_NET_LAN
  /\ classify table 8 8 8 8 = GNUNET_ATS_NET_WAN
  /\ classify table 192 169 0 5 = GNUNET_ATS_NET_LAN
  /\ is_loopback_v4 (inet_addr 192 169 0 5) = false
  /\ existsb (spec_ipv4_match (inet_addr 192 169 0 5)) table = false.
Proof. vm_compute. repeat split. Qed.



End ClassifierFacts.

(** ** The address registry *)

Module RegistryFacts.

Import Addresses ByteOrderFacts RegistryNotions.

(** C1.  [GAS_addresses_request_address] marks a second address of a
    peer active while another one is active.  With the entries of a peer
    visited newest first: two addresses are reported at distances 20 and
    10, the request activates the nearer one, the other is reported again
    at distance 5, and the next request activates it as well.  With the
    entries visited oldest first: an address at distance 10 is activated,
    one at distance 5 is reported, and the next request activates it as
    well.  Either way the peer ends with two active addresses. *)
Theorem request_address_activates_a_second_address :
  (exists st,
      run true [update alice tcp addr_a 0 (distance 20);
                update alice tcp addr_b 0 (distance 10);
                request_address alice;
                update alice tcp addr_a 0 (distance 5);
                request_address alice] (GAS_addresses_init 1000 1000) = Some st
      /\ length (active_addresses alice st) = 2%nat
      /\ active_addr_count st = 2)
  /\ (exists st,
         run false [update alice tcp addr_a 0 (distance 10);
                    request_address alice;
                    update alice tcp addr_b 0 (distance 5);
                    request_address alice] (GAS_addresses_init 1000 1000) = Some st
         /\ length (active_addresses alice st) = 2%nat
         /\ active_addr_count st = 2).
Proof.
  split; eexists; (split; [vm_compute; reflexivity|]); split; reflexivity.
Qed.

(** C9, as stated, fails on the registry: after an address was suggested
    for a peer, a further [GAS_addresses_request_address] for that peer
    sends the very same suggestion (same address, same bandwidths) to the
    scheduling collaborator once more. *)
Lemma request_address_repeats_the_suggestion :
  exists st1 st2 c,
    run true [update alice tcp addr_a 0 []; request_address alice]
      (GAS_addresses_init 1000 1000) = Some st1
    /\ GAS_addresses_request_address alice st1 = Some st2
    /\ last_suggestion alice (downstream st1) = Some c
    /\ downstream st2 = downstream st1 ++ [c].
Proof.
  do 3 eexists. split; [vm_compute; reflexivity|].
  split; [vm_compute; reflexivity|].
  split; vm_compute; reflexivity.
Qed.

Lemma keys_modify p f m : keys (modify p f m) = keys m.
Proof.
  unfold keys, modify. rewrite map_map. apply map_ext.
  intros [q aa]; simpl. now destruct (Nat.eqb p q).
Qed.

Lemma deref_In p aa m : deref p m = Some aa -> In (p, aa) m.
Proof.
  induction m as [|[q bb] m IH]; simpl; [discriminate|].
  destruct (Nat.eqb_spec p q) as [->|Hne].
  - intros [= ->]. now left.
  - intros H. right. auto.
Qed.

Lemma In_deref p aa m : List.NoDup (keys m) -> In (p, aa) m -> deref p m = Some aa.
Proof.
  induction m as [|[q bb] m IH]; simpl; [tauto|].
  intros Hnd Hin. inversion Hnd as [|? ? Hq Hnd']; subst.
  destruct Hin as [[= -> ->]|Hin].
  - now rewrite Nat.eqb_refl.
  - destruct (Nat.eqb_spec p q) as [->|Hne]; [|auto].
    exfalso. apply Hq. change q with (fst (q, aa)). now apply in_map.
Qed.

Lemma deref_None p m : deref p m = None <-> ~ In p (keys m).
Proof.
  induction m as [|[q bb] m IH]; simpl; [tauto|].
  destruct (Nat.eqb_spec p q) as [->|Hne].
  - split; [discriminate|]. intros H. exfalso. apply H. now left.
  - rewrite IH. split; [intros H [E|E]; [congruence|tauto]|tauto].
Qed.

Lemma deref_modify p q f m :
  deref q (modify p f m) = if Nat.eqb p q then option_map f (deref q m) else deref q m.
Proof.
  induction m as [|[r bb] m IH]; simpl.
  - now destruct (Nat.eqb p q).
  - destruct (Nat.eqb_spec p r) as [->|Hpr]; simpl.
    + destruct (Nat.eqb_spec q r) as [->|Hqr].
      * now rewrite Nat.eqb_refl.
      * rewrite IH. destruct (Nat.eqb_spec r q); [congruence|reflexivity].
    + destruct (Nat.eqb_spec q r) as [->|Hqr].
      * destruct (Nat.eqb_spec p r); [congruence|reflexivity].
      * exact IH.
Qed.

Lemma keys_remove p m : keys (multihashmap_remove p m) = List.filter (fun q => negb (Nat.eqb p q)) (keys m).
Proof.
  unfold keys, multihashmap_remove.
  induction m as [|[q bb] m IH]; simpl; [reflexivity|].
  destruct (Nat.eqb p q); simpl; now rewrite IH.
Qed.

Lemma NoDup_filter {A} (f : A -> bool) l : List.NoDup l -> List.NoDup (List.filter f l).
Proof.
  induction 1 as [|x l Hx Hnd IH]; simpl; [constructor|].
  destruct (f x); [|exact IH].
  constructor; [|exact IH]. rewrite filter_In. tauto.
Qed.

Lemma number_active_modify_same p f m :
  (forall aa, active (f aa) = active aa) ->
  number_active (modify p f m) = number_active m.
Proof.
  intros Hf. unfold number_active, modify. f_equal.
  induction m as [|[q bb] m IH]; simpl; [reflexivity|].
  destruct (Nat.eqb p q); simpl; rewrite ?Hf; destruct (active bb); simpl; now rewrite IH.
Qed.

Lemma modify_absent p f m : ~ In p (keys m) -> modify p f m = m.
Proof.
  induction m as [|[q bb] m IH]; simpl; [reflexivity|].
  intros H. destruct (Nat.eqb_spec p q) as [->|Hne]; [tauto|].
  f_equal. apply IH. tauto.
Qed.

Lemma number_active_modify p f m aa :
  List.NoDup (keys m) -> deref p m = Some aa ->
  number_active (modify p f m)
  = number_active m - Z.b2z (active aa) + Z.b2z (active (f aa)).
Proof.
  unfold number_active.
  induction m as [|[q bb] m IH]; simpl; [discriminate|].
  intros Hnd Hd. inversion Hnd as [|? ? Hq Hnd']; subst.
  destruct (Nat.eqb_spec p q) as [->|Hne].
  - injection Hd as ->. fold (modify q f m). rewrite modify_absent by exact Hq.
    simpl. destruct (active aa), (active (f aa)); simpl length; simpl Z.b2z; lia.
  - simpl. specialize (IH Hnd' Hd). fold (modify p f m).
    destruct (active bb); simpl length; lia.
Qed.

Lemma remove_absent p m : ~ In p (keys m) -> multihashmap_remove p m = m.
Proof.
  induction m as [|[q bb] m IH]; simpl; [reflexivity|].
  intros H. destruct (Nat.eqb_spec p q) as [->|Hne]; [tauto|].
  simpl. f_equal. apply IH. tauto.
Qed.

Lemma number_active_remove p m aa :
  List.NoDup (keys m) -> deref p m = Some aa ->
  number_active (multihashmap_remove p m) = number_active m - Z.b2z (active aa).
Proof.
  unfold number_active.
  induction m as [|[q bb] m IH]; simpl; [discriminate|].
  intros Hnd Hd. inversion Hnd as [|? ? Hq Hnd']; subst.
  destruct (Nat.eqb_spec p q) as [->|Hne]; simpl.
  - injection Hd as ->. fold (multihashmap_remove q m).
    rewrite remove_absent by exact Hq.
    destruct (active aa); simpl length; simpl Z.b2z; lia.
  - specialize (IH Hnd' Hd). fold (multihashmap_remove p m).
    destruct (active bb); simpl length; lia.
Qed.

Lemma deref_remove p q m :
  deref q (multihashmap_remove p m) = if Nat.eqb p q then None else deref q m.
Proof.
  induction m as [|[r bb] m IH]; simpl.
  - now destruct (Nat.eqb p q).
  - destruct (Nat.eqb_spec p r) as [->|Hpr]; simpl.
    + rewrite IH. destruct (Nat.eqb_spec r q) as [->|Hrq].
      * reflexivity.
      * destruct (Nat.eqb_spec q r); [congruence|reflexivity].
    + destruct (Nat.eqb_spec q r) as [->|Hqr].
      * destruct (Nat.eqb_spec p r); [congruence|reflexivity].
      * exact IH.
Qed.

Lemma call_nil st : call [] st = st.
Proof. destruct st; unfold call; simpl. now rewrite app_nil_r. Qed.

Lemma call_call cs1 cs2 st : call cs2 (call cs1 st) = call (cs1 ++ cs2) st.
Proof. destruct st; unfold call; simpl. now rewrite app_assoc. Qed.

Lemma set_addresses_id st : set_addresses (addresses st) st = st.
Proof. now destruct st. Qed.

Lemma modify_as_map p f g m aa :
  List.NoDup (keys m) -> deref p m = Some aa -> g (p, aa) = (p, f aa) ->
  modify p f m = map (fun e => if Nat.eqb p (fst e) then g e else e) m.
Proof.
  intros Hnd Hd Hg. unfold modify. apply map_ext_in.
  intros [q bb] Hin; simpl. destruct (Nat.eqb_spec p q) as [->|]; [|reflexivity].
  assert (deref q m = Some bb) as E by now apply In_deref.
  assert (bb = aa) by congruence. subst bb. symmetry. exact Hg.
Qed.

Lemma map_absent p (g : ptr * ATS_Address -> ptr * ATS_Address) m :
  ~ In p (keys m) -> map (fun e => if Nat.eqb p (fst e) then g e else e) m = m.
Proof.
  intros H. rewrite <- (map_id m) at 2. apply map_ext_in.
  intros [q bb] Hin; simpl. destruct (Nat.eqb_spec p q) as [->|]; [|reflexivity].
  exfalso. apply H. change q with (fst (q, bb)). now apply in_map.
Qed.

Lemma number_active_pos p aa m :
  deref p m = Some aa -> active aa = true -> 0 < number_active m.
Proof.
  intros Hd Ha. apply deref_In in Hd. unfold number_active.
  assert (In (p, aa) (List.filter (fun e => active (snd e)) m)) as H
    by (apply filter_In; auto).
  destruct (List.filter _ m); [destruct H|simpl length; lia].
Qed.

Lemma update_bw_it_step p st :
  List.NoDup (keys (addresses st)) ->
  0 < active_addr_count st \/ number_active (addresses st) = 0 ->
  exists cs,
    update_bw_it p st
    = Some (call cs (set_addresses
                       (map (fun e => if Nat.eqb p (fst e) then share_of st e else e)
                          (addresses st)) st)).
Proof.
  intros Hnd Hc. unfold update_bw_it.
  destruct (deref p (addresses st)) as [aa|] eqn:Hd.
  - destruct (active aa) eqn:Ha; simpl.
    + assert (0 < active_addr_count st) as Hpos.
      { destruct Hc as [|Hc]; [assumption|].
        pose proof (number_active_pos _ _ _ Hd Ha). lia. }
      apply Z.ltb_lt in Hpos. rewrite Hpos. simpl.
      eexists. do 3 f_equal.
      apply (modify_as_map _ _ _ _ aa Hnd Hd).
      unfold share_of, share. simpl. now rewrite Ha.
    + exists []. rewrite call_nil. f_equal.
      rewrite <- (modify_as_map p (fun x => x) _ _ aa Hnd Hd).
      * unfold modify.
        replace (map _ (addresses st)) with (addresses st);
          [now rewrite set_addresses_id|].
        rewrite <- (map_id (addresses st)) at 1. apply map_ext.
        intros [q bb]; simpl. now destruct (Nat.eqb p q).
      * unfold share_of, share. simpl. now rewrite Ha.
  - exists []. rewrite call_nil. f_equal.
    rewrite map_absent; [now rewrite set_addresses_id|].
    now apply deref_None.
Qed.

Lemma share_idem q_in q_out c e : share q_in q_out c (share q_in q_out c e) = share q_in q_out c e.
Proof.
  unfold share. destruct (active (snd e)) eqn:Ha; simpl; rewrite Ha; reflexivity.
Qed.

Lemma fst_share q_in q_out c e : fst (share q_in q_out c e) = fst e.
Proof. unfold share. now destruct (active (snd e)). Qed.

Lemma active_share q_in q_out c e : active (snd (share q_in q_out c e)) = active (snd e).
Proof. unfold share. now destruct (active (snd e)) eqn:E. Qed.

Lemma keys_map_share (h : ptr * ATS_Address -> bool) q_in q_out c m :
  keys (map (fun e => if h e then share q_in q_out c e else e) m) = keys m.
Proof.
  unfold keys. rewrite map_map. apply map_ext. intros e.
  destruct (h e); [apply fst_share|reflexivity].
Qed.

Lemma number_active_map_share (h : ptr * ATS_Address -> bool) q_in q_out c m :
  number_active (map (fun e => if h e then share q_in q_out c e else e) m)
  = number_active m.
Proof.
  unfold number_active. f_equal.
  induction m as [|e m IH]; simpl; [reflexivity|].
  assert (active (snd (if h e then share q_in q_out c e else e)) = active (snd e)) as ->
    by (destruct (h e); [apply active_share|reflexivity]).
  destruct (active (snd e)); simpl; now rewrite IH.
Qed.

Lemma iterate_update_bw_it ps : forall st,
  List.NoDup (keys (addresses st)) ->
  0 < active_addr_count st \/ number_active (addresses st) = 0 ->
  exists cs,
    iterate update_bw_it ps st
    = Some (call cs (set_addresses
                       (map (fun e => if existsb (Nat.eqb (fst e)) ps
                                      then share_of st e else e)
                          (addresses st)) st)).
Proof.
  induction ps as [|p ps IH]; intros st Hnd Hc; simpl.
  - exists []. rewrite call_nil. f_equal.
    rewrite map_id. now rewrite set_addresses_id.
  - destruct (update_bw_it_step p st Hnd Hc) as [cs1 ->].
    set (st1 := call cs1 _).
    destruct (IH st1) as [cs2 ->].
    + subst st1. destruct st; simpl in *. unfold share_of. simpl.
      now rewrite keys_map_share.
    + subst st1. destruct st; simpl in *. unfold share_of. simpl.
      now rewrite number_active_map_share.
    + exists (cs1 ++ cs2). subst st1. destruct st; unfold call, set_addresses, share_of; simpl.
      do 2 f_equal; [|now rewrite app_assoc].
      rewrite map_map. apply map_ext. intros e.
      destruct (Nat.eqb_spec p (fst e)) as [E|E].
      * subst p. rewrite fst_share, Nat.eqb_refl. simpl.
        match goal with |- context [existsb ?h ps] => destruct (existsb h ps) end;
          [apply share_idem|reflexivity].
      * destruct (Nat.eqb_spec (fst e) p); [congruence|]. reflexivity.
Qed.

Lemma existsb_keys (e : ptr * ATS_Address) m :
  In e m -> existsb (Nat.eqb (fst e)) (keys m) = true.
Proof.
  intros H. apply existsb_exists. exists (fst e). split.
  - unfold keys. now apply in_map.
  - apply Nat.eqb_refl.
Qed.

Lemma recalculate_total st :
  List.NoDup (keys (addresses st)) ->
  0 < active_addr_count st \/ number_active (addresses st) = 0 ->
  exists cs,
    recalculate_assigned_bw st
    = Some (call cs (set_addresses (map (share_of st) (addresses st))
                       (count_recalculation st))).
Proof.
  intros Hnd Hc. unfold recalculate_assigned_bw.
  destruct (iterate_update_bw_it (map fst (addresses st)) (count_recalculation st))
    as [cs ->].
  - now destruct st.
  - now destruct st.
  - exists cs. do 3 f_equal. destruct st; unfold share_of; simpl.
    apply map_ext_in. intros e He.
    pose proof (existsb_keys e _ He) as K. unfold keys in K. now rewrite K.
Qed.

(** With a counter of zero the iteration stops at the first active entry. *)
Lemma iterate_update_bw_it_zero ps st p aa :
  active_addr_count st <= 0 ->
  In p ps -> deref p (addresses st) = Some aa -> active aa = true ->
  iterate update_bw_it ps st = None.
Proof.
  intros Hc. induction ps as [|q ps IH]; simpl; [tauto|].
  intros Hin Hd Ha.
  unfold update_bw_it at 1.
  destruct (deref q (addresses st)) as [bb|] eqn:Hq.
  - destruct (active bb) eqn:Hb; simpl.
    + assert ((0 <? active_addr_count st) = false) as -> by (apply Z.ltb_ge; lia).
      reflexivity.
    + destruct Hin as [->|Hin]; [congruence|]. auto.
  - destruct Hin as [->|Hin]; [congruence|]. auto.
Qed.

Lemma recalculate_some st st' :
  List.NoDup (keys (addresses st)) ->
  recalculate_assigned_bw st = Some st' ->
  0 < active_addr_count st \/ number_active (addresses st) = 0.
Proof.
  intros Hnd H.
  destruct (Z.ltb_spec 0 (active_addr_count st)) as [|Hc]; [left; assumption|right].
  unfold number_active.
  destruct (List.filter (fun e => active (snd e)) (addresses st)) as [|[p aa] l] eqn:E;
    [reflexivity|exfalso].
  assert (In (p, aa) (List.filter (fun e => active (snd e)) (addresses st))) as Hin
    by (rewrite E; now left).
  apply filter_In in Hin. destruct Hin as [Hin Ha]. simpl in Ha.
  unfold recalculate_assigned_bw in H.
  rewrite (iterate_update_bw_it_zero _ _ p aa) in H; try discriminate.
  - now destruct st.
  - change p with (fst (p, aa)). now apply in_map.
  - destruct st; simpl in *. now apply In_deref.
  - exact Ha.
Qed.

Lemma number_active_nonneg m : 0 <= number_active m.
Proof. unfold number_active. lia. Qed.

Lemma Inv_init q_in q_out : Inv (GAS_addresses_init q_in q_out).
Proof.
  unfold Inv, GAS_addresses_init; simpl. repeat split.
  - constructor.
  - intros p [].
Qed.

Lemma recalculate_spec st st' :
  List.NoDup (keys (addresses st)) ->
  recalculate_assigned_bw st = Some st' ->
  exists cs,
    st' = call cs (set_addresses (map (share_of st) (addresses st))
                     (count_recalculation st)).
Proof.
  intros Hnd H. pose proof (recalculate_some _ _ Hnd H) as Hc.
  destruct (recalculate_total st Hnd Hc) as [cs E].
  exists cs. congruence.
Qed.

Lemma keys_map_share_of st m : keys (map (share_of st) m) = keys m.
Proof.
  unfold keys. rewrite map_map. apply map_ext. intros e. apply fst_share.
Qed.

Lemma number_active_map_share_of st m :
  number_active (map (share_of st) m) = number_active m.
Proof.
  exact (number_active_map_share (fun _ => true) (wan_quota_in st)
           (wan_quota_out st) (active_addr_count st) m).
Qed.

Lemma recalculate_Inv st st' :
  Inv st -> recalculate_assigned_bw st = Some st' -> Inv st'.
Proof.
  intros (Hnd & Hb & Hc & Hr) H.
  destruct (recalculate_spec _ _ Hnd H) as [cs ->].
  unfold Inv. destruct st; simpl in *.
  rewrite keys_map_share_of, number_active_map_share_of. auto.
Qed.

Lemma deref_map_share_of st p m :
  deref p (map (share_of st) m)
  = option_map (fun aa => snd (share_of st (p, aa))) (deref p m).
Proof.
  induction m as [|[q bb] m IH]; simpl; [reflexivity|].
  unfold share_of at 1, share at 1. simpl.
  destruct (active bb) eqn:Hb; simpl.
  - destruct (Nat.eqb_spec p q) as [->|]; [|exact IH].
    simpl. unfold share_of, share. simpl. now rewrite Hb.
  - destruct (Nat.eqb_spec p q) as [->|]; [|exact IH].
    simpl. unfold share_of, share. simpl. now rewrite Hb.
Qed.

(** *** [destroy_address] *)

Lemma destroy_address_spec p st aa :
  Inv st -> deref p (addresses st) = Some aa ->
  destroy_address p st
  = Some (active aa,
          set_active_addr_count (active_addr_count st - Z.b2z (active aa))
            (set_addresses (multihashmap_remove p (addresses st)) st)).
Proof.
  intros (Hnd & Hb & Hc & Hr) Hd. unfold destroy_address. rewrite Hd.
  destruct (active aa) eqn:Ha; simpl.
  - pose proof (number_active_pos _ _ _ Hd Ha).
    unfold wrap32. rewrite Z.mod_small by lia. reflexivity.
  - rewrite Z.sub_0_r. now destruct st.
Qed.

Lemma Inv_remove p st aa :
  Inv st -> deref p (addresses st) = Some aa ->
  Inv (set_active_addr_count (active_addr_count st - Z.b2z (active aa))
         (set_addresses (multihashmap_remove p (addresses st)) st)).
Proof.
  intros (Hnd & Hb & Hc & Hr) Hd. unfold Inv. destruct st; simpl in *.
  rewrite keys_remove. repeat split.
  - now apply NoDup_filter.
  - intros q Hq. apply filter_In in Hq. apply Hb. tauto.
  - rewrite (number_active_remove _ _ aa) by assumption. lia.
  - destruct (active aa); simpl; lia.
Qed.

(** *** [GAS_addresses_request_address] *)

Lemma fold_find_address_it_In l : forall ap e,
  fold_left find_address_it l ap = Some e ->
  ap = Some e \/ In e l.
Proof.
  induction l as [|x l IH]; simpl; intros ap e H; [now left|].
  apply IH in H. destruct H as [H|H]; [|tauto].
  unfold find_address_it in H. destruct ap as [ab|].
  - repeat match type of H with
           | (if ?b then _ else _) = _ => destruct b
           end; injection H as <-; tauto.
  - injection H as <-. tauto.
Qed.

Lemma find_best_In peer st e :
  find_best peer st = Some e -> In e (addresses st) /\ Addresses.peer (snd e) = peer.
Proof.
  unfold find_best. intros H. apply fold_find_address_it_In in H.
  destruct H as [H|H]; [discriminate|].
  unfold multihashmap_get_multiple in H. apply filter_In in H.
  destruct H as [H1 H2]. split; [assumption|]. now apply N.eqb_eq.
Qed.

Lemma Inv_call cs st : Inv st -> Inv (call cs st).
Proof. now destruct st. Qed.

Lemma request_address_Inv peer st st' :
  Inv st -> GAS_addresses_request_address peer st = Some st' -> Inv st'.
Proof.
  intros HI H. unfold GAS_addresses_request_address in H.
  destruct (find_best peer st) as [[p aa]|] eqn:Hf; [|now injection H as <-].
  apply find_best_In in Hf. destruct Hf as [Hin _].
  destruct HI as (Hnd & Hb & Hc & Hr).
  assert (deref p (addresses st) = Some aa) as Hd by now apply In_deref.
  destruct (active aa) eqn:Ha; simpl in H.
  - injection H as <-. apply Inv_call. unfold Inv; auto.
  - set (st1 := set_active_addr_count _ _) in H.
    assert (List.NoDup (keys (addresses st1))) as Hnd1
      by (subst st1; simpl; now rewrite keys_modify).
    assert (number_active (addresses st1) = number_active (addresses st) + 1) as Hn1.
    { subst st1. simpl.
      rewrite (number_active_modify _ _ _ aa) by assumption.
      rewrite Ha. simpl. lia. }
    pose proof (recalculate_some _ _ Hnd1 H) as Hpos.
    pose proof (number_active_nonneg (addresses st)) as Hnn.
    assert (active_addr_count st + 1 < 2 ^ 32) as Hlt.
    { destruct Hpos as [Hpos|Hpos]; [|lia].
      subst st1. simpl in Hpos. unfold wrap32 in Hpos.
      destruct (Z.eq_dec (active_addr_count st + 1) (2 ^ 32)) as [E|E]; [|lia].
      rewrite E in Hpos. rewrite Z.mod_same in Hpos by lia. lia. }
    apply (recalculate_Inv st1); [|assumption].
    unfold Inv. split; [assumption|].
    rewrite Hn1. subst st1. simpl. rewrite keys_modify.
    split; [assumption|].
    unfold wrap32. rewrite Z.mod_small by lia. lia.
Qed.

Lemma set_active_same aa : active aa = false -> set_active false aa = aa.
Proof. destruct aa; simpl. now intros ->. Qed.

Lemma Inv_modify p f st :
  (forall aa, active (f aa) = active aa) ->
  Inv st -> Inv (set_addresses (modify p f (addresses st)) st).
Proof.
  intros Hf (Hnd & Hb & Hc & Hr). unfold Inv. simpl.
  rewrite keys_modify, number_active_modify_same by assumption. auto.
Qed.

Lemma modify_modify p f g m : modify p f (modify p g m) = modify p (fun a => f (g a)) m.
Proof.
  unfold modify. rewrite map_map. apply map_ext. intros [q aa]; simpl.
  destruct (Nat.eqb_spec p q) as [->|E]; simpl.
  - now rewrite Nat.eqb_refl.
  - destruct (Nat.eqb_spec p q); [congruence|reflexivity].
Qed.

(** What the session branch of [destroy_by_session_id] does to a state
    that satisfies the invariant. *)
Lemma destroy_by_session_id_downgrade info p st aa :
  Inv st -> deref p (addresses st) = Some aa ->
  peer aa = peer info -> exact_match info aa = false ->
  session_id aa = session_id info ->
  exists st',
    destroy_by_session_id info p st = Some st'
    /\ Inv st'
    /\ active_addr_count st' = active_addr_count st - Z.b2z (active aa)
    /\ bandwidth_recalculations st'
       = bandwidth_recalculations st + Z.b2z (active aa)
    /\ deref p (addresses st')
       = (if addr_len aa =? 0 then None
          else Some (set_active false (set_session_id 0 aa)))
    /\ wan_quota_in st' = wan_quota_in st
    /\ wan_quota_out st' = wan_quota_out st.
Proof.
  intros HI Hd Hp Hx Hs. unfold destroy_by_session_id. rewrite Hd.
  rewrite Hp, N.eqb_refl. simpl negb. cbv iota.
  unfold exact_match in Hx. rewrite Hx. rewrite Hs, Z.eqb_refl. simpl negb. cbv iota.
  set (st_a := set_addresses (modify p (set_session_id 0) (addresses st)) st).
  assert (Inv st_a) as HIa by (apply Inv_modify; [reflexivity|assumption]).
  assert (deref p (addresses st_a) = Some (set_session_id 0 aa)) as Hda.
  { subst st_a. simpl. rewrite deref_modify, Nat.eqb_refl, Hd. reflexivity. }
  (* the state before the final test of the address length *)
  assert (exists st2,
             (if active aa
              then recalculate_assigned_bw
                     (set_active_addr_count (wrap32 (active_addr_count st_a - 1))
                        (set_addresses (modify p (set_active false) (addresses st_a)) st_a))
              else Some st_a) = Some st2
             /\ Inv st2
             /\ active_addr_count st2 = active_addr_count st - Z.b2z (active aa)
             /\ bandwidth_recalculations st2
                = bandwidth_recalculations st + Z.b2z (active aa)
             /\ deref p (addresses st2) = Some (set_active false (set_session_id 0 aa))
             /\ wan_quota_in st2 = wan_quota_in st
             /\ wan_quota_out st2 = wan_quota_out st)
    as (st2 & E2 & HI2 & Hc2 & Hr2 & Hd2 & Hq2 & Hq2').
  { assert (active_addr_count st_a = active_addr_count st) as Eca by reflexivity.
    assert (bandwidth_recalculations st_a = bandwidth_recalculations st) as Era
      by reflexivity.
    assert (wan_quota_in st_a = wan_quota_in st) as Eqa by reflexivity.
    assert (wan_quota_out st_a = wan_quota_out st) as Eqa' by reflexivity.
    clearbody st_a.
    destruct (active aa) eqn:Ha.
    - set (st_b := set_active_addr_count _ _).
      destruct HIa as (Hnd & Hb & Hc & Hr).
      assert (active (set_session_id 0 aa) = true) as Ha' by exact Ha.
      pose proof (number_active_pos _ _ _ Hda Ha') as Hpos.
      assert (number_active (addresses st_b) = number_active (addresses st_a) - 1) as Hn.
      { subst st_b. simpl.
        rewrite (number_active_modify _ _ _ (set_session_id 0 aa)); try assumption.
        simpl. rewrite Ha. simpl. lia. }
      assert (active_addr_count st_b = active_addr_count st_a - 1) as Hcb.
      { subst st_b. simpl. unfold wrap32. apply Z.mod_small. lia. }
      assert (Inv st_b) as HIb.
      { unfold Inv. rewrite Hn, Hcb. subst st_b. simpl. rewrite keys_modify.
        repeat split; try assumption; lia. }
      assert (deref p (addresses st_b)
              = Some (set_active false (set_session_id 0 aa))) as Hdb.
      { subst st_b. simpl. rewrite deref_modify, Nat.eqb_refl, Hda. reflexivity. }
      assert (bandwidth_recalculations st_b = bandwidth_recalculations st_a) as Erb
        by reflexivity.
      assert (wan_quota_in st_b = wan_quota_in st_a) as Eqb by reflexivity.
      assert (wan_quota_out st_b = wan_quota_out st_a) as Eqb' by reflexivity.
      clearbody st_b.
      destruct (recalculate_total st_b) as [cs E].
      + apply HIb.
      + rewrite Hcb, Hn. lia.
      + eexists. split; [exact E|].
        split; [apply (recalculate_Inv st_b); assumption|].
        split; [simpl; lia|].
        split; [simpl; lia|].
        split; [|simpl; split; congruence].
        simpl. rewrite deref_map_share_of, Hdb. reflexivity.
    - exists st_a. split; [reflexivity|]. split; [assumption|].
      split; [simpl; lia|]. split; [simpl; lia|].
      split; [|split; assumption].
      rewrite Hda. f_equal. symmetry. now apply set_active_same. }
  subst st_a. simpl in E2. simpl. rewrite E2.
  destruct (addr_len aa =? 0) eqn:Hl.
  - rewrite (destroy_address_spec p st2 _ HI2 Hd2). simpl.
    eexists. split; [reflexivity|].
    split; [exact (Inv_remove p st2 _ HI2 Hd2)|].
    simpl. split; [lia|]. split; [assumption|].
    split; [|split; assumption].
    rewrite deref_remove, Nat.eqb_refl. reflexivity.
  - exists st2. do 6 (split; [reflexivity || assumption|]). assumption.
Qed.

Lemma recalculate_Inv_with q_in q_out st st' :
  Inv_with q_in q_out st -> recalculate_assigned_bw st = Some st' ->
  Inv_with q_in q_out st'.
Proof.
  intros (HI & Hq & Hq') H. split; [now apply (recalculate_Inv st)|].
  destruct (recalculate_spec _ _ (proj1 HI) H) as [cs ->]. simpl. auto.
Qed.

Lemma destroy_by_session_id_Inv q_in q_out info p st st' :
  Inv_with q_in q_out st -> destroy_by_session_id info p st = Some st' ->
  Inv_with q_in q_out st'.
Proof.
  intros HIq H. pose proof HIq as (HI & Hq & Hq').
  destruct (deref p (addresses st)) as [aa|] eqn:Hd.
  2:{ unfold destroy_by_session_id in H. rewrite Hd in H. now injection H as <-. }
  destruct (N.eqb_spec (peer aa) (peer info)) as [Hp|Hp].
  2:{ unfold destroy_by_session_id in H. rewrite Hd in H.
      apply N.eqb_neq in Hp. rewrite Hp in H. discriminate. }
  destruct (exact_match info aa) eqn:Hx.
  - unfold destroy_by_session_id in H. rewrite Hd in H.
    rewrite Hp, N.eqb_refl in H. simpl negb in H. cbv iota in H.
    unfold exact_match in Hx. rewrite Hx in H.
    rewrite (destroy_address_spec p st aa HI Hd) in H.
    pose proof (Inv_remove p st aa HI Hd) as HI'.
    destruct (active aa).
    + apply (recalculate_Inv_with q_in q_out) in H; [assumption|].
      split; [assumption|]. simpl. auto.
    + injection H as <-. split; [assumption|]. simpl. auto.
  - destruct (Z.eqb_spec (session_id aa) (session_id info)) as [Hs|Hs].
    + destruct (destroy_by_session_id_downgrade info p st aa HI Hd Hp Hx Hs)
        as (st2 & E & HI2 & _ & _ & _ & Hq2 & Hq2').
      assert (st' = st2) by congruence. subst st'.
      split; [assumption|]. split; congruence.
    + unfold destroy_by_session_id in H. rewrite Hd in H.
      rewrite Hp, N.eqb_refl in H. simpl negb in H. cbv iota in H.
      unfold exact_match in Hx. rewrite Hx in H.
      apply Z.eqb_neq in Hs. rewrite Hs in H. simpl in H. now injection H as <-.
Qed.

Lemma iterate_preserves (P : State -> Prop) (it : nat -> State -> option State) ps :
  (forall p st st', P st -> it p st = Some st' -> P st') ->
  forall st st', P st -> iterate it ps st = Some st' -> P st'.
Proof.
  intros Hit. induction ps as [|p ps IH]; simpl; intros st st' HI H.
  - now injection H as <-.
  - destruct (it p st) as [st1|] eqn:E; [|discriminate].
    eapply IH; [|exact H]. eapply Hit; eauto.
Qed.

Lemma destroy_Inv q_in q_out peer plugin_name plugin_addr session st st' :
  Inv_with q_in q_out st ->
  GAS_addresses_destroy peer plugin_name plugin_addr session st = Some st' ->
  Inv_with q_in q_out st'.
Proof.
  intros HI H. unfold GAS_addresses_destroy in H.
  eapply (iterate_preserves (Inv_with q_in q_out)); [|exact HI|exact H].
  intros p s s'. apply destroy_by_session_id_Inv.
Qed.

(** *** [GAS_addresses_update] *)

Lemma update_atsp_overwrites_or_commutes i j y :
  update_atsp j (update_atsp i y) = update_atsp j y
  \/ update_atsp j (update_atsp i y) = update_atsp i (update_atsp j y).
Proof.
  unfold update_atsp.
  destruct (type i), (type j); (left; reflexivity) || (right; reflexivity).
Qed.

Lemma update_atsps_absorb i l : forall y,
  update_atsp i (update_atsps l (update_atsp i y)) = update_atsp i (update_atsps l y).
Proof.
  induction l as [|j l IH]; intros y; simpl.
  - unfold update_atsp. destruct (type i); reflexivity.
  - unfold update_atsps in *. simpl.
    destruct (update_atsp_overwrites_or_commutes i j y) as [E|E]; rewrite E.
    + reflexivity.
    + apply IH.
Qed.

Lemma update_atsps_app l i y :
  update_atsps (l ++ [i]) y = update_atsp i (update_atsps l y).
Proof. unfold update_atsps. now rewrite fold_left_app. Qed.

Lemma update_atsps_idem l : forall x, update_atsps l (update_atsps l x) = update_atsps l x.
Proof.
  induction l as [|i l IH] using rev_ind; intros x; [reflexivity|].
  rewrite !update_atsps_app, update_atsps_absorb. now rewrite IH.
Qed.

Lemma update_atsp_keeps i o :
  peer (update_atsp i o) = peer o /\ session_id (update_atsp i o) = session_id o
  /\ addr (update_atsp i o) = addr o /\ plugin (update_atsp i o) = plugin o
  /\ ats (update_atsp i o) = ats o /\ active (update_atsp i o) = active o
  /\ assigned_bw_in (update_atsp i o) = assigned_bw_in o.
Proof. unfold update_atsp. destruct (type i); repeat split. Qed.

Lemma update_atsps_keeps l : forall o,
  peer (update_atsps l o) = peer o /\ session_id (update_atsps l o) = session_id o
  /\ addr (update_atsps l o) = addr o /\ plugin (update_atsps l o) = plugin o
  /\ ats (update_atsps l o) = ats o /\ active (update_atsps l o) = active o
  /\ assigned_bw_in (update_atsps l o) = assigned_bw_in o.
Proof.
  induction l as [|i l IH]; intros o; [repeat split|].
  unfold update_atsps in *. simpl.
  destruct (IH (update_atsp i o)) as (-> & -> & -> & -> & -> & -> & ->).
  apply update_atsp_keeps.
Qed.

Lemma set_session_ats_commute s v i o :
  set_ats v (set_session_id s (update_atsp i o))
  = update_atsp i (set_ats v (set_session_id s o)).
Proof. unfold update_atsp. destruct (type i); reflexivity. Qed.

Lemma set_session_ats_update_atsps s v l : forall o,
  set_ats v (set_session_id s (update_atsps l o))
  = update_atsps l (set_ats v (set_session_id s o)).
Proof.
  induction l as [|i l IH]; intros o; [reflexivity|].
  unfold update_atsps in *. simpl. rewrite IH. now rewrite set_session_ats_commute.
Qed.

Lemma merge_idem s v o : merge s v (merge s v o) = merge s v o.
Proof.
  unfold merge. rewrite set_session_ats_update_atsps.
  rewrite update_atsps_idem. reflexivity.
Qed.

Lemma merge_new_address peer0 plugin_name plugin_addr s v :
  merge s v (update_atsps v (new_address peer0 plugin_name plugin_addr s v))
  = update_atsps v (new_address peer0 plugin_name plugin_addr s v).
Proof.
  unfold merge. rewrite set_session_ats_update_atsps.
  change (set_ats v (set_session_id s (new_address peer0 plugin_name plugin_addr s v)))
    with (new_address peer0 plugin_name plugin_addr s v).
  apply update_atsps_idem.
Qed.

Lemma modify_put_fresh h p f aa m :
  ~ In p (keys m) ->
  modify p f (multihashmap_put h p aa m) = multihashmap_put h p (f aa) m.
Proof.
  intros Hp. unfold multihashmap_put. destruct h.
  - simpl. rewrite Nat.eqb_refl. f_equal. fold (modify p f m). now apply modify_absent.
  - unfold modify. rewrite map_app. simpl. rewrite Nat.eqb_refl. f_equal.
    fold (modify p f m). now apply modify_absent.
Qed.

(** The two outcomes of an update, each in one piece. *)
Lemma GAS_addresses_update_eq h peer0 plugin_name plugin_addr s v st :
  (forall p, In p (keys (addresses st)) -> (p < next_ptr st)%nat) ->
  GAS_addresses_update h peer0 plugin_name plugin_addr s v st
  = match find_address peer0 (new_address peer0 plugin_name plugin_addr s v) st with
    | Some old => set_addresses (modify old (merge s v) (addresses st)) st
    | None =>
        mkState (multihashmap_put h (next_ptr st)
                   (update_atsps v (new_address peer0 plugin_name plugin_addr s v))
                   (addresses st))
          (S (next_ptr st)) (wan_quota_in st) (wan_quota_out st)
          (active_addr_count st) (bandwidth_recalculations st) (downstream st)
    end.
Proof.
  intros Hb. unfold GAS_addresses_update.
  destruct (find_address _ _ st) as [old|].
  - simpl. rewrite modify_modify. reflexivity.
  - unfold set_addresses. simpl. f_equal.
    apply (modify_put_fresh h (next_ptr st) (update_atsps v)).
    intros Hin. apply Hb in Hin. lia.
Qed.

Lemma number_active_put h p aa m :
  active aa = false -> number_active (multihashmap_put h p aa m) = number_active m.
Proof.
  intros Ha. unfold number_active, multihashmap_put. destruct h; simpl.
  - now rewrite Ha.
  - rewrite List.filter_app. simpl. rewrite Ha. now rewrite app_nil_r.
Qed.

Lemma keys_put h p aa m :
  keys (multihashmap_put h p aa m) = if h then p :: keys m else keys m ++ [p].
Proof. unfold keys, multihashmap_put. destruct h; simpl; [reflexivity|]. now rewrite map_app. Qed.

Lemma update_Inv h peer0 plugin_name plugin_addr s v st :
  Inv st -> Inv (GAS_addresses_update h peer0 plugin_name plugin_addr s v st).
Proof.
  intros HI. rewrite GAS_addresses_update_eq by apply HI.
  destruct (find_address _ _ st) as [old|].
  - apply Inv_modify; [|assumption]. intros aa. unfold merge.
    now destruct (update_atsps_keeps v (set_ats v (set_session_id s aa)))
      as (_ & _ & _ & _ & _ & -> & _).
  - destruct HI as (Hnd & Hb & Hc & Hr). unfold Inv. simpl.
    assert (~ In (next_ptr st) (keys (addresses st))) as Hfresh
      by (intros Hin; apply Hb in Hin; lia).
    rewrite keys_put, number_active_put.
    + repeat split; try assumption.
      * destruct h.
        -- now constructor.
        -- apply List.NoDup_app; [assumption|repeat constructor; intros []|].
           intros x Hx [<-|[]]. tauto.
      * intros p Hp. assert (In p (next_ptr st :: keys (addresses st))) as Hp'.
        { destruct h; [assumption|]. apply in_app_or in Hp.
          destruct Hp as [Hp|[<-|[]]]; [now right|now left]. }
        destruct Hp' as [<-|Hp']; [lia|]. apply Hb in Hp'. lia.
    + now destruct (update_atsps_keeps v (new_address peer0 plugin_name plugin_addr s v))
        as (_ & _ & _ & _ & _ & -> & _).
Qed.

Lemma first_match_cons key search q b m :
  first_match key search ((q, b) :: m)
  = if N.eqb (peer b) key && negb (compare_address_it search b)
    then Some q else first_match key search m.
Proof.
  unfold first_match, multihashmap_get_multiple. simpl.
  destruct (N.eqb (peer b) key); simpl; [|reflexivity].
  now destruct (compare_address_it search b).
Qed.

Lemma first_match_In key search m old :
  first_match key search m = Some old -> In old (keys m).
Proof.
  induction m as [|[q b] m IH]; [discriminate|].
  rewrite first_match_cons. simpl.
  destruct (_ && _); [intros [= ->]; now left|]. intros H. right. auto.
Qed.

Lemma first_match_modify key search f m old :
  List.NoDup (keys m) ->
  (forall o, peer (f o) = peer o) ->
  (forall o, compare_address_it search o = false ->
             compare_address_it search (f o) = false) ->
  first_match key search m = Some old ->
  first_match key search (modify old f m) = Some old.
Proof.
  intros Hnd Hp Hc. induction m as [|[q b] m IH]; [discriminate|].
  simpl in Hnd. inversion Hnd as [|? ? Hq Hnd']; subst.
  rewrite first_match_cons. unfold modify. simpl. fold (modify old f m).
  destruct (N.eqb (peer b) key && negb (compare_address_it search b)) eqn:E.
  - intros [= ->]. rewrite Nat.eqb_refl. rewrite first_match_cons. simpl.
    apply andb_true_iff in E. destruct E as [E1 E2].
    apply negb_true_iff in E2. rewrite Hp, E1, (Hc _ E2). reflexivity.
  - intros H. pose proof (first_match_In _ _ _ _ H) as Hin.
    destruct (Nat.eqb_spec old q) as [->|Hne]; [tauto|].
    rewrite first_match_cons. simpl. rewrite E. auto.
Qed.

Lemma find_app_None {A} (f : A -> bool) l l' :
  find f l = None -> find f (l ++ l') = find f l'.
Proof.
  induction l as [|x l IH]; simpl; [reflexivity|].
  destruct (f x); [discriminate|auto].
Qed.

Lemma first_match_put key search h p aa m :
  first_match key search m = None ->
  peer aa = key -> compare_address_it search aa = false ->
  first_match key search (multihashmap_put h p aa m) = Some p.
Proof.
  intros Hn Hp Hc. unfold multihashmap_put. destruct h.
  - rewrite first_match_cons. rewrite Hp, N.eqb_refl, Hc. reflexivity.
  - unfold first_match in *. unfold multihashmap_get_multiple in *.
    rewrite List.filter_app. simpl. rewrite Hp, N.eqb_refl.
    rewrite find_app_None.
    + simpl. rewrite Hc. reflexivity.
    + destruct (find _ (List.filter _ m)); [discriminate|reflexivity].
Qed.

Lemma memcmp0_refl a n : memcmp0 a a n = true.
Proof. unfold memcmp0. now destruct (List.list_eq_dec _ _ _). Qed.

Lemma compare_address_it_new peer0 plugin_name plugin_addr s v o :
  addr o = plugin_addr -> plugin o = plugin_name ->
  compare_address_it (new_address peer0 plugin_name plugin_addr s v) o = false.
Proof.
  intros Ha Hp. unfold compare_address_it, addr_len. simpl.
  rewrite Ha, Hp, Z.eqb_refl, String.eqb_refl, memcmp0_refl. reflexivity.
Qed.

Lemma compare_address_it_merge peer0 plugin_name plugin_addr s v o :
  compare_address_it (new_address peer0 plugin_name plugin_addr s v) o = false ->
  compare_address_it (new_address peer0 plugin_name plugin_addr s v) (merge s v o)
  = false.
Proof.
  unfold compare_address_it, addr_len, merge.
  destruct (update_atsps_keeps v (set_ats v (set_session_id s o)))
    as (_ & -> & -> & -> & _).
  simpl. rewrite Z.eqb_refl. simpl.
  intros H. apply andb_false_iff in H. destruct H as [->|H]; [reflexivity|].
  apply orb_false_iff in H. destruct H as [_ ->]. apply andb_false_r.
Qed.

Lemma peer_merge s v o : peer (merge s v o) = peer o.
Proof.
  unfold merge.
  now destruct (update_atsps_keeps v (set_ats v (set_session_id s o))) as (-> & _).
Qed.

Lemma GAS_addresses_update_idempotent h peer0 plugin_name plugin_addr s v st :
  Inv st ->
  GAS_addresses_update h peer0 plugin_name plugin_addr s v
    (GAS_addresses_update h peer0 plugin_name plugin_addr s v st)
  = GAS_addresses_update h peer0 plugin_name plugin_addr s v st.
Proof.
  intros HI.
  pose proof (update_Inv h peer0 plugin_name plugin_addr s v st HI) as HI1.
  rewrite (GAS_addresses_update_eq h peer0 plugin_name plugin_addr s v
             (GAS_addresses_update h peer0 plugin_name plugin_addr s v st))
    by apply HI1.
  clear HI1. rewrite GAS_addresses_update_eq by apply HI.
  set (search := new_address peer0 plugin_name plugin_addr s v).
  change (find_address peer0 search) with
    (fun st => first_match peer0 search (addresses st)).
  cbv beta.
  destruct (first_match peer0 search (addresses st)) as [old|] eqn:E.
  - simpl. rewrite first_match_modify; try assumption.
    + unfold set_addresses. simpl. rewrite modify_modify. f_equal.
      unfold modify. apply map_ext. intros [q b]. simpl.
      destruct (Nat.eqb old q); [|reflexivity]. now rewrite merge_idem.
    + apply HI.
    + intros o. apply peer_merge.
    + intros o. apply compare_address_it_merge.
  - simpl. rewrite first_match_put; try assumption.
    + unfold set_addresses. simpl. f_equal.
      rewrite modify_put_fresh.
      * subst search. now rewrite merge_new_address.
      * destruct HI as (_ & Hb & _). intros Hin. apply Hb in Hin. lia.
    + subst search.
      now destruct (update_atsps_keeps v (new_address peer0 plugin_name plugin_addr s v))
        as (-> & _).
    + subst search.
      destruct (update_atsps_keeps v (new_address peer0 plugin_name plugin_addr s v))
        as (_ & _ & Ha & Hp & _).
      now apply compare_address_it_new.
Qed.

Lemma GAS_addresses_update_length h peer0 plugin_name plugin_addr s v st :
  length (addresses (GAS_addresses_update h peer0 plugin_name plugin_addr s v st))
  = match find_address peer0 (new_address peer0 plugin_name plugin_addr s v) st with
    | Some _ => length (addresses st)
    | None => S (length (addresses st))
    end.
Proof.
  unfold GAS_addresses_update.
  destruct (find_address _ _ st) as [old|]; simpl.
  - unfold modify. now rewrite !length_map.
  - unfold modify. rewrite length_map. unfold multihashmap_put.
    destruct h; simpl; [reflexivity|]. rewrite length_app. simpl. lia.
Qed.

Lemma request_address_Inv_with q_in q_out peer st st' :
  Inv_with q_in q_out st -> GAS_addresses_request_address peer st = Some st' ->
  Inv_with q_in q_out st'.
Proof.
  intros (HI & Hq & Hq') H. split; [now apply (request_address_Inv peer st)|].
  unfold GAS_addresses_request_address in H.
  destruct (find_best peer st) as [[p aa]|]; [|injection H as <-; auto].
  destruct (active aa); simpl in H.
  - injection H as <-. simpl. auto.
  - apply recalculate_spec in H.
    + destruct H as [cs ->]. simpl. auto.
    + simpl. rewrite keys_modify. apply HI.
Qed.

Lemma handle_Inv q_in q_out h r st st' :
  Inv_with q_in q_out st -> handle h r st = Some st' -> Inv_with q_in q_out st'.
Proof.
  intros HI H. destruct r; simpl in H.
  - injection H as <-. destruct HI as (HI & Hq & Hq').
    split; [now apply update_Inv|].
    unfold GAS_addresses_update. destruct (find_address _ _ st); simpl; auto.
  - eapply destroy_Inv; eauto.
  - eapply request_address_Inv_with; eauto.
Qed.

Lemma run_Inv q_in q_out h rs : forall st st',
  Inv_with q_in q_out st -> run h rs st = Some st' -> Inv_with q_in q_out st'.
Proof.
  induction rs as [|r rs IH]; simpl; intros st st' HI H.
  - now injection H as <-.
  - destruct (handle h r st) as [st1|] eqn:E; [|discriminate].
    eapply IH; [|exact H]. eapply handle_Inv; eauto.
Qed.

Lemma reachable_Inv h rs q_in q_out st :
  run h rs (GAS_addresses_init q_in q_out) = Some st -> Inv_with q_in q_out st.
Proof.
  apply run_Inv. split; [apply Inv_init|]. split; reflexivity.
Qed.

(** C2, as stated, fails: with a quota of 2^32 bytes and one active
    address the quotient is 2^32, but the address is assigned 0. *)
Lemma assigned_share_is_cut_to_32_bits :
  exists st aa,
    run true [update alice tcp addr_a 0 []; request_address alice]
      (GAS_addresses_init (2 ^ 32) (2 ^ 32)) = Some st
    /\ active_addresses alice st = [(0%nat, aa)]
    /\ wan_quota_in st / number_active (addresses st) = 2 ^ 32
    /\ ntohl (assigned_bw_in aa) = 0
    /\ ntohl (assigned_bw_out aa) = 0.
Proof.
  do 2 eexists. split; [vm_compute; reflexivity|].
  split; [vm_compute; reflexivity|]. repeat split.
Qed.

(** The scenario of the spec, through [GAS_addresses_destroy]: an address
    with session 7 and an empty raw address is removed, one with a raw
    address of four bytes survives with session 0. *)
Lemma session_downgrade_scenario :
  (exists st,
      run true [update alice tcp [] 7 []; destroy alice tcp [] 7]
        (GAS_addresses_init 1000 1000) = Some st
      /\ addresses st = [])
  /\ (exists st aa,
         run true [update alice tcp addr_a 7 []; destroy alice tcp [] 7]
           (GAS_addresses_init 1000 1000) = Some st
         /\ addresses st = [(0%nat, aa)]
         /\ session_id aa = 0 /\ addr aa = addr_a).
Proof.
  split.
  - eexists. split; vm_compute; reflexivity.
  - do 2 eexists. split; [vm_compute; reflexivity|].
    split; [vm_compute; reflexivity|]. split; reflexivity.
Qed.

End RegistryFacts.

(** ** The reinforcement-learning solver *)

Module RilFacts.

Import Ril ByteOrderFacts RilNotions.

(** *** The suggestion *)

Lemma envi_set_active_suggestion_stages solver agent new_address new_bw_in new_bw_out silent :
  envi_set_active_suggestion solver agent new_address new_bw_in new_bw_out silent
  = match address_change solver agent new_address with
    | Some (solver, notify) =>
        match activity_and_bw_change solver agent new_address new_bw_in new_bw_out
                notify with
        | Some (solver, agent, notify) =>
            match notification solver agent new_address silent notify with
            | Some (solver, agent) => Some (solver, set_address_inuse new_address agent)
            | None => None
            end
        | None => None
        end
    | None => None
    end.
Proof. reflexivity. Qed.

Lemma same_shape_refl m0 : same_shape m0 m0.
Proof. intros q. reflexivity. Qed.

Lemma same_shape_trans m0 m1 m2 :
  same_shape m0 m1 -> same_shape m1 m2 -> same_shape m0 m2.
Proof. intros H1 H2 q. now rewrite H2, H1. Qed.

Lemma same_shape_is_Some m0 m1 q :
  same_shape m0 m1 -> is_Some (m0 !! q) -> is_Some (m1 !! q).
Proof.
  intros H [aa Hq]. specialize (H q). rewrite Hq in H.
  destruct (m1 !! q); [eauto|discriminate].
Qed.

Lemma frame_refl s : frame s s.
Proof. repeat split. Qed.

Lemma frame_trans s0 s1 s2 : frame s0 s1 -> frame s1 s2 -> frame s0 s2.
Proof.
  intros (A1 & B1 & C1 & D1) (A2 & B2 & C2 & D2).
  split; [congruence|]. split; [congruence|]. split; [congruence|].
  eapply same_shape_trans; eauto.
Qed.

Lemma frame_agent_refl a : frame_agent a a.
Proof. repeat split. Qed.

Lemma frame_agent_trans a0 a1 a2 :
  frame_agent a0 a1 -> frame_agent a1 a2 -> frame_agent a0 a2.
Proof. unfold frame_agent. intuition congruence. Qed.

Lemma write_Some p f s aa :
  memory s !! p = Some aa ->
  write p f s = Some (set_memory (<[p := f aa]> (memory s)) s).
Proof. intros H. unfold write. now rewrite H. Qed.

Lemma write_inv p f s s1 :
  write p f s = Some s1 ->
  exists aa, memory s !! p = Some aa
             /\ s1 = set_memory (<[p := f aa]> (memory s)) s.
Proof.
  unfold write. destruct (memory s !! p) as [aa|]; [|discriminate].
  intros [= <-]. eauto.
Qed.

Lemma same_shape_insert m0 p aa aa' :
  m0 !! p = Some aa -> shape aa' = shape aa -> same_shape m0 (<[p := aa']> m0).
Proof.
  intros Hp Hs q. destruct (decide (p = q)) as [<-|Hne].
  - rewrite lookup_insert_eq, Hp. simpl. now rewrite Hs.
  - now rewrite lookup_insert_ne.
Qed.

Lemma write_frame p f s s1 :
  (forall aa, shape (f aa) = shape aa) ->
  write p f s = Some s1 ->
  frame s s1 /\ bandwidth_changed_cb s1 = bandwidth_changed_cb s
  /\ exists aa, memory s !! p = Some aa /\ memory s1 !! p = Some (f aa).
Proof.
  intros Hf H. apply write_inv in H. destruct H as (aa & Hp & ->).
  split; [|split; [reflexivity|]].
  - repeat split. simpl. eapply same_shape_insert; [exact Hp|apply Hf].
  - exists aa. split; [assumption|]. simpl. apply lookup_insert_eq.
Qed.

Lemma write_is_Some p f s : is_Some (memory s !! p) -> is_Some (write p f s).
Proof. intros [aa H]. rewrite (write_Some _ _ _ _ H). eauto. Qed.

(** *** The first stage *)

Lemma address_change_same solver agent new_address :
  address_inuse agent = new_address ->
  address_change solver agent new_address = Some (solver, false).
Proof.
  intros H. unfold address_change. rewrite bool_decide_eq_false_2; [reflexivity|].
  intros Hne. now apply Hne.
Qed.

Lemma address_change_post solver agent new_address s1 notify :
  address_change solver agent new_address = Some (s1, notify) ->
  frame solver s1
  /\ bandwidth_changed_cb s1 = bandwidth_changed_cb solver
  /\ notify = bool_decide (address_inuse agent <> new_address)
  /\ (notify = true -> forall p, new_address = Some p ->
      exists aa, memory s1 !! p = Some aa /\ Addr.active aa = active agent)
  /\ (notify = true -> new_address = None -> forall q, address_inuse agent = Some q ->
      exists aa, memory s1 !! q = Some aa
                 /\ Addr.assigned_bw_in aa = htonl 0 /\ Addr.assigned_bw_out aa = htonl 0).
Proof.
  unfold address_change. intros H.
  destruct (bool_decide (address_inuse agent <> new_address)) eqn:Hd.
  2:{ injection H as <- <-. split; [apply frame_refl|]. split; [reflexivity|].
      split; [reflexivity|]. split; discriminate. }
  destruct (match address_inuse agent with Some _ => _ | None => _ end)
    as [sa|] eqn:Ea; [|discriminate].
  destruct (match new_address with Some _ => _ | None => _ end)
    as [sb|] eqn:Eb; [|discriminate].
  injection H as <- <-.
  assert (frame solver sa /\ bandwidth_changed_cb sa = bandwidth_changed_cb solver
          /\ forall q, address_inuse agent = Some q ->
                       exists aa, memory sa !! q = Some aa
                                  /\ Addr.assigned_bw_in aa = htonl 0
                                  /\ Addr.assigned_bw_out aa = htonl 0) as (Fa & Ca & Za).
  { destruct (address_inuse agent) as [q|].
    - apply write_frame in Ea; [|reflexivity]. destruct Ea as (F & C & aa & _ & Hq).
      split; [assumption|]. split; [assumption|]. intros ? [= <-]. eauto.
    - injection Ea as <-. split; [apply frame_refl|]. split; [reflexivity|]. discriminate. }
  destruct new_address as [p|].
  - apply write_frame in Eb; [|reflexivity]. destruct Eb as (F & C & aa & _ & Hp).
    split; [eapply frame_trans; eauto|]. split; [congruence|]. split; [reflexivity|].
    split; [|discriminate]. intros _ ? [= <-]. eauto.
  - injection Eb as <-. split; [assumption|]. split; [assumption|].
    split; [reflexivity|]. split; [discriminate|]. intros _ _. exact Za.
Qed.

Lemma address_change_is_Some solver agent new_address :
  (forall q, address_inuse agent = Some q -> is_Some (memory solver !! q)) ->
  (forall p, new_address = Some p -> is_Some (memory solver !! p)) ->
  is_Some (address_change solver agent new_address).
Proof.
  intros Hq Hp. unfold address_change.
  destruct (bool_decide (address_inuse agent <> new_address)); [|eauto].
  destruct (match address_inuse agent with Some _ => _ | None => _ end)
    as [sa|] eqn:Ea.
  - assert (same_shape (memory solver) (memory sa)) as Hs.
    { destruct (address_inuse agent) as [q|].
      - apply write_frame in Ea; [|reflexivity]. apply Ea.
      - injection Ea as <-. apply same_shape_refl. }
    destruct new_address as [p|]; [|eauto].
    destruct (write_is_Some p
                (fun aa => Addr.mkAddress (Addr.peer aa) (active agent)
                             (htonl (bw_in agent)) (htonl (bw_out agent))
                             (Addr.solver_information aa)) sa) as [sb ->]; [|eauto].
    eapply same_shape_is_Some; eauto.
  - exfalso. destruct (address_inuse agent) as [q|]; [|discriminate].
    destruct (write_is_Some q
                (fun aa => Addr.mkAddress (Addr.peer aa) false (htonl 0) (htonl 0)
                             (Addr.solver_information aa)) solver) as [sb E]; [auto|].
    congruence.
Qed.

(** *** The second stage *)

Lemma activity_and_bw_change_post solver agent p new_bw_in new_bw_out notify s2 a2 n2 :
  activity_and_bw_change solver agent (Some p) new_bw_in new_bw_out notify
  = Some (s2, a2, n2) ->
  frame solver s2
  /\ bandwidth_changed_cb s2 = bandwidth_changed_cb solver
  /\ frame_agent agent a2
  /\ address_inuse a2 = address_inuse agent
  /\ bw_in a2 = new_bw_in /\ bw_out a2 = new_bw_out
  /\ (exists aa, memory s2 !! p = Some aa /\ Addr.active aa = active agent)
  /\ n2 = notify || negb (bw_in agent =? new_bw_in) || negb (bw_out agent =? new_bw_out).
Proof.
  unfold activity_and_bw_change. intros H.
  destruct (memory solver !! p) as [aa0|] eqn:E0; [|discriminate].
  (* activity change *)
  destruct (if negb (Bool.eqb (Addr.active aa0) (active agent)) then _ else _)
    as [sa|] eqn:Ea; [|discriminate].
  assert (frame solver sa /\ bandwidth_changed_cb sa = bandwidth_changed_cb solver
          /\ exists aa, memory sa !! p = Some aa /\ Addr.active aa = active agent)
    as (Fa & Ca & aa & Hpa & Haa).
  { destruct (Bool.eqb (Addr.active aa0) (active agent)) eqn:Eq; simpl in Ea.
    - injection Ea as <-. split; [apply frame_refl|]. split; [reflexivity|].
      exists aa0. split; [assumption|]. now apply Bool.eqb_prop.
    - apply write_frame in Ea; [|reflexivity]. destruct Ea as (F & C & x & _ & Hx).
      split; [assumption|]. split; [assumption|]. eauto. }
  clear Ea E0 aa0.
  (* inbound bandwidth *)
  destruct (if negb (bw_in agent =? new_bw_in) then _ else _)
    as [[[sb ab] nb]|] eqn:Eb; [|discriminate].
  assert (frame sa sb /\ bandwidth_changed_cb sb = bandwidth_changed_cb sa
          /\ frame_agent agent ab /\ address_inuse ab = address_inuse agent
          /\ bw_in ab = new_bw_in /\ bw_out ab = bw_out agent
          /\ (exists aa, memory sb !! p = Some aa /\ Addr.active aa = active agent)
          /\ nb = notify || negb (bw_in agent =? new_bw_in))
    as (Fb & Cb & Ab & Ib & Bi & Bo & (ab' & Hpb & Hab) & Nb).
  { destruct (Z.eqb_spec (bw_in agent) new_bw_in) as [Eq|Eq]; simpl in Eb.
    - injection Eb as <- <- <-. split; [apply frame_refl|].
      split; [reflexivity|]. split; [apply frame_agent_refl|].
      split; [reflexivity|]. split; [assumption|]. split; [reflexivity|].
      split; [eauto|]. now rewrite orb_false_r.
    - destruct (write p _ sa) as [sw|] eqn:Ew; [|discriminate].
      injection Eb as <- <- <-.
      apply write_frame in Ew; [|reflexivity]. destruct Ew as (F & C & x & Hx & Hx').
      split; [assumption|]. split; [assumption|].
      split; [repeat split|]. split; [reflexivity|]. split; [reflexivity|].
      split; [reflexivity|]. split; [|now rewrite orb_true_r].
      eexists. split; [exact Hx'|]. simpl. congruence. }
  clear Eb.
  (* outbound bandwidth *)
  assert ((bw_out ab =? new_bw_out) = (bw_out agent =? new_bw_out)) as Eo
    by now rewrite Bo.
  destruct (Z.eqb_spec (bw_out ab) new_bw_out) as [Eq|Eq]; simpl in H.
  - injection H as <- <- <-.
    split; [eapply frame_trans; eauto|]. split; [congruence|].
    split; [assumption|]. split; [assumption|]. split; [assumption|].
    split; [assumption|]. split; [eauto|].
    rewrite Nb, <- Eo. now rewrite orb_false_r.
  - destruct (write p _ sb) as [sw|] eqn:Ew; [|discriminate].
    injection H as <- <- <-.
    apply write_frame in Ew; [|reflexivity]. destruct Ew as (F & C & x & Hx & Hx').
    split; [eapply frame_trans; [|exact F]; eapply frame_trans; eauto|].
    split; [congruence|].
    split; [eapply frame_agent_trans; [exact Ab|repeat split]|].
    split; [assumption|]. split; [assumption|]. split; [reflexivity|].
    split; [|rewrite <- Eo; now rewrite orb_true_r].
    eexists. split; [exact Hx'|]. simpl. congruence.
Qed.

Lemma activity_and_bw_change_is_Some solver agent p new_bw_in new_bw_out notify :
  is_Some (memory solver !! p) ->
  is_Some (activity_and_bw_change solver agent (Some p) new_bw_in new_bw_out notify).
Proof.
  intros [aa0 E0]. unfold activity_and_bw_change. rewrite E0.
  set (w1 := fun aa => Addr.mkAddress (Addr.peer aa) (active agent)
                         (Addr.assigned_bw_in aa) (Addr.assigned_bw_out aa)
                         (Addr.solver_information aa)).
  assert (exists sa, (if negb (Bool.eqb (Addr.active aa0) (active agent))
                      then write p w1 solver else Some solver) = Some sa
                     /\ is_Some (memory sa !! p)) as (sa & -> & Ha).
  { destruct (negb _).
    - rewrite (write_Some _ _ _ _ E0). eexists. split; [reflexivity|].
      simpl. rewrite lookup_insert_eq. eauto.
    - eauto. }
  destruct Ha as [aa1 E1].
  destruct (negb (bw_in agent =? new_bw_in)).
  - rewrite (write_Some _ _ _ _ E1).
    destruct (negb (bw_out (set_bw_in new_bw_in agent) =? new_bw_out)); [|eauto].
    erewrite write_Some; [eauto|]. simpl. apply lookup_insert_eq.
  - destruct (negb (bw_out agent =? new_bw_out)); [|eauto].
    rewrite (write_Some _ _ _ _ E1). eauto.
Qed.

Lemma call_bandwidth_changed_cb_inv p s s1 :
  call_bandwidth_changed_cb p s = Some s1 ->
  parameters s1 = parameters s /\ network_entries s1 = network_entries s
  /\ agents s1 = agents s /\ memory s1 = memory s
  /\ exists aa, memory s !! p = Some aa
                /\ bandwidth_changed_cb s1 = bandwidth_changed_cb s ++ [(p, aa)].
Proof.
  unfold call_bandwidth_changed_cb.
  destruct (memory s !! p) as [aa|]; [|discriminate].
  intros [= <-]. simpl. repeat split. eauto.
Qed.

Lemma notification_post solver agent new_address silent notify s3 a3 :
  notification solver agent new_address silent notify = Some (s3, a3) ->
  parameters s3 = parameters solver /\ network_entries s3 = network_entries solver
  /\ agents s3 = agents solver /\ memory s3 = memory solver
  /\ frame_agent agent a3
  /\ address_inuse a3 = address_inuse agent
  /\ (new_address <> None -> bw_in a3 = bw_in agent /\ bw_out a3 = bw_out agent)
  /\ (notifies agent new_address silent notify = false ->
      bw_in a3 = bw_in agent /\ bw_out a3 = bw_out agent)
  /\ exists l, bandwidth_changed_cb s3 = bandwidth_changed_cb solver ++ l
               /\ length l = if notifies agent new_address silent notify
                             then 1%nat else 0%nat.
Proof.
  unfold notification, notifies. intros H.
  destruct (notify && active agent && negb silent) eqn:En; simpl.
  2:{ injection H as <- <-. repeat split; try reflexivity.
      exists []. now rewrite app_nil_r. }
  destruct new_address as [p|].
  - destruct (call_bandwidth_changed_cb p solver) as [sc|] eqn:Ec; [|discriminate].
    injection H as <- <-.
    apply call_bandwidth_changed_cb_inv in Ec.
    destruct Ec as (A & B & C & D & aa & _ & Hc).
    split; [assumption|]. split; [assumption|]. split; [assumption|].
    split; [assumption|]. split; [apply frame_agent_refl|]. split; [reflexivity|].
    split; [auto|]. split; [discriminate|]. eexists. split; [exact Hc|reflexivity].
  - destruct (address_inuse agent) as [q|] eqn:Eq.
    + destruct (memory solver !! q) as [aa|]; [|discriminate].
      destruct (negb (0 =? ntohl (Addr.assigned_bw_in aa))); [discriminate|].
      destruct (negb (0 =? ntohl (Addr.assigned_bw_out aa))); [discriminate|].
      destruct (call_bandwidth_changed_cb q solver) as [sc|] eqn:Ec; [|discriminate].
      injection H as <- <-.
      apply call_bandwidth_changed_cb_inv in Ec.
      destruct Ec as (A & B & C & D & aa' & _ & Hc).
      split; [assumption|]. split; [assumption|]. split; [assumption|].
      split; [assumption|]. split; [repeat split|]. split; [assumption|].
      split; [intros Hn; now destruct Hn|]. split; [discriminate|].
      eexists. split; [exact Hc|reflexivity].
    + injection H as <- <-. repeat split; try reflexivity; try assumption.
      exists []. now rewrite app_nil_r.
Qed.

Lemma notification_is_Some solver agent new_address silent notify :
  (forall p, new_address = Some p -> is_Some (memory solver !! p)) ->
  (new_address = None -> notify = true -> forall q, address_inuse agent = Some q ->
   exists aa, memory solver !! q = Some aa
              /\ Addr.assigned_bw_in aa = htonl 0 /\ Addr.assigned_bw_out aa = htonl 0) ->
  is_Some (notification solver agent new_address silent notify).
Proof.
  intros Hp Hq. unfold notification.
  destruct (notify && active agent && negb silent) eqn:En; [|eauto].
  destruct new_address as [p|].
  - destruct (Hp p eq_refl) as [aa E]. unfold call_bandwidth_changed_cb. rewrite E. eauto.
  - destruct (address_inuse agent) as [q|]; [|eauto].
    assert (notify = true) as Hn by (destruct notify; [reflexivity|discriminate]).
    destruct (Hq eq_refl Hn q eq_refl) as (aa & E & Zi & Zo).
    unfold call_bandwidth_changed_cb. rewrite E, Zi, Zo. simpl. eauto.
Qed.

Lemma envi_set_active_suggestion_post solver agent new_address new_bw_in new_bw_out
    silent s1 a1 :
  envi_set_active_suggestion solver agent new_address new_bw_in new_bw_out silent
  = Some (s1, a1) ->
  frame solver s1
  /\ frame_agent agent a1
  /\ address_inuse a1 = new_address
  /\ (forall p, new_address = Some p ->
      bw_in a1 = new_bw_in /\ bw_out a1 = new_bw_out
      /\ exists aa, memory s1 !! p = Some aa /\ Addr.active aa = active agent)
  /\ (calls agent new_address new_bw_in new_bw_out silent = false ->
      new_address = None -> bw_in a1 = bw_in agent /\ bw_out a1 = bw_out agent)
  /\ exists l, bandwidth_changed_cb s1 = bandwidth_changed_cb solver ++ l
               /\ length l = if calls agent new_address new_bw_in new_bw_out silent
                             then 1%nat else 0%nat.
Proof.
  rewrite envi_set_active_suggestion_stages. intros H.
  destruct (address_change solver agent new_address) as [[sa na]|] eqn:E1;
    [|discriminate].
  destruct (activity_and_bw_change sa agent new_address new_bw_in new_bw_out na)
    as [[[sb ab] nb]|] eqn:E2; [|discriminate].
  destruct (notification sb ab new_address silent nb) as [[sc ac]|] eqn:E3;
    [|discriminate].
  injection H as <- <-.
  apply address_change_post in E1. destruct E1 as (F1 & C1 & N1 & M1 & _).
  apply notification_post in E3.
  destruct E3 as (P3 & Q3 & R3 & M3 & A3 & I3 & B3 & B3' & l & C3 & L3).
  assert (frame sb sc) as F3 by (repeat split; try assumption; now rewrite M3).
  destruct new_address as [p|].
  - apply activity_and_bw_change_post in E2.
    destruct E2 as (F2 & C2 & A2 & I2 & Bi & Bo & (aa & Hp & Ha) & N2).
    split; [eapply frame_trans; [|exact F3]; eapply frame_trans; eauto|].
    split; [eapply frame_agent_trans; [exact A2|];
            eapply frame_agent_trans; [exact A3|repeat split]|].
    split; [reflexivity|].
    split.
    { intros ? [= <-]. simpl. destruct (B3 ltac:(discriminate)) as [-> ->].
      split; [assumption|]. split; [assumption|]. exists aa. now rewrite M3. }
    split; [discriminate|].
    exists l. split; [simpl; congruence|]. rewrite L3.
    unfold notifies, calls, changed.
    destruct A2 as (_ & -> & _). rewrite I2, N2, N1. now rewrite !orb_assoc.
  - injection E2 as <- <- <-.
    split; [eapply frame_trans; eauto|].
    split; [eapply frame_agent_trans; [exact A3|repeat split]|].
    split; [reflexivity|]. split; [discriminate|].
    split.
    { intros Hc _. simpl. apply B3'. unfold notifies. unfold calls, changed in Hc.
      rewrite orb_false_r in Hc. now rewrite N1. }
    exists l. split; [simpl; congruence|]. rewrite L3.
    unfold notifies, calls, changed. rewrite N1. now rewrite orb_false_r.
Qed.

Lemma envi_set_active_suggestion_is_Some solver agent new_address new_bw_in new_bw_out
    silent :
  (forall q, address_inuse agent = Some q -> is_Some (memory solver !! q)) ->
  (forall p, new_address = Some p -> is_Some (memory solver !! p)) ->
  is_Some (envi_set_active_suggestion solver agent new_address new_bw_in new_bw_out
             silent).
Proof.
  intros Hq Hp. rewrite envi_set_active_suggestion_stages.
  destruct (address_change_is_Some solver agent new_address Hq Hp) as [[sa na] E1].
  rewrite E1. apply address_change_post in E1.
  destruct E1 as (F1 & C1 & N1 & M1 & Z1).
  destruct new_address as [p|].
  - destruct (activity_and_bw_change_is_Some sa agent p new_bw_in new_bw_out na)
      as [[[sb ab] nb] E2].
    { eapply same_shape_is_Some; [apply F1|]. now apply Hp. }
    rewrite E2. apply activity_and_bw_change_post in E2.
    destruct E2 as (F2 & _ & _ & _ & _ & _ & (aa & Ha & _) & _).
    destruct (notification_is_Some sb ab (Some p) silent nb) as [[sc ac] E3].
    + intros ? [= <-]. eauto.
    + discriminate.
    + rewrite E3. eauto.
  - simpl.
    destruct (notification_is_Some sa agent None silent na) as [[sc ac] E3].
    + discriminate.
    + intros _ Hn q Hi. now apply Z1.
    + rewrite E3. eauto.
Qed.

(** A suggestion that is the current one changes nothing and calls no one. *)
Lemma envi_set_active_suggestion_unchanged solver agent new_bw_in new_bw_out silent :
  (forall p, address_inuse agent = Some p ->
             bw_in agent = new_bw_in /\ bw_out agent = new_bw_out
             /\ exists aa, memory solver !! p = Some aa /\ Addr.active aa = active agent) ->
  envi_set_active_suggestion solver agent (address_inuse agent) new_bw_in new_bw_out
    silent = Some (solver, agent).
Proof.
  intros H. rewrite envi_set_active_suggestion_stages.
  rewrite address_change_same by reflexivity.
  destruct (address_inuse agent) as [p|] eqn:Ei.
  - destruct (H p eq_refl) as (Bi & Bo & aa & Hp & Ha).
    unfold activity_and_bw_change. rewrite Hp, Ha, Bool.eqb_reflx. simpl.
    rewrite Bi, Z.eqb_refl. simpl. rewrite Bo, Z.eqb_refl. simpl.
    f_equal. f_equal. destruct agent; simpl in *. now subst.
  - simpl. f_equal. f_equal. destruct agent; simpl in *. now subst.
Qed.

(** *** Loops over a vector *)

Lemma for_loop_app {S : Type} (body : nat -> S -> option S) r1 r2 s :
  for_loop body (r1 ++ r2) s
  = match for_loop body r1 s with
    | Some s' => for_loop body r2 s'
    | None => None
    end.
Proof.
  revert s. induction r1 as [|i r1 IH]; intros s; simpl; [reflexivity|].
  destruct (body i s); [apply IH|reflexivity].
Qed.

(** A loop that rewrites the entries of a vector one after the other,
    each from its own old value, maps the vector. *)
Lemma for_loop_update_at {A : Type} (f : nat -> A -> option A) (g : nat -> A -> A)
    (v : list A) :
  (forall i x, f i x = Some (g i x)) ->
  forall rest,
    for_loop (fun i v => update_at (f i) i v) (seq 0 (length v)) (v ++ rest)
    = Some (imap g v ++ rest).
Proof.
  intros Hf. induction v as [|x v IH] using rev_ind; intros rest; [reflexivity|].
  rewrite length_app. simpl. rewrite seq_app, for_loop_app.
  rewrite <- app_assoc. rewrite IH. simpl.
  unfold update_at.
  rewrite lookup_app_r by (rewrite length_imap; lia).
  rewrite length_imap, Nat.sub_diag. simpl. rewrite Hf.
  f_equal. rewrite imap_app. simpl. rewrite <- app_assoc. simpl.
  rewrite insert_app_r_alt by (rewrite length_imap; lia).
  rewrite length_imap, Nat.sub_diag. simpl. now rewrite Nat.add_0_r.
Qed.

Lemma for_loop_update_at_all {A : Type} (f : nat -> A -> option A) (g : nat -> A -> A)
    (v : list A) k :
  (forall i x, f i x = Some (g i x)) -> k = length v ->
  for_loop (fun i v => update_at (f i) i v) (seq 0 k) v = Some (imap g v).
Proof.
  intros Hf ->. pose proof (for_loop_update_at f g v Hf []) as H.
  now rewrite !app_nil_r in H.
Qed.

Lemma imap_const {A B : Type} (c : B) (v : list A) :
  imap (fun _ _ => c) v = replicate (length v) c.
Proof.
  induction v as [|x v IH]; [reflexivity|]. simpl. f_equal. exact IH.
Qed.

Lemma imap_map {A B : Type} (g : A -> B) (v : list A) : imap (fun _ => g) v = map g v.
Proof.
  induction v as [|x v IH]; [reflexivity|]. simpl. f_equal. exact IH.
Qed.

(** *** The eligibility trace *)

Lemma agent_modify_eligibility_eq solver agent modification :
  length (e agent) = m agent ->
  agent_modify_eligibility solver agent modification
  = Some (set_e (match modification with
                 | RIL_E_ACCUMULATE => map (fun x => x + 1)%float (e agent)
                 | RIL_E_REPLACE => replicate (m agent) 1%float
                 | RIL_E_SET =>
                     replicate (m agent)
                       (gamma (parameters solver) * lambda (parameters solver))%float
                 | RIL_E_ZERO => replicate (m agent) 0%float
                 end) agent).
Proof.
  intros Hl. unfold agent_modify_eligibility. rewrite <- Hl.
  destruct modification; unfold store.
  - rewrite (for_loop_update_at_all _ (fun _ _ => _)) by (intros; reflexivity || auto).
    now rewrite imap_const.
  - rewrite (for_loop_update_at_all _ (fun _ _ => _)) by (intros; reflexivity || auto).
    now rewrite imap_const.
  - rewrite (for_loop_update_at_all _ (fun _ x => (x + 1)%float))
      by (intros; reflexivity || auto).
    now rewrite imap_map.
  - rewrite (for_loop_update_at_all _ (fun _ _ => _)) by (intros; reflexivity || auto).
    now rewrite imap_const.
Qed.

Lemma for_loop_ext {S : Type} (body body' : nat -> S -> option S) r s :
  (forall i s, body i s = body' i s) -> for_loop body r s = for_loop body' r s.
Proof.
  intros H. revert s. induction r as [|i r IH]; intros s; simpl; [reflexivity|].
  rewrite H. destruct (body' i s); [apply IH|reflexivity].
Qed.

Lemma ril_get_network_from_lookup entries type0 : forall i k,
  ril_get_network_from i entries type0 = Some k ->
  (i <= k)%nat /\ exists net, entries !! (k - i)%nat = Some net /\ type net = type0.
Proof.
  induction entries as [|c entries IH]; intros i k; simpl; [discriminate|].
  destruct (Z.eqb_spec (type c) type0) as [E|E].
  - intros [= <-]. split; [lia|]. rewrite Nat.sub_diag. eauto.
  - intros H. apply IH in H. destruct H as (Hle & net & Hn & Ht).
    split; [lia|]. exists net. split; [|assumption].
    replace (k - i)%nat with (S (k - S i)) by lia. exact Hn.
Qed.

Lemma ril_get_network_lookup s type0 k :
  ril_get_network s type0 = Some k ->
  exists net, network_entries s !! k = Some net /\ type net = type0.
Proof.
  intros H. apply ril_get_network_from_lookup in H.
  rewrite Nat.sub_0_r in H. apply H.
Qed.

Lemma ril_get_agent_from_insert l peer0 a' : forall i pos,
  ril_get_agent_from i l peer0 = Some pos ->
  peer a' = peer0 ->
  (i <= pos)%nat
  /\ ril_get_agent_from i (<[(pos - i)%nat := a']> l) peer0 = Some pos.
Proof.
  induction l as [|c l IH]; intros i pos; simpl; [discriminate|].
  destruct (N.eqb_spec peer0 (peer c)) as [E|E].
  - intros [= <-] Hp. split; [lia|]. rewrite Nat.sub_diag. simpl.
    rewrite Hp, N.eqb_refl. reflexivity.
  - intros H Hp. destruct (IH _ _ H Hp) as [Hle H'].
    split; [lia|].
    replace (pos - i)%nat with (S (pos - S i)) by lia. simpl.
    destruct (N.eqb_spec peer0 (peer c)); [contradiction|]. exact H'.
Qed.

Lemma GNUNET_array_grow_exact {A : Type} (zero : A) arr tsize :
  (length arr <= tsize)%nat ->
  GNUNET_array_grow zero arr (length arr) tsize
  = arr ++ replicate (tsize - length arr) zero.
Proof.
  intros H. unfold GNUNET_array_grow.
  rewrite Nat.min_l by assumption. now rewrite firstn_all.
Qed.

Lemma GNUNET_array_grow_length {A : Type} (zero : A) arr size tsize :
  (size <= length arr)%nat -> (size <= tsize)%nat ->
  length (GNUNET_array_grow zero arr size tsize) = tsize.
Proof.
  intros H1 H2. unfold GNUNET_array_grow.
  rewrite length_app, length_firstn, length_replicate. lia.
Qed.

Lemma ril_cut_from_vector_eq {A : Type} (old : list A) hole_start hole_length old_length :
  (hole_length < old_length)%nat -> (hole_start + hole_length <= old_length)%nat ->
  length old = old_length ->
  ril_cut_from_vector old hole_start hole_length old_length
  = Some (firstn hole_start old ++ skipn (hole_start + hole_length) old).
Proof.
  intros H1 H2 Hl. unfold ril_cut_from_vector.
  apply Nat.ltb_lt in H1. rewrite H1. simpl.
  apply Nat.leb_le in H2. rewrite H2. simpl.
  f_equal. f_equal. apply firstn_all2. rewrite length_skipn. lia.
Qed.

Lemma ril_cut_from_vector_Some {A : Type} (old : list A) hole_start hole_length old_length :
  (hole_length < old_length)%nat -> (hole_start + hole_length <= old_length)%nat ->
  ril_cut_from_vector old hole_start hole_length old_length
  = Some (firstn hole_start old
          ++ firstn (old_length - hole_start - hole_length)
               (skipn (hole_start + hole_length) old)).
Proof.
  intros H1 H2. unfold ril_cut_from_vector.
  apply Nat.ltb_lt in H1. rewrite H1. simpl.
  apply Nat.leb_le in H2. rewrite H2. reflexivity.
Qed.

(** *** One step *)

Section Actions.

Variable Q : nat.
Variable min_bw : Z.
Variable get_property : nat -> list float.

Lemma envi_do_action_frame solver agent action s1 a1 :
  envi_do_action min_bw solver agent action = Some (s1, a1) ->
  frame solver s1 /\ frame_agent agent a1.
Proof.
  unfold envi_do_action, envi_action_bw_double, envi_action_bw_halven,
    envi_action_bw_inc, envi_action_bw_dec, envi_action_address_switch.
  intros H.
  repeat match type of H with
         | match ?x with _ => _ end = Some _ => destruct x eqn:?; try discriminate
         end;
    try (injection H as <- <-; split; [apply frame_refl|apply frame_agent_refl]);
    apply envi_set_active_suggestion_post in H; split; apply H.
Qed.

Lemma agent_update_weights_frame solver agent reward s_next a_prime a1 :
  agent_update_weights solver agent reward s_next a_prime = Some a1 ->
  e a1 = e agent /\ m a1 = m agent.
Proof.
  unfold agent_update_weights. intros H.
  repeat match type of H with
         | match ?x with _ => _ end = Some _ => destruct x eqn:?; try discriminate
         end.
  injection H as <-. split; reflexivity.
Qed.

(** Whatever the trace was, a SARSA step leaves every component at
    [gamma * lambda + 1]. *)
Lemma sarsa_step_trace solver agent input s1 a1 :
  algorithm (parameters solver) = RIL_ALGO_SARSA ->
  length (e agent) = m agent ->
  agent_step Q min_bw get_property solver agent input = Some (s1, a1) ->
  e a1 = replicate (m agent)
           (gamma (parameters solver) * lambda (parameters solver) + 1)%float.
Proof.
  intros Halg Hl H. unfold agent_step in H.
  destruct (envi_get_state Q get_property solver agent) as [s_next|]; [|discriminate].
  rewrite Halg in H.
  rewrite agent_modify_eligibility_eq in H by assumption.
  set (c := (gamma (parameters solver) * lambda (parameters solver))%float) in *.
  set (ag1 := set_e (replicate (m agent) c) agent) in *.
  destruct (if explore input then _ else _) as [a_next|]; [|discriminate].
  destruct (if negb (RIL_ACTION_INVALID =? a_old ag1) then _ else _) as [ag2|] eqn:E2;
    [|discriminate].
  assert (e ag2 = replicate (m agent) c /\ m ag2 = m agent) as [He2 Hm2].
  { destruct (negb (RIL_ACTION_INVALID =? a_old ag1)).
    - apply agent_update_weights_frame in E2. destruct E2 as [-> ->]. split; reflexivity.
    - injection E2 as <-. split; reflexivity. }
  destruct (RIL_ACTION_INVALID =? a_next); [discriminate|].
  rewrite agent_modify_eligibility_eq in H by (rewrite He2, Hm2; apply length_replicate).
  destruct (envi_do_action min_bw solver _ a_next) as [[s3 ag3]|] eqn:E3; [|discriminate].
  injection H as <- <-. simpl.
  apply envi_do_action_frame in E3. destruct E3 as (_ & F3).
  destruct F3 as (_ & _ & _ & _ & _ & _ & _ & _ & -> & _). simpl.
  rewrite He2. clear. induction (m agent) as [|k IH]; [reflexivity|].
  simpl. now rewrite IH.
Qed.

End Actions.

(** C6.  A SARSA step does not let the trace decay: it sets every
    component to [gamma * lambda] and then adds 1.  From the trace of
    zeros of a new agent, with [gamma = lambda = 0.5], one step yields
    1.25 in every component where decaying and accumulating yields 1; from
    that trace a second step yields 1.25 again where decaying and
    accumulating yields 1.3125. *)
Theorem sarsa_step_overwrites_the_trace :
  let input := mkInput 0 true RIL_ACTION_NOTHING in
  exists s1 a1 s2 a2,
    agent_step 2 1024 two_properties one_address (the_agent one_address) input
    = Some (s1, a1)
    /\ agent_step 2 1024 two_properties s1 a1 input = Some (s2, a2)
    /\ e (the_agent one_address) = replicate 9 0%float
    /\ e a1 = replicate 9 1.25%float
    /\ spec_sarsa_trace 0.5 0.5 (e (the_agent one_address)) = replicate 9 1%float
    /\ e a2 = replicate 9 1.25%float
    /\ spec_sarsa_trace 0.5 0.5 (e a1) = replicate 9 1.3125%float.
Proof.
  do 4 eexists. split; [vm_compute; reflexivity|].
  split; [vm_compute; reflexivity|].
  repeat split; vm_compute; reflexivity.
Qed.

(** *** The bandwidth actions *)

Section Bandwidth.

Variable min_bw : Z.

Lemma same_address_suggestion solver agent p aa new_bw_in new_bw_out :
  address_inuse agent = Some p -> memory solver !! p = Some aa ->
  exists s1 a1,
    envi_set_active_suggestion solver agent (address_inuse agent) new_bw_in new_bw_out
      false = Some (s1, a1)
    /\ bw_in a1 = new_bw_in /\ bw_out a1 = new_bw_out
    /\ address_inuse a1 = Some p.
Proof.
  intros Hi Hp.
  destruct (envi_set_active_suggestion_is_Some solver agent (address_inuse agent)
              new_bw_in new_bw_out false) as [[s1 a1] E].
  - intros q Hq. rewrite Hi in Hq. injection Hq as <-. eauto.
  - intros q Hq. rewrite Hi in Hq. injection Hq as <-. eauto.
  - exists s1, a1. split; [assumption|].
    apply envi_set_active_suggestion_post in E.
    destruct E as (_ & _ & I & B & _).
    destruct (B p Hi) as (Bi & Bo & _). rewrite I. auto.
Qed.

(** C7.  For an agent that has an address in use (only such an agent
    takes a step), in both directions: the halve action and the decrement
    action leave the bandwidth of the agent at the minimum per-peer
    bandwidth or above, and the increment action adds five times that
    minimum (in the arithmetic of [unsigned long long]). *)
Theorem bandwidth_actions_respect_the_minimum :
  forall solver agent p aa (direction_in : bool),
    address_inuse agent = Some p -> memory solver !! p = Some aa ->
    0 <= min_bw -> 5 * min_bw < 2 ^ 32 ->
    let bw (a : RIL_Peer_Agent) := if direction_in then bw_in a else bw_out a in
    (exists s1 a1,
        envi_action_bw_halven min_bw solver agent direction_in = Some (s1, a1)
        /\ min_bw <= bw a1
        /\ bw a1 = Z.max (bw agent / 2) min_bw)
    /\ (exists s1 a1,
           envi_action_bw_dec min_bw solver agent direction_in = Some (s1, a1)
           /\ min_bw <= bw a1
           /\ bw a1 = Z.max (wrap64 (bw agent - 5 * min_bw)) min_bw)
    /\ (exists s1 a1,
           envi_action_bw_inc min_bw solver agent direction_in = Some (s1, a1)
           /\ bw a1 = wrap64 (bw agent + 5 * min_bw)).
Proof.
  intros solver agent p aa direction_in Hi Hp H0 H5 bw.
  assert (wrap32 (5 * min_bw) = 5 * min_bw) as E5 by (apply wrap32_small; lia).
  assert (forall x, (if x <? min_bw then min_bw else x) = Z.max x min_bw) as Emax
    by (intros x; destruct (Z.ltb_spec x min_bw); lia).
  unfold envi_action_bw_halven, envi_action_bw_dec, envi_action_bw_inc, bw.
  rewrite E5. rewrite !Emax.
  destruct direction_in.
  - split; [|split].
    + destruct (same_address_suggestion solver agent p aa
                  (Z.max (bw_in agent / 2) min_bw) (bw_out agent) Hi Hp)
        as (s1 & a1 & E & Bi & Bo & _).
      exists s1, a1. split; [exact E|]. rewrite Bi. split; lia.
    + destruct (same_address_suggestion solver agent p aa
                  (Z.max (wrap64 (bw_in agent - 5 * min_bw)) min_bw) (bw_out agent) Hi Hp)
        as (s1 & a1 & E & Bi & Bo & _).
      exists s1, a1. split; [exact E|]. rewrite Bi. split; lia.
    + destruct (same_address_suggestion solver agent p aa
                  (wrap64 (bw_in agent + 5 * min_bw)) (bw_out agent) Hi Hp)
        as (s1 & a1 & E & Bi & Bo & _).
      exists s1, a1. split; [exact E|exact Bi].
  - split; [|split].
    + destruct (same_address_suggestion solver agent p aa (bw_in agent)
                  (Z.max (bw_out agent / 2) min_bw) Hi Hp)
        as (s1 & a1 & E & Bi & Bo & _).
      exists s1, a1. split; [exact E|]. rewrite Bo. split; lia.
    + destruct (same_address_suggestion solver agent p aa (bw_in agent)
                  (Z.max (wrap64 (bw_out agent - 5 * min_bw)) min_bw) Hi Hp)
        as (s1 & a1 & E & Bi & Bo & _).
      exists s1, a1. split; [exact E|]. rewrite Bo. split; lia.
    + destruct (same_address_suggestion solver agent p aa (bw_in agent)
                  (wrap64 (bw_out agent + 5 * min_bw)) Hi Hp)
        as (s1 & a1 & E & Bi & Bo & _).
      exists s1, a1. split; [exact E|exact Bo].
Qed.

End Bandwidth.

Lemma bandwidth_actions_example :
  let bw (a : RIL_Peer_Agent) := bw_in a in
  (exists s1 a1,
      envi_action_bw_halven 1024 one_address (the_agent one_address) true = Some (s1, a1)
      /\ 1024 <= bw a1
      /\ bw a1 = Z.max (bw (the_agent one_address) / 2) 1024)
  /\ (exists s1 a1,
         envi_action_bw_dec 1024 one_address (the_agent one_address) true = Some (s1, a1)
         /\ 1024 <= bw a1
         /\ bw a1 = Z.max (wrap64 (bw (the_agent one_address) - 5 * 1024)) 1024)
  /\ (exists s1 a1,
         envi_action_bw_inc 1024 one_address (the_agent one_address) true = Some (s1, a1)
         /\ bw a1 = wrap64 (bw (the_agent one_address) + 5 * 1024)).
Proof.
  apply (bandwidth_actions_respect_the_minimum 1024 one_address (the_agent one_address)
           1%nat address_one true).
  - reflexivity.
  - vm_compute. reflexivity.
  - lia.
  - vm_compute. reflexivity.
Defined.

(** C9 (amended).  When [envi_set_active_suggestion] has succeeded, the
    same call once more changes nothing and calls no one; and the first
    call has called [bandwidth_changed_cb] exactly once if it changed the
    address or a bandwidth of an active agent, was not silent and there
    was an address to report, and not at all otherwise. *)
Theorem suggestion_is_idempotent :
  forall solver agent new_address new_bw_in new_bw_out silent s1 a1,
    envi_set_active_suggestion solver agent new_address new_bw_in new_bw_out silent
    = Some (s1, a1) ->
    envi_set_active_suggestion s1 a1 new_address new_bw_in new_bw_out silent
    = Some (s1, a1)
    /\ exists l,
         bandwidth_changed_cb s1 = bandwidth_changed_cb solver ++ l
         /\ length l = if calls agent new_address new_bw_in new_bw_out silent
                       then 1%nat else 0%nat.
Proof.
  intros solver agent new_address new_bw_in new_bw_out silent s1 a1 H.
  apply envi_set_active_suggestion_post in H.
  destruct H as (_ & FA & I & B & _ & L).
  split; [|exact L].
  rewrite <- I. apply envi_set_active_suggestion_unchanged.
  intros p Hp. rewrite I in Hp. destruct (B p Hp) as (Bi & Bo & aa & Ha & Hact).
  split; [assumption|]. split; [assumption|]. exists aa. split; [assumption|].
  destruct FA as (_ & -> & _). assumption.
Qed.

Lemma suggestion_twice_example :
  envi_set_active_suggestion (fst doubled) (snd doubled) (Some 1%nat) 2048 1024 false
  = Some (fst doubled, snd doubled)
  /\ exists l,
       bandwidth_changed_cb (fst doubled) = bandwidth_changed_cb one_address ++ l
       /\ length l = 1%nat.
Proof.
  apply (suggestion_is_idempotent one_address (the_agent one_address) (Some 1%nat)
           2048 1024 false (fst doubled) (snd doubled)).
  vm_compute. reflexivity.
Defined.

(** *** Adding and deleting an address *)

Section Resize.

Variable Q : nat.
Variable min_bw : Z.
Variable get_property : nat -> list float.

Abbreviation F := (RIL_FEATURES_ADDRESS_COUNT Q).

Lemma grow_rows (W0 : list (list float)) n0 m0 :
  length W0 = n0 -> Forall (fun row => length row = m0) W0 ->
  for_loop (fun i W =>
              if (i <? n0)%nat
              then update_at (fun row => Some (GNUNET_array_grow 0%float row m0 (m0 + F))) i W
              else update_at (fun row => Some (GNUNET_array_grow 0%float row 0 (m0 + F))) i W)
    (seq 0 (n0 + 1)) (GNUNET_array_grow [] W0 n0 (n0 + 1))
  = Some (map (fun row => row ++ replicate F 0%float) W0 ++ [replicate (m0 + F) 0%float]).
Proof.
  intros Hn Hm.
  rewrite (for_loop_ext _
             (fun i W => update_at
                           (fun row => Some (if (i <? n0)%nat
                                             then GNUNET_array_grow 0%float row m0 (m0 + F)
                                             else GNUNET_array_grow 0%float row 0 (m0 + F)))
                           i W))
    by (intros i W; now destruct (i <? n0)%nat).
  subst n0. rewrite GNUNET_array_grow_exact by lia.
  replace (length W0 + 1 - length W0)%nat with 1%nat by lia. simpl replicate.
  rewrite (for_loop_update_at_all _
             (fun i row => if (i <? length W0)%nat
                           then GNUNET_array_grow 0%float row m0 (m0 + F)
                           else GNUNET_array_grow 0%float row 0 (m0 + F)));
    [|reflexivity|rewrite length_app; simpl; lia].
  f_equal. rewrite imap_app. simpl. rewrite Nat.add_0_r, Nat.ltb_irrefl.
  f_equal.
  - rewrite <- imap_map. apply imap_ext. intros i row Hi.
    pose proof (lookup_lt_Some _ _ _ Hi) as Hlt. apply Nat.ltb_lt in Hlt. rewrite Hlt.
    rewrite Forall_lookup in Hm. specialize (Hm i row Hi). simpl in Hm. subst m0.
    rewrite GNUNET_array_grow_exact by lia.
    now replace (length row + F - length row)%nat with F by lia.
  - unfold GNUNET_array_grow. simpl. now rewrite Nat.sub_0_r.
Qed.

Lemma ril_network_is_active_eq s network k net :
  ril_get_network s network = Some k -> network_entries s !! k = Some net ->
  ril_network_is_active min_bw s network
  = Some (negb (bw_out_available net <? min_bw)).
Proof.
  intros Hk Hn. unfold ril_network_is_active. rewrite Hk, Hn.
  now destruct (bw_out_available net <? min_bw).
Qed.

Lemma assign_Some k net d_in d_out s :
  network_entries s !! k = Some net ->
  exists s1,
    assign (Some k) d_in d_out s = Some s1
    /\ parameters s1 = parameters s /\ agents s1 = agents s
    /\ memory s1 = memory s /\ bandwidth_changed_cb s1 = bandwidth_changed_cb s
    /\ length (network_entries s1) = length (network_entries s).
Proof.
  intros Hn. unfold assign, update_at. rewrite Hn. eexists. split; [reflexivity|].
  simpl. repeat split. apply length_insert.
Qed.

Lemma GAS_ril_address_add_spec s address network k net aa pos agent :
  ril_get_network s network = Some k ->
  network_entries s !! k = Some net -> min_bw <= bw_out_available net ->
  memory s !! address = Some aa ->
  ril_get_agent_from 0 (agents s) (Addr.peer aa) = Some pos ->
  agents s !! pos = Some agent ->
  sized agent ->
  (forall q, address_inuse agent = Some q -> is_Some (memory s !! q)) ->
  exists s1 agent1,
    GAS_ril_address_add Q min_bw get_property s address network = Some s1
    /\ agents s1 = <[pos := agent1]> (agents s)
    /\ n agent1 = (n agent + 1)%nat /\ m agent1 = (m agent + F)%nat
    /\ W agent1 = map (fun row => row ++ replicate F 0%float) (W agent)
                  ++ [replicate (m agent + F) 0%float]
    /\ s_old agent1 = s_old agent ++ replicate F 0%float
    /\ e agent1 = e agent ++ replicate F 0%float
    /\ a_old agent1 = a_old agent
    /\ addresses agent1 = addresses agent ++ [address]
    /\ peer agent1 = peer agent
    /\ address_inuse agent1
       = match address_inuse agent with Some q => Some q | None => Some address end
    /\ length (network_entries s1) = length (network_entries s)
    /\ memory_after_add address k s s1.
Proof.
  intros Hk Hn Hbw Ha Hpos Hag (HW & Hrows & Hs & He) Hin.
  unfold GAS_ril_address_add. rewrite Hk.
  rewrite (write_Some _ _ _ _ Ha).
  set (sA := set_memory _ s).
  assert (memory_after_add address k s sA) as HmA.
  { intros q. subst sA. simpl. destruct (decide (q = address)) as [->|Hne].
    - rewrite lookup_insert_eq, Ha. simpl. split; reflexivity.
    - rewrite lookup_insert_ne by congruence. split; reflexivity. }
  rewrite (ril_network_is_active_eq sA network k net Hk Hn).
  assert ((bw_out_available net <? min_bw) = false) as -> by (apply Z.ltb_ge; lia).
  simpl negb. cbv iota.
  assert (memory sA !! address
          = Some (Addr.mkAddress (Addr.peer aa) (Addr.active aa) (Addr.assigned_bw_in aa)
                    (Addr.assigned_bw_out aa) (Some k))) as HaA
    by (subst sA; simpl; apply lookup_insert_eq).
  rewrite HaA. cbn [Addr.peer].
  unfold ril_get_agent. change (agents sA) with (agents s). rewrite Hpos.
  cbv beta iota. change (agents sA) with (agents s). rewrite Hag. cbv beta iota.
  rewrite (grow_rows (W agent) (n agent) (m agent) HW Hrows).
  assert (forall v : list float, length v = m agent ->
            GNUNET_array_grow 0%float v (m agent) (m agent + F)
            = v ++ replicate F 0%float) as Hgrow.
  { intros v Hv. rewrite <- Hv at 1. rewrite GNUNET_array_grow_exact by lia.
    rewrite Hv. now replace (m agent + F - m agent)%nat with F by lia. }
  rewrite !Hgrow by assumption. clear Hgrow.
  cbn [address_inuse].
  destruct (address_inuse agent) as [q|] eqn:Ei.
  - eexists _, _. split; [reflexivity|]. cbn.
    repeat split; try reflexivity; apply HmA.
  - destruct (assign_Some k net min_bw min_bw sA Hn)
      as (sB & -> & PB & AB & MB & CB & LB).
    set (agent0 := mkAgent _ _ _ _ _ _ _ _ _ _ _ _ _).
    destruct (envi_set_active_suggestion_is_Some sB agent0 (Some address) min_bw min_bw
                false) as [[sC agentC] E].
    + intros q Hq. subst agent0. simpl in Hq. discriminate.
    + intros p [= <-]. rewrite MB, HaA. eauto.
    + rewrite E. apply envi_set_active_suggestion_post in E.
      destruct E as ((PC & NC & AC & SC) & FA & IC & _).
      destruct FA as (F1 & F2 & F3 & F4 & F5 & F6 & F7 & F8 & F9 & F10).
      assert (memory_after_add address k s sC) as HmC.
      { intros q. destruct (HmA q) as [H1 H2]. specialize (SC q).
        rewrite MB in SC. rewrite <- H1, <- H2.
        destruct (memory sC !! q) as [x|], (memory sA !! q) as [y|];
          simpl in SC; try discriminate; simpl.
        - assert (shape x = shape y) as Sxy by congruence.
          unfold shape in Sxy. injection Sxy as S1 S2.
          rewrite S1, S2. split; reflexivity.
        - split; reflexivity. }
      subst agent0. simpl in F1, F2, F3, F4, F5, F6, F7, F8, F9, F10.
      eexists _, agentC. split; [reflexivity|]. cbn.
      rewrite AC, AB, F4, F5, F6, F7, F8, F9, F10, F1, IC, NC, LB.
      repeat split; try reflexivity; apply HmC.
Qed.

Lemma ril_get_agent_from_lookup l peer0 : forall i pos,
  ril_get_agent_from i l peer0 = Some pos ->
  (i <= pos)%nat /\ exists a, l !! (pos - i)%nat = Some a /\ peer a = peer0.
Proof.
  induction l as [|c l IH]; intros i pos; simpl; [discriminate|].
  destruct (N.eqb_spec peer0 (peer c)) as [E|E].
  - intros [= <-]. split; [lia|]. rewrite Nat.sub_diag. simpl. eauto.
  - intros H. destruct (IH _ _ H) as (Hle & a & Ha & Hp).
    split; [lia|].
    replace (pos - i)%nat with (S (pos - S i)) by lia. simpl. eauto.
Qed.

Lemma agent_address_get_index_from_eq cur address : forall i idx,
  agent_address_get_in cur address = Some idx ->
  agent_address_get_index_from i cur address = i + 1 + Z.of_nat idx.
Proof.
  induction cur as [|c cur IH]; intros i idx; simpl; [discriminate|].
  destruct (Nat.eqb c address).
  - intros [= <-]. lia.
  - destruct (agent_address_get_in cur address) as [k|] eqn:E; [|discriminate].
    intros [= <-]. rewrite (IH (i + 1) k eq_refl). lia.
Qed.

Lemma assign_valid k d_in d_out s :
  (k < length (network_entries s))%nat ->
  exists s1,
    assign (Some k) d_in d_out s = Some s1
    /\ parameters s1 = parameters s /\ agents s1 = agents s
    /\ memory s1 = memory s /\ bandwidth_changed_cb s1 = bandwidth_changed_cb s
    /\ length (network_entries s1) = length (network_entries s).
Proof.
  intros Hk. apply lookup_lt_is_Some_2 in Hk. destruct Hk as [net Hn].
  now apply (assign_Some k net).
Qed.

Lemma cut_rows (W0 : list (list float)) n0 m0 hole_start :
  length W0 = n0 -> Forall (fun row => length row = m0) W0 ->
  (F < m0)%nat -> (hole_start + F <= m0)%nat ->
  for_loop (fun i W => update_at (fun row => ril_cut_from_vector row hole_start F m0) i W)
    (seq 0 n0) W0
  = Some (map (without_columns Q hole_start) W0).
Proof.
  intros Hn Hm H1 H2.
  rewrite (for_loop_update_at_all _
             (fun _ row => firstn hole_start row
                           ++ firstn (m0 - hole_start - F) (skipn (hole_start + F) row)));
    [|intros; now apply ril_cut_from_vector_Some|now symmetry].
  f_equal. rewrite <- imap_map. apply imap_ext. intros i row Hi.
  rewrite Forall_lookup in Hm. specialize (Hm i row Hi). simpl in Hm.
  unfold without_columns. f_equal. apply firstn_all2. rewrite length_skipn. lia.
Qed.

Lemma GAS_ril_address_delete_spec s address aa pos agent idx session_only :
  memory s !! address = Some aa ->
  ril_get_agent_from 0 (agents s) (Addr.peer aa) = Some pos ->
  agents s !! pos = Some agent ->
  agent_address_get agent address = Some idx ->
  sized agent ->
  (F < m agent)%nat ->
  (networks_count s * RIL_FEATURES_NETWORK_COUNT + idx * F + F <= m agent)%nat ->
  (Z.to_nat RIL_ACTION_TYPE_NUM + idx + 1 <= n agent)%nat ->
  (Addr.active aa = true ->
   exists k, Addr.solver_information aa = Some k
             /\ (k < length (network_entries s))%nat) ->
  (forall q, address_inuse agent = Some q -> is_Some (memory s !! q)) ->
  (forall q, head (delete idx (addresses agent)) = Some q ->
             exists aq k, memory s !! q = Some aq
                          /\ Addr.solver_information aq = Some k
                          /\ (k < length (network_entries s))%nat) ->
  let hole_start :=
    (networks_count s * RIL_FEATURES_NETWORK_COUNT + idx * F)%nat in
  exists s1 agent1,
    GAS_ril_address_delete Q min_bw get_property s address session_only = Some s1
    /\ agents s1 = <[pos := agent1]> (agents s)
    /\ n agent1 = (n agent - 1)%nat /\ m agent1 = (m agent - F)%nat
    /\ W agent1
       = firstn (Z.to_nat RIL_ACTION_TYPE_NUM + idx)
           (map (without_columns Q hole_start) (W agent))
         ++ skipn (Z.to_nat RIL_ACTION_TYPE_NUM + idx + 1)
              (map (without_columns Q hole_start) (W agent))
    /\ s_old agent1 = without_columns Q hole_start (s_old agent)
    /\ e agent1 = without_columns Q hole_start (e agent)
    /\ a_old agent1 = corrected_last_action idx (a_old agent)
    /\ addresses agent1 = delete idx (addresses agent)
    /\ peer agent1 = peer agent.
Proof.
  intros Ha Hpos Hag Hidx (HW & Hrows & Hs & He) HF Hhole Hn Hnet Hin Hhead hole_start.
  unfold GAS_ril_address_delete. rewrite Ha.
  unfold ril_get_agent. rewrite Hpos. cbv beta iota. rewrite Hag. cbv beta iota.
  rewrite Hidx.
  unfold agent_address_get_index. unfold agent_address_get in Hidx.
  rewrite (agent_address_get_index_from_eq _ _ (-1) idx Hidx).
  replace (-1 + 1 + Z.of_nat idx) with (Z.of_nat idx) by lia.
  rewrite Nat2Z.id. fold hole_start.
  rewrite (cut_rows (W agent) (n agent) (m agent) hole_start HW Hrows HF)
    by (subst hole_start; lia).
  replace (Z.to_nat (RIL_ACTION_TYPE_NUM + Z.of_nat idx))
    with (Z.to_nat RIL_ACTION_TYPE_NUM + idx)%nat
    by (unfold RIL_ACTION_TYPE_NUM; lia).
  rewrite (ril_cut_from_vector_eq (map (without_columns Q hole_start) (W agent)))
    by (rewrite ?length_map; unfold RIL_ACTION_TYPE_NUM in *; lia).
  rewrite (ril_cut_from_vector_eq (s_old agent)) by (subst hole_start; lia).
  rewrite (ril_cut_from_vector_eq (e agent)) by (subst hole_start; lia).
  fold (without_columns Q hole_start (s_old agent)).
  fold (without_columns Q hole_start (e agent)).
  fold (corrected_last_action idx (a_old agent)).
  set (agent0 := mkAgent _ _ _ _ _ _ _ _ _ _ _ _ _).
  assert (address_inuse agent0 = address_inuse agent) as Hi0 by reflexivity.
  assert (addresses agent0 = delete idx (addresses agent)) as Ha0 by reflexivity.
  assert (exists s1 agent1,
             (if Addr.active aa
              then
                match assign (Addr.solver_information aa) (- bw_in agent0)
                        (- bw_out agent0) s with
                | Some s0 =>
                    match head (delete idx (addresses agent)) with
                    | Some first =>
                        match envi_set_active_suggestion s0 agent0 (Some first)
                                min_bw min_bw false with
                        | Some (s2, agent2) =>
                            match memory s2 !! first with
                            | Some aa_first =>
                                match assign (Addr.solver_information aa_first)
                                        (- min_bw) (- min_bw) s2 with
                                | Some s3 => Some (s3, agent2)
                                | None => None
                                end
                            | None => None
                            end
                        | None => None
                        end
                    | None => envi_set_active_suggestion s0 agent0 None 0 0 false
                    end
                | None => None
                end
              else Some (s, agent0)) = Some (s1, agent1)
             /\ agents s1 = agents s /\ frame_agent agent0 agent1)
    as (s1 & agent1 & E & Hags & FA).
  { destruct (Addr.active aa) eqn:Hact.
    2:{ exists s, agent0. split; [reflexivity|]. split; [reflexivity|].
        apply frame_agent_refl. }
    destruct (Hnet eq_refl) as (k & -> & Hk).
    destruct (assign_valid k (- bw_in agent0) (- bw_out agent0) s Hk)
      as (sB & -> & PB & AB & MB & CB & LB).
    destruct (head (delete idx (addresses agent))) as [first|] eqn:Eh.
    - destruct (Hhead first eq_refl) as (aq & k' & Hq & Hsi & Hk').
      destruct (envi_set_active_suggestion_is_Some sB agent0 (Some first) min_bw min_bw
                  false) as [[sC agentC] E].
      + intros q Hq'. rewrite MB. apply Hin. now rewrite <- Hi0.
      + intros p [= <-]. rewrite MB. eauto.
      + rewrite E. apply envi_set_active_suggestion_post in E.
        destruct E as ((PC & NC & AC & SC) & FA & _).
        specialize (SC first). rewrite MB, Hq in SC.
        destruct (memory sC !! first) as [aq'|]; [|discriminate].
        assert (shape aq' = shape aq) as Sq by (simpl in SC; congruence).
        unfold shape in Sq. injection Sq as _ Sq. rewrite Sq, Hsi.
        destruct (assign_valid k' (- min_bw) (- min_bw) sC) as (sD & -> & PD & AD & _).
        { rewrite NC, LB. exact Hk'. }
        exists sD, agentC. split; [reflexivity|]. split; [congruence|assumption].
    - destruct (envi_set_active_suggestion_is_Some sB agent0 None 0 0 false)
        as [[sC agentC] E].
      + intros q Hq'. rewrite MB. apply Hin. now rewrite <- Hi0.
      + discriminate.
      + rewrite E. apply envi_set_active_suggestion_post in E.
        destruct E as ((PC & NC & AC & SC) & FA & _).
        exists sC, agentC. split; [reflexivity|]. split; [congruence|assumption]. }
  rewrite E. cbv beta iota. eexists. exists agent1. split; [reflexivity|].
  destruct FA as (F1 & F2 & F3 & F4 & F5 & F6 & F7 & F8 & F9 & F10).
  cbn. rewrite Hags, F4, F5, F6, F7, F8, F9, F10, F1.
  repeat split; reflexivity.
Qed.

Lemma without_columns_grown row hole_start :
  length row = (hole_start + F)%nat ->
  without_columns Q hole_start (row ++ replicate F 0%float)
  = firstn hole_start row ++ replicate F 0%float.
Proof.
  intros H. unfold without_columns.
  rewrite firstn_app, skipn_app, H.
  replace (hole_start - (hole_start + F))%nat with 0%nat by lia.
  replace (hole_start + F - (hole_start + F))%nat with 0%nat by lia.
  simpl. rewrite app_nil_r.
  rewrite (skipn_all2 row) by lia. reflexivity.
Qed.

Lemma without_columns_zeros hole_start k :
  without_columns Q hole_start (replicate (hole_start + F + k) 0%float)
  = replicate (hole_start + k) 0%float.
Proof.
  unfold without_columns.
  rewrite take_replicate, drop_replicate, <- replicate_add. f_equal. lia.
Qed.

(** C4. An agent with one address [a1] has a feature vector of length
    [4 * N + (3 + Q)] and ten actions.  Adding a second address [a2] of
    the same peer succeeds and gives the weight matrix one more action
    row and [3 + Q] more columns in every row; the new entries are zero
    and every weight learned so far stays where it was.  Deleting [a1]
    afterwards succeeds too: it cuts exactly the [3 + Q] columns of [a1]
    out of every row and removes the row of the action that switches to
    [a1], so the matrix has its first size again; a last action above
    that switch action is lowered by one, a last action equal to it
    becomes invalid, a last action below it is kept. *)
Theorem resize_preserves_learned_weights
    s a1 a2 aa1 aa2 network k net k1 pos agent :
  a1 <> a2 ->
  memory s !! a1 = Some aa1 -> memory s !! a2 = Some aa2 ->
  Addr.peer aa1 = Addr.peer aa2 ->
  ril_get_agent_from 0 (agents s) (Addr.peer aa2) = Some pos ->
  agents s !! pos = Some agent ->
  addresses agent = [a1] ->
  sized agent ->
  n agent = 10%nat ->
  m agent = (networks_count s * RIL_FEATURES_NETWORK_COUNT + F)%nat ->
  Addr.solver_information aa1 = Some k1 ->
  (k1 < networks_count s)%nat ->
  ril_get_network s network = Some k ->
  network_entries s !! k = Some net -> min_bw <= bw_out_available net ->
  (forall q, address_inuse agent = Some q -> is_Some (memory s !! q)) ->
  let N4 := (networks_count s * RIL_FEATURES_NETWORK_COUNT)%nat in
  exists s1 agent1 s2 agent2,
    GAS_ril_address_add Q min_bw get_property s a2 network = Some s1
    /\ agents s1 !! pos = Some agent1
    /\ n agent1 = 11%nat /\ m agent1 = (N4 + F + F)%nat
    /\ W agent1 = map (fun row => row ++ replicate F 0%float) (W agent)
                  ++ [replicate (N4 + F + F) 0%float]
    /\ (forall i j row w,
          W agent !! i = Some row -> row !! j = Some w ->
          exists row1, W agent1 !! i = Some row1 /\ row1 !! j = Some w)
    /\ a_old agent1 = a_old agent
    /\ addresses agent1 = [a1; a2]
    /\ GAS_ril_address_delete Q min_bw get_property s1 a1 false = Some s2
    /\ agents s2 !! pos = Some agent2
    /\ n agent2 = 10%nat /\ m agent2 = (N4 + F)%nat
    /\ W agent2 = map (fun row => firstn N4 row ++ replicate F 0%float)
                    (firstn 9 (W agent))
                  ++ [replicate (N4 + F) 0%float]
    /\ (9 < a_old agent -> a_old agent2 = a_old agent - 1)
    /\ (a_old agent = 9 -> a_old agent2 = RIL_ACTION_INVALID)
    /\ (a_old agent < 9 -> a_old agent2 = a_old agent)
    /\ addresses agent2 = [a2].
Proof.
  intros Hne Hm1 Hm2 Hpeer Hpos Hag Hadr Hsized Hn Hm Hsi Hk1 Hnet Hent Hbw Hin N4.
  destruct (GAS_ril_address_add_spec s a2 network k net aa2 pos agent
              Hnet Hent Hbw Hm2 Hpos Hag Hsized Hin)
    as (s1 & agent1 & Eadd & Hags1 & Hn1 & Hmm1 & HW1 & Hs1 & He1 & Ha1 & Hadr1 & Hp1
        & Hi1 & Hlen1 & Hmem1).
  pose proof Hsized as (HWl & Hrows & Hsl & Hel).
  assert (agents s1 !! pos = Some agent1) as Hag1.
  { rewrite Hags1. apply list_lookup_insert_eq. eapply lookup_lt_Some; eauto. }
  assert (exists aa1', memory s1 !! a1 = Some aa1'
                       /\ Addr.peer aa1' = Addr.peer aa1
                       /\ Addr.solver_information aa1' = Some k1)
    as (aa1' & Hm1' & Hp1' & Hsi1').
  { destruct (Hmem1 a1) as [P S]. rewrite Hm1 in P, S.
    destruct (decide (a1 = a2)); [contradiction|].
    destruct (memory s1 !! a1) as [x|]; [|discriminate].
    exists x. simpl in P, S. split; [reflexivity|]. split; congruence. }
  assert (exists aa2', memory s1 !! a2 = Some aa2'
                       /\ Addr.solver_information aa2' = Some k)
    as (aa2' & Hm2' & Hsi2').
  { destruct (Hmem1 a2) as [P S]. rewrite Hm2 in P, S.
    destruct (decide (a2 = a2)); [|contradiction].
    destruct (memory s1 !! a2) as [x|]; [|discriminate].
    exists x. simpl in S. split; [reflexivity|]. congruence. }
  assert (sized agent1) as Hsized1.
  { split; [|split; [|split]].
    - rewrite HW1, length_app, length_map. simpl. lia.
    - rewrite HW1. apply Forall_app. split.
      + apply Forall_map. eapply Forall_impl; [exact Hrows|].
        intros row Hr. unfold compose. cbv beta in *.
        rewrite length_app, length_replicate. lia.
      + constructor; [|constructor]. cbv beta. rewrite Hmm1. apply length_replicate.
    - rewrite Hs1, length_app, length_replicate. lia.
    - rewrite He1, length_app, length_replicate. lia. }
  assert (networks_count s1 = networks_count s) as Hnc by exact Hlen1.
  destruct (GAS_ril_address_delete_spec s1 a1 aa1' pos agent1 0 false) as
    (s2 & agent2 & Edel & Hags2 & Hn2 & Hmm2 & HW2 & Hs2 & He2 & Ha2 & Hadr2 & Hp2).
  - exact Hm1'.
  - rewrite Hags1, Hp1', Hpeer.
    destruct (ril_get_agent_from_insert (agents s) (Addr.peer aa2) agent1 0 pos Hpos)
      as [_ H].
    + rewrite Hp1. destruct (ril_get_agent_from_lookup _ _ _ _ Hpos) as (_ & a & Ha & Hp).
      rewrite Nat.sub_0_r in Ha. congruence.
    + rewrite Nat.sub_0_r in H. exact H.
  - exact Hag1.
  - unfold agent_address_get. rewrite Hadr1, Hadr. simpl. now rewrite Nat.eqb_refl.
  - exact Hsized1.
  - rewrite Hmm1, Hm. unfold RIL_FEATURES_ADDRESS_COUNT. lia.
  - rewrite Hmm1, Hnc, Hm. lia.
  - rewrite Hn1, Hn. unfold RIL_ACTION_TYPE_NUM. lia.
  - intros _. exists k1. split; [exact Hsi1'|]. rewrite Hlen1. exact Hk1.
  - intros q. rewrite Hi1. intros Hq.
    assert (is_Some (memory s !! q)) as [x Hx].
    { destruct (address_inuse agent) as [q'|]; injection Hq as <-; eauto. }
    destruct (Hmem1 q) as [P _]. rewrite Hx in P.
    destruct (memory s1 !! q); [eauto|discriminate].
  - rewrite Hadr1, Hadr. simpl. intros q [= <-].
    exists aa2', k. split; [exact Hm2'|]. split; [exact Hsi2'|].
    rewrite Hlen1. eapply lookup_lt_Some; eauto.
  - assert (W agent1 = map (fun row => row ++ replicate F 0%float) (W agent)
                        ++ [replicate (N4 + F + F) 0%float]) as HW1'.
    { rewrite HW1, Hm. reflexivity. }
    exists s1, agent1, s2, agent2.
    split; [exact Eadd|]. split; [exact Hag1|].
    split; [lia|]. split; [subst N4; lia|]. split; [exact HW1'|].
    split.
    { intros i j row w Hi Hj. exists (row ++ replicate F 0%float). split.
      - rewrite HW1. apply lookup_app_l_Some. rewrite list_lookup_fmap, Hi. reflexivity.
      - now apply lookup_app_l_Some. }
    split; [exact Ha1|]. split; [now rewrite Hadr1, Hadr|].
    split; [exact Edel|].
    split.
    { rewrite Hags2. apply list_lookup_insert_eq. eapply lookup_lt_Some; eauto. }
    split; [lia|]. split; [subst N4; lia|].
    split.
    { rewrite HW2, Hnc. fold N4. rewrite HW1'. clear HW2.
      replace (N4 + 0 * F)%nat with N4 by lia.
      rewrite map_app. cbn [map].
      rewrite (without_columns_zeros N4 F).
      rewrite map_map.
      rewrite (map_ext_in _ (fun row => firstn N4 row ++ replicate F 0%float)).
      2:{ intros row Hr. apply without_columns_grown.
          rewrite Forall_forall in Hrows. rewrite (Hrows row); [subst N4; lia|].
          now apply list_elem_of_In. }
      set (g := fun row : list float => firstn N4 row ++ replicate F 0%float).
      assert (length (map g (W agent)) = 10%nat) as Hl by (rewrite length_map; lia).
      replace (Z.to_nat RIL_ACTION_TYPE_NUM + 0)%nat with 9%nat by reflexivity.
      replace (9 + 1)%nat with 10%nat by reflexivity.
      rewrite firstn_app, skipn_app, Hl. simpl (9 - 10)%nat. simpl (10 - 10)%nat.
      rewrite (skipn_all2 (map g (W agent))) by lia.
      simpl. rewrite app_nil_r. now rewrite firstn_map. }
    rewrite Ha2, Ha1. unfold corrected_last_action, RIL_ACTION_TYPE_NUM, RIL_ACTION_INVALID.
    change (9 + Z.of_nat 0) with 9.
    split; [intros H; apply Z.ltb_lt in H; now rewrite H|].
    split.
    { intros H. rewrite H. reflexivity. }
    split.
    { intros H. destruct (Z.ltb_spec 9 (a_old agent)); [lia|].
      destruct (Z.eqb_spec (a_old agent) 9); [lia|reflexivity]. }
    now rewrite Hadr2, Hadr1, Hadr.
Qed.

End Resize.

(** The weights of the action that does nothing, which [learned] has
    learned, stay in their columns when the second address is added, and
    the last action, which switched to the first address, is invalid once
    that address is deleted. *)
Lemma resize_example :
  exists s1 agent1 s2 agent2,
    GAS_ril_address_add 2 1024 two_properties learned 2%nat 3 = Some s1
    /\ agents s1 !! 0%nat = Some agent1
    /\ n agent1 = 11%nat /\ m agent1 = 14%nat
    /\ W agent1 = map (fun row => row ++ replicate 5 0%float) (W (the_agent learned))
                  ++ [replicate 14 0%float]
    /\ (forall i j row w,
          W (the_agent learned) !! i = Some row -> row !! j = Some w ->
          exists row1, W agent1 !! i = Some row1 /\ row1 !! j = Some w)
    /\ a_old agent1 = 9
    /\ addresses agent1 = [1%nat; 2%nat]
    /\ GAS_ril_address_delete 2 1024 two_properties s1 1%nat false = Some s2
    /\ agents s2 !! 0%nat = Some agent2
    /\ n agent2 = 10%nat /\ m agent2 = 9%nat
    /\ W agent2 = map (fun row => firstn 4 row ++ replicate 5 0%float)
                    (firstn 9 (W (the_agent learned)))
                  ++ [replicate 9 0%float]
    /\ (9 < 9 -> a_old agent2 = 9 - 1)
    /\ (9 = 9 -> a_old agent2 = RIL_ACTION_INVALID)
    /\ (9 < 9 -> a_old agent2 = 9)
    /\ addresses agent2 = [2%nat].
Proof.
  apply (resize_preserves_learned_weights 2 1024 two_properties learned 1%nat 2%nat
           (Addr.mkAddress 7%N true 262144 262144 (Some 0%nat))
           (Addr.mkAddress 7%N false 0 0 None)
           3 0%nat (mkNet 3 100000 2048 100000 2048) 0%nat 0%nat (the_agent learned)).
  - lia.
  - vm_compute. reflexivity.
  - vm_compute. reflexivity.
  - reflexivity.
  - reflexivity.
  - reflexivity.
  - reflexivity.
  - repeat split; repeat constructor.
  - reflexivity.
  - reflexivity.
  - reflexivity.
  - vm_compute. lia.
  - reflexivity.
  - reflexivity.
  - vm_compute. discriminate.
  - intros q H. vm_compute in H. injection H as <-. vm_compute. eauto.
Defined.



End RilFacts.

(** * Further properties *)

(** ** The network classifier *)

Module ClassifierProperties.

Import Addresses ByteOrderFacts ClassifierNotions ClassifierFacts.

Lemma check_local_networks_ipv6 cur a0 a1 a2 a3 addrlen :
  check_local_networks cur (sockaddr_in6 a0 a1 a2 a3) addrlen GNUNET_ATS_NET_UNSPECIFIED
  = if existsb (code_ipv6_match a0 a1 a2 a3 addrlen) cur
    then GNUNET_ATS_NET_LAN else GNUNET_ATS_NET_UNSPECIFIED.
Proof.
  induction cur as [|c cur IH]; simpl; [reflexivity|].
  unfold code_ipv6_match at 1.
  destruct (addrlen =? net_length c); simpl; [|exact IH].
  destruct (network c) as [|n0 n1 n2 n3|]; simpl; try exact IH.
  destruct (netmask c) as [|m0 m1 m2 m3|]; simpl; try exact IH.
  destruct (Z.lor (Z.land a0 m0) n0 =? n0), (Z.lor (Z.land a1 m1) n1 =? n1),
    (Z.lor (Z.land a2 m2) n2 =? n2), (Z.lor (Z.land a3 m3) n3 =? n3);
    simpl; try exact IH; now apply check_local_networks_decided.
Qed.

Lemma GAS_addresses_type_ipv6 net_head a0 a1 a2 a3 addrlen :
  GAS_addresses_type net_head (sockaddr_in6 a0 a1 a2 a3) addrlen
  = if IN6_IS_ADDR_LOOPBACK a0 a1 a2 a3 then GNUNET_ATS_NET_LOOPBACK
    else if existsb (code_ipv6_match a0 a1 a2 a3 addrlen) net_head
         then GNUNET_ATS_NET_LAN else GNUNET_ATS_NET_WAN.
Proof.
  unfold GAS_addresses_type.
  destruct (IN6_IS_ADDR_LOOPBACK a0 a1 a2 a3).
  - rewrite check_local_networks_decided; [reflexivity|discriminate].
  - rewrite check_local_networks_ipv6. now destruct (existsb _ _).
Qed.

Lemma check_local_networks_other cur addrlen :
  check_local_networks cur sockaddr_other addrlen GNUNET_ATS_NET_UNSPECIFIED
  = GNUNET_ATS_NET_UNSPECIFIED.
Proof.
  induction cur as [|c cur IH]; simpl; [reflexivity|].
  destruct (addrlen =? net_length c); simpl; exact IH.
Qed.

(** X1.  The classifier answers LOOPBACK, LAN or WAN and nothing else,
    whatever the interface table holds; an address that is neither IPv4
    nor IPv6 is WAN. *)
Theorem classifier_answers_loopback_lan_or_wan :
  forall net_head addr addrlen,
    (GAS_addresses_type net_head addr addrlen = GNUNET_ATS_NET_LOOPBACK
     \/ GAS_addresses_type net_head addr addrlen = GNUNET_ATS_NET_LAN
     \/ GAS_addresses_type net_head addr addrlen = GNUNET_ATS_NET_WAN)
    /\ GAS_addresses_type net_head sockaddr_other addrlen = GNUNET_ATS_NET_WAN.
Proof.
  intros net_head addr addrlen. split.
  - destruct addr as [s_addr|a0 a1 a2 a3|].
    + rewrite GAS_addresses_type_ipv4.
      destruct (is_loopback_v4 s_addr); [auto|]. destruct (existsb _ _); auto.
    + rewrite GAS_addresses_type_ipv6.
      destruct (IN6_IS_ADDR_LOOPBACK _ _ _ _); [auto|]. destruct (existsb _ _); auto.
    + unfold GAS_addresses_type. rewrite check_local_networks_other. auto.
  - unfold GAS_addresses_type. now rewrite check_local_networks_other.
Qed.

(** X2.  Once [interface_proc] has entered an interface into the table,
    every address of the same family and length that agrees with the
    address of the interface under its netmask, and is not a loopback
    address, is classified LAN; so is the address of the interface
    itself. *)
Theorem addresses_of_an_interface_network_are_lan :
  forall net_head addrlen x mask a,
    is_loopback a = false -> same_network a x mask = true ->
    GAS_addresses_type (interface_proc x mask addrlen net_head) a addrlen
    = GNUNET_ATS_NET_LAN.
Proof.
  intros net_head addrlen x mask a Hl Hs.
  destruct a as [a|a0 a1 a2 a3|], x as [x|x0 x1 x2 x3|], mask as [m|m0 m1 m2 m3|];
    try discriminate; simpl in Hl, Hs.
  - apply Z.eqb_eq in Hs. rewrite GAS_addresses_type_ipv4, Hl.
    simpl. unfold code_ipv4_match at 1. simpl.
    rewrite Z.eqb_refl, Hs, Z.land_diag, Z.eqb_refl. reflexivity.
  - apply andb_prop in Hs. destruct Hs as [Hs H3].
    apply andb_prop in Hs. destruct Hs as [Hs H2].
    apply andb_prop in Hs. destruct Hs as [H0 H1].
    apply Z.eqb_eq in H0, H1, H2, H3.
    rewrite GAS_addresses_type_ipv6, Hl.
    simpl. unfold code_ipv6_match at 1. simpl.
    rewrite Z.eqb_refl, H0, H1, H2, H3, !Z.lor_diag, !Z.eqb_refl. reflexivity.
Qed.

Lemma neighbour_of_an_interface_is_lan :
  GAS_addresses_type
    (interface_proc (sockaddr_in (inet_addr 192 168 0 1))
       (sockaddr_in (inet_addr 255 255 255 0)) 16 [])
    (sockaddr_in (inet_addr 192 168 0 5)) 16
  = GNUNET_ATS_NET_LAN.
Proof.
  apply (addresses_of_an_interface_network_are_lan [] 16
           (sockaddr_in (inet_addr 192 168 0 1))
           (sockaddr_in (inet_addr 255 255 255 0))
           (sockaddr_in (inet_addr 192 168 0 5))).
  - vm_compute. reflexivity.
  - vm_compute. reflexivity.
Defined.

(** X3.  An IPv6 address that is not the loopback address is LAN exactly
    when some entry of the table has its length and lets
    [(addr & netmask) | network == network] hold in all four words, and
    WAN otherwise; an address whose four words vanish under a netmask is
    therefore LAN for every network with that netmask. *)
Theorem ipv6_lan_iff :
  forall net_head a0 a1 a2 a3 addrlen,
    IN6_IS_ADDR_LOOPBACK a0 a1 a2 a3 = false ->
    (GAS_addresses_type net_head (sockaddr_in6 a0 a1 a2 a3) addrlen = GNUNET_ATS_NET_LAN
     <-> exists c, In c net_head /\ code_ipv6_match a0 a1 a2 a3 addrlen c = true)
    /\ (GAS_addresses_type net_head (sockaddr_in6 a0 a1 a2 a3) addrlen = GNUNET_ATS_NET_WAN
        <-> forall c, In c net_head -> code_ipv6_match a0 a1 a2 a3 addrlen c = false)
    /\ (forall n0 n1 n2 n3 m0 m1 m2 m3,
          In (mkNetwork (sockaddr_in6 n0 n1 n2 n3) (sockaddr_in6 m0 m1 m2 m3) addrlen)
            net_head ->
          Z.land a0 m0 = 0 -> Z.land a1 m1 = 0 -> Z.land a2 m2 = 0 -> Z.land a3 m3 = 0 ->
          GAS_addresses_type net_head (sockaddr_in6 a0 a1 a2 a3) addrlen
          = GNUNET_ATS_NET_LAN).
Proof.
  intros net_head a0 a1 a2 a3 addrlen Hl.
  rewrite GAS_addresses_type_ipv6, Hl.
  assert (existsb (code_ipv6_match a0 a1 a2 a3 addrlen) net_head = true
          <-> exists c, In c net_head /\ code_ipv6_match a0 a1 a2 a3 addrlen c = true)
    as Hex by apply existsb_exists.
  split; [|split].
  - destruct (existsb _ net_head); split; try tauto; try discriminate.
    intros H. apply Hex in H. discriminate.
  - destruct (existsb _ net_head) eqn:E; split; try discriminate; try reflexivity.
    + intros H. destruct (proj1 Hex eq_refl) as (c & Hc & Hm).
      rewrite (H c Hc) in Hm. discriminate.
    + intros _ c Hc. destruct (code_ipv6_match a0 a1 a2 a3 addrlen c) eqn:Em;
        [|reflexivity].
      assert (false = true) by (apply Hex; eauto). discriminate.
  - intros n0 n1 n2 n3 m0 m1 m2 m3 Hin H0 H1 H2 H3.
    assert (existsb (code_ipv6_match a0 a1 a2 a3 addrlen) net_head = true) as ->;
      [|reflexivity].
    apply Hex. eexists. split; [exact Hin|].
    unfold code_ipv6_match. simpl.
    rewrite Z.eqb_refl, H0, H1, H2, H3. simpl. rewrite !Z.eqb_refl. reflexivity.
Qed.

Lemma ipv6_lan_example :
  (GAS_addresses_type
     [mkNetwork (sockaddr_in6 (htonl 0x20010db8) 0 0 0)
        (sockaddr_in6 (htonl 0xffffffff) 0 0 0) 28]
     (sockaddr_in6 0 0 0 (htonl 2)) 28 = GNUNET_ATS_NET_LAN
   <-> exists c,
         In c [mkNetwork (sockaddr_in6 (htonl 0x20010db8) 0 0 0)
                 (sockaddr_in6 (htonl 0xffffffff) 0 0 0) 28]
         /\ code_ipv6_match 0 0 0 (htonl 2) 28 c = true)
  /\ (GAS_addresses_type
        [mkNetwork (sockaddr_in6 (htonl 0x20010db8) 0 0 0)
           (sockaddr_in6 (htonl 0xffffffff) 0 0 0) 28]
        (sockaddr_in6 0 0 0 (htonl 2)) 28 = GNUNET_ATS_NET_WAN
      <-> forall c,
            In c [mkNetwork (sockaddr_in6 (htonl 0x20010db8) 0 0 0)
                    (sockaddr_in6 (htonl 0xffffffff) 0 0 0) 28] ->
            code_ipv6_match 0 0 0 (htonl 2) 28 c = false)
  /\ (forall n0 n1 n2 n3 m0 m1 m2 m3,
        In (mkNetwork (sockaddr_in6 n0 n1 n2 n3) (sockaddr_in6 m0 m1 m2 m3) 28)
          [mkNetwork (sockaddr_in6 (htonl 0x20010db8) 0 0 0)
             (sockaddr_in6 (htonl 0xffffffff) 0 0 0) 28] ->
        Z.land 0 m0 = 0 -> Z.land 0 m1 = 0 -> Z.land 0 m2 = 0 ->
        Z.land (htonl 2) m3 = 0 ->
        GAS_addresses_type
          [mkNetwork (sockaddr_in6 (htonl 0x20010db8) 0 0 0)
             (sockaddr_in6 (htonl 0xffffffff) 0 0 0) 28]
          (sockaddr_in6 0 0 0 (htonl 2)) 28
        = GNUNET_ATS_NET_LAN).
Proof.
  apply (ipv6_lan_iff
           [mkNetwork (sockaddr_in6 (htonl 0x20010db8) 0 0 0)
              (sockaddr_in6 (htonl 0xffffffff) 0 0 0) 28]
           0 0 0 (htonl 2) 28).
  vm_compute. reflexivity.
Defined.

End ClassifierProperties.

(** ** The address registry *)

Module RegistryProperties.

Import Addresses ByteOrderFacts RegistryNotions RegistryFacts.


Lemma update_bw_it_calls p st :
  List.NoDup (keys (addresses st)) ->
  0 < active_addr_count st \/ number_active (addresses st) = 0 ->
  update_bw_it p st
  = Some (call (calls_at (wan_quota_in st) (wan_quota_out st) (active_addr_count st)
                  (addresses st) p)
            (set_addresses
               (map (fun e => if Nat.eqb p (fst e) then share_of st e else e)
                  (addresses st)) st)).
Proof.
  intros Hnd Hc. unfold update_bw_it, calls_at.
  destruct (deref p (addresses st)) as [aa|] eqn:Hd.
  - destruct (active aa) eqn:Ha; simpl.
    + assert (0 < active_addr_count st) as Hpos.
      { destruct Hc as [|Hc]; [assumption|].
        pose proof (number_active_pos _ _ _ Hd Ha). lia. }
      apply Z.ltb_lt in Hpos. rewrite Hpos. simpl.
      unfold announcement. do 3 f_equal.
      apply (modify_as_map _ _ _ _ aa Hnd Hd).
      unfold share_of, share. simpl. now rewrite Ha.
    + rewrite call_nil. f_equal.
      rewrite <- (modify_as_map p (fun x => x) _ _ aa Hnd Hd).
      * unfold modify.
        replace (map _ (addresses st)) with (addresses st);
          [now rewrite set_addresses_id|].
        rewrite <- (map_id (addresses st)) at 1. apply map_ext.
        intros [q bb]; simpl. now destruct (Nat.eqb p q).
      * unfold share_of, share. simpl. now rewrite Ha.
  - rewrite call_nil. f_equal.
    rewrite map_absent; [now rewrite set_addresses_id|].
    now apply deref_None.
Qed.

Lemma announcement_share q_in q_out c q_in' q_out' c' e :
  announcement q_in q_out c (snd (share q_in' q_out' c' e))
  = announcement q_in q_out c (snd e).
Proof. unfold share. destruct (active (snd e)); reflexivity. Qed.

Lemma deref_map_cond (h : ptr * ATS_Address -> bool) q_in q_out c p m :
  deref p (map (fun e => if h e then share q_in q_out c e else e) m)
  = option_map (fun aa => if h (p, aa) then snd (share q_in q_out c (p, aa)) else aa)
      (deref p m).
Proof.
  induction m as [|[q bb] m IH]; simpl; [reflexivity|].
  assert (fst (if h (q, bb) then share q_in q_out c (q, bb) else (q, bb)) = q) as Hf
    by (destruct (h (q, bb)); [apply fst_share|reflexivity]).
  destruct (if h (q, bb) then share q_in q_out c (q, bb) else (q, bb)) as [q' bb'] eqn:E.
  simpl in Hf. subst q'.
  destruct (Nat.eqb_spec p q) as [->|]; [|exact IH].
  simpl. destruct (h (q, bb)); [now rewrite E|congruence].
Qed.

Lemma calls_at_map_cond (h : ptr * ATS_Address -> bool) q_in q_out c q_in' q_out' c' p m :
  calls_at q_in q_out c (map (fun e => if h e then share q_in' q_out' c' e else e) m) p
  = calls_at q_in q_out c m p.
Proof.
  unfold calls_at. rewrite deref_map_cond.
  destruct (deref p m) as [aa|]; simpl; [|reflexivity].
  destruct (h (p, aa)); [|reflexivity].
  rewrite active_share. simpl. rewrite announcement_share. reflexivity.
Qed.

Lemma iterate_update_bw_it_calls ps : forall st,
  List.NoDup (keys (addresses st)) ->
  0 < active_addr_count st \/ number_active (addresses st) = 0 ->
  iterate update_bw_it ps st
  = Some (call (flat_map (calls_at (wan_quota_in st) (wan_quota_out st)
                            (active_addr_count st) (addresses st)) ps)
            (set_addresses
               (map (fun e => if existsb (Nat.eqb (fst e)) ps then share_of st e else e)
                  (addresses st)) st)).
Proof.
  induction ps as [|p ps IH]; intros st Hnd Hc; simpl.
  - rewrite call_nil. f_equal. rewrite map_id. now rewrite set_addresses_id.
  - rewrite (update_bw_it_calls p st Hnd Hc).
    set (st1 := call _ _).
    rewrite (IH st1).
    + subst st1. destruct st; unfold call, set_addresses, share_of; simpl.
      f_equal. f_equal.
      * rewrite map_map. apply map_ext. intros e.
        destruct (Nat.eqb_spec p (fst e)) as [E|E].
        -- subst p. rewrite fst_share, Nat.eqb_refl. simpl.
           match goal with |- context [existsb ?h ps] => destruct (existsb h ps) end;
             [apply share_idem|reflexivity].
        -- destruct (Nat.eqb_spec (fst e) p); [congruence|]. reflexivity.
      * rewrite <- app_assoc. f_equal. f_equal.
        apply flat_map_ext. intros q.
        apply (calls_at_map_cond (fun e => Nat.eqb p (fst e))).
    + subst st1. destruct st; simpl in *. unfold share_of. simpl.
      now rewrite keys_map_share.
    + subst st1. destruct st; simpl in *. unfold share_of. simpl.
      now rewrite number_active_map_share.
Qed.

Lemma flat_map_map_fst {A B C} (f : A -> list C) (m : list (A * B)) :
  flat_map f (map fst m) = flat_map (fun e => f (fst e)) m.
Proof. induction m as [|e m IH]; simpl; [reflexivity|]. now rewrite IH. Qed.

Lemma flat_map_ext_In {A B} (f g : A -> list B) l :
  (forall x, In x l -> f x = g x) -> flat_map f l = flat_map g l.
Proof.
  induction l as [|x l IH]; intros H; simpl; [reflexivity|].
  rewrite (H x), IH; [reflexivity| |]; intros; [apply H|]; simpl; auto.
Qed.

Lemma flat_map_calls_at_keys q_in q_out c m :
  List.NoDup (keys m) ->
  flat_map (calls_at q_in q_out c m) (keys m)
  = flat_map (fun e => if active (snd e) then announcement q_in q_out c (snd e) else []) m.
Proof.
  intros Hnd. unfold keys. rewrite flat_map_map_fst.
  apply flat_map_ext_In. intros [p aa] Hin. unfold calls_at. simpl.
  now rewrite (In_deref p aa m Hnd Hin).
Qed.

Lemma existsb_keys_all m :
  map (fun e : ptr * ATS_Address => if existsb (Nat.eqb (fst e)) (keys m) then e else e) m = m.
Proof. rewrite <- (map_id m) at 2. apply map_ext. intros e. now destruct (existsb _ _). Qed.

Lemma recalculate_calls st :
  List.NoDup (keys (addresses st)) ->
  0 < active_addr_count st \/ number_active (addresses st) = 0 ->
  recalculate_assigned_bw st
  = Some (call (announcements st)
            (set_addresses (map (share_of st) (addresses st)) (count_recalculation st))).
Proof.
  intros Hnd Hc. unfold recalculate_assigned_bw.
  change (map fst (addresses st)) with (keys (addresses (count_recalculation st))).
  rewrite iterate_update_bw_it_calls; [|exact Hnd|exact Hc].
  f_equal. f_equal.
  - simpl. rewrite flat_map_calls_at_keys by exact Hnd. reflexivity.
  - f_equal. simpl. apply map_ext_in. intros e He.
    rewrite (existsb_keys e _ He). reflexivity.
Qed.

Lemma length_announcements q_in q_out c m :
  length (flat_map (fun e : ptr * ATS_Address =>
                      if active (snd e) then announcement q_in q_out c (snd e) else []) m)
  = (3 * length (List.filter (fun e => active (snd e)) m))%nat.
Proof.
  induction m as [|e m IH]; simpl; [reflexivity|].
  destruct (active (snd e)); simpl; rewrite IH; lia.
Qed.

(** X4.  In a state the registry reaches, a recalculation succeeds; it
    makes, for every active address in the order of the map, the three
    calls to the scheduling, reservation and performance collaborators
    with the equal share of that moment, and no call for an inactive
    address; it counts itself in the statistic and leaves every field of
    an address but the assigned bandwidth as it was. *)
Theorem recalculation_announces_every_active_address :
  forall h rs q_in q_out st,
    run h rs (GAS_addresses_init q_in q_out) = Some st ->
    exists st',
      recalculate_assigned_bw st = Some st'
      /\ downstream st' = downstream st ++ announcements st
      /\ length (announcements st) = (3 * Z.to_nat (active_addr_count st))%nat
      /\ bandwidth_recalculations st' = bandwidth_recalculations st + 1
      /\ active_addr_count st' = active_addr_count st
      /\ map (fun e => (fst e, set_assigned_bw 0 0 (snd e))) (addresses st')
         = map (fun e => (fst e, set_assigned_bw 0 0 (snd e))) (addresses st).
Proof.
  intros h rs q_in q_out st Hrun.
  destruct (reachable_Inv _ _ _ _ _ Hrun) as ((Hnd & Hfresh & Hcount & Hlt) & _).
  eexists. split.
  { apply recalculate_calls; [exact Hnd|].
    rewrite Hcount. pose proof (number_active_nonneg (addresses st)). lia. }
  split; [reflexivity|]. split.
  { unfold announcements. rewrite length_announcements, Hcount.
    unfold number_active. now rewrite Nat2Z.id. }
  split; [reflexivity|]. split; [reflexivity|].
  simpl. rewrite map_map. apply map_ext. intros e.
  unfold share_of, share. destruct (active (snd e)); reflexivity.
Qed.

Lemma recalculation_of_four_peers :
  exists st',
    recalculate_assigned_bw four_active = Some st'
    /\ downstream st' = downstream four_active ++ announcements four_active
    /\ length (announcements four_active) = (3 * Z.to_nat (active_addr_count four_active))%nat
    /\ bandwidth_recalculations st' = bandwidth_recalculations four_active + 1
    /\ active_addr_count st' = active_addr_count four_active
    /\ map (fun e => (fst e, set_assigned_bw 0 0 (snd e))) (addresses st')
       = map (fun e => (fst e, set_assigned_bw 0 0 (snd e))) (addresses four_active).
Proof.
  apply (recalculation_announces_every_active_address true four_peers 1000 1000 four_active).
  vm_compute. reflexivity.
Defined.

Lemma erase_bw_share q_in q_out c e : erase_bw (share q_in q_out c e) = erase_bw e.
Proof. unfold share, erase_bw. destruct (active (snd e)); reflexivity. Qed.

Lemma erase_bw_map_share_of st m : map erase_bw (map (share_of st) m) = map erase_bw m.
Proof. rewrite map_map. apply map_ext. intros e. apply erase_bw_share. Qed.

Lemma remove_as_flat_map p m :
  multihashmap_remove p m
  = flat_map (fun e => if Nat.eqb p (fst e) then [] else [e]) m.
Proof.
  unfold multihashmap_remove. induction m as [|e m IH]; simpl; [reflexivity|].
  destruct (Nat.eqb p (fst e)); simpl; now rewrite IH.
Qed.

Lemma modify_as_flat_map p f m :
  modify p f m
  = flat_map (fun e => if Nat.eqb p (fst e) then [(fst e, f (snd e))] else [e]) m.
Proof.
  unfold modify. induction m as [|e m IH]; simpl; [reflexivity|].
  destruct (Nat.eqb p (fst e)); simpl; now rewrite IH.
Qed.

Lemma flat_map_singleton {A} (m : list A) : flat_map (fun e => [e]) m = m.
Proof. induction m as [|e m IH]; simpl; [reflexivity|]. now rewrite IH. Qed.

Lemma flat_map_at p aa (g : ptr * ATS_Address -> list (ptr * ATS_Address)) m :
  List.NoDup (keys m) -> deref p m = Some aa ->
  flat_map (fun e => if Nat.eqb p (fst e) then g e else [e]) m
  = flat_map (fun e => if Nat.eqb p (fst e) then g (p, aa) else [e]) m.
Proof.
  intros Hnd Hd. apply flat_map_ext_In. intros [q bb] Hin. simpl.
  destruct (Nat.eqb_spec p q) as [<-|]; [|reflexivity].
  rewrite (In_deref p bb m Hnd Hin) in Hd. now injection Hd as ->.
Qed.

Lemma modify_at p aa f g m :
  List.NoDup (keys m) -> deref p m = Some aa -> f aa = g aa ->
  modify p f m = modify p g m.
Proof.
  intros Hnd Hd E. unfold modify. apply map_ext_in. intros [q bb] Hin. simpl.
  destruct (Nat.eqb_spec p q) as [<-|]; [|reflexivity].
  rewrite (In_deref p bb m Hnd Hin) in Hd. injection Hd as ->. now rewrite E.
Qed.

Lemma erase_bw_remove p m :
  map erase_bw (multihashmap_remove p m) = multihashmap_remove p (map erase_bw m).
Proof.
  unfold multihashmap_remove. induction m as [|e m IH]; simpl; [reflexivity|].
  destruct (Nat.eqb p (fst e)); simpl; now rewrite IH.
Qed.

Lemma remove_modify p f m : multihashmap_remove p (modify p f m) = multihashmap_remove p m.
Proof.
  unfold multihashmap_remove, modify. induction m as [|e m IH]; simpl; [reflexivity|].
  destruct (Nat.eqb p (fst e)) eqn:E; simpl; rewrite E; simpl; now rewrite IH.
Qed.

Lemma erase_bw_modify p f g m :
  (forall aa, set_assigned_bw 0 0 (f aa) = g (set_assigned_bw 0 0 aa)) ->
  map erase_bw (modify p f m) = modify p g (map erase_bw m).
Proof.
  intros H. unfold modify. rewrite !map_map. apply map_ext. intros [q bb]. simpl.
  destruct (Nat.eqb p q); unfold erase_bw; simpl; [now rewrite H|reflexivity].
Qed.

(** The state before the final test of the address length in the branch
    of [destroy_by_session_id] that ends a session. *)
Lemma session_died q_in q_out p st aa :
  Inv_with q_in q_out st -> deref p (addresses st) = Some aa ->
  let st_a := set_addresses (modify p (set_session_id 0) (addresses st)) st in
  exists st2,
    (if active aa
     then recalculate_assigned_bw
            (set_active_addr_count (wrap32 (active_addr_count st_a - 1))
               (set_addresses (modify p (set_active false) (addresses st_a)) st_a))
     else Some st_a) = Some st2
    /\ Inv_with q_in q_out st2
    /\ map erase_bw (addresses st2)
       = map erase_bw (modify p (fun a => set_active false (set_session_id 0 a))
                         (addresses st))
    /\ exists bb, deref p (addresses st2) = Some bb /\ active bb = false.
Proof.
  intros (HI & Hq & Hq') Hd st_a.
  assert (Inv st_a) as HIa by (apply Inv_modify; [reflexivity|assumption]).
  assert (deref p (addresses st_a) = Some (set_session_id 0 aa)) as Hda.
  { subst st_a. simpl. rewrite deref_modify, Nat.eqb_refl, Hd. reflexivity. }
  assert (active_addr_count st_a = active_addr_count st) as Eca by reflexivity.
  assert (addresses st_a = modify p (set_session_id 0) (addresses st)) as Eaa
    by reflexivity.
  assert (wan_quota_in st_a = q_in /\ wan_quota_out st_a = q_out) as Eqa
    by (subst st_a; simpl; auto).
  clearbody st_a.
  destruct (active aa) eqn:Ha.
  - set (st_b := set_active_addr_count _ _).
    pose proof HIa as (Hnd & Hb & Hc & Hr).
    assert (active (set_session_id 0 aa) = true) as Ha' by exact Ha.
    pose proof (number_active_pos _ _ _ Hda Ha') as Hpos.
    assert (number_active (addresses st_b) = number_active (addresses st_a) - 1) as Hn.
    { subst st_b. simpl.
      rewrite (number_active_modify _ _ _ (set_session_id 0 aa)); try assumption.
      simpl. rewrite Ha. simpl. lia. }
    assert (active_addr_count st_b = active_addr_count st_a - 1) as Hcb.
    { subst st_b. simpl. unfold wrap32. apply Z.mod_small. lia. }
    assert (Inv st_b) as HIb.
    { unfold Inv. rewrite Hn, Hcb. subst st_b. simpl. rewrite keys_modify.
      repeat split; try assumption; lia. }
    assert (addresses st_b
            = modify p (fun a => set_active false (set_session_id 0 a)) (addresses st))
      as Hab.
    { subst st_b. simpl. rewrite Eaa. apply modify_modify. }
    assert (wan_quota_in st_b = q_in /\ wan_quota_out st_b = q_out) as Hqb
      by (subst st_b; simpl; auto).
    clearbody st_b.
    rewrite recalculate_calls; [|apply HIb|rewrite Hcb, Hn; lia].
    eexists. split; [reflexivity|].
    split.
    { apply (recalculate_Inv_with q_in q_out st_b); [split; assumption|].
      apply recalculate_calls; [apply HIb|rewrite Hcb, Hn; lia]. }
    split; [simpl; now rewrite erase_bw_map_share_of, Hab|].
    simpl. rewrite deref_map_share_of, Hab, deref_modify, Nat.eqb_refl, Hd. simpl.
    eexists. split; [reflexivity|]. unfold share_of, share. simpl. reflexivity.
  - exists st_a. split; [reflexivity|].
    split; [split; [assumption|auto]|].
    split.
    { rewrite Eaa. f_equal.
      apply (modify_at p aa); [apply HI|exact Hd|].
      symmetry. now apply set_active_same. }
    exists (set_session_id 0 aa). split; [exact Hda|exact Ha].
Qed.

Lemma destroy_by_session_id_outcome q_in q_out info p st aa :
  Inv_with q_in q_out st -> deref p (addresses st) = Some aa ->
  peer aa = peer info ->
  exists st',
    destroy_by_session_id info p st = Some st'
    /\ Inv_with q_in q_out st'
    /\ map erase_bw (addresses st')
       = map erase_bw
           (flat_map (fun e => if Nat.eqb p (fst e) then outcome info e else [e])
              (addresses st)).
Proof.
  intros HIq Hd Hp. pose proof HIq as (HI & Hq & Hq').
  pose proof HI as (Hnd & _).
  rewrite (flat_map_at p aa (outcome info) _ Hnd Hd).
  unfold destroy_by_session_id. rewrite Hd.
  unfold outcome. simpl fst. simpl snd.
  rewrite Hp, N.eqb_refl. simpl negb. cbv iota.
  fold (exact_match info aa).
  destruct (exact_match info aa) eqn:Hx.
  - rewrite (destroy_address_spec p st aa HI Hd).
    pose proof (Inv_remove p st aa HI Hd) as HI'.
    rewrite <- remove_as_flat_map.
    destruct (active aa).
    + rewrite recalculate_calls.
      * eexists. split; [reflexivity|]. split.
        -- apply (recalculate_Inv_with q_in q_out _ _ (conj HI' (conj Hq Hq'))).
           apply recalculate_calls; [apply HI'|].
           destruct HI' as (_ & _ & -> & _).
           match goal with |- context [number_active ?m] =>
             pose proof (number_active_nonneg m) end. lia.
        -- simpl. now rewrite erase_bw_map_share_of.
      * apply HI'.
      * destruct HI' as (_ & _ & -> & _).
        match goal with |- context [number_active ?m] =>
          pose proof (number_active_nonneg m) end. lia.
    + eexists. split; [reflexivity|]. split; [split; [exact HI'|simpl; auto]|].
      reflexivity.
  - destruct (Z.eqb_spec (session_id aa) (session_id info)) as [Hs|Hs]; simpl negb;
      cbv iota.
    + destruct (session_died q_in q_out p st aa HIq Hd)
        as (st2 & E2 & HI2 & Ha2 & bb & Hd2 & Hb2).
      simpl in E2. simpl. rewrite E2.
      destruct (addr_len aa =? 0) eqn:Hl.
      * rewrite (destroy_address_spec p st2 bb (proj1 HI2) Hd2).
        pose proof (Inv_remove p st2 bb (proj1 HI2) Hd2) as HI3.
        rewrite Hb2 in *. simpl.
        eexists. split; [reflexivity|]. split.
        -- split; [exact HI3|].
           simpl. destruct HI2 as (_ & ? & ?). auto.
        -- simpl. rewrite erase_bw_remove, Ha2, <- erase_bw_remove, remove_modify.
           now rewrite remove_as_flat_map.
      * exists st2. split; [reflexivity|]. split; [exact HI2|].
        rewrite Ha2, modify_as_flat_map.
        now rewrite (flat_map_at p aa
                       (fun e => [(fst e, set_active false (set_session_id 0 (snd e)))])
                       _ Hnd Hd).
    + exists st. split; [reflexivity|]. split; [exact HIq|].
      f_equal. symmetry.
      rewrite <- (flat_map_at p aa (fun e => [e]) _ Hnd Hd).
      rewrite <- (flat_map_singleton (addresses st)) at 2.
      apply flat_map_ext. intros e. now destruct (Nat.eqb p (fst e)).
Qed.

Lemma outcome_fst info e x : In x (outcome info e) -> fst x = fst e.
Proof.
  unfold outcome.
  repeat match goal with |- context [if ?b then _ else _] => destruct b end;
    simpl; intros H; repeat destruct H as [H|H]; subst; try reflexivity; contradiction.
Qed.

Lemma outcome_erase_bw info e :
  map erase_bw (outcome info e) = outcome info (erase_bw e).
Proof.
  unfold outcome, erase_bw, exact_match, addr_len. simpl.
  repeat match goal with |- context [if ?b then _ else _] => destruct b end;
    reflexivity.
Qed.

Lemma outcome_at_erase_bw info ps l :
  map erase_bw (flat_map (outcome_at info ps) l)
  = flat_map (outcome_at info ps) (map erase_bw l).
Proof.
  induction l as [|e l IH]; simpl; [reflexivity|].
  rewrite map_app, IH. f_equal. unfold outcome_at. simpl.
  destruct (existsb _ ps); [apply outcome_erase_bw|reflexivity].
Qed.

Lemma flat_map_flat_map {A B C} (f : B -> list C) (g : A -> list B) l :
  flat_map f (flat_map g l) = flat_map (fun e => flat_map f (g e)) l.
Proof.
  induction l as [|e l IH]; simpl; [reflexivity|].
  now rewrite flat_map_app, IH.
Qed.

Lemma existsb_eqb_In q ps : existsb (Nat.eqb q) ps = true <-> In q ps.
Proof.
  rewrite existsb_exists. split.
  - intros (x & Hx & E). apply Nat.eqb_eq in E. now subst.
  - intros H. exists q. split; [assumption|apply Nat.eqb_refl].
Qed.

Lemma outcome_at_cons info p ps l :
  ~ In p ps ->
  flat_map (outcome_at info ps)
    (flat_map (fun e => if Nat.eqb p (fst e) then outcome info e else [e]) l)
  = flat_map (outcome_at info (p :: ps)) l.
Proof.
  intros Hp. rewrite flat_map_flat_map. apply flat_map_ext. intros e.
  unfold outcome_at at 2. simpl existsb. rewrite (Nat.eqb_sym (fst e) p).
  destruct (Nat.eqb_spec p (fst e)) as [E|E]; simpl.
  - rewrite <- (flat_map_singleton (outcome info e)) at 2.
    apply flat_map_ext_In. intros x Hx. unfold outcome_at.
    rewrite (outcome_fst _ _ _ Hx), <- E.
    destruct (existsb (Nat.eqb p) ps) eqn:Ex; [|reflexivity].
    apply existsb_eqb_In in Ex. contradiction.
  - now rewrite app_nil_r.
Qed.

Lemma In_map_erase_bw q bb l :
  In (q, bb) l -> In (erase_bw (q, bb)) (map erase_bw l).
Proof. apply in_map. Qed.

Lemma iterate_destroy_by_session_id q_in q_out info ps : forall st,
  Inv_with q_in q_out st -> List.NoDup ps ->
  (forall p aa, In p ps -> deref p (addresses st) = Some aa -> peer aa = peer info) ->
  exists st',
    iterate (destroy_by_session_id info) ps st = Some st'
    /\ Inv_with q_in q_out st'
    /\ map erase_bw (addresses st')
       = map erase_bw (flat_map (outcome_at info ps) (addresses st)).
Proof.
  induction ps as [|p ps IH]; intros st HIq Hnd Hpeer; simpl.
  - exists st. split; [reflexivity|]. split; [assumption|].
    unfold outcome_at. simpl. now rewrite flat_map_singleton.
  - apply NoDup_cons_iff in Hnd. destruct Hnd as [Hp Hnd].
    destruct (deref p (addresses st)) as [aa|] eqn:Hd.
    + destruct (destroy_by_session_id_outcome q_in q_out info p st aa HIq Hd)
        as (st1 & E1 & HI1 & Ha1).
      { apply (Hpeer p aa); [now left|assumption]. }
      rewrite E1.
      destruct (IH st1 HI1 Hnd) as (st' & E' & HI' & Ha').
      { intros q bb Hq Hdq.
        apply deref_In, In_map_erase_bw in Hdq. rewrite Ha1 in Hdq.
        apply in_map_iff in Hdq. destruct Hdq as ([q0 bb0] & Eq & Hin).
        apply in_flat_map in Hin. destruct Hin as (e & He & Hin).
        unfold erase_bw in Eq. simpl in Eq. injection Eq as Eq1 Eq2. subst q0.
        destruct (Nat.eqb_spec p (fst e)) as [Ep|Ep].
        - apply outcome_fst in Hin. simpl in Hin.
          exfalso. apply Hp. now rewrite Ep, <- Hin.
        - destruct Hin as [Ee|[]]. subst e.
          rewrite <- Eq2.
          apply (Hpeer q bb0); [now right|].
          apply In_deref; [apply HIq|assumption]. }
      exists st'. split; [exact E'|]. split; [exact HI'|].
      rewrite Ha', outcome_at_erase_bw, Ha1, <- outcome_at_erase_bw.
      now rewrite outcome_at_cons.
    + assert (destroy_by_session_id info p st = Some st) as ->
        by (unfold destroy_by_session_id; now rewrite Hd).
      destruct (IH st HIq Hnd) as (st' & E' & HI' & Ha').
      { intros q bb Hq. apply Hpeer. now right. }
      exists st'. split; [exact E'|]. split; [exact HI'|].
      rewrite Ha'. f_equal. apply flat_map_ext_In. intros [q bb] Hin.
      unfold outcome_at. simpl.
      destruct (Nat.eqb_spec q p) as [->|]; [|reflexivity].
      apply deref_None in Hd. exfalso. apply Hd.
      unfold keys. apply in_map_iff. exists (p, bb). auto.
Qed.

Lemma NoDup_map_fst_filter (f : ptr * ATS_Address -> bool) m :
  List.NoDup (keys m) -> List.NoDup (map fst (List.filter f m)).
Proof.
  unfold keys. induction m as [|e m IH]; simpl; intros H; [constructor|].
  apply NoDup_cons_iff in H. destruct H as [Hn H].
  destruct (f e); simpl; [|now apply IH].
  constructor; [|now apply IH].
  intros Hin. apply Hn. apply in_map_iff in Hin. destruct Hin as (x & Ex & Hx).
  apply filter_In in Hx. apply in_map_iff. exists x. tauto.
Qed.

(** [GAS_addresses_destroy] never fails in a state with the invariant,
    and it makes of every entry what [outcome] says. *)
Lemma GAS_addresses_destroy_outcome q_in q_out peer0 plugin_name plugin_addr session st :
  Inv_with q_in q_out st ->
  exists st',
    GAS_addresses_destroy peer0 plugin_name plugin_addr session st = Some st'
    /\ Inv_with q_in q_out st'
    /\ map erase_bw (addresses st')
       = map erase_bw
           (flat_map (outcome (new_address peer0 plugin_name plugin_addr session []))
              (addresses st)).
Proof.
  intros HIq. unfold GAS_addresses_destroy.
  set (info := new_address peer0 plugin_name plugin_addr session []).
  set (ps := map fst (multihashmap_get_multiple peer0 (addresses st))).
  assert (forall p, In p ps <->
                    exists aa, In (p, aa) (addresses st) /\ peer aa = peer0) as Hps.
  { intros p. subst ps. unfold multihashmap_get_multiple. rewrite in_map_iff. split.
    - intros ([q aa] & <- & Hin). apply filter_In in Hin. simpl in Hin.
      exists aa. split; [tauto|]. now apply N.eqb_eq.
    - intros (aa & Hin & Hp). exists (p, aa). split; [reflexivity|].
      apply filter_In. split; [assumption|]. simpl. now apply N.eqb_eq. }
  destruct (iterate_destroy_by_session_id q_in q_out info ps st HIq)
    as (st' & E & HI' & Ha).
  - subst ps. apply NoDup_map_fst_filter. apply HIq.
  - intros p aa Hin Hd. apply Hps in Hin. destruct Hin as (bb & Hin & Hp).
    rewrite (In_deref p bb _ (proj1 (proj1 HIq)) Hin) in Hd. injection Hd as <-.
    exact Hp.
  - exists st'. split; [exact E|]. split; [exact HI'|].
    rewrite Ha. f_equal. apply flat_map_ext_In. intros [q bb] Hin.
    unfold outcome_at. simpl.
    destruct (existsb (Nat.eqb q) ps) eqn:Ex; [reflexivity|].
    unfold outcome. simpl.
    destruct (N.eqb_spec (peer bb) peer0) as [Hp|Hp]; [|reflexivity].
    assert (In q ps) as Hq by (apply Hps; eauto).
    apply existsb_eqb_In in Hq. congruence.
Qed.

Lemma request_address_step q_in q_out peer0 st p aa :
  Inv_with q_in q_out st -> number_active (addresses st) + 1 < 2 ^ 32 ->
  find_best peer0 st = Some (p, aa) ->
  let st1 := set_active_addr_count (active_addr_count st + 1)
               (set_addresses (modify p (set_active true) (addresses st)) st) in
  GAS_addresses_request_address peer0 st
  = (if active aa
     then Some (call [ GAS_scheduling_transmit_address_suggestion peer0 (plugin aa)
                         (addr aa) (session_id aa) (ats aa)
                         (assigned_bw_out aa) (assigned_bw_in aa) ] st)
     else Some (call (announcements st1)
                  (set_addresses (map (share_of st1) (addresses st1))
                     (count_recalculation st1))))
  /\ deref p (addresses st) = Some aa
  /\ (active aa = false -> Inv_with q_in q_out st1).
Proof.
  intros ((Hnd & Hb & Hc & Hr) & Hq & Hq') Hlt Hf st1.
  unfold GAS_addresses_request_address. rewrite Hf.
  apply find_best_In in Hf. destruct Hf as [Hin _].
  assert (deref p (addresses st) = Some aa) as Hd by now apply In_deref.
  destruct (active aa) eqn:Ha; simpl.
  - split; [reflexivity|]. split; [assumption|discriminate].
  - assert (wrap32 (active_addr_count st + 1) = active_addr_count st + 1) as ->.
    { unfold wrap32. apply Z.mod_small.
      pose proof (number_active_nonneg (addresses st)). lia. }
    fold st1.
    assert (number_active (addresses st1) = number_active (addresses st) + 1) as Hn1.
    { subst st1. simpl. rewrite (number_active_modify _ _ _ aa) by assumption.
      rewrite Ha. simpl. lia. }
    assert (Inv st1) as HI1.
    { unfold Inv. rewrite Hn1. subst st1. simpl. rewrite keys_modify.
      repeat split; try assumption; lia. }
    split; [|split; [assumption|]].
    + apply recalculate_calls; [apply HI1|].
      destruct HI1 as (_ & _ & -> & _). rewrite Hn1.
      pose proof (number_active_nonneg (addresses st)). lia.
    + intros _. split; [assumption|]. subst st1. simpl. auto.
Qed.

(** X5.  No assertion of the registry fires: in a state the registry
    reaches, an update, a destroy and, while fewer than [2^32 - 1]
    addresses are active, a request for an address all succeed, and
    [active_addr_count] is again the number of addresses marked active. *)
Theorem registry_requests_never_abort :
  forall h rs q_in q_out st r,
    run h rs (GAS_addresses_init q_in q_out) = Some st ->
    number_active (addresses st) + 1 < 2 ^ 32 ->
    exists st',
      handle h r st = Some st'
      /\ active_addr_count st' = number_active (addresses st')
      /\ wan_quota_in st' = q_in /\ wan_quota_out st' = q_out.
Proof.
  intros h rs q_in q_out st r Hrun Hlt.
  pose proof (reachable_Inv _ _ _ _ _ Hrun) as HIq.
  assert (exists st', handle h r st = Some st') as [st' E].
  { destruct r as [peer0 plugin_name plugin_addr session atsi
                  |peer0 plugin_name plugin_addr session|peer0]; simpl.
    - eauto.
    - destruct (GAS_addresses_destroy_outcome q_in q_out peer0 plugin_name plugin_addr
                  session st HIq) as (st' & E & _). eauto.
    - destruct (find_best peer0 st) as [[p aa]|] eqn:Hf.
      + destruct (request_address_step q_in q_out peer0 st p aa HIq Hlt Hf) as (-> & _).
        destruct (active aa); eauto.
      + unfold GAS_addresses_request_address. rewrite Hf. eauto. }
  exists st'. split; [exact E|].
  destruct (handle_Inv q_in q_out h r st st' HIq E) as ((_ & _ & Hc & _) & Hq & Hq').
  auto.
Qed.

Lemma renewed_request_of_alice :
  exists st',
    handle true (request_address alice) four_active = Some st'
    /\ active_addr_count st' = number_active (addresses st')
    /\ wan_quota_in st' = 1000 /\ wan_quota_out st' = 1000.
Proof.
  apply (registry_requests_never_abort true four_peers 1000 1000 four_active
           (request_address alice)).
  - vm_compute. reflexivity.
  - vm_compute. reflexivity.
Defined.

Lemma erase_bw_fields aa bb :
  set_assigned_bw 0 0 aa = set_assigned_bw 0 0 bb ->
  peer aa = peer bb /\ session_id aa = session_id bb /\ addr aa = addr bb
  /\ plugin aa = plugin bb /\ ats aa = ats bb /\ active aa = active bb.
Proof. intros H. injection H. intros. repeat split; assumption. Qed.

Lemma In_erase_bw p aa l l' :
  map erase_bw l = map erase_bw l' -> In (p, aa) l ->
  exists bb, In (p, bb) l' /\ set_assigned_bw 0 0 aa = set_assigned_bw 0 0 bb.
Proof.
  intros E Hin. apply (in_map erase_bw) in Hin. rewrite E in Hin.
  apply in_map_iff in Hin. destruct Hin as ([q bb] & Eq & Hin).
  unfold erase_bw in Eq. simpl in Eq.
  assert (q = p) as -> by congruence.
  exists bb. split; [assumption|congruence].
Qed.

Lemma exact_match_false peer0 plugin_name plugin_addr cc :
  exact_match (new_address peer0 plugin_name plugin_addr 0 []) cc = false ->
  ~ (plugin cc = plugin_name /\ addr cc = plugin_addr).
Proof.
  unfold exact_match, addr_len. simpl. intros Hx [<- <-].
  rewrite String.eqb_refl, memcmp0_refl, Z.eqb_refl in Hx. discriminate.
Qed.

(** X6.  After [GAS_addresses_destroy] no address of the peer matches the
    query by plugin and address bytes when the query has no session, and
    no address of the peer carries the session of the query when it has
    one. *)
Theorem destroy_removes_what_it_names :
  forall h rs q_in q_out st peer0 plugin_name plugin_addr session,
    run h rs (GAS_addresses_init q_in q_out) = Some st ->
    exists st',
      GAS_addresses_destroy peer0 plugin_name plugin_addr session st = Some st'
      /\ forall p aa,
           In (p, aa) (addresses st') -> peer aa = peer0 ->
           (session = 0 ->
            ~ (plugin aa = plugin_name /\ addr aa = plugin_addr))
           /\ (session <> 0 -> session_id aa <> session).
Proof.
  intros h rs q_in q_out st peer0 plugin_name plugin_addr session Hrun.
  pose proof (reachable_Inv _ _ _ _ _ Hrun) as HIq.
  destruct (GAS_addresses_destroy_outcome q_in q_out peer0 plugin_name plugin_addr
              session st HIq) as (st' & E & _ & Ha).
  exists st'. split; [exact E|]. intros p aa Hin Hp.
  destruct (In_erase_bw p aa _ _ Ha Hin) as (bb & Hin' & Eb).
  apply erase_bw_fields in Eb. destruct Eb as (Ep & Es & Ead & Epl & _ & _).
  apply in_flat_map in Hin'. destruct Hin' as ([q cc] & Hc & Hin').
  unfold outcome in Hin'. simpl in Hin'.
  destruct (N.eqb_spec (peer cc) peer0) as [Hpc|Hpc]; simpl in Hin'.
  2:{ destruct Hin' as [[= -> ->]|[]]. congruence. }
  destruct (exact_match _ cc) eqn:Hx; [contradiction|].
  destruct (Z.eqb_spec (session_id cc) session) as [Hs|Hs]; simpl in Hin'.
  - destruct (addr_len cc =? 0); [contradiction|].
    destruct Hin' as [[= -> <-]|[]]. simpl in *.
    split.
    + intros ->. rewrite Epl, Ead. now apply (exact_match_false peer0).
    + intros Hn. congruence.
  - destruct Hin' as [[= -> ->]|[]].
    split; [|intros _; congruence].
    intros ->. rewrite Epl, Ead. now apply (exact_match_false peer0).
Qed.

Lemma destroy_of_session_seven :
  exists st',
    GAS_addresses_destroy alice tcp [] 7 session_seven = Some st'
    /\ forall p aa,
         In (p, aa) (addresses st') -> peer aa = alice ->
         (7 = 0 -> ~ (plugin aa = tcp /\ addr aa = []))
         /\ (7 <> 0 -> session_id aa <> 7).
Proof.
  apply (destroy_removes_what_it_names true
           [update alice tcp addr_a 7 []; request_address alice] 1000 1000 session_seven
           alice tcp [] 7).
  vm_compute. reflexivity.
Defined.

(** X7.  A destroy without session leaves no address of the peer that has
    no session active, whether it names that address or not: the test
    [aa->session_id != info->session_id] lets every address without
    session through to the branch that ends a session. *)
Theorem destroy_without_session_deactivates :
  forall h rs q_in q_out st peer0 plugin_name plugin_addr,
    run h rs (GAS_addresses_init q_in q_out) = Some st ->
    exists st',
      GAS_addresses_destroy peer0 plugin_name plugin_addr 0 st = Some st'
      /\ forall p aa,
           In (p, aa) (addresses st') -> peer aa = peer0 -> session_id aa = 0 ->
           active aa = false.
Proof.
  intros h rs q_in q_out st peer0 plugin_name plugin_addr Hrun.
  pose proof (reachable_Inv _ _ _ _ _ Hrun) as HIq.
  destruct (GAS_addresses_destroy_outcome q_in q_out peer0 plugin_name plugin_addr
              0 st HIq) as (st' & E & _ & Ha).
  exists st'. split; [exact E|]. intros p aa Hin Hp Hs0.
  destruct (In_erase_bw p aa _ _ Ha Hin) as (bb & Hin' & Eb).
  apply erase_bw_fields in Eb. destruct Eb as (Ep & Es & _ & _ & _ & Eact).
  apply in_flat_map in Hin'. destruct Hin' as ([q cc] & Hc & Hin').
  unfold outcome in Hin'. simpl in Hin'.
  destruct (N.eqb_spec (peer cc) peer0) as [Hpc|Hpc]; simpl in Hin'.
  2:{ destruct Hin' as [[= -> ->]|[]]. congruence. }
  destruct (exact_match _ cc); [contradiction|].
  destruct (Z.eqb_spec (session_id cc) 0) as [Hs|Hs]; simpl in Hin'.
  - destruct (addr_len cc =? 0); [contradiction|].
    destruct Hin' as [[= -> <-]|[]]. exact Eact.
  - destruct Hin' as [[= -> ->]|[]]. congruence.
Qed.


Lemma destroy_of_the_other_address :
  exists st',
    GAS_addresses_destroy alice tcp addr_a 0 two_addresses = Some st'
    /\ forall p aa,
         In (p, aa) (addresses st') -> peer aa = alice -> session_id aa = 0 ->
         active aa = false.
Proof.
  apply (destroy_without_session_deactivates true
           [update alice tcp addr_a 0 []; update alice tcp addr_b 0 [];
            request_address alice] 1000 1000 two_addresses alice tcp addr_a).
  vm_compute. reflexivity.
Defined.

(** X8.  A destroy never removes or changes, the assigned bandwidth
    apart, an address of another peer, nor an address of the peer that
    neither matches the query by plugin and bytes nor has its session. *)
Theorem destroy_spares_the_others :
  forall h rs q_in q_out st peer0 plugin_name plugin_addr session p aa,
    run h rs (GAS_addresses_init q_in q_out) = Some st ->
    In (p, aa) (addresses st) ->
    peer aa <> peer0
    \/ (session_id aa <> session
        /\ (session = 0 -> ~ (plugin aa = plugin_name /\ addr aa = plugin_addr))) ->
    exists st' aa',
      GAS_addresses_destroy peer0 plugin_name plugin_addr session st = Some st'
      /\ In (p, aa') (addresses st')
      /\ set_assigned_bw 0 0 aa' = set_assigned_bw 0 0 aa.
Proof.
  intros h rs q_in q_out st peer0 plugin_name plugin_addr session p aa Hrun Hin Hc.
  pose proof (reachable_Inv _ _ _ _ _ Hrun) as HIq.
  destruct (GAS_addresses_destroy_outcome q_in q_out peer0 plugin_name plugin_addr
              session st HIq) as (st' & E & _ & Ha).
  assert (In (p, aa) (flat_map (outcome (new_address peer0 plugin_name plugin_addr
                                           session [])) (addresses st))) as Hout.
  { apply in_flat_map. exists (p, aa). split; [assumption|].
    unfold outcome. simpl.
    destruct (N.eqb_spec (peer aa) peer0) as [Hp|Hp]; simpl; [|now left].
    destruct Hc as [Hc|[Hs Hx]]; [contradiction|].
    destruct (exact_match _ aa) eqn:Em.
    - exfalso. unfold exact_match in Em. simpl in Em.
      destruct (Z.eqb_spec session 0) as [->|]; [|discriminate]. simpl in Em.
      apply andb_prop in Em. destruct Em as [Em Em3].
      apply andb_prop in Em. destruct Em as [Em1 Em2].
      apply String.eqb_eq in Em1. apply Z.eqb_eq in Em2.
      apply (Hx eq_refl). split; [congruence|].
      unfold memcmp0 in Em3.
      destruct (List.list_eq_dec _ _ _) as [El|]; [|discriminate].
      unfold addr_len in *. simpl in Em2.
      rewrite Nat2Z.id in El. rewrite firstn_all in El.
      rewrite firstn_all2 in El by lia. congruence.
    - apply Z.eqb_neq in Hs. rewrite Hs. now left. }
  symmetry in Ha.
  destruct (In_erase_bw p aa _ _ Ha Hout) as (aa' & Hin' & Eb).
  exists st', aa'. split; [exact E|]. split; [assumption|congruence].
Qed.

Lemma destroy_of_dave_spares_alice :
  exists st' aa',
    GAS_addresses_destroy dave tcp addr_a 0 four_active = Some st'
    /\ In (0%nat, aa') (addresses st')
    /\ set_assigned_bw 0 0 aa' = set_assigned_bw 0 0 address_of_alice.
Proof.
  apply (destroy_spares_the_others true four_peers 1000 1000 four_active dave tcp addr_a 0
           0%nat address_of_alice).
  - vm_compute. reflexivity.
  - vm_compute. auto.
  - left. vm_compute. discriminate.
Defined.

Lemma filter_not_in_cons p ps (l : list nat) :
  List.filter (fun q => negb (existsb (Nat.eqb q) ps))
    (List.filter (fun q => negb (Nat.eqb p q)) l)
  = List.filter (fun q => negb (existsb (Nat.eqb q) (p :: ps))) l.
Proof.
  induction l as [|q l IHl]; simpl; [reflexivity|].
  rewrite (Nat.eqb_sym q p).
  destruct (Nat.eqb p q); simpl; [exact IHl|].
  destruct (existsb (Nat.eqb q) ps); simpl; [exact IHl|now rewrite IHl].
Qed.

Lemma filter_nothing {A} (f : A -> bool) l :
  (forall x, In x l -> f x = false) -> List.filter f l = [].
Proof.
  induction l as [|x l IH]; intros H; simpl; [reflexivity|].
  rewrite (H x) by now left. apply IH. intros y Hy. apply H. now right.
Qed.

Lemma iterate_free_address_it ps : forall st,
  Inv st -> List.NoDup ps -> (forall p, In p ps -> In p (keys (addresses st))) ->
  exists st',
    iterate free_address_it ps st = Some st'
    /\ Inv st'
    /\ keys (addresses st')
       = List.filter (fun q => negb (existsb (Nat.eqb q) ps)) (keys (addresses st))
    /\ downstream st' = downstream st
    /\ bandwidth_recalculations st' = bandwidth_recalculations st.
Proof.
  induction ps as [|p ps IH]; intros st HI Hnd Hin; simpl.
  - exists st. split; [reflexivity|]. split; [assumption|].
    split; [|split; reflexivity].
    clear. induction (keys (addresses st)) as [|q l IHl]; simpl; [reflexivity|].
    now rewrite <- IHl.
  - apply NoDup_cons_iff in Hnd. destruct Hnd as [Hp Hnd].
    destruct (deref p (addresses st)) as [aa|] eqn:Hd.
    2:{ apply deref_None in Hd. exfalso. apply Hd, Hin. now left. }
    unfold free_address_it at 1. rewrite (destroy_address_spec p st aa HI Hd).
    set (st1 := set_active_addr_count _ _).
    destruct (IH st1) as (st' & E & HI' & Hk & Hdown & Hrec).
    + apply (Inv_remove p st aa HI Hd).
    + assumption.
    + intros q Hq. subst st1. simpl. rewrite keys_remove. apply filter_In.
      split; [apply Hin; now right|].
      destruct (Nat.eqb_spec p q) as [->|]; [contradiction|reflexivity].
    + exists st'. split; [exact E|]. split; [exact HI'|].
      split; [|split; assumption].
      rewrite Hk. subst st1. simpl. rewrite keys_remove.
      apply filter_not_in_cons.
Qed.

(** X9.  [GAS_addresses_destroy_all] succeeds in every state the registry
    reaches: every address is destroyed, the final assertion
    [active_addr_count == 0] holds, and no collaborator is called and no
    bandwidth recalculated on the way. *)
Theorem destroy_all_empties_the_registry :
  forall h rs q_in q_out st,
    run h rs (GAS_addresses_init q_in q_out) = Some st ->
    exists st',
      GAS_addresses_destroy_all st = Some st'
      /\ addresses st' = [] /\ active_addr_count st' = 0
      /\ downstream st' = downstream st
      /\ bandwidth_recalculations st' = bandwidth_recalculations st.
Proof.
  intros h rs q_in q_out st Hrun.
  destruct (reachable_Inv _ _ _ _ _ Hrun) as (HI & _).
  destruct (iterate_free_address_it (map fst (addresses st)) st HI)
    as (st' & E & HI' & Hk & Hdown & Hrec).
  - apply HI.
  - auto.
  - assert (addresses st' = []) as He.
    { assert (keys (addresses st') = []) as Hk'.
      { rewrite Hk. apply filter_nothing. intros q Hq.
        apply existsb_eqb_In in Hq. unfold keys in Hq. now rewrite Hq. }
      destruct (addresses st'); [reflexivity|discriminate]. }
    assert (active_addr_count st' = 0) as Hc.
    { destruct HI' as (_ & _ & -> & _). now rewrite He. }
    unfold GAS_addresses_destroy_all. rewrite E, Hc. simpl.
    exists st'. auto.
Qed.

Lemma destroy_all_of_four_peers :
  exists st',
    GAS_addresses_destroy_all four_active = Some st'
    /\ addresses st' = [] /\ active_addr_count st' = 0
    /\ downstream st' = downstream four_active
    /\ bandwidth_recalculations st' = bandwidth_recalculations four_active.
Proof.
  apply (destroy_all_empties_the_registry true four_peers 1000 1000 four_active).
  vm_compute. reflexivity.
Defined.

Lemma fold_find_address_it_Some l : forall e,
  exists e', fold_left find_address_it l (Some e) = Some e'.
Proof.
  induction l as [|x l IH]; intros e; simpl; [eauto|].
  repeat match goal with |- context [if ?b then _ else _] => destruct b end; apply IH.
Qed.

Lemma find_best_Some peer0 st p aa :
  In (p, aa) (addresses st) -> peer aa = peer0 ->
  exists e, find_best peer0 st = Some e.
Proof.
  intros Hin Hp. unfold find_best.
  assert (In (p, aa) (multihashmap_get_multiple peer0 (addresses st))) as Hg.
  { apply filter_In. split; [assumption|]. simpl. now apply N.eqb_eq. }
  destruct (multihashmap_get_multiple peer0 (addresses st)) as [|x l]; [contradiction|].
  simpl. apply fold_find_address_it_Some.
Qed.

(** X10.  When a peer has an address, a request for an address succeeds
    (while fewer than [2^32 - 1] addresses are active), the address
    [find_address_it] settles on is active afterwards, and the scheduling
    collaborator has been told that address with the bandwidth that is
    then stored in it. *)
Theorem request_address_suggests_the_best_address :
  forall h rs q_in q_out st peer0 q bb,
    run h rs (GAS_addresses_init q_in q_out) = Some st ->
    number_active (addresses st) + 1 < 2 ^ 32 ->
    In (q, bb) (addresses st) -> peer bb = peer0 ->
    exists st' p aa aa' cs,
      find_best peer0 st = Some (p, aa)
      /\ GAS_addresses_request_address peer0 st = Some st'
      /\ deref p (addresses st') = Some aa'
      /\ active aa' = true
      /\ set_active true (set_assigned_bw 0 0 aa') = set_active true (set_assigned_bw 0 0 aa)
      /\ downstream st' = downstream st ++ cs
      /\ In (GAS_scheduling_transmit_address_suggestion peer0 (plugin aa) (addr aa)
               (session_id aa) (ats aa) (assigned_bw_out aa') (assigned_bw_in aa')) cs.
Proof.
  intros h rs q_in q_out st peer0 q bb Hrun Hlt Hin Hp.
  pose proof (reachable_Inv _ _ _ _ _ Hrun) as HIq.
  destruct (find_best_Some peer0 st q bb Hin Hp) as [[p aa] Hf].
  destruct (request_address_step q_in q_out peer0 st p aa HIq Hlt Hf) as (E & Hd & HI1).
  pose proof (find_best_In _ _ _ Hf) as [_ Hpa]. simpl in Hpa.
  destruct (active aa) eqn:Ha.
  - eexists _, p, aa, aa, _. split; [exact Hf|]. split; [exact E|].
    split; [exact Hd|]. split; [exact Ha|]. split; [reflexivity|].
    split; [reflexivity|]. now left.
  - set (st1 := set_active_addr_count _ _) in *.
    assert (deref p (addresses st1) = Some (set_active true aa)) as Hd1.
    { subst st1. simpl. rewrite deref_modify, Nat.eqb_refl, Hd. reflexivity. }
    eexists _, p, aa, _, _. split; [exact Hf|]. split; [exact E|].
    split.
    { unfold call, set_addresses. cbn [addresses].
      rewrite deref_map_share_of, Hd1. reflexivity. }
    unfold share_of, share. cbn [option_map snd fst active set_active].
    split; [reflexivity|]. split; [reflexivity|].
    split; [reflexivity|].
    unfold announcements. apply in_flat_map.
    exists (p, set_active true aa). split; [now apply deref_In|].
    cbn [snd active set_active]. left. rewrite <- Hpa. reflexivity.
Qed.

Lemma request_of_alice :
  exists st' p aa aa' cs,
    find_best alice four_active = Some (p, aa)
    /\ GAS_addresses_request_address alice four_active = Some st'
    /\ deref p (addresses st') = Some aa'
    /\ active aa' = true
    /\ set_active true (set_assigned_bw 0 0 aa') = set_active true (set_assigned_bw 0 0 aa)
    /\ downstream st' = downstream four_active ++ cs
    /\ In (GAS_scheduling_transmit_address_suggestion alice (plugin aa) (addr aa)
             (session_id aa) (ats aa) (assigned_bw_out aa') (assigned_bw_in aa')) cs.
Proof.
  apply (request_address_suggests_the_best_address true four_peers 1000 1000 four_active
           alice 0%nat address_of_alice).
  - vm_compute. reflexivity.
  - vm_compute. reflexivity.
  - vm_compute. auto.
  - reflexivity.
Defined.

Lemma get_multiple_nil peer0 (m : list (ptr * ATS_Address)) :
  (forall p aa, In (p, aa) m -> peer aa <> peer0) ->
  multihashmap_get_multiple peer0 m = [].
Proof.
  intros H. apply filter_nothing. intros [p aa] Hin. simpl.
  apply N.eqb_neq. now apply (H p).
Qed.

(** X11.  For a peer without any address, a request for an address and a
    destroy leave the registry as it is and call no one. *)
Theorem unknown_peer_is_ignored :
  forall st peer0 plugin_name plugin_addr session,
    (forall p aa, In (p, aa) (addresses st) -> peer aa <> peer0) ->
    GAS_addresses_request_address peer0 st = Some st
    /\ GAS_addresses_destroy peer0 plugin_name plugin_addr session st = Some st.
Proof.
  intros st peer0 plugin_name plugin_addr session H.
  unfold GAS_addresses_request_address, find_best, GAS_addresses_destroy.
  rewrite (get_multiple_nil peer0 _ H). split; reflexivity.
Qed.

Lemma bob_is_unknown :
  GAS_addresses_request_address bob session_seven = Some session_seven
  /\ GAS_addresses_destroy bob tcp addr_a 0 session_seven = Some session_seven.
Proof.
  apply (unknown_peer_is_ignored session_seven bob tcp addr_a 0).
  intros p aa [[= <- <-]|[]]. vm_compute. discriminate.
Defined.

Lemma update_atsp_keeps_bw i o :
  assigned_bw_in (update_atsp i o) = assigned_bw_in o
  /\ assigned_bw_out (update_atsp i o) = assigned_bw_out o.
Proof. unfold update_atsp. destruct (type i); split; reflexivity. Qed.

Lemma update_atsps_keeps_bw l : forall o,
  assigned_bw_in (update_atsps l o) = assigned_bw_in o
  /\ assigned_bw_out (update_atsps l o) = assigned_bw_out o.
Proof.
  unfold update_atsps. induction l as [|i l IH]; intros o; simpl; [auto|].
  destruct (IH (update_atsp i o)) as [-> ->]. apply update_atsp_keeps_bw.
Qed.

Lemma deref_put_fresh h p aa m :
  ~ In p (keys m) -> deref p (multihashmap_put h p aa m) = Some aa.
Proof.
  intros H. unfold multihashmap_put. destruct h; simpl.
  - now rewrite Nat.eqb_refl.
  - induction m as [|[q bb] m IH]; simpl in *.
    + now rewrite Nat.eqb_refl.
    + destruct (Nat.eqb_spec p q) as [->|]; [tauto|]. apply IH. tauto.
Qed.

Lemma deref_put_other h p q aa m :
  p <> q -> deref p (multihashmap_put h q aa m) = deref p m.
Proof.
  intros H. unfold multihashmap_put. destruct h; simpl.
  - destruct (Nat.eqb_spec p q); [contradiction|reflexivity].
  - induction m as [|[r bb] m IH]; simpl.
    + destruct (Nat.eqb_spec p q); [contradiction|reflexivity].
    + destruct (Nat.eqb p r); [reflexivity|exact IH].
Qed.

(** X12.  An update is silent: it calls no collaborator and recalculates
    nothing, and it leaves the peer, the plugin, the address bytes, the
    activity and the assigned bandwidth of every address in the registry
    as they were. *)
Theorem update_is_silent :
  forall h rs q_in q_out st peer0 plugin_name plugin_addr session atsi p aa,
    run h rs (GAS_addresses_init q_in q_out) = Some st ->
    deref p (addresses st) = Some aa ->
    let st' := GAS_addresses_update h peer0 plugin_name plugin_addr session atsi st in
    downstream st' = downstream st
    /\ bandwidth_recalculations st' = bandwidth_recalculations st
    /\ active_addr_count st' = active_addr_count st
    /\ exists aa',
         deref p (addresses st') = Some aa'
         /\ peer aa' = peer aa /\ plugin aa' = plugin aa /\ addr aa' = addr aa
         /\ active aa' = active aa
         /\ assigned_bw_in aa' = assigned_bw_in aa
         /\ assigned_bw_out aa' = assigned_bw_out aa.
Proof.
  intros h rs q_in q_out st peer0 plugin_name plugin_addr session atsi p aa Hrun Hd st'.
  destruct (reachable_Inv _ _ _ _ _ Hrun) as ((Hnd & Hb & Hc & Hr) & _).
  subst st'. rewrite GAS_addresses_update_eq by exact Hb.
  destruct (find_address peer0 _ st) as [old|]; simpl.
  - do 3 (split; [reflexivity|]).
    rewrite deref_modify, Hd.
    destruct (Nat.eqb old p); simpl; eexists; (split; [reflexivity|]).
    + unfold merge.
      destruct (update_atsps_keeps atsi (set_ats atsi (set_session_id session aa)))
        as (-> & _ & -> & -> & _ & -> & _).
      destruct (update_atsps_keeps_bw atsi (set_ats atsi (set_session_id session aa)))
        as (-> & ->).
      repeat split.
    + repeat split.
  - do 3 (split; [reflexivity|]).
    exists aa. split; [|repeat split].
    assert (p <> next_ptr st) as Hne.
    { intros ->. apply deref_In in Hd.
      assert (In (next_ptr st) (keys (addresses st))) as Hk
        by (unfold keys; apply in_map_iff; exists (next_ptr st, aa); auto).
      apply Hb in Hk. lia. }
    now rewrite deref_put_other.
Qed.

Lemma update_of_bob_is_silent :
  let st' := GAS_addresses_update true bob tcp addr_b 3 (distance 5) four_active in
  downstream st' = downstream four_active
  /\ bandwidth_recalculations st' = bandwidth_recalculations four_active
  /\ active_addr_count st' = active_addr_count four_active
  /\ exists aa',
       deref 0%nat (addresses st') = Some aa'
       /\ peer aa' = peer address_of_alice /\ plugin aa' = plugin address_of_alice
       /\ addr aa' = addr address_of_alice
       /\ active aa' = active address_of_alice
       /\ assigned_bw_in aa' = assigned_bw_in address_of_alice
       /\ assigned_bw_out aa' = assigned_bw_out address_of_alice.
Proof.
  apply (update_is_silent true four_peers 1000 1000 four_active bob tcp addr_b 3
           (distance 5) 0%nat address_of_alice).
  - vm_compute. reflexivity.
  - vm_compute. reflexivity.
Defined.

(** X13.  After an update, [find_address] with the same peer, plugin,
    address bytes and session finds a record of that peer which carries
    the session and the performance information of the update; the
    record is the one it found before the update, or a new one when it
    found none. *)
Theorem update_then_find :
  forall h rs q_in q_out st peer0 plugin_name plugin_addr session atsi,
    run h rs (GAS_addresses_init q_in q_out) = Some st ->
    let search := new_address peer0 plugin_name plugin_addr session atsi in
    let st' := GAS_addresses_update h peer0 plugin_name plugin_addr session atsi st in
    exists p aa',
      find_address peer0 search st' = Some p
      /\ deref p (addresses st') = Some aa'
      /\ peer aa' = peer0 /\ session_id aa' = session /\ ats aa' = atsi
      /\ match find_address peer0 search st with
         | Some old => p = old
         | None => p = next_ptr st /\ plugin aa' = plugin_name /\ addr aa' = plugin_addr
                   /\ active aa' = false
         end.
Proof.
  intros h rs q_in q_out st peer0 plugin_name plugin_addr session atsi Hrun search st'.
  destruct (reachable_Inv _ _ _ _ _ Hrun) as (HI & _).
  pose proof HI as (Hnd & Hb & Hc & Hr).
  subst st'. rewrite GAS_addresses_update_eq by exact Hb. fold search.
  change (find_address peer0 search) with
    (fun st => first_match peer0 search (addresses st)).
  cbv beta.
  destruct (first_match peer0 search (addresses st)) as [old|] eqn:E.
  - cbn [addresses set_addresses].
    rewrite first_match_modify; try assumption;
      [|intros o; apply peer_merge|intros o; apply compare_address_it_merge].
    pose proof (first_match_In _ _ _ _ E) as Hin.
    destruct (deref old (addresses st)) as [aa|] eqn:Hd.
    2:{ apply deref_None in Hd. contradiction. }
    exists old, (merge session atsi aa).
    split; [reflexivity|].
    split; [rewrite deref_modify, Nat.eqb_refl, Hd; reflexivity|].
    unfold merge.
    destruct (update_atsps_keeps atsi (set_ats atsi (set_session_id session aa)))
      as (-> & -> & _ & _ & -> & _).
    simpl. split; [|auto].
    (* the peer of the record found *)
    clear -E Hd Hnd. unfold first_match in E.
    destruct (find _ _) as [[q bb]|] eqn:Ef; [|discriminate].
    injection E as <-. apply find_some in Ef. destruct Ef as [Hin _].
    apply filter_In in Hin. destruct Hin as [Hin Hp]. simpl in Hp.
    rewrite (In_deref q bb _ Hnd Hin) in Hd. injection Hd as <-.
    now apply N.eqb_eq.
  - cbn [addresses].
    set (fresh := update_atsps atsi search).
    destruct (update_atsps_keeps atsi search) as (Kp & Ks & Ka & Kl & Kt & Kact & _).
    fold fresh in Kp, Ks, Ka, Kl, Kt, Kact.
    rewrite first_match_put; try assumption;
      [|now apply compare_address_it_new].
    exists (next_ptr st), fresh. split; [reflexivity|].
    split.
    { assert (~ In (next_ptr st) (keys (addresses st))) as Hfresh
        by (intros Hin; apply Hb in Hin; lia).
      now apply deref_put_fresh. }
    rewrite Kp, Ks, Kt, Kl, Ka, Kact. subst search. simpl. auto 10.
Qed.

Lemma update_then_find_example :
  let search := new_address bob tcp addr_b 3 (distance 5) in
  let st' := GAS_addresses_update true bob tcp addr_b 3 (distance 5) four_active in
  exists p aa',
    find_address bob search st' = Some p
    /\ deref p (addresses st') = Some aa'
    /\ peer aa' = bob /\ session_id aa' = 3 /\ ats aa' = distance 5
    /\ match find_address bob search four_active with
       | Some old => p = old
       | None => p = next_ptr four_active /\ plugin aa' = tcp /\ addr aa' = addr_b
                 /\ active aa' = false
       end.
Proof.
  apply (update_then_find true four_peers 1000 1000 four_active bob tcp addr_b 3
           (distance 5)).
  vm_compute. reflexivity.
Defined.

(** *** The shares of the active addresses *)

Lemma equal_shares_recalculated st cs :
  equal_shares (call cs (set_addresses (map (share_of st) (addresses st))
                           (count_recalculation st))).
Proof.
  intros p aa Hin Ha. cbn [addresses call set_addresses] in Hin.
  apply in_map_iff in Hin. destruct Hin as (e & He & _).
  unfold share_of, share in He. unfold holds_share. cbn.
  destruct (active (snd e)) eqn:Hae.
  - injection He as _ <-. split; reflexivity.
  - subst e. simpl in Hae. congruence.
Qed.

Lemma equal_shares_recalculate st st' :
  List.NoDup (keys (addresses st)) -> recalculate_assigned_bw st = Some st' ->
  equal_shares st'.
Proof.
  intros Hnd H. destruct (recalculate_spec _ _ Hnd H) as [cs ->].
  apply equal_shares_recalculated.
Qed.

(** The shares are kept when the quotas and the counter are, and every
    active address was there before, active and with the same bandwidth. *)
Lemma equal_shares_kept st st' :
  wan_quota_in st' = wan_quota_in st -> wan_quota_out st' = wan_quota_out st ->
  active_addr_count st' = active_addr_count st ->
  (forall p aa', In (p, aa') (addresses st') -> active aa' = true ->
     exists q aa, In (q, aa) (addresses st) /\ active aa = true
                  /\ assigned_bw_in aa' = assigned_bw_in aa
                  /\ assigned_bw_out aa' = assigned_bw_out aa) ->
  equal_shares st -> equal_shares st'.
Proof.
  intros Hi Ho Hc Hall HF p aa' Hin Ha.
  destruct (Hall p aa' Hin Ha) as (q & aa & Hin0 & Ha0 & Bi & Bo).
  destruct (HF q aa Hin0 Ha0) as [Fi Fo].
  unfold holds_share. rewrite Hi, Ho, Hc, Bi, Bo. auto.
Qed.

Lemma In_modify p aa' q f (m : list (ptr * ATS_Address)) :
  In (p, aa') (modify q f m) -> exists aa, In (p, aa) m /\ (aa' = aa \/ aa' = f aa).
Proof.
  unfold modify. intros H. apply in_map_iff in H. destruct H as ([r bb] & He & Hin).
  simpl in He. destruct (Nat.eqb q r); injection He as <- <-; eauto.
Qed.

Lemma equal_shares_modify p f st :
  (forall aa, active (f aa) = active aa /\ assigned_bw_in (f aa) = assigned_bw_in aa
              /\ assigned_bw_out (f aa) = assigned_bw_out aa) ->
  equal_shares st -> equal_shares (set_addresses (modify p f (addresses st)) st).
Proof.
  intros Hf. apply equal_shares_kept; try reflexivity.
  intros q aa' Hin Ha. cbn [addresses set_addresses] in Hin.
  apply In_modify in Hin. destruct Hin as (aa & Hin & [->| ->]).
  - exists q, aa. auto.
  - destruct (Hf aa) as (F1 & F2 & F3). exists q, aa. rewrite <- F1. auto.
Qed.

Lemma equal_shares_remove p st c :
  c = active_addr_count st ->
  equal_shares st ->
  equal_shares (set_active_addr_count c
                  (set_addresses (multihashmap_remove p (addresses st)) st)).
Proof.
  intros ->. apply equal_shares_kept; try reflexivity.
  intros q aa' Hin Ha. cbn in Hin. unfold multihashmap_remove in Hin.
  apply filter_In in Hin. exists q, aa'. tauto.
Qed.

Lemma merge_keeps_bw s v o :
  active (merge s v o) = active o /\ assigned_bw_in (merge s v o) = assigned_bw_in o
  /\ assigned_bw_out (merge s v o) = assigned_bw_out o.
Proof.
  unfold merge.
  destruct (update_atsps_keeps v (set_ats v (set_session_id s o)))
    as (_ & _ & _ & _ & _ & -> & _).
  destruct (update_atsps_keeps_bw v (set_ats v (set_session_id s o))) as [-> ->].
  repeat split.
Qed.

Lemma update_equal_shares h peer0 plugin_name plugin_addr s v st :
  Inv st -> equal_shares st ->
  equal_shares (GAS_addresses_update h peer0 plugin_name plugin_addr s v st).
Proof.
  intros HI HF. rewrite GAS_addresses_update_eq by apply HI.
  destruct (find_address _ _ st) as [old|].
  - apply equal_shares_modify; [|assumption]. intros aa. apply merge_keeps_bw.
  - revert HF. apply equal_shares_kept; try reflexivity.
    intros q aa' Hin Ha. cbn [addresses] in Hin.
    assert (In (q, aa') (addresses st)
            \/ aa' = update_atsps v (new_address peer0 plugin_name plugin_addr s v))
      as [Hold| ->].
    { unfold multihashmap_put in Hin. destruct h.
      - destruct Hin as [[= _ <-]|Hin]; auto.
      - apply in_app_or in Hin. destruct Hin as [Hin|[[= _ <-]|[]]]; auto. }
    + exists q, aa'. auto.
    + destruct (update_atsps_keeps v (new_address peer0 plugin_name plugin_addr s v))
        as (_ & _ & _ & _ & _ & Hact & _).
      rewrite Hact in Ha. discriminate.
Qed.

Lemma request_address_equal_shares peer0 st st' :
  Inv st -> equal_shares st -> GAS_addresses_request_address peer0 st = Some st' ->
  equal_shares st'.
Proof.
  intros HI HF H. unfold GAS_addresses_request_address in H.
  destruct (find_best peer0 st) as [[p aa]|]; [|now injection H as <-].
  destruct (active aa); cbn [negb] in H.
  - injection H as <-. revert HF. apply equal_shares_kept; try reflexivity.
    intros q aa' Hin Ha. exists q, aa'. auto.
  - apply equal_shares_recalculate in H; [exact H|].
    cbn. rewrite keys_modify. apply HI.
Qed.

Lemma destroy_by_session_id_equal_shares q_in q_out info p st st' :
  Inv_with q_in q_out st -> equal_shares st ->
  destroy_by_session_id info p st = Some st' -> equal_shares st'.
Proof.
  intros HIq HF H. pose proof HIq as (HI & Hq & Hq'). pose proof HI as (Hnd & _).
  destruct (deref p (addresses st)) as [aa|] eqn:Hd.
  2:{ unfold destroy_by_session_id in H. rewrite Hd in H. now injection H as <-. }
  unfold destroy_by_session_id in H. rewrite Hd in H.
  destruct (negb (N.eqb (peer aa) (peer info))); [discriminate|].
  match type of H with (if ?b then _ else _) = _ => destruct b end.
  - rewrite (destroy_address_spec p st aa HI Hd) in H.
    destruct (active aa).
    + apply equal_shares_recalculate in H; [exact H|].
      cbn. rewrite keys_remove. apply NoDup_filter, Hnd.
    + injection H as <-. apply equal_shares_remove; [cbn; lia|assumption].
  - destruct (negb (session_id aa =? session_id info)); [now injection H as <-|].
    destruct (session_died q_in q_out p st aa HIq Hd)
      as (st2 & E2 & HI2 & _ & bb & Hd2 & Hb2).
    assert (equal_shares st2) as HF2.
    { cbv zeta in E2. destruct (active aa).
      - apply equal_shares_recalculate in E2; [exact E2|].
        cbn [addresses set_addresses set_active_addr_count]. rewrite !keys_modify.
        exact Hnd.
      - injection E2 as <-. apply equal_shares_modify; [|assumption].
        intros x. repeat split. }
    cbv zeta in E2, H. rewrite E2 in H.
    destruct (addr_len aa =? 0).
    + rewrite (destroy_address_spec p st2 bb (proj1 HI2) Hd2) in H.
      rewrite Hb2 in H. injection H as <-.
      apply equal_shares_remove; [cbn; lia|assumption].
    + now injection H as <-.
Qed.

Lemma handle_equal_shares q_in q_out h r st st' :
  Inv_with q_in q_out st -> equal_shares st -> handle h r st = Some st' ->
  equal_shares st'.
Proof.
  intros HIq HF H. destruct r as [peer0 plugin_name plugin_addr s v
                                 |peer0 plugin_name plugin_addr s|peer0]; simpl in H.
  - injection H as <-. apply update_equal_shares; [apply HIq|assumption].
  - unfold GAS_addresses_destroy in H.
    eapply (iterate_preserves (fun st => Inv_with q_in q_out st /\ equal_shares st));
      [|split; [exact HIq|exact HF]|exact H].
    intros p s0 s1 [H0 F0] E. split.
    + eapply destroy_by_session_id_Inv; eauto.
    + eapply destroy_by_session_id_equal_shares; eauto.
  - eapply request_address_equal_shares; [apply HIq|exact HF|exact H].
Qed.

Lemma run_equal_shares q_in q_out h rs : forall st st',
  Inv_with q_in q_out st -> equal_shares st -> run h rs st = Some st' ->
  equal_shares st'.
Proof.
  induction rs as [|r rs IH]; simpl; intros st st' HI HF H.
  - now injection H as <-.
  - destruct (handle h r st) as [st1|] eqn:E; [|discriminate].
    eapply IH; [| |exact H].
    + eapply handle_Inv; eauto.
    + eapply handle_equal_shares; eauto.
Qed.

Lemma reachable_equal_shares h rs q_in q_out st :
  run h rs (GAS_addresses_init q_in q_out) = Some st -> equal_shares st.
Proof.
  apply (run_equal_shares q_in q_out).
  - split; [apply Inv_init|]. split; reflexivity.
  - intros p aa [].
Qed.

(** C2 (amended).  [recalculate_assigned_bw], called in a state in which
    [active_addr_count] is the number of active addresses, succeeds and
    assigns to each active address the inbound quota divided by that
    number, and likewise the outbound quota, each quotient cut to its low
    32 bits; it changes neither the quotas nor which addresses are
    active.  The code calls it in three places, each time in such a
    state: starting from a state that satisfies the invariant of the
    registry (every state between two requests does, and every state
    between two callbacks of a destroy), when a request activates an
    address, when [destroy_address] has removed an active address, and
    when [destroy_by_session_id] has ended the session of an active
    address, the counter has been adjusted to the new number of active
    addresses before the recalculation.  And in every state the registry
    is in between two requests, each active address holds these two
    shares. *)
Theorem recalculation_assigns_equal_shares :
  (forall st,
     List.NoDup (keys (addresses st)) ->
     active_addr_count st = number_active (addresses st) ->
     exists st',
       recalculate_assigned_bw st = Some st'
       /\ (forall p aa, In (p, aa) (addresses st') -> active aa = true ->
             ntohl (assigned_bw_in aa)
             = wrap32 (wan_quota_in st / number_active (addresses st))
             /\ ntohl (assigned_bw_out aa)
                = wrap32 (wan_quota_out st / number_active (addresses st)))
       /\ map (fun e => (fst e, active (snd e))) (addresses st')
          = map (fun e => (fst e, active (snd e))) (addresses st)
       /\ wan_quota_in st' = wan_quota_in st /\ wan_quota_out st' = wan_quota_out st)
  /\ (forall st,
        Inv st ->
        (forall peer0 p aa,
           find_best peer0 st = Some (p, aa) -> active aa = false ->
           number_active (addresses st) + 1 < 2 ^ 32 ->
           let st1 := set_active_addr_count (wrap32 (active_addr_count st + 1))
                        (set_addresses (modify p (set_active true) (addresses st)) st) in
           GAS_addresses_request_address peer0 st = recalculate_assigned_bw st1
           /\ List.NoDup (keys (addresses st1))
           /\ active_addr_count st1 = number_active (addresses st1)
           /\ number_active (addresses st1) = number_active (addresses st) + 1)
        /\ (forall p aa,
              deref p (addresses st) = Some aa -> active aa = true ->
              let st1 := set_active_addr_count (wrap32 (active_addr_count st - 1))
                           (set_addresses (multihashmap_remove p (addresses st)) st) in
              destroy_address p st = Some (true, st1)
              /\ List.NoDup (keys (addresses st1))
              /\ active_addr_count st1 = number_active (addresses st1)
              /\ number_active (addresses st1) = number_active (addresses st) - 1)
        /\ (forall info p aa,
              deref p (addresses st) = Some aa -> active aa = true ->
              peer aa = peer info -> exact_match info aa = false ->
              session_id aa = session_id info ->
              let st0 := set_addresses (modify p (set_session_id 0) (addresses st)) st in
              let st1 := set_active_addr_count (wrap32 (active_addr_count st0 - 1))
                           (set_addresses (modify p (set_active false) (addresses st0))
                              st0) in
              destroy_by_session_id info p st
              = match recalculate_assigned_bw st1 with
                | None => None
                | Some st2 =>
                    if addr_len aa =? 0
                    then match destroy_address p st2 with
                         | None => None
                         | Some (_, st3) => Some st3
                         end
                    else Some st2
                end
              /\ List.NoDup (keys (addresses st1))
              /\ active_addr_count st1 = number_active (addresses st1)
              /\ number_active (addresses st1) = number_active (addresses st) - 1))
  /\ (forall h rs q_in q_out st p aa,
        run h rs (GAS_addresses_init q_in q_out) = Some st ->
        In (p, aa) (addresses st) -> active aa = true ->
        ntohl (assigned_bw_in aa) = wrap32 (q_in / number_active (addresses st))
        /\ ntohl (assigned_bw_out aa) = wrap32 (q_out / number_active (addresses st))).
Proof.
  split; [|split].
  - intros st Hnd Hc.
    assert (0 < active_addr_count st \/ number_active (addresses st) = 0) as Hpos.
    { rewrite Hc. pose proof (number_active_nonneg (addresses st)). lia. }
    rewrite (recalculate_calls st Hnd Hpos). eexists. split; [reflexivity|].
    cbn [addresses call set_addresses count_recalculation wan_quota_in wan_quota_out].
    split; [|split; [|auto]].
    + intros p aa Hin Ha.
      destruct (equal_shares_recalculated st (announcements st) p aa Hin Ha) as [-> ->].
      cbn. rewrite !ntohl_htonl, Hc. auto.
    + rewrite map_map. apply map_ext. intros e. unfold share_of.
      now rewrite fst_share, active_share.
  - intros st (Hnd & Hb & Hc & Hr).
    pose proof (number_active_nonneg (addresses st)) as Hnn.
    split; [|split].
    + intros peer0 p aa Hf Ha Hlt st1.
      pose proof (find_best_In _ _ _ Hf) as [Hin _].
      assert (deref p (addresses st) = Some aa) as Hd by now apply In_deref.
      assert (number_active (addresses st1) = number_active (addresses st) + 1) as Hn.
      { subst st1. cbn [addresses set_addresses set_active_addr_count].
        rewrite (number_active_modify _ _ _ aa) by assumption.
        rewrite Ha. cbn [active set_active Z.b2z]. lia. }
      split; [|split; [|split; [|exact Hn]]].
      * unfold GAS_addresses_request_address. rewrite Hf, Ha. reflexivity.
      * subst st1. cbn [addresses set_addresses set_active_addr_count].
        rewrite keys_modify. exact Hnd.
      * rewrite Hn. subst st1.
        cbn [active_addr_count set_addresses set_active_addr_count].
        rewrite Hc. apply wrap32_small. lia.
    + intros p aa Hd Ha st1.
      pose proof (number_active_pos _ _ _ Hd Ha) as Hpos.
      assert (number_active (addresses st1) = number_active (addresses st) - 1) as Hn.
      { subst st1. cbn [addresses set_addresses set_active_addr_count].
        rewrite (number_active_remove _ _ aa) by assumption.
        rewrite Ha. cbn [Z.b2z]. lia. }
      split; [|split; [|split; [|exact Hn]]].
      * unfold destroy_address. rewrite Hd, Ha. reflexivity.
      * subst st1. cbn [addresses set_addresses set_active_addr_count].
        rewrite keys_remove. now apply NoDup_filter.
      * rewrite Hn. subst st1.
        cbn [active_addr_count set_addresses set_active_addr_count].
        rewrite Hc. apply wrap32_small. lia.
    + intros info p aa Hd Ha Hp Hx Hs st0 st1.
      pose proof (number_active_pos _ _ _ Hd Ha) as Hpos.
      assert (deref p (addresses st0) = Some (set_session_id 0 aa)) as Hd0.
      { subst st0. cbn [addresses set_addresses].
        rewrite deref_modify, Nat.eqb_refl, Hd. reflexivity. }
      assert (number_active (addresses st1) = number_active (addresses st) - 1) as Hn.
      { subst st1. cbn [addresses set_addresses set_active_addr_count].
        rewrite (number_active_modify _ _ _ (set_session_id 0 aa));
          [|subst st0; cbn [addresses set_addresses]; now rewrite keys_modify|exact Hd0].
        subst st0. cbn [addresses set_addresses].
        rewrite number_active_modify_same by reflexivity.
        cbn [active set_active set_session_id]. rewrite Ha. cbn [Z.b2z]. lia. }
      split; [|split; [|split; [|exact Hn]]].
      * unfold destroy_by_session_id. rewrite Hd, Hp, N.eqb_refl. cbn [negb].
        unfold exact_match in Hx. rewrite Hx, Hs, Z.eqb_refl. cbn [negb].
        rewrite Ha. reflexivity.
      * subst st1 st0. cbn [addresses set_addresses set_active_addr_count].
        rewrite !keys_modify. exact Hnd.
      * rewrite Hn. subst st1 st0.
        cbn [active_addr_count set_addresses set_active_addr_count].
        rewrite Hc. apply wrap32_small. lia.
  - intros h rs q_in q_out st p aa Hrun Hin Ha.
    destruct (reachable_Inv _ _ _ _ _ Hrun) as ((_ & _ & Hc & _) & Hq & Hq').
    destruct (reachable_equal_shares _ _ _ _ _ Hrun p aa Hin Ha) as [-> ->].
    rewrite !ntohl_htonl, Hq, Hq', Hc. auto.
Qed.

Lemma equal_shares_of_four_peers :
  (exists st',
     recalculate_assigned_bw fourth_activated = Some st'
     /\ (forall p aa, In (p, aa) (addresses st') -> active aa = true ->
           ntohl (assigned_bw_in aa) = 250 /\ ntohl (assigned_bw_out aa) = 250)
     /\ map (fun e => (fst e, active (snd e))) (addresses st')
        = map (fun e => (fst e, active (snd e))) (addresses fourth_activated)
     /\ wan_quota_in st' = 1000 /\ wan_quota_out st' = 1000)
  /\ (GAS_addresses_request_address dave fourth_reported
      = recalculate_assigned_bw fourth_activated
      /\ List.NoDup (keys (addresses fourth_activated))
      /\ active_addr_count fourth_activated = number_active (addresses fourth_activated)
      /\ number_active (addresses fourth_activated) = 3 + 1)
  /\ (let st1 := set_active_addr_count (wrap32 (active_addr_count four_active - 1))
                   (set_addresses (multihashmap_remove 3%nat (addresses four_active))
                      four_active) in
      destroy_address 3%nat four_active = Some (true, st1)
      /\ List.NoDup (keys (addresses st1))
      /\ active_addr_count st1 = number_active (addresses st1)
      /\ number_active (addresses st1) = 4 - 1)
  /\ (let st0 := set_addresses (modify 3%nat (set_session_id 0) (addresses four_active))
                   four_active in
      let st1 := set_active_addr_count (wrap32 (active_addr_count st0 - 1))
                   (set_addresses (modify 3%nat (set_active false) (addresses st0))
                      st0) in
      destroy_by_session_id (new_address dave tcp addr_b 0 []) 3%nat four_active
      = match recalculate_assigned_bw st1 with
        | None => None
        | Some st2 =>
            if addr_len dave_of_four =? 0
            then match destroy_address 3%nat st2 with
                 | None => None
                 | Some (_, st3) => Some st3
                 end
            else Some st2
        end
      /\ List.NoDup (keys (addresses st1))
      /\ active_addr_count st1 = number_active (addresses st1)
      /\ number_active (addresses st1) = 4 - 1)
  /\ length (addresses one_deactivated) = 4%nat
  /\ number_active (addresses one_deactivated) = 3
  /\ (forall p aa, In (p, aa) (addresses one_deactivated) -> active aa = true ->
        ntohl (assigned_bw_in aa) = 333 /\ ntohl (assigned_bw_out aa) = 333)
  /\ In (0%nat, alice_of_three) (addresses one_deactivated)
  /\ active alice_of_three = true
  /\ ntohl (assigned_bw_in alice_of_three) = 333
  /\ ntohl (assigned_bw_out alice_of_three) = 333.
Proof.
  split; [|split; [|split; [|split]]].
  - apply (proj1 recalculation_assigns_equal_shares fourth_activated).
    + vm_compute. repeat constructor; simpl; intuition discriminate.
    + reflexivity.
  - apply (proj1 (proj1 (proj2 recalculation_assigns_equal_shares) fourth_reported
                    (proj1 (reachable_Inv true
                              [update alice tcp addr_a 0 []; request_address alice;
                               update bob tcp addr_a 0 []; request_address bob;
                               update carol tcp addr_a 0 []; request_address carol;
                               update dave tcp addr_a 0 []] 1000 1000 fourth_reported
                              eq_refl)))
             dave 3%nat address_of_dave).
    + reflexivity.
    + reflexivity.
    + reflexivity.
  - apply (proj1 (proj2 (proj1 (proj2 recalculation_assigns_equal_shares) four_active
                           (proj1 (reachable_Inv true four_peers 1000 1000 four_active
                                     eq_refl))))
             3%nat dave_of_four).
    + reflexivity.
    + reflexivity.
  - apply (proj2 (proj2 (proj1 (proj2 recalculation_assigns_equal_shares) four_active
                           (proj1 (reachable_Inv true four_peers 1000 1000 four_active
                                     eq_refl))))
             (new_address dave tcp addr_b 0 []) 3%nat dave_of_four).
    + reflexivity.
    + reflexivity.
    + reflexivity.
    + reflexivity.
    + reflexivity.
  - split; [reflexivity|]. split; [reflexivity|]. split.
    + intros p aa Hin Ha.
      apply (proj2 (proj2 recalculation_assigns_equal_shares) true
               (four_peers ++ [destroy dave tcp addr_b 0]) 1000 1000 one_deactivated
               p aa).
      * vm_compute. reflexivity.
      * exact Hin.
      * exact Ha.
    + split; [vm_compute; tauto|]. split; [reflexivity|].
      apply (proj2 (proj2 recalculation_assigns_equal_shares) true
               (four_peers ++ [destroy dave tcp addr_b 0]) 1000 1000 one_deactivated
               0%nat alice_of_three).
      * vm_compute. reflexivity.
      * vm_compute. tauto.
      * reflexivity.
Defined.

(** The scenario of the spec: with an outbound quota of 1000, four active
    addresses are assigned 250 each; when one of them is deactivated, or
    is destroyed, the remaining three are assigned 333 each. *)
Lemma proportional_fairness_scenario :
  (exists st,
      run true four_peers (GAS_addresses_init 1000 1000) = Some st
      /\ map (fun e => ntohl (assigned_bw_out (snd e)))
           (List.filter (fun e => active (snd e)) (addresses st))
         = [250; 250; 250; 250])
  /\ (exists st,
         run true (four_peers ++ [destroy dave tcp addr_b 0])
           (GAS_addresses_init 1000 1000) = Some st
         /\ length (addresses st) = 4%nat
         /\ map (fun e => ntohl (assigned_bw_out (snd e)))
              (List.filter (fun e => active (snd e)) (addresses st))
            = [333; 333; 333])
  /\ (exists st,
         run true (four_peers ++ [destroy dave tcp addr_a 0])
           (GAS_addresses_init 1000 1000) = Some st
         /\ length (addresses st) = 3%nat
         /\ map (fun e => ntohl (assigned_bw_out (snd e)))
              (List.filter (fun e => active (snd e)) (addresses st))
            = [333; 333; 333]).
Proof.
  repeat split; eexists; (split; [vm_compute; reflexivity|]); split; vm_compute;
    reflexivity.
Qed.

(** *** The end of a session *)

(** Each recalculation of a destroy goes with one decrement of the
    counter. *)
Lemma destroy_by_session_id_counts q_in q_out info p st st' :
  Inv_with q_in q_out st -> destroy_by_session_id info p st = Some st' ->
  bandwidth_recalculations st' + active_addr_count st'
  = bandwidth_recalculations st + active_addr_count st.
Proof.
  intros HIq H. pose proof HIq as (HI & Hq & Hq'). pose proof HI as (Hnd & _).
  destruct (deref p (addresses st)) as [aa|] eqn:Hd.
  2:{ unfold destroy_by_session_id in H. rewrite Hd in H. now injection H as <-. }
  unfold destroy_by_session_id in H. rewrite Hd in H.
  destruct (negb (N.eqb (peer aa) (peer info))); [discriminate|].
  match type of H with (if ?b then _ else _) = _ => destruct b end.
  - rewrite (destroy_address_spec p st aa HI Hd) in H.
    destruct (active aa).
    + apply recalculate_spec in H.
      * destruct H as [cs ->]. cbn. lia.
      * cbn. rewrite keys_remove. apply NoDup_filter, Hnd.
    + injection H as <-. cbn. lia.
  - destruct (negb (session_id aa =? session_id info)); [now injection H as <-|].
    destruct (session_died q_in q_out p st aa HIq Hd)
      as (st2 & E2 & HI2 & _ & bb & Hd2 & Hb2).
    assert (bandwidth_recalculations st2 + active_addr_count st2
            = bandwidth_recalculations st + active_addr_count st) as Hc2.
    { cbv zeta in E2. destruct (active aa) eqn:Ha.
      - apply recalculate_spec in E2.
        + destruct E2 as [cs ->]. cbn.
          destruct HI as (_ & _ & Hc & Hlt).
          pose proof (number_active_pos p aa (addresses st) Hd Ha).
          rewrite wrap32_small by lia. lia.
        + cbn [addresses set_addresses set_active_addr_count]. rewrite !keys_modify.
          exact Hnd.
      - injection E2 as <-. reflexivity. }
    cbv zeta in E2, H. rewrite E2 in H.
    destruct (addr_len aa =? 0).
    + rewrite (destroy_address_spec p st2 bb (proj1 HI2) Hd2) in H.
      rewrite Hb2 in H. injection H as <-. cbn. lia.
    + now injection H as <-.
Qed.

Lemma GAS_addresses_destroy_counts q_in q_out peer0 plugin_name plugin_addr session
    st st' :
  Inv_with q_in q_out st ->
  GAS_addresses_destroy peer0 plugin_name plugin_addr session st = Some st' ->
  bandwidth_recalculations st' + active_addr_count st'
  = bandwidth_recalculations st + active_addr_count st.
Proof.
  intros HIq H. unfold GAS_addresses_destroy in H.
  set (K := bandwidth_recalculations st + active_addr_count st).
  apply (iterate_preserves
           (fun s => Inv_with q_in q_out s
                     /\ bandwidth_recalculations s + active_addr_count s = K)
           _ _) with (st := st) (st' := st') in H;
    [apply H| |split; [exact HIq|reflexivity]].
  intros p s0 s1 [H0 K0] E. split.
  - eapply destroy_by_session_id_Inv; eauto.
  - rewrite <- K0. eapply destroy_by_session_id_counts; eauto.
Qed.

Lemma number_active_erase_bw m : number_active (map erase_bw m) = number_active m.
Proof.
  unfold number_active. f_equal.
  induction m as [|e m IH]; simpl; [reflexivity|].
  destruct (active (snd e)); simpl; now rewrite IH.
Qed.

Lemma number_active_app m m' :
  number_active (m ++ m') = number_active m + number_active m'.
Proof. unfold number_active. rewrite List.filter_app, length_app. lia. Qed.

Lemma number_active_outcome peer0 plugin_name plugin_addr session m :
  session <> 0 ->
  number_active (flat_map (outcome (new_address peer0 plugin_name plugin_addr session []))
                   m)
  = number_active m - Z.of_nat (length (active_in_session peer0 session m)).
Proof.
  intros Hs. induction m as [|[q bb] m IH]; [reflexivity|].
  cbn [flat_map]. rewrite number_active_app, IH.
  change ((q, bb) :: m) with ([(q, bb)] ++ m). rewrite number_active_app.
  unfold active_in_session. rewrite List.filter_app, length_app.
  unfold outcome, exact_match. cbn [peer session_id new_address fst snd].
  apply Z.eqb_neq in Hs. rewrite Hs. cbn [andb].
  unfold number_active. cbn [List.filter length fst snd].
  destruct (N.eqb (peer bb) peer0); cbn [negb andb].
  2:{ cbn [List.filter fst snd]. destruct (active bb); cbn [length]; lia. }
  destruct (session_id bb =? session); cbn [negb andb].
  2:{ cbn [List.filter fst snd]. destruct (active bb); cbn [length]; lia. }
  destruct (addr_len bb =? 0); cbn [List.filter fst snd active set_active set_session_id];
    destruct (active bb); cbn [length]; lia.
Qed.

Lemma map_erase_bw_keys l l' : map erase_bw l = map erase_bw l' -> keys l = keys l'.
Proof.
  intros H. unfold keys.
  assert (forall m, map fst (map erase_bw m) = map fst m) as Hk
    by (intros m; rewrite map_map; reflexivity).
  rewrite <- (Hk l), <- (Hk l'). now rewrite H.
Qed.

Lemma keys_outcome_gone info p aa m :
  List.NoDup (keys m) -> In (p, aa) m -> outcome info (p, aa) = [] ->
  ~ In p (keys (flat_map (outcome info) m)).
Proof.
  intros Hnd Hin Ho Hk. unfold keys in Hk. apply in_map_iff in Hk.
  destruct Hk as (x & Hx & Hin'). apply in_flat_map in Hin'.
  destruct Hin' as ([q bb] & He & Hxe). pose proof (outcome_fst _ _ _ Hxe) as Hf.
  simpl in Hf. assert (q = p) as -> by congruence.
  apply (In_deref _ _ _ Hnd) in He. apply (In_deref _ _ _ Hnd) in Hin.
  assert (bb = aa) as -> by congruence.
  rewrite Ho in Hxe. destruct Hxe.
Qed.

(** C5.  In a state the registry reaches, let the stored address [aa] of
    the peer carry the session id of the query, which is not zero.  Then
    [GAS_addresses_destroy], which calls [destroy_by_session_id] for
    every address of the peer, succeeds.  The address is removed exactly
    when its raw address is empty; otherwise it stays, with session id 0
    and inactive, and unchanged in every other field but the assigned
    bandwidth.  For every active address of the peer with that session
    the counter of active addresses is decremented and one
    recalculation is performed, and for no other address, so that the
    counter is again the number of active addresses.  An address of
    another peer, or with another session, stays as it is, but for the
    bandwidth the recalculations assign.  And each single call of
    [destroy_by_session_id], in whatever state the earlier calls have
    left (the invariant of the registry holds there, and again after
    the call), on an address with the session of the query: it
    succeeds, decrements the counter and recalculates once exactly when
    the address was active, and removes the address exactly when its
    raw address is empty; otherwise it leaves it with session id 0,
    inactive and unchanged in every other field. *)
Theorem session_downgrade :
  (forall h rs q_in q_out st peer0 plugin_name plugin_addr session p aa,
     run h rs (GAS_addresses_init q_in q_out) = Some st ->
     In (p, aa) (addresses st) -> peer aa = peer0 ->
     session <> 0 -> session_id aa = session ->
     exists st',
       GAS_addresses_destroy peer0 plugin_name plugin_addr session st = Some st'
       /\ (addr_len aa = 0 -> deref p (addresses st') = None)
       /\ (addr_len aa <> 0 ->
           exists aa',
             deref p (addresses st') = Some aa'
             /\ session_id aa' = 0 /\ active aa' = false
             /\ set_assigned_bw 0 0 aa'
                = set_assigned_bw 0 0 (set_active false (set_session_id 0 aa)))
       /\ active_addr_count st'
          = active_addr_count st
            - Z.of_nat (length (active_in_session peer0 session (addresses st)))
       /\ bandwidth_recalculations st'
          = bandwidth_recalculations st
            + Z.of_nat (length (active_in_session peer0 session (addresses st)))
       /\ (active aa = true ->
           (1 <= length (active_in_session peer0 session (addresses st)))%nat)
       /\ active_addr_count st' = number_active (addresses st')
       /\ (forall q bb,
             In (q, bb) (addresses st) -> peer bb <> peer0 \/ session_id bb <> session ->
             exists bb', deref q (addresses st') = Some bb'
                         /\ set_assigned_bw 0 0 bb' = set_assigned_bw 0 0 bb))
  /\ (forall st info p aa,
        Inv st -> deref p (addresses st) = Some aa -> peer aa = peer info ->
        session_id info <> 0 -> session_id aa = session_id info ->
        exists st',
          destroy_by_session_id info p st = Some st'
          /\ Inv st'
          /\ active_addr_count st' = active_addr_count st - Z.b2z (active aa)
          /\ bandwidth_recalculations st'
             = bandwidth_recalculations st + Z.b2z (active aa)
          /\ (addr_len aa = 0 -> deref p (addresses st') = None)
          /\ (addr_len aa <> 0 ->
              deref p (addresses st') = Some (set_active false (set_session_id 0 aa)))).
Proof.
  split.
  2:{ intros st info p aa HI Hd Hp Hs0 Hs.
      assert (exact_match info aa = false) as Hx.
      { unfold exact_match. apply Z.eqb_neq in Hs0. now rewrite Hs0. }
      destruct (destroy_by_session_id_downgrade info p st aa HI Hd Hp Hx Hs)
        as (st' & E & HI' & Hc & Hr & Hd' & _).
      exists st'. do 4 (split; [assumption|]). split.
      - intros Hl. apply Z.eqb_eq in Hl. now rewrite Hl in Hd'.
      - intros Hl. apply Z.eqb_neq in Hl. now rewrite Hl in Hd'. }
  intros h rs q_in q_out st peer0 plugin_name plugin_addr session p aa Hrun Hin Hp Hs0 Hs.
  pose proof (reachable_Inv _ _ _ _ _ Hrun) as HIq.
  pose proof HIq as ((Hnd & _ & Hc & _) & _).
  destruct (GAS_addresses_destroy_outcome q_in q_out peer0 plugin_name plugin_addr
              session st HIq) as (st' & E & HIq' & Ha).
  pose proof HIq' as ((Hnd' & _ & Hc' & _) & _).
  set (info := new_address peer0 plugin_name plugin_addr session []) in *.
  assert (outcome info (p, aa)
          = if addr_len aa =? 0 then []
            else [(p, set_active false (set_session_id 0 aa))]) as Ho.
  { unfold outcome, exact_match, info. cbn [peer session_id new_address fst snd].
    rewrite Hp, N.eqb_refl, Hs, Z.eqb_refl.
    apply Z.eqb_neq in Hs0. rewrite Hs0. reflexivity. }
  assert (active_addr_count st'
          = active_addr_count st
            - Z.of_nat (length (active_in_session peer0 session (addresses st)))) as Hk.
  { rewrite Hc', Hc, <- (number_active_erase_bw (addresses st')), Ha,
      number_active_erase_bw.
    now apply number_active_outcome. }
  exists st'. split; [exact E|].
  split; [|split; [|split; [exact Hk|split; [|split; [|split]]]]].
  - intros Hl. apply Z.eqb_eq in Hl. rewrite Hl in Ho.
    apply deref_None. rewrite (map_erase_bw_keys _ _ Ha).
    now apply (keys_outcome_gone info p aa).
  - intros Hl. apply Z.eqb_neq in Hl. rewrite Hl in Ho.
    assert (In (p, set_active false (set_session_id 0 aa))
              (flat_map (outcome info) (addresses st))) as Hout.
    { apply in_flat_map. exists (p, aa). split; [assumption|]. rewrite Ho. now left. }
    symmetry in Ha.
    destruct (In_erase_bw _ _ _ _ Ha Hout) as (aa' & Hin' & Eb).
    exists aa'. split; [now apply In_deref|].
    pose proof (erase_bw_fields _ _ Eb) as (_ & Es & _ & _ & _ & Eact).
    cbn in Es, Eact. auto.
  - pose proof (GAS_addresses_destroy_counts q_in q_out _ _ _ _ _ _ HIq E) as Hsum.
    lia.
  - intros Hact.
    assert (In (p, aa) (active_in_session peer0 session (addresses st))) as Hm.
    { apply filter_In. split; [assumption|]. cbn [snd].
      now rewrite Hp, N.eqb_refl, Hs, Z.eqb_refl, Hact. }
    destruct (active_in_session peer0 session (addresses st)); [destruct Hm|simpl; lia].
  - exact Hc'.
  - intros q bb Hq Hother.
    assert (outcome info (q, bb) = [(q, bb)]) as Hob.
    { unfold outcome, exact_match, info. cbn [peer session_id new_address fst snd].
      apply Z.eqb_neq in Hs0. rewrite Hs0. cbn [andb].
      destruct (N.eqb_spec (peer bb) peer0) as [Hpe|Hpe]; cbn [negb]; [|reflexivity].
      destruct (Z.eqb_spec (session_id bb) session) as [Hse|Hse]; cbn [negb];
        [|reflexivity].
      destruct Hother; contradiction. }
    assert (In (q, bb) (flat_map (outcome info) (addresses st))) as Hout.
    { apply in_flat_map. exists (q, bb). split; [assumption|]. rewrite Hob. now left. }
    symmetry in Ha.
    destruct (In_erase_bw _ _ _ _ Ha Hout) as (bb' & Hin' & Eb).
    exists bb'. split; [now apply In_deref|now symmetry].
Qed.

Lemma session_downgrade_example :
  (exists st',
     GAS_addresses_destroy alice tcp [] 7 placeholder_seven = Some st'
     /\ deref 0%nat (addresses st') = None
     /\ active_addr_count st' = 0 /\ bandwidth_recalculations st' = 2)
  /\ (exists st' aa',
        GAS_addresses_destroy alice tcp [] 7 session_seven = Some st'
        /\ deref 0%nat (addresses st') = Some aa'
        /\ session_id aa' = 0 /\ active aa' = false
        /\ set_assigned_bw 0 0 aa'
           = set_assigned_bw 0 0 (set_active false (set_session_id 0 address_seven))
        /\ active_addr_count st' = 0 /\ bandwidth_recalculations st' = 2)
  /\ (exists st' bb',
        GAS_addresses_destroy alice tcp [] 7 seven_and_bob = Some st'
        /\ active_addr_count st' = 2 - 1 /\ bandwidth_recalculations st' = 2 + 1
        /\ deref 1%nat (addresses st') = Some bb'
        /\ set_assigned_bw 0 0 bb' = set_assigned_bw 0 0 bob_of_two)
  /\ (exists st',
        destroy_by_session_id (new_address alice tcp [] 7 []) 0%nat session_seven
        = Some st'
        /\ active_addr_count st' = 1 - 1
        /\ bandwidth_recalculations st' = 1 + 1
        /\ deref 0%nat (addresses st')
           = Some (set_active false (set_session_id 0 address_seven))).
Proof.
  split; [|split; [|split]].
  4:{ destruct (proj2 session_downgrade session_seven (new_address alice tcp [] 7 [])
                  0%nat address_seven)
        as (st' & E & _ & Hc & Hr & _ & Hstay).
      - apply (proj1 (reachable_Inv true
                        [update alice tcp addr_a 7 []; request_address alice]
                        1000 1000 session_seven eq_refl)).
      - reflexivity.
      - reflexivity.
      - cbn. lia.
      - reflexivity.
      - exists st'. split; [exact E|]. split; [exact Hc|]. split; [exact Hr|].
        apply Hstay. vm_compute. discriminate. }
  - destruct (proj1 session_downgrade true
                [update alice tcp [] 7 []; request_address alice]
                1000 1000 placeholder_seven alice tcp [] 7 0%nat address_placeholder)
      as (st' & E & Hgone & _ & Hc & Hr & _).
    + vm_compute. reflexivity.
    + vm_compute. tauto.
    + reflexivity.
    + lia.
    + reflexivity.
    + exists st'. split; [exact E|]. split; [apply Hgone; reflexivity|].
      split; [exact Hc|exact Hr].
  - destruct (proj1 session_downgrade true
                [update alice tcp addr_a 7 []; request_address alice]
                1000 1000 session_seven alice tcp [] 7 0%nat address_seven)
      as (st' & E & _ & Hstay & Hc & Hr & _).
    + vm_compute. reflexivity.
    + vm_compute. tauto.
    + reflexivity.
    + lia.
    + reflexivity.
    + destruct Hstay as (aa' & Hd & Hs & Ha & He); [vm_compute; discriminate|].
      exists st', aa'. repeat split; assumption.
  - destruct (proj1 session_downgrade true
                [update alice tcp addr_a 7 []; request_address alice;
                 update bob tcp addr_a 0 []; request_address bob]
                1000 1000 seven_and_bob alice tcp [] 7 0%nat alice_of_two)
      as (st' & E & _ & _ & Hc & Hr & _ & _ & Hothers).
    + vm_compute. reflexivity.
    + vm_compute. tauto.
    + reflexivity.
    + lia.
    + reflexivity.
    + destruct (Hothers 1%nat bob_of_two) as (bb' & Hd & Hb).
      * vm_compute. tauto.
      * left. vm_compute. discriminate.
      * exists st', bb'. split; [exact E|]. split; [exact Hc|]. split; [exact Hr|].
        split; assumption.
Defined.

(** *** The matching rule of an update *)

Lemma same_bytes (a b : list Byte.byte) :
  (Z.of_nat (length a) =? Z.of_nat (length b))
  && memcmp0 a b (Z.of_nat (length a))
  = if List.list_eq_dec Byte.byte_eq_dec a b then true else false.
Proof.
  unfold memcmp0. rewrite Nat2Z.id, firstn_all.
  destruct (List.list_eq_dec Byte.byte_eq_dec a b) as [->|Hne].
  - rewrite Z.eqb_refl, firstn_all.
    destruct (List.list_eq_dec Byte.byte_eq_dec b b); [reflexivity|contradiction].
  - destruct (Z.eqb_spec (Z.of_nat (length a)) (Z.of_nat (length b))) as [E|E];
      [|reflexivity].
    apply Nat2Z.inj in E. rewrite E, firstn_all.
    destruct (List.list_eq_dec Byte.byte_eq_dec a b); [contradiction|reflexivity].
Qed.

(** [compare_address_it] stops exactly at the addresses that match in
    the words of the spec. *)
Lemma compare_address_it_spec peer0 plugin_name plugin_addr session atsi aa :
  negb (compare_address_it (new_address peer0 plugin_name plugin_addr session atsi) aa)
  = spec_match plugin_name plugin_addr session aa.
Proof.
  unfold compare_address_it, spec_match, addr_len.
  cbn [addr plugin session_id new_address].
  rewrite <- same_bytes.
  destruct (Z.of_nat (length (addr aa)) =? Z.of_nat (length plugin_addr));
    destruct (String.eqb (plugin aa) plugin_name);
    destruct (memcmp0 (addr aa) plugin_addr (Z.of_nat (length (addr aa))));
    destruct (session_id aa =? session); destruct (session =? 0); reflexivity.
Qed.

Lemma find_ext {A} (f g : A -> bool) l :
  (forall x, f x = g x) -> find f l = find g l.
Proof.
  intros H. induction l as [|x l IH]; simpl; [reflexivity|]. now rewrite H, IH.
Qed.

Lemma get_multiple_put h key p aa m :
  peer aa = key ->
  multihashmap_get_multiple key (multihashmap_put h p aa m)
  = multihashmap_put h p aa (multihashmap_get_multiple key m).
Proof.
  intros Hp. unfold multihashmap_get_multiple, multihashmap_put. destruct h.
  - cbn [List.filter snd]. now rewrite Hp, N.eqb_refl.
  - rewrite List.filter_app. cbn [List.filter snd]. now rewrite Hp, N.eqb_refl.
Qed.

(** C8.  [GAS_addresses_update] has no path on which it fails: its one
    assertion is on a [multihashmap_put] that allows several values for
    a key, which always succeeds.  In a state the registry reaches it
    looks, among the addresses of the peer in the order of the map, for
    the first one that matches by plugin and raw bytes or by a session
    id that is not zero ([spec_match], which [compare_address_it] is
    shown to decide): it merges the session and the performance
    information into that address, and allocates a new address only
    when there is none.  A second update with the same arguments changes
    nothing, so there is no duplicate; and for a peer that had no
    address the two updates leave it exactly one, which [find_best]
    returns after the first and after the second. *)
Theorem update_is_total_and_idempotent :
  forall h rs q_in q_out st peer0 plugin_name plugin_addr session atsi,
    run h rs (GAS_addresses_init q_in q_out) = Some st ->
    let once := GAS_addresses_update h peer0 plugin_name plugin_addr session atsi in
    let fresh := update_atsps atsi
                   (new_address peer0 plugin_name plugin_addr session atsi) in
    let candidates := multihashmap_get_multiple peer0 (addresses st) in
    handle h (update peer0 plugin_name plugin_addr session atsi) st = Some (once st)
    /\ (forall aa,
          compare_address_it (new_address peer0 plugin_name plugin_addr session atsi) aa
          = negb (spec_match plugin_name plugin_addr session aa))
    /\ find_address peer0 (new_address peer0 plugin_name plugin_addr session atsi) st
       = option_map fst
           (find (fun e => spec_match plugin_name plugin_addr session (snd e)) candidates)
    /\ addresses (once st)
       = match find (fun e => spec_match plugin_name plugin_addr session (snd e))
                 candidates with
         | Some e => modify (fst e) (merge session atsi) (addresses st)
         | None => multihashmap_put h (next_ptr st) fresh (addresses st)
         end
    /\ once (once st) = once st
    /\ (candidates = [] ->
        multihashmap_get_multiple peer0 (addresses (once (once st)))
        = [(next_ptr st, fresh)]
        /\ find_best peer0 (once st) = Some (next_ptr st, fresh)
        /\ find_best peer0 (once (once st)) = Some (next_ptr st, fresh)).
Proof.
  intros h rs q_in q_out st peer0 plugin_name plugin_addr session atsi Hrun
         once fresh candidates.
  destruct (reachable_Inv _ _ _ _ _ Hrun) as (HI & _).
  assert (addresses (once st)
          = match find (fun e => spec_match plugin_name plugin_addr session (snd e))
                    candidates with
            | Some e => modify (fst e) (merge session atsi) (addresses st)
            | None => multihashmap_put h (next_ptr st) fresh (addresses st)
            end) as Hadd.
  { subst once. rewrite GAS_addresses_update_eq by apply HI.
    unfold find_address. fold candidates.
    rewrite (find_ext _ (fun e => spec_match plugin_name plugin_addr session (snd e)))
      by (intros e; apply compare_address_it_spec).
    destruct (find _ candidates); reflexivity. }
  assert (once (once st) = once st) as Hidem
    by (now apply GAS_addresses_update_idempotent).
  split; [reflexivity|].
  split.
  { intros aa.
    rewrite <- compare_address_it_spec with (peer0 := peer0) (atsi := atsi).
    now rewrite negb_involutive. }
  split.
  { unfold find_address. fold candidates.
    rewrite (find_ext _ (fun e => spec_match plugin_name plugin_addr session (snd e)))
      by (intros e; apply compare_address_it_spec).
    destruct (find _ candidates); reflexivity. }
  split; [exact Hadd|]. split; [exact Hidem|].
  intros Hnone. rewrite Hidem.
  assert (multihashmap_get_multiple peer0 (addresses (once st))
          = [(next_ptr st, fresh)]) as Hone.
  { rewrite Hadd, Hnone. cbn [find].
    rewrite get_multiple_put.
    - fold candidates. rewrite Hnone. now destruct h.
    - subst fresh.
      now destruct (update_atsps_keeps atsi
                      (new_address peer0 plugin_name plugin_addr session atsi))
        as (-> & _). }
  split; [exact Hone|].
  unfold find_best. rewrite Hone. split; reflexivity.
Qed.

Lemma update_twice_example :
  (multihashmap_get_multiple alice
     (addresses (GAS_addresses_update true alice tcp addr_a 0 []
                   (GAS_addresses_update true alice tcp addr_a 0 []
                      (GAS_addresses_init 1000 1000))))
   = [(0%nat, new_address alice tcp addr_a 0 [])]
   /\ find_best alice (GAS_addresses_update true alice tcp addr_a 0 []
                         (GAS_addresses_init 1000 1000))
      = Some (0%nat, new_address alice tcp addr_a 0 [])
   /\ find_best alice (GAS_addresses_update true alice tcp addr_a 0 []
                         (GAS_addresses_update true alice tcp addr_a 0 []
                            (GAS_addresses_init 1000 1000)))
      = Some (0%nat, new_address alice tcp addr_a 0 []))
  /\ addresses (GAS_addresses_update true alice tcp addr_a 7 [] alice_in_session)
     = [(0%nat, new_address alice tcp addr_b 7 [])]
  /\ addresses (GAS_addresses_update true alice tcp addr_b 0 [] alice_in_session)
     = [(0%nat, new_address alice tcp addr_b 0 [])]
  /\ addresses (GAS_addresses_update true alice tcp addr_a 0 [] alice_in_session)
     = [(1%nat, new_address alice tcp addr_a 0 []);
        (0%nat, new_address alice tcp addr_b 7 [])].
Proof.
  split; [|split; [|split]].
  - apply (update_is_total_and_idempotent true [] 1000 1000
             (GAS_addresses_init 1000 1000) alice tcp addr_a 0 []); reflexivity.
  - apply (update_is_total_and_idempotent true [update alice tcp addr_b 7 []] 1000 1000
             alice_in_session alice tcp addr_a 7 []). reflexivity.
  - apply (update_is_total_and_idempotent true [update alice tcp addr_b 7 []] 1000 1000
             alice_in_session alice tcp addr_b 0 []). reflexivity.
  - apply (update_is_total_and_idempotent true [update alice tcp addr_b 7 []] 1000 1000
             alice_in_session alice tcp addr_a 0 []). reflexivity.
Defined.

End RegistryProperties.

(** ** The reinforcement-learning solver *)

Module RilProperties.

Import Ril ByteOrderFacts RilNotions RilFacts.

Lemma for_loop_seq_inv {S : Type} (P : nat -> S -> Prop) (body : nat -> S -> option S) :
  forall k a s,
    (forall i s, (a <= i < a + k)%nat -> P i s -> exists s', body i s = Some s' /\ P (Datatypes.S i) s') ->
    P a s ->
    exists s', for_loop body (seq a k) s = Some s' /\ P (a + k)%nat s'.
Proof.
  induction k as [|k IH]; intros a s Hb HP; simpl.
  - exists s. rewrite Nat.add_0_r. auto.
  - destruct (Hb a s) as (s1 & -> & HP1); [lia|assumption|].
    destruct (IH (Datatypes.S a) s1) as (s' & E & HP'); [|assumption|].
    + intros i s0 Hi. apply Hb. lia.
    + exists s'. split; [exact E|]. now replace (a + Datatypes.S k)%nat with (Datatypes.S a + k)%nat by lia.
Qed.

Lemma store_middle {A : Type} (pre : list A) x y rest i :
  i = length pre -> store i x (pre ++ y :: rest) = Some (pre ++ x :: rest).
Proof.
  intros ->. unfold store, update_at.
  rewrite list_lookup_middle by reflexivity. simpl.
  f_equal. rewrite insert_app_r_alt by lia. now rewrite Nat.sub_diag.
Qed.

Lemma store_first {A : Type} (pre : list A) x i k (zero : A) :
  i = length pre -> (0 < k)%nat ->
  store i x (pre ++ replicate k zero) = Some ((pre ++ [x]) ++ replicate (k - 1) zero).
Proof.
  intros Hi Hk. destruct k as [|k]; [lia|]. simpl.
  rewrite (store_middle pre x zero (replicate k zero) i Hi).
  now rewrite Nat.sub_0_r, <- app_assoc.
Qed.

(** The loop that copies the properties of an address behind [pre]. *)
Lemma store_properties (props pre : list float) K Q i0 :
  (Q <= length props)%nat -> (Q <= K)%nat -> i0 = length pre ->
  for_loop (fun k state => let? x := props !! k in store (i0 + k) x state)
    (seq 0 Q) (pre ++ replicate K 0%float)
  = Some (pre ++ firstn Q props ++ replicate (K - Q) 0%float).
Proof.
  intros Hp HK ->.
  destruct (for_loop_seq_inv
              (fun j state => state = pre ++ firstn j props ++ replicate (K - j) 0%float)
              (fun k state => let? x := props !! k in store (length pre + k) x state)
              Q 0%nat (pre ++ replicate K 0%float)) as (s' & E & ->).
  - intros j state Hj ->.
    destruct (lookup_lt_is_Some_2 props j) as [x Hx]; [lia|]. rewrite Hx.
    rewrite app_assoc.
    rewrite (store_first (pre ++ firstn j props) x (length pre + j) (K - j) 0%float).
    + eexists. split; [reflexivity|].
      rewrite (take_S_r props j x Hx).
      replace (K - j - 1)%nat with (K - Datatypes.S j)%nat by lia.
      now rewrite <- !app_assoc.
    + rewrite length_app, length_take. lia.
    + lia.
  - simpl. now rewrite Nat.sub_0_r.
  - exact E.
Qed.

Lemma length_network_features (nets : list RIL_Network) :
  length (flat_map network_features nets) = (length nets * RIL_FEATURES_NETWORK_COUNT)%nat.
Proof. induction nets as [|c l IH]; simpl; [reflexivity|]. rewrite IH. reflexivity. Qed.

Lemma flat_map_take_S {A B} (f : A -> list B) l i x :
  l !! i = Some x -> flat_map f (firstn (S i) l) = flat_map f (firstn i l) ++ f x.
Proof.
  intros H. rewrite (take_S_r l i x H), flat_map_app. simpl. now rewrite app_nil_r.
Qed.

(** The first loop of [envi_get_state]. *)
Lemma store_network_features (nets : list RIL_Network) K :
  (length nets * RIL_FEATURES_NETWORK_COUNT <= K)%nat ->
  for_loop (fun i state =>
              let? net := nets !! i in
              let? state := store (i * RIL_FEATURES_NETWORK_COUNT + 0)
                              (double_of_u64 (bw_in_assigned net)) state in
              let? state := store (i * RIL_FEATURES_NETWORK_COUNT + 1)
                              (double_of_u64 (bw_in_available net)) state in
              let? state := store (i * RIL_FEATURES_NETWORK_COUNT + 2)
                              (double_of_u64 (bw_out_assigned net)) state in
              store (i * RIL_FEATURES_NETWORK_COUNT + 3)
                (double_of_u64 (bw_out_available net)) state)
    (seq 0 (length nets)) (replicate K 0%float)
  = Some (flat_map network_features nets
          ++ replicate (K - length nets * RIL_FEATURES_NETWORK_COUNT) 0%float).
Proof.
  intros HK.
  match goal with |- for_loop ?b _ _ = _ =>
    destruct (for_loop_seq_inv
                (fun i state =>
                   state = flat_map network_features (firstn i nets)
                           ++ replicate (K - i * RIL_FEATURES_NETWORK_COUNT) 0%float)
                b (length nets) 0%nat (replicate K 0%float)) as (s' & E & ->)
  end.
  - intros i state Hi ->. cbv beta.
    destruct (lookup_lt_is_Some_2 nets i) as [net Hn]; [lia|]. rewrite Hn.
    assert (length (flat_map network_features (firstn i nets))
            = (i * RIL_FEATURES_NETWORK_COUNT)%nat) as Hl.
    { rewrite length_network_features, length_take. f_equal. lia. }
    unfold RIL_FEATURES_NETWORK_COUNT in *.
    rewrite (store_first _ _ _ _ _) by (rewrite ?Hl; lia).
    rewrite (store_first _ _ _ _ _) by (rewrite ?length_app, ?Hl; simpl; lia).
    rewrite (store_first _ _ _ _ _) by (rewrite ?length_app, ?Hl; simpl; lia).
    rewrite (store_first _ _ _ _ _) by (rewrite ?length_app, ?Hl; simpl; lia).
    eexists. split; [reflexivity|].
    rewrite (flat_map_take_S _ _ _ _ Hn). unfold network_features at 3.
    rewrite <- !app_assoc. simpl. do 6 f_equal. lia.
  - simpl. now rewrite Nat.sub_0_r.
  - rewrite E. rewrite Nat.add_0_l. now rewrite firstn_all.
Qed.

Section State.

Variable Q : nat.
Variable get_property : nat -> list float.

Abbreviation F := (RIL_FEATURES_ADDRESS_COUNT Q).

Lemma length_address_features s agent p :
  is_Some (memory s !! p) -> (Q <= length (get_property p))%nat ->
  length (address_features Q get_property s agent p) = F.
Proof.
  intros [aa Ha] Hq. unfold address_features. rewrite Ha.
  rewrite length_app, length_take. unfold RIL_FEATURES_ADDRESS_COUNT.
  change (length [_; _; _]) with 3%nat. now rewrite Nat.min_l by exact Hq.
Qed.

Lemma length_address_features_all s agent (l : list nat) :
  Forall (fun p => is_Some (memory s !! p) /\ (Q <= length (get_property p))%nat) l ->
  length (flat_map (address_features Q get_property s agent) l) = (length l * F)%nat.
Proof.
  induction 1 as [|p l [Hp Hq] _ IH]; [reflexivity|].
  cbn [flat_map length].
  rewrite length_app, IH, length_address_features by assumption.
  unfold RIL_FEATURES_ADDRESS_COUNT. lia.
Qed.

Lemma envi_get_state_eq :
  forall s agent,
    m agent = (networks_count s * RIL_FEATURES_NETWORK_COUNT
               + length (addresses agent) * F)%nat ->
    Forall (fun p => is_Some (memory s !! p) /\ (Q <= length (get_property p))%nat)
      (addresses agent) ->
    envi_get_state Q get_property s agent
    = Some (flat_map network_features (network_entries s)
            ++ flat_map (address_features Q get_property s agent) (addresses agent)).
Proof.
  intros s agent Hm Hall. unfold envi_get_state.
  unfold networks_count in *.
  rewrite store_network_features by lia.
  set (pre := flat_map network_features (network_entries s)).
  assert (length pre = (length (network_entries s) * RIL_FEATURES_NETWORK_COUNT)%nat)
    as Hpre by apply length_network_features.
  replace (m agent - length (network_entries s) * RIL_FEATURES_NETWORK_COUNT)%nat
    with (length (addresses agent) * F)%nat by lia.
  set (K := (length (addresses agent) * F)%nat).
  match goal with |- context [for_loop ?b (seq 0 (length (addresses agent))) ?init] =>
    destruct (for_loop_seq_inv
                (fun c (r : nat * list float) =>
                   fst r = (length pre + c * F)%nat
                   /\ snd r = pre ++ flat_map (address_features Q get_property s agent)
                                       (firstn c (addresses agent))
                              ++ replicate (K - c * F) 0%float)
                b (length (addresses agent)) 0%nat init) as ([i' st'] & E & Hi' & Hs')
  end.
  - intros c [i state] Hc [Hi Hs]. simpl in Hi, Hs. subst i state. cbv beta iota.
    destruct (lookup_lt_is_Some_2 (addresses agent) c) as [cur Hcur]; [lia|].
    rewrite Hcur.
    rewrite Forall_lookup in Hall. destruct (Hall c cur Hcur) as [[aa Ha] Hq].
    rewrite Ha.
    assert (length (flat_map (address_features Q get_property s agent)
                      (firstn c (addresses agent))) = (c * F)%nat) as Hl.
    { rewrite length_address_features_all.
      - rewrite length_take. f_equal. lia.
      - apply Forall_lookup. intros j q Hj. apply lookup_take_Some in Hj.
        apply (Hall j q). tauto. }
    assert (F <= K - c * F)%nat as Hroom by (subst K; nia).
    assert (F = 3 + Q)%nat as HF by reflexivity.
    rewrite app_assoc.
    rewrite (store_first _ _ _ _ _) by (rewrite ?length_app, ?Hl; lia).
    rewrite (store_first _ _ _ _ _) by (rewrite ?length_app, ?Hl; simpl; lia).
    rewrite (store_first _ _ _ _ _) by (rewrite ?length_app, ?Hl; simpl; lia).
    rewrite (store_properties (get_property cur) _ _ Q)
      by (rewrite ?length_app, ?Hl; simpl; lia).
    eexists. split; [reflexivity|]. cbn [fst snd]. split.
    + lia.
    + rewrite (flat_map_take_S _ _ _ _ Hcur).
      unfold address_features at 3. rewrite Ha.
      rewrite <- !app_assoc. cbn [app]. do 6 f_equal.
      replace (S c * F)%nat with (F + c * F)%nat by reflexivity. f_equal. lia.
  - simpl. split; [lia|]. now rewrite Nat.sub_0_r.
  - rewrite E. cbn [fst snd] in *. rewrite Hs'.
    change (0 + length (addresses agent))%nat with (length (addresses agent)).
    rewrite firstn_all. subst K. rewrite Nat.sub_diag. simpl.
    now rewrite app_nil_r.
Qed.

(** X14.  The state vector of a well-formed agent is filled without a
    write outside of it: it holds the four features of every network in
    the order of the array, followed by the [3 + Q] features of every
    address of the agent in the order of its list. *)
Theorem state_vector_layout :
  forall s agent,
    m agent = (networks_count s * RIL_FEATURES_NETWORK_COUNT
               + length (addresses agent) * F)%nat ->
    Forall (fun p => is_Some (memory s !! p) /\ (Q <= length (get_property p))%nat)
      (addresses agent) ->
    envi_get_state Q get_property s agent
    = Some (flat_map network_features (network_entries s)
            ++ flat_map (address_features Q get_property s agent) (addresses agent)).
Proof. exact envi_get_state_eq. Qed.


End State.

Section Resize.

Variable Q : nat.
Variable min_bw : Z.
Variable get_property : nat -> list float.

Abbreviation F := (RIL_FEATURES_ADDRESS_COUNT Q).

Lemma GAS_ril_address_add_used s address network k net aa pos agent q :
  ril_get_network s network = Some k ->
  network_entries s !! k = Some net -> min_bw <= bw_out_available net ->
  memory s !! address = Some aa ->
  ril_get_agent_from 0 (agents s) (Addr.peer aa) = Some pos ->
  agents s !! pos = Some agent ->
  sized agent ->
  address_inuse agent = Some q ->
  GAS_ril_address_add Q min_bw get_property s address network
  = Some (set_agents (<[pos := grown Q address agent]> (agents s))
            (set_memory (<[address := in_network (Some k) aa]> (memory s)) s)).
Proof.
  intros Hk Hn Hbw Ha Hpos Hag (HW & Hrows & Hs & He) Hq.
  unfold GAS_ril_address_add. rewrite Hk.
  rewrite (write_Some _ _ _ _ Ha).
  set (sA := set_memory _ s).
  rewrite (ril_network_is_active_eq min_bw sA network k net Hk Hn).
  assert ((bw_out_available net <? min_bw) = false) as -> by (apply Z.ltb_ge; lia).
  simpl negb. cbv iota.
  assert (memory sA !! address = Some (in_network (Some k) aa)) as HaA
    by (subst sA; simpl; apply lookup_insert_eq).
  rewrite HaA. cbn [Addr.peer in_network].
  unfold ril_get_agent. change (agents sA) with (agents s). rewrite Hpos.
  cbv beta iota. change (agents sA) with (agents s). rewrite Hag. cbv beta iota.
  rewrite (grow_rows Q (W agent) (n agent) (m agent) HW Hrows).
  assert (forall v : list float, length v = m agent ->
            GNUNET_array_grow 0%float v (m agent) (m agent + F)
            = v ++ replicate F 0%float) as Hgrow.
  { intros v Hv. rewrite <- Hv at 1. rewrite GNUNET_array_grow_exact by lia.
    rewrite Hv. now replace (m agent + F - m agent)%nat with F by lia. }
  rewrite !Hgrow by assumption. clear Hgrow.
  cbn [address_inuse]. unfold grown. rewrite Hq. reflexivity.
Qed.

Lemma GAS_ril_address_delete_unused s address aa pos agent idx session_only :
  memory s !! address = Some aa -> Addr.active aa = false ->
  ril_get_agent_from 0 (agents s) (Addr.peer aa) = Some pos ->
  agents s !! pos = Some agent ->
  agent_address_get agent address = Some idx ->
  sized agent ->
  (F < m agent)%nat ->
  (networks_count s * RIL_FEATURES_NETWORK_COUNT + idx * F + F <= m agent)%nat ->
  (Z.to_nat RIL_ACTION_TYPE_NUM + idx + 1 <= n agent)%nat ->
  GAS_ril_address_delete Q min_bw get_property s address session_only
  = Some (set_agents
            (<[pos := shrunk Q (networks_count s * RIL_FEATURES_NETWORK_COUNT + idx * F)
                        idx agent]> (agents s)) s).
Proof.
  intros Ha Hact Hpos Hag Hidx (HW & Hrows & Hs & He) HF Hhole Hn.
  set (hole_start := (networks_count s * RIL_FEATURES_NETWORK_COUNT + idx * F)%nat).
  unfold GAS_ril_address_delete. rewrite Ha.
  unfold ril_get_agent. rewrite Hpos. cbv beta iota. rewrite Hag. cbv beta iota.
  rewrite Hidx.
  unfold agent_address_get_index. unfold agent_address_get in Hidx.
  rewrite (agent_address_get_index_from_eq _ _ (-1) idx Hidx).
  replace (-1 + 1 + Z.of_nat idx) with (Z.of_nat idx) by lia.
  rewrite Nat2Z.id. fold hole_start.
  rewrite (cut_rows Q (W agent) (n agent) (m agent) hole_start HW Hrows HF)
    by (subst hole_start; lia).
  replace (Z.to_nat (RIL_ACTION_TYPE_NUM + Z.of_nat idx))
    with (Z.to_nat RIL_ACTION_TYPE_NUM + idx)%nat
    by (unfold RIL_ACTION_TYPE_NUM; lia).
  rewrite (ril_cut_from_vector_eq (map (without_columns Q hole_start) (W agent)))
    by (rewrite ?length_map; unfold RIL_ACTION_TYPE_NUM in *; lia).
  rewrite (ril_cut_from_vector_eq (s_old agent)) by (subst hole_start; lia).
  rewrite (ril_cut_from_vector_eq (e agent)) by (subst hole_start; lia).
  rewrite Hact. reflexivity.
Qed.

Lemma agent_address_get_in_last l address :
  ~ In address l -> agent_address_get_in (l ++ [address]) address = Some (length l).
Proof.
  induction l as [|c l IH]; simpl; intros H.
  - now rewrite Nat.eqb_refl.
  - destruct (Nat.eqb_spec c address) as [->|]; [tauto|].
    rewrite IH by tauto. reflexivity.
Qed.

Lemma without_columns_appended (row : list float) k :
  length row = k ->
  without_columns Q k (row ++ replicate F 0%float) = row.
Proof.
  intros <-. unfold without_columns.
  rewrite take_app_length, drop_app_add, drop_replicate, Nat.sub_diag.
  simpl. now rewrite app_nil_r.
Qed.

Lemma sized_grown address agent : sized agent -> sized (grown Q address agent).
Proof.
  intros (HW & Hrows & Hs & He). unfold sized, grown. cbn [W n m s_old e].
  split; [|split; [|split]].
  - rewrite length_app, length_map. simpl. lia.
  - apply Forall_app. split.
    + apply Forall_map. eapply Forall_impl; [exact Hrows|].
      intros row Hr. unfold compose. cbv beta in *.
      rewrite length_app, length_replicate. lia.
    + constructor; [|constructor]. apply length_replicate.
  - rewrite length_app, length_replicate. lia.
  - rewrite length_app, length_replicate. lia.
Qed.

Lemma shrunk_grown s address agent :
  well_formed Q s agent -> a_old agent < Z.of_nat (n agent) ->
  shrunk Q (networks_count s * RIL_FEATURES_NETWORK_COUNT + length (addresses agent) * F)
    (length (addresses agent)) (grown Q address agent)
  = agent.
Proof.
  intros ((HW & Hrows & Hs & He) & Hn & Hm) Ha.
  rewrite <- Hm. unfold shrunk, grown.
  cbn [W n m s_old e a_old peer active step_count address_inuse addresses bw_in bw_out].
  assert (map (without_columns Q (m agent))
            (map (fun row => row ++ replicate F 0%float) (W agent)
             ++ [replicate (m agent + F) 0%float])
          = W agent ++ [replicate (m agent) 0%float]) as ->.
  { rewrite map_app, map_map. f_equal.
    - rewrite <- (map_id (W agent)) at 2. apply map_ext_in. intros row Hr.
      rewrite Forall_forall in Hrows.
      apply without_columns_appended, Hrows. now apply list_elem_of_In.
    - simpl. f_equal.
      replace (m agent + F)%nat with (m agent + F + 0)%nat by lia.
      rewrite (without_columns_zeros Q (m agent) 0). f_equal. lia. }
  rewrite <- Hn.
  rewrite <- HW at 1 2.
  rewrite take_app_length.
  replace (length (W agent) + 1)%nat with (length (W agent ++ [replicate (m agent) 0%float]))
    by (rewrite length_app; reflexivity).
  rewrite drop_all, app_nil_r.
  rewrite (without_columns_appended (s_old agent) (m agent) Hs).
  rewrite (without_columns_appended (e agent) (m agent) He).
  assert (corrected_last_action (length (addresses agent)) (a_old agent) = a_old agent)
    as ->.
  { unfold corrected_last_action.
    replace (RIL_ACTION_TYPE_NUM + Z.of_nat (length (addresses agent)))
      with (Z.of_nat (n agent)) by (rewrite Hn; unfold RIL_ACTION_TYPE_NUM; lia).
    destruct (Z.ltb_spec (Z.of_nat (n agent)) (a_old agent)); [lia|].
    destruct (Z.eqb_spec (a_old agent) (Z.of_nat (n agent))); [lia|reflexivity]. }
  replace (m agent + F - F)%nat with (m agent) by lia.
  replace (n agent + 1 - 1)%nat with (n agent) by lia.
  rewrite delete_middle.
  rewrite app_nil_r. now destruct agent.
Qed.

End Resize.

Section Resize.

Variable Q : nat.
Variable min_bw : Z.
Variable get_property : nat -> list float.

Abbreviation F := (RIL_FEATURES_ADDRESS_COUNT Q).

Lemma GAS_ril_address_delete_full s address aa pos agent idx session_only :
  memory s !! address = Some aa ->
  ril_get_agent_from 0 (agents s) (Addr.peer aa) = Some pos ->
  agents s !! pos = Some agent ->
  agent_address_get agent address = Some idx ->
  sized agent ->
  (F < m agent)%nat ->
  (networks_count s * RIL_FEATURES_NETWORK_COUNT + idx * F + F <= m agent)%nat ->
  (Z.to_nat RIL_ACTION_TYPE_NUM + idx + 1 <= n agent)%nat ->
  (Addr.active aa = true ->
   exists k, Addr.solver_information aa = Some k
             /\ (k < length (network_entries s))%nat) ->
  (forall q, address_inuse agent = Some q -> is_Some (memory s !! q)) ->
  (forall q, head (delete idx (addresses agent)) = Some q ->
             exists aq k, memory s !! q = Some aq
                          /\ Addr.solver_information aq = Some k
                          /\ (k < length (network_entries s))%nat) ->
  exists s1 agent1,
    GAS_ril_address_delete Q min_bw get_property s address session_only = Some s1
    /\ agents s1 = <[pos := agent1]> (agents s)
    /\ frame_agent
         (shrunk Q (networks_count s * RIL_FEATURES_NETWORK_COUNT + idx * F) idx agent)
         agent1
    /\ length (network_entries s1) = length (network_entries s)
    /\ same_shape (memory s) (memory s1)
    /\ address_inuse agent1
       = (if Addr.active aa then head (delete idx (addresses agent))
          else address_inuse agent)
    /\ (Addr.active aa = true -> head (delete idx (addresses agent)) <> None ->
        bw_in agent1 = min_bw /\ bw_out agent1 = min_bw).
Proof.
  intros Ha Hpos Hag Hidx (HW & Hrows & Hs & He) HF Hhole Hn Hnet Hin Hhead.
  set (hole_start := (networks_count s * RIL_FEATURES_NETWORK_COUNT + idx * F)%nat).
  unfold GAS_ril_address_delete. rewrite Ha.
  unfold ril_get_agent. rewrite Hpos. cbv beta iota. rewrite Hag. cbv beta iota.
  rewrite Hidx.
  unfold agent_address_get_index. unfold agent_address_get in Hidx.
  rewrite (agent_address_get_index_from_eq _ _ (-1) idx Hidx).
  replace (-1 + 1 + Z.of_nat idx) with (Z.of_nat idx) by lia.
  rewrite Nat2Z.id. fold hole_start.
  rewrite (cut_rows Q (W agent) (n agent) (m agent) hole_start HW Hrows HF)
    by (subst hole_start; lia).
  replace (Z.to_nat (RIL_ACTION_TYPE_NUM + Z.of_nat idx))
    with (Z.to_nat RIL_ACTION_TYPE_NUM + idx)%nat
    by (unfold RIL_ACTION_TYPE_NUM; lia).
  rewrite (ril_cut_from_vector_eq (map (without_columns Q hole_start) (W agent)))
    by (rewrite ?length_map; unfold RIL_ACTION_TYPE_NUM in *; lia).
  rewrite (ril_cut_from_vector_eq (s_old agent)) by (subst hole_start; lia).
  rewrite (ril_cut_from_vector_eq (e agent)) by (subst hole_start; lia).
  fold (without_columns Q hole_start (s_old agent)).
  fold (without_columns Q hole_start (e agent)).
  fold (corrected_last_action idx (a_old agent)).
  fold (shrunk Q hole_start idx agent).
  set (agent0 := shrunk Q hole_start idx agent).
  assert (address_inuse agent0 = address_inuse agent) as Hi0 by reflexivity.
  assert (bw_in agent0 = bw_in agent /\ bw_out agent0 = bw_out agent) as [Hbi Hbo]
    by (split; reflexivity).
  clearbody agent0.
  destruct (Addr.active aa) eqn:Hact.
  2:{ eexists _, agent0. split; [reflexivity|]. cbn [agents set_agents].
      split; [reflexivity|]. split; [apply frame_agent_refl|].
      split; [reflexivity|]. split; [apply same_shape_refl|].
      split; [exact Hi0|]. discriminate. }
  destruct (Hnet eq_refl) as (k & -> & Hk).
  destruct (assign_valid k (- bw_in agent0) (- bw_out agent0) s Hk)
    as (sB & -> & PB & AB & MB & CB & LB).
  destruct (head (delete idx (addresses agent))) as [first|] eqn:Eh.
  - destruct (Hhead first eq_refl) as (aq & k' & Hq & Hsi & Hk').
    destruct (envi_set_active_suggestion_is_Some sB agent0 (Some first) min_bw min_bw
                false) as [[sC agentC] E].
    + intros q Hq'. rewrite MB. apply Hin. now rewrite <- Hi0.
    + intros p [= <-]. rewrite MB. eauto.
    + rewrite E. apply envi_set_active_suggestion_post in E.
      destruct E as ((PC & NC & AC & SC) & FA & IC & BC & _).
      pose proof (SC first) as SCf. rewrite MB, Hq in SCf.
      destruct (memory sC !! first) as [aq'|] eqn:Hq'; [|discriminate].
      assert (shape aq' = shape aq) as Sq by (simpl in SCf; congruence).
      unfold shape in Sq. injection Sq as _ Sq. rewrite Sq, Hsi.
      destruct (assign_valid k' (- min_bw) (- min_bw) sC) as (sD & -> & PD & AD & MD & _ & LD).
      { rewrite NC, LB. exact Hk'. }
      eexists _, agentC. split; [reflexivity|]. cbn [agents set_agents network_entries memory].
      split; [congruence|]. split; [exact FA|].
      split; [rewrite LD, NC; exact LB|].
      split; [rewrite MD, <- MB; exact SC|].
      split; [exact IC|].
      intros _ _. destruct (BC first eq_refl) as (B1 & B2 & _). auto.
  - destruct (envi_set_active_suggestion_is_Some sB agent0 None 0 0 false)
      as [[sC agentC] E].
    + intros q Hq'. rewrite MB. apply Hin. now rewrite <- Hi0.
    + discriminate.
    + rewrite E. apply envi_set_active_suggestion_post in E.
      destruct E as ((PC & NC & AC & SC) & FA & IC & _).
      eexists _, agentC. split; [reflexivity|]. cbn [agents set_agents network_entries memory].
      split; [congruence|]. split; [exact FA|].
      split; [rewrite NC; exact LB|].
      split; [rewrite <- MB; exact SC|].
      split; [exact IC|]. intros _ H. now contradiction H.
Qed.

End Resize.

Section Resize.

Variable Q : nat.
Variable min_bw : Z.
Variable get_property : nat -> list float.

Abbreviation F := (RIL_FEATURES_ADDRESS_COUNT Q).

Lemma known_spec s p :
  known s p = true ->
  exists aa k, memory s !! p = Some aa /\ Addr.solver_information aa = Some k
               /\ (k < length (network_entries s))%nat.
Proof.
  unfold known. destruct (memory s !! p) as [aa|]; [|discriminate].
  destruct (Addr.solver_information aa) as [k|] eqn:Ek; [|discriminate].
  intros H. apply Nat.ltb_lt in H. exists aa, k. unfold networks_count in H. repeat split; auto.
Qed.

Lemma agent_address_get_in_lookup l address : forall idx,
  agent_address_get_in l address = Some idx ->
  l !! idx = Some address /\ (idx < length l)%nat.
Proof.
  induction l as [|c l IH]; simpl; intros idx; [discriminate|].
  destruct (Nat.eqb_spec c address) as [->|].
  - intros [= <-]. simpl. split; [reflexivity|lia].
  - destruct (agent_address_get_in l address) as [k|]; [|discriminate].
    intros [= <-]. destruct (IH k eq_refl). simpl. split; [assumption|lia].
Qed.

(** X15.  [GAS_ril_address_add] keeps the agent of the peer well formed:
    after it the agent has the address at the end of its list, one more
    action and [3 + Q] more features, and its matrix and vectors have
    exactly these sizes. *)
Theorem add_keeps_well_formed :
  forall s address network k net aa pos agent,
    ril_get_network s network = Some k ->
    network_entries s !! k = Some net -> min_bw <= bw_out_available net ->
    memory s !! address = Some aa ->
    ril_get_agent_from 0 (agents s) (Addr.peer aa) = Some pos ->
    agents s !! pos = Some agent ->
    well_formed Q s agent ->
    (forall q, address_inuse agent = Some q -> is_Some (memory s !! q)) ->
    exists s1 agent1,
      GAS_ril_address_add Q min_bw get_property s address network = Some s1
      /\ agents s1 !! pos = Some agent1
      /\ well_formed Q s1 agent1
      /\ addresses agent1 = addresses agent ++ [address]
      /\ n agent1 = (n agent + 1)%nat /\ m agent1 = (m agent + F)%nat.
Proof.
  intros s address network k net aa pos agent Hk Hn Hbw Ha Hpos Hag (Hs & Hnn & Hm) Hin.
  destruct (GAS_ril_address_add_spec Q min_bw get_property s address network k net aa pos
              agent Hk Hn Hbw Ha Hpos Hag Hs Hin)
    as (s1 & agent1 & E & Hags1 & Hn1 & Hm1 & HW1 & Hs1 & He1 & Ha1 & Hadr1 & Hp1
        & Hi1 & Hlen1 & Hmem1).
  exists s1, agent1. split; [exact E|].
  split.
  { rewrite Hags1. apply list_lookup_insert_eq. eapply lookup_lt_Some; eauto. }
  split; [|auto].
  pose proof (sized_grown Q address agent Hs) as (G1 & G2 & G3 & G4).
  unfold grown in G1, G2, G3, G4. cbn [W n m s_old e] in G1, G2, G3, G4.
  split; [|split].
  - unfold sized. rewrite HW1, Hn1, Hm1, Hs1, He1. auto.
  - rewrite Hn1, Hnn, Hadr1, length_app. simpl. lia.
  - rewrite Hm1, Hm, Hadr1, length_app. unfold networks_count. rewrite Hlen1.
    simpl. lia.
Qed.

Lemma sized_shrunk hole_start idx agent :
  sized agent -> (hole_start + F <= m agent)%nat ->
  (Z.to_nat RIL_ACTION_TYPE_NUM + idx + 1 <= n agent)%nat ->
  sized (shrunk Q hole_start idx agent).
Proof.
  intros (HW & Hrows & Hs & He) Hh Hn. unfold sized, shrunk. cbn [W n m s_old e].
  assert (forall row : list float, length row = m agent ->
            length (without_columns Q hole_start row) = (m agent - F)%nat) as Hcut.
  { intros row Hr. unfold without_columns.
    rewrite length_app, length_take, length_drop. lia. }
  split; [|split; [|split]].
  - rewrite length_app, length_take, length_drop, length_map. lia.
  - apply Forall_app. split.
    + apply Forall_take, Forall_map. eapply Forall_impl; [exact Hrows|].
      intros row Hr. now apply Hcut.
    + apply Forall_drop, Forall_map. eapply Forall_impl; [exact Hrows|].
      intros row Hr. now apply Hcut.
  - now apply Hcut.
  - now apply Hcut.
Qed.

(** X16.  [GAS_ril_address_delete] succeeds on a well-formed agent that
    holds the address, and keeps it well formed: the address is gone from
    its list, and it has one action and [3 + Q] features less.  When the
    address was active, the agent then uses the first address left in
    its list, with the minimum bandwidth, or no address when none is
    left. *)
Theorem delete_keeps_well_formed :
  forall s address aa pos agent idx session_only,
    memory s !! address = Some aa ->
    ril_get_agent_from 0 (agents s) (Addr.peer aa) = Some pos ->
    agents s !! pos = Some agent ->
    agent_address_get agent address = Some idx ->
    well_formed Q s agent -> (0 < networks_count s)%nat ->
    forallb (known s) (addresses agent) = true ->
    (forall q, address_inuse agent = Some q -> is_Some (memory s !! q)) ->
    exists s1 agent1,
      GAS_ril_address_delete Q min_bw get_property s address session_only = Some s1
      /\ agents s1 !! pos = Some agent1
      /\ well_formed Q s1 agent1
      /\ addresses agent1 = delete idx (addresses agent)
      /\ address_inuse agent1
         = (if Addr.active aa then head (delete idx (addresses agent))
            else address_inuse agent)
      /\ (Addr.active aa = true -> head (delete idx (addresses agent)) <> None ->
          bw_in agent1 = min_bw /\ bw_out agent1 = min_bw).
Proof.
  intros s address aa pos agent idx session_only Ha Hpos Hag Hidx (Hs & Hn & Hm) HN
         Hknown Hin.
  rewrite forallb_forall in Hknown.
  destruct (agent_address_get_in_lookup _ _ _ Hidx) as [Hl Hlt].
  assert (F = 3 + Q)%nat as HF by reflexivity.
  assert (RIL_FEATURES_NETWORK_COUNT = 4%nat) as H4 by reflexivity.
  assert (Z.to_nat RIL_ACTION_TYPE_NUM = 9%nat) as H9 by reflexivity.
  destruct (GAS_ril_address_delete_full Q min_bw get_property s address aa pos agent idx
              session_only Ha Hpos Hag Hidx Hs)
    as (s1 & agent1 & E & Hags & FA & Hlen & Hshape & Hi1 & Hbw).
  - rewrite Hm. nia.
  - rewrite Hm. nia.
  - rewrite Hn. lia.
  - intros _. destruct (known_spec s address) as (aa' & k & Ha' & Hk & Hkl).
    { apply Hknown. eapply list_elem_of_In, list_elem_of_lookup_2. exact Hl. }
    exists k. split; [congruence|assumption].
  - exact Hin.
  - intros q Hq. apply known_spec, Hknown.
    apply head_Some_elem_of in Hq. apply list_elem_of_In.
    eapply elem_of_sublist; [exact Hq|apply sublist_delete].
  - exists s1, agent1. split; [exact E|].
    split.
    { rewrite Hags. apply list_lookup_insert_eq. eapply lookup_lt_Some; eauto. }
    destruct FA as (F1 & F2 & F3 & F4 & F5 & F6 & F7 & F8 & F9 & F10).
    split; [|split; [exact F10|split; assumption]].
    pose proof (sized_shrunk
                  (networks_count s * RIL_FEATURES_NETWORK_COUNT + idx * F) idx agent Hs)
      as (G1 & G2 & G3 & G4); [rewrite Hm; nia|rewrite Hn; lia|].
    split; [|split].
    + unfold sized. rewrite F4, F5, F6, F7, F9. auto.
    + rewrite F6, F10. cbn [n addresses shrunk]. rewrite Hn, length_delete; [lia|eauto].
    + rewrite F5, F10. cbn [m addresses shrunk]. rewrite Hm, length_delete; [|eauto].
      unfold networks_count. rewrite Hlen. nia.
Qed.

(** X17.  Adding an address that is not in use anywhere to a well-formed
    agent that has an address in use, and deleting it again, restores
    the agent with all its weights, its trace and its last action, and
    leaves the networks and the callback alone; only the record of the
    address has learned its network. *)
Theorem add_then_delete_restores_the_agent :
  forall s address network k net aa pos agent q,
    ril_get_network s network = Some k ->
    network_entries s !! k = Some net -> min_bw <= bw_out_available net ->
    memory s !! address = Some aa -> Addr.active aa = false ->
    ril_get_agent_from 0 (agents s) (Addr.peer aa) = Some pos ->
    agents s !! pos = Some agent ->
    well_formed Q s agent ->
    ~ In address (addresses agent) ->
    address_inuse agent = Some q ->
    a_old agent < Z.of_nat (n agent) ->
    exists s1 s2,
      GAS_ril_address_add Q min_bw get_property s address network = Some s1
      /\ GAS_ril_address_delete Q min_bw get_property s1 address false = Some s2
      /\ agents s2 = agents s
      /\ network_entries s2 = network_entries s
      /\ bandwidth_changed_cb s2 = bandwidth_changed_cb s
      /\ memory s2 = <[address := in_network (Some k) aa]> (memory s).
Proof.
  intros s address network k net aa pos agent q Hk Hn Hbw Ha Hact Hpos Hag Hwf Hnin Hq
         Hold.
  pose proof Hwf as (Hs & Hnn & Hm).
  assert (F = 3 + Q)%nat as HF by reflexivity.
  assert (RIL_FEATURES_NETWORK_COUNT = 4%nat) as H4 by reflexivity.
  assert (Z.to_nat RIL_ACTION_TYPE_NUM = 9%nat) as H9 by reflexivity.
  assert (0 < networks_count s)%nat as HN
    by (unfold networks_count; apply lookup_lt_Some in Hn; lia).
  eexists _, _. split.
  { apply (GAS_ril_address_add_used Q min_bw get_property s address network k net aa pos
             agent q); assumption. }
  set (s1 := set_agents _ _).
  assert (pos < length (agents s))%nat as Hlt by (eapply lookup_lt_Some; eauto).
  rewrite (GAS_ril_address_delete_unused Q min_bw get_property s1 address
             (in_network (Some k) aa) pos (grown Q address agent)
             (length (addresses agent)) false).
  - split; [reflexivity|]. cbn [agents set_agents network_entries memory
                                 bandwidth_changed_cb].
    subst s1. cbn [agents set_agents set_memory network_entries memory
                   bandwidth_changed_cb networks_count].
    split; [|auto].
    rewrite list_insert_insert_eq.
    change (networks_count (set_agents (<[pos:=grown Q address agent]> (agents s))
              (set_memory (<[address:=in_network (Some k) aa]> (memory s)) s)))
      with (networks_count s).
    rewrite (shrunk_grown Q s address agent Hwf Hold).
    now apply list_insert_id.
  - subst s1. simpl. apply lookup_insert_eq.
  - exact Hact.
  - subst s1. cbn [agents set_agents in_network Addr.peer].
    destruct (ril_get_agent_from_insert (agents s) (Addr.peer aa) (grown Q address agent)
                0 pos Hpos) as [_ H].
    + cbn [peer grown].
      destruct (ril_get_agent_from_lookup _ _ _ _ Hpos) as (_ & a & Ha' & Hp).
      rewrite Nat.sub_0_r in Ha'. congruence.
    + now rewrite Nat.sub_0_r in H.
  - subst s1. cbn [agents set_agents]. now apply list_lookup_insert_eq.
  - unfold agent_address_get. cbn [addresses grown].
    now apply agent_address_get_in_last.
  - now apply sized_grown.
  - cbn [m grown]. rewrite Hm. nia.
  - subst s1. unfold networks_count in *.
    cbn [m grown network_entries set_agents set_memory]. rewrite Hm. lia.
  - cbn [n grown]. rewrite Hnn. lia.
Qed.

End Resize.

Lemma envi_set_active_suggestion_same solver agent q aa silent :
  address_inuse agent = Some q -> memory solver !! q = Some aa ->
  envi_set_active_suggestion solver agent (Some q) (bw_in agent) (bw_out agent) silent
  = Some (set_memory (<[q := with_activity (active agent) aa]> (memory solver)) solver,
          agent).
Proof.
  intros Hi Hq. rewrite envi_set_active_suggestion_stages.
  rewrite <- Hi. rewrite address_change_same by reflexivity. rewrite Hi.
  unfold activity_and_bw_change. rewrite Hq.
  assert (set_address_inuse (Some q) agent = agent) as Hset
    by (destruct agent; simpl in *; now subst).
  destruct (Bool.eqb (Addr.active aa) (active agent)) eqn:Eb; cbn [negb].
  - rewrite Z.eqb_refl. cbn [negb]. cbv beta iota. rewrite Z.eqb_refl. cbn [negb].
    cbv beta iota. unfold notification. cbn [andb]. rewrite Hset. f_equal. f_equal.
    apply Bool.eqb_prop in Eb. unfold with_activity. rewrite <- Eb.
    rewrite insert_id; [destruct solver; reflexivity|].
    rewrite Hq. f_equal. destruct aa; reflexivity.
  - rewrite (write_Some _ _ _ _ Hq). rewrite Z.eqb_refl. cbn [negb]. cbv beta iota.
    rewrite Z.eqb_refl. cbn [negb]. cbv beta iota.
    unfold notification. cbn [andb]. rewrite Hset. reflexivity.
Qed.

Section Preferred.

Variable Q : nat.
Variable get_property : nat -> list float.

Lemma GAS_ril_stop_get_preferred_address_eq s peer pos agent q aa k net :
  ril_get_agent_from 0 (agents s) peer = Some pos ->
  agents s !! pos = Some agent -> active agent = true ->
  address_inuse agent = Some q ->
  memory s !! q = Some aa -> Addr.solver_information aa = Some k ->
  network_entries s !! k = Some net ->
  GAS_ril_stop_get_preferred_address Q get_property s peer
  = Some (mkHandle (solver_step_count s) (step_time s) (next_step s)
            (parameters s)
            (<[k := charged (- bw_in agent) (- bw_out agent) net]> (network_entries s))
            (<[pos := set_active false agent]> (agents s))
            (<[q := with_activity false aa]> (memory s))
            (bandwidth_changed_cb s)
            (add_delayed s)).
Proof.
  intros Hpos Hag Hact Hi Hq Hk Hn.
  assert (address_inuse (set_active false agent) = Some q) as Hi' by exact Hi.
  unfold GAS_ril_stop_get_preferred_address, ril_get_agent. rewrite Hpos.
  cbv beta iota zeta. rewrite Hag, Hact. cbn [negb].
  rewrite Hi', Hq, Hk. unfold assign, update_at. rewrite Hn. cbv beta iota.
  rewrite (envi_set_active_suggestion_same (set_network_entries _ s)
             (set_active false agent) q aa true Hi' Hq).
  rewrite Hi'. reflexivity.
Qed.

Lemma GAS_ril_get_preferred_address_eq :
  forall s peer pos agent q aa k net,
    ril_get_agent_from 0 (agents s) peer = Some pos ->
    agents s !! pos = Some agent ->
    address_inuse agent = Some q ->
    memory s !! q = Some aa -> Addr.solver_information aa = Some k ->
    network_entries s !! k = Some net ->
    GAS_ril_get_preferred_address Q get_property s peer
    = Some (mkHandle (solver_step_count s) (step_time s) (next_step s)
              (parameters s)
              (<[k := charged (bw_in agent) (bw_out agent) net]> (network_entries s))
              (<[pos := set_active true agent]> (agents s))
              (<[q := with_activity true aa]> (memory s))
              (bandwidth_changed_cb s)
              (add_delayed s),
            Some q).
Proof.
  intros s peer pos agent q aa k net Hpos Hag Hi Hq Hk Hn.
  assert (address_inuse (set_active true agent) = Some q) as Hi' by exact Hi.
  unfold GAS_ril_get_preferred_address, ril_get_agent. rewrite Hpos.
  cbv beta iota zeta. rewrite Hag.
  rewrite Hi', Hq, Hk. unfold assign, update_at. rewrite Hn. cbv beta iota.
  rewrite (envi_set_active_suggestion_same (set_network_entries _ s)
             (set_active true agent) q aa true Hi' Hq).
  rewrite Hi'. reflexivity.
Qed.

(** X18.  For a peer whose agent has an address in use,
    [GAS_ril_get_preferred_address] returns that address and activates
    the agent and the address record; it adds the bandwidths of the agent
    to what is assigned in the network of the address, whether the agent
    was active before or not, and it never calls
    [bandwidth_changed_cb]. *)
Theorem get_preferred_address_activates_silently :
  forall s peer pos agent q aa k net,
    ril_get_agent_from 0 (agents s) peer = Some pos ->
    agents s !! pos = Some agent ->
    address_inuse agent = Some q ->
    memory s !! q = Some aa -> Addr.solver_information aa = Some k ->
    network_entries s !! k = Some net ->
    GAS_ril_get_preferred_address Q get_property s peer
    = Some (mkHandle (solver_step_count s) (step_time s) (next_step s)
              (parameters s)
              (<[k := charged (bw_in agent) (bw_out agent) net]> (network_entries s))
              (<[pos := set_active true agent]> (agents s))
              (<[q := with_activity true aa]> (memory s))
              (bandwidth_changed_cb s)
              (add_delayed s),
            Some q).
Proof. exact GAS_ril_get_preferred_address_eq. Qed.


(** X19.  [GAS_ril_stop_get_preferred_address] undoes
    [GAS_ril_get_preferred_address]: for an agent that was not active and
    has an address in use, the two calls in a row leave the solver
    exactly as it was, with the agent and the address record inactive
    again and the network credited with what it had been charged. *)
Theorem stop_undoes_get_preferred_address :
  forall s peer pos agent q aa k net,
    ril_get_agent_from 0 (agents s) peer = Some pos ->
    agents s !! pos = Some agent -> active agent = false ->
    address_inuse agent = Some q ->
    memory s !! q = Some aa -> Addr.active aa = false ->
    Addr.solver_information aa = Some k ->
    network_entries s !! k = Some net ->
    0 <= bw_in_assigned net < 2 ^ 64 -> 0 <= bw_out_assigned net < 2 ^ 64 ->
    exists s1,
      GAS_ril_get_preferred_address Q get_property s peer = Some (s1, Some q)
      /\ GAS_ril_stop_get_preferred_address Q get_property s1 peer = Some s.
Proof.
  intros s peer pos agent q aa k net Hpos Hag Hact Hi Hq Haa Hk Hn Rin Rout.
  eexists. split.
  { apply (GAS_ril_get_preferred_address_eq s peer pos agent q aa k net);
      assumption. }
  assert (pos < length (agents s))%nat as Hlt by (eapply lookup_lt_Some; eauto).
  assert (k < length (network_entries s))%nat as Hkl by (eapply lookup_lt_Some; eauto).
  destruct (ril_get_agent_from_lookup _ _ _ _ Hpos) as (_ & a & Ha' & Hp).
  rewrite Nat.sub_0_r in Ha'. assert (a = agent) as -> by congruence.
  rewrite (GAS_ril_stop_get_preferred_address_eq _ peer pos (set_active true agent) q
             (with_activity true aa) k (charged (bw_in agent) (bw_out agent) net)).
  - f_equal. cbn [solver_step_count step_time next_step add_delayed parameters
                  network_entries agents memory bandwidth_changed_cb
                   bw_in bw_out set_active].
    rewrite !list_insert_insert_eq, insert_insert_eq.
    assert (charged (- bw_in agent) (- bw_out agent)
              (charged (bw_in agent) (bw_out agent) net) = net) as ->.
    { unfold charged. cbn [type bw_in_available bw_in_assigned bw_out_available
                           bw_out_assigned].
      assert (forall x b, 0 <= x < 2 ^ 64 -> wrap64 (wrap64 (x + b) + - b) = x) as Hw.
      { intros x b Hx. unfold wrap64. rewrite Zplus_mod_idemp_l.
        replace (x + b + - b) with x by lia. now apply Z.mod_small. }
      rewrite !Hw by assumption. destruct net; reflexivity. }
    assert (set_active false (set_active true agent) = agent) as ->.
    { destruct agent; simpl in *. now subst. }
    assert (with_activity false (with_activity true aa) = aa) as ->.
    { destruct aa; simpl in *. now subst. }
    rewrite !list_insert_id by assumption. rewrite insert_id by assumption.
    destruct s; reflexivity.
  - cbn [agents].
    destruct (ril_get_agent_from_insert (agents s) peer (set_active true agent) 0 pos Hpos)
      as [_ H]; [exact Hp|]. now rewrite Nat.sub_0_r in H.
  - cbn [agents]. now apply list_lookup_insert_eq.
  - reflexivity.
  - cbn [address_inuse set_active]. exact Hi.
  - cbn [memory]. apply lookup_insert_eq.
  - exact Hk.
  - cbn [network_entries]. now apply list_lookup_insert_eq.
Qed.

End Preferred.

Lemma same_agent_refl a : same_agent a a.
Proof. repeat split. Qed.

Section Steps.

Variable Q : nat.
Variable min_bw : Z.
Variable get_property : nat -> list float.

Lemma same_agent_trans a0 a1 a2 : same_agent a0 a1 -> same_agent a1 a2 -> same_agent a0 a2.
Proof.
  intros (A1 & A2 & A3 & A4 & A5) (B1 & B2 & B3 & B4 & B5). repeat split; congruence.
Qed.

Lemma agent_update_weights_same solver agent reward s_next a_prime a1 :
  agent_update_weights solver agent reward s_next a_prime = Some a1 ->
  same_agent agent a1.
Proof.
  unfold agent_update_weights. intros H.
  repeat match type of H with
         | match ?x with _ => _ end = Some _ => destruct x eqn:?; try discriminate
         end.
  injection H as <-. repeat split.
Qed.

Lemma agent_update_weights_if_same (c : bool) solver agent reward s_next a_prime a1 :
  (if c then agent_update_weights solver agent reward s_next a_prime else Some agent)
  = Some a1 ->
  same_agent agent a1.
Proof.
  destruct c.
  - apply agent_update_weights_same.
  - intros [= <-]. apply same_agent_refl.
Qed.

Lemma agent_modify_eligibility_same solver agent modification a1 :
  agent_modify_eligibility solver agent modification = Some a1 ->
  same_agent agent a1.
Proof.
  unfold agent_modify_eligibility. intros H.
  repeat match type of H with
         | match ?x with _ => _ end = Some _ => destruct x eqn:?; try discriminate
         end.
  injection H as <-. repeat split.
Qed.

Lemma agent_step_frame solver agent input s1 a1 :
  agent_step Q min_bw get_property solver agent input = Some (s1, a1) ->
  frame solver s1 /\ same_agent agent a1.
Proof.
  unfold agent_step. intros H.
  destruct (envi_get_state Q get_property solver agent) as [s_next|]; [|discriminate].
  destruct (match algorithm (parameters solver) with
            | RIL_ALGO_SARSA => _ | RIL_ALGO_Q => _ end) as [[ag a_next]|] eqn:E;
    [|discriminate].
  assert (same_agent agent ag) as Hag.
  { destruct (algorithm (parameters solver)).
    - destruct (agent_modify_eligibility solver agent RIL_E_SET) as [g1|] eqn:E1;
        [|discriminate].
      destruct (if explore input then _ else _) as [a_n|]; [|discriminate].
      destruct (if negb (RIL_ACTION_INVALID =? a_old g1) then _ else _) as [g2|] eqn:E2;
        [|discriminate].
      injection E as <- <-.
      eapply same_agent_trans; [eapply agent_modify_eligibility_same; eauto|].
      eapply agent_update_weights_if_same; eauto.
    - destruct (agent_get_action_best agent s_next) as [a_n|]; [|discriminate].
      destruct (if negb (RIL_ACTION_INVALID =? a_old agent) then _ else _) as [g2|] eqn:E2;
        [|discriminate].
      apply agent_update_weights_if_same in E2.
      destruct (explore input).
      + destruct (agent_modify_eligibility solver g2 RIL_E_ZERO) as [g3|] eqn:E3;
          [|discriminate].
        injection E as <- <-.
        eapply same_agent_trans; [exact E2|].
        eapply agent_modify_eligibility_same; eauto.
      + destruct (agent_get_action_best g2 s_next) as [a_n2|]; [|discriminate].
        destruct (agent_modify_eligibility solver g2 RIL_E_SET) as [g3|] eqn:E3;
          [|discriminate].
        injection E as <- <-.
        eapply same_agent_trans; [exact E2|].
        eapply agent_modify_eligibility_same; eauto. }
  destruct (RIL_ACTION_INVALID =? a_next); [discriminate|].
  destruct (agent_modify_eligibility solver ag RIL_E_ACCUMULATE) as [ag2|] eqn:E2;
    [|discriminate].
  apply agent_modify_eligibility_same in E2.
  destruct (envi_do_action min_bw solver ag2 a_next) as [[s3 ag3]|] eqn:E3;
    [|discriminate].
  injection H as <- <-.
  apply envi_do_action_frame in E3. destruct E3 as (F3 & FA).
  split; [exact F3|].
  eapply same_agent_trans; [exact Hag|]. eapply same_agent_trans; [exact E2|].
  destruct FA as (F1 & F2 & _ & _ & F5 & F6 & _ & _ & _ & F10).
  repeat split; assumption.
Qed.

Lemma for_loop_inv {S : Type} (P : S -> Prop) (body : nat -> S -> option S) range :
  (forall i s s', In i range -> P s -> body i s = Some s' -> P s') ->
  forall s s', P s -> for_loop body range s = Some s' -> P s'.
Proof.
  induction range as [|i range IH]; intros Hb s s' Hs; simpl.
  - intros [= <-]. exact Hs.
  - destruct (body i s) as [s1|] eqn:E; [|discriminate].
    apply IH; [intros; eapply Hb; eauto; now right|].
    eapply Hb; eauto. now left.
Qed.

Lemma for_loop_fixed {S : Type} (body : nat -> S -> option S) range s :
  (forall i, In i range -> body i s = Some s) -> for_loop body range s = Some s.
Proof.
  induction range as [|i range IH]; intros Hb; simpl; [reflexivity|].
  rewrite Hb by now left. apply IH. intros; apply Hb. now right.
Qed.

(** X20.  A periodic step in which no agent is both active and using an
    address only counts the step, modulo 2^64, and schedules the next
    one [step_time] later, remembering its task: agents that were not
    asked for an address, or have none, do not learn, and the networks,
    the address records and the calls of the callback are as before. *)
Theorem periodic_step_without_working_agents :
  forall inputs task s,
    forallb idle (agents s) = true ->
    ril_periodic_step Q min_bw get_property inputs task s
    = Some (mkHandle (wrap64 (solver_step_count s + 1)) (step_time s) task
              (parameters s) (network_entries s) (agents s) (memory s)
              (bandwidth_changed_cb s)
              (add_delayed s ++ [(step_time s, task)])).
Proof.
  intros inputs task s Hidle. unfold ril_periodic_step.
  rewrite for_loop_fixed; [reflexivity|]. intros i Hi. apply in_seq in Hi.
  destruct (lookup_lt_is_Some_2 (agents s) i ltac:(lia)) as [a Ha].
  rewrite Ha. rewrite forallb_forall in Hidle.
  specialize (Hidle a). unfold idle in Hidle.
  rewrite (proj1 (negb_true_iff _) (Hidle ltac:(apply list_elem_of_In;
                                                 eapply list_elem_of_lookup_2; eauto))).
  reflexivity.
Qed.

(** X21.  When a periodic step returns, every agent is still in its place,
    for the same peer, as active as before and with the same addresses;
    an idle agent is left exactly as it was, and the networks are
    untouched: the bandwidth actions of the agents do not reach the
    accounts of the networks. *)
Theorem periodic_step_frame :
  forall inputs task s s1,
    ril_periodic_step Q min_bw get_property inputs task s = Some s1 ->
    network_entries s1 = network_entries s
    /\ length (agents s1) = length (agents s)
    /\ forall i a, agents s !! i = Some a ->
         (idle a = true -> agents s1 !! i = Some a)
         /\ exists a1, agents s1 !! i = Some a1 /\ same_agent a a1.
Proof.
  intros inputs task s s1 H. unfold ril_periodic_step in H.
  destruct (for_loop _ _ s) as [s0|] eqn:E0 in H; [|discriminate].
  injection H as <-. cbn [network_entries agents].
  revert E0.
  apply (for_loop_inv
           (fun s1 => network_entries s1 = network_entries s
                      /\ length (agents s1) = length (agents s)
                      /\ forall i a, agents s !! i = Some a ->
                           (idle a = true -> agents s1 !! i = Some a)
                           /\ exists a1, agents s1 !! i = Some a1 /\ same_agent a a1)).
  - intros i s2 s3 _ (I1 & I2 & I3) Hb.
    destruct (agents s2 !! i) as [cur|] eqn:Ec; [|discriminate].
    destruct (active cur && bool_decide (address_inuse cur <> None)) eqn:Ew.
    + destruct (agent_step Q min_bw get_property s2 cur (inputs i)) as [[s4 cur4]|] eqn:E4;
        [|discriminate].
      injection Hb as <-. apply agent_step_frame in E4.
      destruct E4 as ((_ & N4 & A4 & _) & S4). cbn [network_entries agents set_agents].
      rewrite A4.
      split; [congruence|]. split; [rewrite length_insert; exact I2|].
      intros j a Ha. destruct (I3 j a Ha) as (J1 & a2 & J2 & J3).
      destruct (decide (j = i)) as [->|Hne].
      * assert (a2 = cur) as -> by congruence.
        rewrite list_lookup_insert_eq by (eapply lookup_lt_Some; eauto).
        split.
        -- intros Hid. specialize (J1 Hid). assert (a = cur) as -> by congruence.
           unfold idle in Hid. rewrite Ew in Hid. discriminate.
        -- exists cur4. split; [reflexivity|].
           destruct J3 as (K1 & K2 & K3 & K4 & K5).
           destruct S4 as (L1 & L2 & L3 & L4 & L5).
           repeat split; congruence.
      * rewrite list_lookup_insert_ne by congruence. split; [exact J1|eauto].
    + injection Hb as <-. auto.
  - split; [reflexivity|]. split; [reflexivity|].
    intros i a Ha. split; [auto|]. exists a. split; [exact Ha|apply same_agent_refl].
Qed.

End Steps.

Lemma ril_get_agent_from_app_new l peer0 a : forall i,
  ril_get_agent_from i l peer0 = None -> peer a = peer0 ->
  ril_get_agent_from i (l ++ [a]) peer0 = Some (i + length l)%nat.
Proof.
  induction l as [|c l IH]; intros i; simpl.
  - intros _ <-. rewrite N.eqb_refl. f_equal. lia.
  - destruct (N.eqb peer0 (peer c)); [discriminate|].
    intros H Hp. rewrite (IH _ H Hp). f_equal. lia.
Qed.

Lemma envi_set_active_suggestion_first solver agent p aa bw silent :
  address_inuse agent = None -> memory solver !! p = Some aa ->
  envi_set_active_suggestion solver agent (Some p) bw bw silent
  = Some (mkHandle (solver_step_count solver) (step_time solver) (next_step solver)
            (parameters solver) (network_entries solver) (agents solver)
            (<[p := suggested (active agent) bw (Addr.solver_information aa) aa]>
               (memory solver))
            (bandwidth_changed_cb solver
             ++ if active agent && negb silent
                then [(p, suggested (active agent) bw (Addr.solver_information aa) aa)]
                else [])
            (add_delayed solver),
          with_suggestion p bw agent).
Proof.
  intros Hi Hp. unfold envi_set_active_suggestion. rewrite Hi.
  rewrite bool_decide_true by discriminate.
  rewrite (write_Some _ _ _ _ Hp). cbv beta iota.
  cbn [memory set_memory]. rewrite lookup_insert_eq. cbn [Addr.active].
  rewrite Bool.eqb_reflx. cbn [negb].
  assert (forall ag : RIL_Peer_Agent,
            address_inuse ag = None -> bw_in ag = bw -> bw_out ag = bw ->
            set_address_inuse (Some p) ag = with_suggestion p bw ag) as Hsame
    by (intros ag H1 H2 H3; destruct ag; simpl in *; subst; reflexivity).
  destruct (bw_in agent =? bw) eqn:Ein; cbn [negb]; cbv beta iota.
  - apply Z.eqb_eq in Ein.
    destruct (bw_out agent =? bw) eqn:Eout; cbn [negb]; cbv beta iota.
    + apply Z.eqb_eq in Eout. cbn [andb].
      unfold call_bandwidth_changed_cb. cbn [memory set_memory].
      rewrite lookup_insert_eq, Ein, Eout.
      destruct (active agent && negb silent); cbv beta iota;
        rewrite Hsame, ?app_nil_r by assumption; reflexivity.
    + unfold write. cbn [memory set_memory]. rewrite lookup_insert_eq. cbv beta iota.
      cbn [memory set_memory Addr.peer Addr.active Addr.assigned_bw_in
             Addr.solver_information active set_bw_out].
      rewrite insert_insert_eq. cbn [andb].
      unfold call_bandwidth_changed_cb. cbn [memory set_memory].
      rewrite lookup_insert_eq, Ein.
      destruct (active agent && negb silent); cbv beta iota;
        rewrite Hsame, ?app_nil_r by (try assumption; reflexivity); reflexivity.
  - unfold write at 1. cbn [memory set_memory]. rewrite lookup_insert_eq. cbv beta iota.
    cbn [memory set_memory Addr.peer Addr.active Addr.assigned_bw_out
           Addr.solver_information active set_bw_in bw_out].
    rewrite insert_insert_eq.
    destruct (bw_out agent =? bw) eqn:Eout; cbn [negb]; cbv beta iota.
    + apply Z.eqb_eq in Eout. cbn [andb active set_bw_in].
      unfold call_bandwidth_changed_cb. cbn [memory set_memory].
      rewrite lookup_insert_eq, Eout.
      destruct (active agent && negb silent); cbv beta iota;
        rewrite Hsame, ?app_nil_r by (try assumption; reflexivity); reflexivity.
    + unfold write. cbn [memory set_memory]. rewrite lookup_insert_eq. cbv beta iota.
      cbn [memory set_memory Addr.peer Addr.active Addr.assigned_bw_in
             Addr.solver_information active set_bw_out set_bw_in].
      rewrite insert_insert_eq. cbn [andb].
      unfold call_bandwidth_changed_cb. cbn [memory set_memory].
      rewrite lookup_insert_eq.
      destruct (active agent && negb silent); cbv beta iota;
        rewrite ?app_nil_r; reflexivity.
Qed.

Section FirstAddress.

Variable Q : nat.
Variable min_bw : Z.
Variable get_property : nat -> list float.

Abbreviation F := (RIL_FEATURES_ADDRESS_COUNT Q).

Lemma agent_init_eq s peer0 :
  agent_init Q get_property s peer0 = Some (fresh_agent s peer0).
Proof.
  unfold agent_init. cbv zeta.
  rewrite (envi_get_state_eq Q get_property); [|cbn [m addresses length]; lia|constructor].
  cbn [addresses flat_map]. rewrite app_nil_r.
  rewrite agent_modify_eligibility_eq by (cbn [e m]; apply length_replicate).
  reflexivity.
Qed.

Lemma sized_fresh_agent s peer0 : sized (fresh_agent s peer0).
Proof.
  unfold sized, fresh_agent. cbn [W n m s_old e].
  rewrite !length_replicate, length_network_features.
  repeat split. apply Forall_replicate, length_replicate.
Qed.

Lemma GAS_ril_address_add_first s address network k net aa pos agent :
  ril_get_network s network = Some k ->
  network_entries s !! k = Some net -> min_bw <= bw_out_available net ->
  memory s !! address = Some aa ->
  ril_get_agent_from 0 (agents s) (Addr.peer aa) = Some pos ->
  agents s !! pos = Some agent ->
  sized agent ->
  address_inuse agent = None ->
  GAS_ril_address_add Q min_bw get_property s address network
  = Some (mkHandle (solver_step_count s) (step_time s) (next_step s)
            (parameters s)
            (<[k := charged min_bw min_bw net]> (network_entries s))
            (<[pos := with_suggestion address min_bw (grown Q address agent)]> (agents s))
            (<[address := suggested (active agent) min_bw (Some k) aa]> (memory s))
            (bandwidth_changed_cb s
             ++ if active agent
                then [(address, suggested (active agent) min_bw (Some k) aa)]
                else [])
            (add_delayed s)).
Proof.
  intros Hk Hn Hbw Ha Hpos Hag (HW & Hrows & Hs & He) Hq.
  unfold GAS_ril_address_add. rewrite Hk.
  rewrite (write_Some _ _ _ _ Ha).
  set (sA := set_memory _ s).
  rewrite (ril_network_is_active_eq min_bw sA network k net Hk Hn).
  assert ((bw_out_available net <? min_bw) = false) as -> by (apply Z.ltb_ge; lia).
  simpl negb. cbv iota.
  assert (memory sA !! address = Some (in_network (Some k) aa)) as HaA
    by (subst sA; simpl; apply lookup_insert_eq).
  rewrite HaA. cbn [Addr.peer in_network].
  unfold ril_get_agent. change (agents sA) with (agents s). rewrite Hpos.
  cbv beta iota. change (agents sA) with (agents s). rewrite Hag. cbv beta iota.
  rewrite (grow_rows Q (W agent) (n agent) (m agent) HW Hrows).
  assert (forall v : list float, length v = m agent ->
            GNUNET_array_grow 0%float v (m agent) (m agent + F)
            = v ++ replicate F 0%float) as Hgrow.
  { intros v Hv. rewrite <- Hv at 1. rewrite GNUNET_array_grow_exact by lia.
    rewrite Hv. now replace (m agent + F - m agent)%nat with F by lia. }
  rewrite !Hgrow by assumption. clear Hgrow.
  cbn [address_inuse]. rewrite Hq.
  unfold assign, update_at. change (network_entries sA) with (network_entries s).
  rewrite Hn. cbv beta iota.
  fold (charged min_bw min_bw net).
  match goal with
  | |- context [envi_set_active_suggestion ?s0 ?a0 _ _ _ _] =>
      rewrite (envi_set_active_suggestion_first s0 a0 address (in_network (Some k) aa)
                 min_bw false); [|reflexivity|exact HaA]
  end.
  cbn [solver_step_count step_time next_step add_delayed parameters
       network_entries agents memory bandwidth_changed_cb set_agents
       set_network_entries active andb negb Addr.solver_information in_network].
  rewrite andb_true_r. subst sA.
  cbn [solver_step_count step_time next_step add_delayed parameters
       network_entries agents memory bandwidth_changed_cb set_memory].
  rewrite insert_insert_eq. unfold grown. rewrite Hq. reflexivity.
Qed.

Lemma GAS_ril_address_add_new_peer s address network k net aa :
  ril_get_network s network = Some k ->
  network_entries s !! k = Some net -> min_bw <= bw_out_available net ->
  memory s !! address = Some aa ->
  ril_get_agent_from 0 (agents s) (Addr.peer aa) = None ->
  GAS_ril_address_add Q min_bw get_property s address network
  = GAS_ril_address_add Q min_bw get_property
      (set_agents (agents s ++ [fresh_agent s (Addr.peer aa)]) s) address network.
Proof.
  intros Hk Hn Hbw Ha Hnone. unfold GAS_ril_address_add.
  change (ril_get_network (set_agents _ s) network) with (ril_get_network s network).
  rewrite Hk.
  rewrite (write_Some _ _ _ _ Ha).
  rewrite (write_Some address _ (set_agents _ s) aa Ha).
  set (sA := set_memory _ s). set (sB := set_memory _ (set_agents _ s)).
  rewrite (ril_network_is_active_eq min_bw sA network k net Hk Hn).
  rewrite (ril_network_is_active_eq min_bw sB network k net Hk Hn).
  assert ((bw_out_available net <? min_bw) = false) as -> by (apply Z.ltb_ge; lia).
  simpl negb. cbv iota.
  assert (memory sA !! address = Some (in_network (Some k) aa)) as HaA
    by (subst sA; simpl; apply lookup_insert_eq).
  assert (memory sB !! address = Some (in_network (Some k) aa)) as HaB
    by (subst sB; simpl; apply lookup_insert_eq).
  rewrite HaA, HaB. cbn [Addr.peer in_network].
  unfold ril_get_agent.
  change (agents sA) with (agents s).
  change (agents sB) with (agents s ++ [fresh_agent s (Addr.peer aa)]).
  rewrite Hnone.
  rewrite (ril_get_agent_from_app_new (agents s) (Addr.peer aa)
             (fresh_agent s (Addr.peer aa)) 0 Hnone eq_refl).
  rewrite agent_init_eq. reflexivity.
Qed.

(** X22.  The first address of a peer the solver does not know, in a
    network with enough bandwidth: [GAS_ril_address_add] makes an agent
    for the peer at the end of the list, with zero weights and room for
    the address, which uses the address with the minimum bandwidth in
    both directions; the network is charged with it, the record of the
    address holds it, and since the agent is not active nobody is
    called. *)
Theorem first_address_of_a_new_peer :
  forall s address network k net aa,
    ril_get_network s network = Some k ->
    network_entries s !! k = Some net -> min_bw <= bw_out_available net ->
    memory s !! address = Some aa ->
    ril_get_agent_from 0 (agents s) (Addr.peer aa) = None ->
    GAS_ril_address_add Q min_bw get_property s address network
    = Some (mkHandle (solver_step_count s) (step_time s) (next_step s)
              (parameters s)
              (<[k := charged min_bw min_bw net]> (network_entries s))
              (agents s ++ [with_suggestion address min_bw
                              (grown Q address (fresh_agent s (Addr.peer aa)))])
              (<[address := suggested false min_bw (Some k) aa]> (memory s))
              (bandwidth_changed_cb s)
              (add_delayed s)).
Proof.
  intros s address network k net aa Hk Hn Hbw Ha Hnone.
  rewrite (GAS_ril_address_add_new_peer s address network k net aa) by assumption.
  rewrite (GAS_ril_address_add_first _ address network k net aa (length (agents s))
             (fresh_agent s (Addr.peer aa))); try assumption.
  - cbn [solver_step_count step_time next_step add_delayed parameters
         network_entries agents memory bandwidth_changed_cb set_agents
         active fresh_agent].
    rewrite app_nil_r.
    replace (length (agents s)) with (length (agents s) + 0)%nat by lia.
    rewrite insert_app_r. reflexivity.
  - cbn [agents set_agents].
    apply (ril_get_agent_from_app_new (agents s) (Addr.peer aa)
             (fresh_agent s (Addr.peer aa)) 0 Hnone eq_refl).
  - cbn [agents set_agents]. apply list_lookup_middle. reflexivity.
  - apply sized_fresh_agent.
  - reflexivity.
Qed.

Lemma GAS_ril_get_preferred_address_new s peer0 :
  ril_get_agent_from 0 (agents s) peer0 = None ->
  GAS_ril_get_preferred_address Q get_property s peer0
  = Some (set_agents (agents s ++ [set_active true (fresh_agent s peer0)]) s, None).
Proof.
  intros Hnone. unfold GAS_ril_get_preferred_address, ril_get_agent.
  rewrite Hnone, agent_init_eq. cbv beta iota zeta. cbn [agents set_agents].
  rewrite list_lookup_middle by reflexivity.
  change (address_inuse (set_active true (fresh_agent s peer0))) with (@None nat).
  cbv beta iota.
  change (@None nat) with (address_inuse (set_active true (fresh_agent s peer0))) at 1.
  rewrite envi_set_active_suggestion_unchanged by (intros p Hp; discriminate Hp).
  cbn [agents set_agents].
  replace (length (agents s)) with (length (agents s) + 0)%nat by lia.
  rewrite insert_app_r. reflexivity.
Qed.

(** X23.  A peer that asked for an address before the solver had one: the
    request makes an active agent and returns no address, and the first
    address added for the peer afterwards is suggested at once:
    [bandwidth_changed_cb] is called once, with the address active and
    assigned the minimum bandwidth in both directions. *)
Theorem first_address_of_a_waiting_peer :
  forall s address network k net aa,
    ril_get_network s network = Some k ->
    network_entries s !! k = Some net -> min_bw <= bw_out_available net ->
    memory s !! address = Some aa ->
    ril_get_agent_from 0 (agents s) (Addr.peer aa) = None ->
    exists s1,
      GAS_ril_get_preferred_address Q get_property s (Addr.peer aa) = Some (s1, None)
      /\ GAS_ril_address_add Q min_bw get_property s1 address network
         = Some (mkHandle (solver_step_count s) (step_time s) (next_step s)
                   (parameters s)
                   (<[k := charged min_bw min_bw net]> (network_entries s))
                   (agents s ++ [with_suggestion address min_bw
                                   (grown Q address
                                      (set_active true (fresh_agent s (Addr.peer aa))))])
                   (<[address := suggested true min_bw (Some k) aa]> (memory s))
                   (bandwidth_changed_cb s
                    ++ [(address, suggested true min_bw (Some k) aa)])
                   (add_delayed s)).
Proof.
  intros s address network k net aa Hk Hn Hbw Ha Hnone.
  eexists. split; [apply GAS_ril_get_preferred_address_new; exact Hnone|].
  rewrite (GAS_ril_address_add_first _ address network k net aa (length (agents s))
             (set_active true (fresh_agent s (Addr.peer aa)))); try assumption.
  - cbn [solver_step_count step_time next_step add_delayed parameters
         network_entries agents memory bandwidth_changed_cb set_agents
         active fresh_agent set_active].
    replace (length (agents s)) with (length (agents s) + 0)%nat by lia.
    rewrite insert_app_r. reflexivity.
  - cbn [agents set_agents].
    apply (ril_get_agent_from_app_new (agents s) (Addr.peer aa)
             (set_active true (fresh_agent s (Addr.peer aa))) 0 Hnone eq_refl).
  - cbn [agents set_agents]. apply list_lookup_middle. reflexivity.
  - apply (sized_fresh_agent s (Addr.peer aa)).
  - reflexivity.
Qed.

End FirstAddress.

Lemma agent_address_get_in_None l address :
  existsb (Nat.eqb address) l = false -> agent_address_get_in l address = None.
Proof.
  induction l as [|c l IH]; simpl; [reflexivity|].
  intros H. apply orb_false_elim in H. destruct H as [H1 H2].
  rewrite Nat.eqb_sym, H1. now rewrite IH.
Qed.

Section Refused.

Variable Q : nat.
Variable min_bw : Z.
Variable get_property : nat -> list float.

Lemma address_in_inactive_network_Some s aa k net :
  Addr.solver_information aa = Some k ->
  network_entries s !! k = Some net ->
  ril_get_network s (type net) = Some k ->
  bw_out_available net < min_bw ->
  address_in_inactive_network min_bw s aa = Some s.
Proof.
  intros Hk Hn Hg Hbw. unfold address_in_inactive_network. rewrite Hk, Hn.
  rewrite (ril_network_is_active_eq min_bw s (type net) k net Hg Hn).
  assert ((bw_out_available net <? min_bw) = true) as -> by (apply Z.ltb_lt; lia).
  reflexivity.
Qed.

Lemma address_in_inactive_network_None s aa k net :
  Addr.solver_information aa = Some k ->
  network_entries s !! k = Some net ->
  ril_get_network s (type net) = Some k ->
  min_bw <= bw_out_available net ->
  address_in_inactive_network min_bw s aa = None.
Proof.
  intros Hk Hn Hg Hbw. unfold address_in_inactive_network. rewrite Hk, Hn.
  rewrite (ril_network_is_active_eq min_bw s (type net) k net Hg Hn).
  assert ((bw_out_available net <? min_bw) = false) as -> by (apply Z.ltb_ge; lia).
  reflexivity.
Qed.

Lemma GAS_ril_address_delete_unheld s address aa session_only :
  memory s !! address = Some aa -> unheld s address = true ->
  GAS_ril_address_delete Q min_bw get_property s address session_only
  = address_in_inactive_network min_bw s aa.
Proof.
  intros Ha Hun. unfold GAS_ril_address_delete. rewrite Ha.
  unfold ril_get_agent.
  destruct (ril_get_agent_from 0 (agents s) (Addr.peer aa)) as [pos|] eqn:Hpos;
    [|reflexivity].
  cbv beta iota.
  destruct (ril_get_agent_from_lookup _ _ _ _ Hpos) as (_ & agent & Hag & _).
  rewrite Nat.sub_0_r in Hag. rewrite Hag. cbv beta iota zeta.
  unfold agent_address_get. rewrite agent_address_get_in_None; [reflexivity|].
  unfold unheld in Hun. rewrite forallb_forall in Hun.
  apply negb_true_iff, Hun, list_elem_of_In. eapply list_elem_of_lookup_2; eauto.
Qed.

(** X24.  An address of a network that has less than the minimum
    bandwidth available is refused: [GAS_ril_address_add] only notes the
    network in the record of the address, and makes or changes no agent
    for it.  Such an address can be deleted again, which changes
    nothing. *)
Theorem address_of_a_network_without_bandwidth :
  forall s address network k net aa session_only,
    ril_get_network s network = Some k ->
    network_entries s !! k = Some net -> bw_out_available net < min_bw ->
    memory s !! address = Some aa -> unheld s address = true ->
    exists s1,
      GAS_ril_address_add Q min_bw get_property s address network = Some s1
      /\ s1 = set_memory (<[address := in_network (Some k) aa]> (memory s)) s
      /\ GAS_ril_address_delete Q min_bw get_property s1 address session_only = Some s1.
Proof.
  intros s address network k net aa session_only Hk Hn Hbw Ha Hun.
  eexists. split; [|split; [reflexivity|]].
  - unfold GAS_ril_address_add. rewrite Hk. rewrite (write_Some _ _ _ _ Ha).
    rewrite (ril_network_is_active_eq min_bw (set_memory _ s) network k net Hk Hn).
    assert ((bw_out_available net <? min_bw) = true) as -> by (apply Z.ltb_lt; lia).
    reflexivity.
  - rewrite (GAS_ril_address_delete_unheld _ address (in_network (Some k) aa)).
    + destruct (ril_get_network_lookup s network k Hk) as (net' & Hn' & Ht).
      assert (net' = net) as -> by congruence.
      apply (address_in_inactive_network_Some _ _ k net); try assumption.
      * reflexivity.
      * now rewrite Ht.
    + apply lookup_insert_eq.
    + exact Hun.
Qed.

(** X25.  Deleting an address that no agent holds while its network has
    the minimum bandwidth available fails the assertion of
    [GAS_ril_address_delete]: the solver cannot be told to forget an
    address it could have taken but was never given. *)
Theorem delete_of_an_address_never_added_aborts :
  forall s address aa k net session_only,
    memory s !! address = Some aa -> unheld s address = true ->
    Addr.solver_information aa = Some k ->
    network_entries s !! k = Some net ->
    ril_get_network s (type net) = Some k ->
    min_bw <= bw_out_available net ->
    GAS_ril_address_delete Q min_bw get_property s address session_only = None.
Proof.
  intros s address aa k net session_only Ha Hun Hk Hn Hg Hbw.
  rewrite (GAS_ril_address_delete_unheld s address aa) by assumption.
  now apply (address_in_inactive_network_None s aa k net).
Qed.

End Refused.

(** The state of the agent of [one_address]: the four features of the
    network, then the five of its address. *)
Lemma state_vector_of_one_address :
  envi_get_state 2 two_properties one_address (the_agent one_address)
  = Some (flat_map network_features (network_entries one_address)
          ++ flat_map (address_features 2 two_properties one_address
                         (the_agent one_address))
               (addresses (the_agent one_address))).
Proof.
  apply (state_vector_layout 2 two_properties one_address (the_agent one_address)).
  - reflexivity.
  - repeat constructor. vm_compute. eauto.
Defined.

(** The agent of [learned] stays well formed when the second address
    of the peer is added. *)
Lemma add_to_learned_is_well_formed :
  exists s1 agent1,
    GAS_ril_address_add 2 1024 two_properties learned 2%nat 3 = Some s1
    /\ agents s1 !! 0%nat = Some agent1
    /\ well_formed 2 s1 agent1
    /\ addresses agent1 = addresses (the_agent learned) ++ [2%nat]
    /\ n agent1 = (n (the_agent learned) + 1)%nat
    /\ m agent1 = (m (the_agent learned) + RIL_FEATURES_ADDRESS_COUNT 2)%nat.
Proof.
  apply (add_keeps_well_formed 2 1024 two_properties learned 2%nat 3 0%nat
           (mkNet 3 100000 2048 100000 2048) (Addr.mkAddress 7%N false 0 0 None)
           0%nat (the_agent learned)).
  - reflexivity.
  - reflexivity.
  - vm_compute. discriminate.
  - reflexivity.
  - reflexivity.
  - reflexivity.
  - repeat split; repeat constructor.
  - intros q Hq. injection Hq as <-. vm_compute. eauto.
Defined.

(** Deleting the active first address of [learned_two] leaves a
    well-formed agent that uses the second address with 1024. *)
Lemma delete_from_learned_two :
  exists s1 agent1,
    GAS_ril_address_delete 2 1024 two_properties learned_two 1%nat false = Some s1
    /\ agents s1 !! 0%nat = Some agent1
    /\ well_formed 2 s1 agent1
    /\ addresses agent1 = delete 0%nat (addresses (the_agent learned_two))
    /\ address_inuse agent1
       = (if true then head (delete 0%nat (addresses (the_agent learned_two)))
          else address_inuse (the_agent learned_two))
    /\ (true = true -> head (delete 0%nat (addresses (the_agent learned_two))) <> None ->
        bw_in agent1 = 1024 /\ bw_out agent1 = 1024).
Proof.
  apply (delete_keeps_well_formed 2 1024 two_properties learned_two 1%nat
           (Addr.mkAddress 7%N true 262144 262144 (Some 0%nat)) 0%nat
           (the_agent learned_two) 0%nat false).
  - reflexivity.
  - reflexivity.
  - reflexivity.
  - reflexivity.
  - repeat split; repeat constructor.
  - vm_compute. lia.
  - reflexivity.
  - intros q Hq. injection Hq as <-. vm_compute. eauto.
Defined.

(** Adding the second address to [learned] and deleting it again
    restores the agent of [learned]. *)
Lemma add_then_delete_on_learned :
  exists s1 s2,
    GAS_ril_address_add 2 1024 two_properties learned 2%nat 3 = Some s1
    /\ GAS_ril_address_delete 2 1024 two_properties s1 2%nat false = Some s2
    /\ agents s2 = agents learned
    /\ network_entries s2 = network_entries learned
    /\ bandwidth_changed_cb s2 = bandwidth_changed_cb learned
    /\ memory s2
       = <[2%nat := in_network (Some 0%nat) (Addr.mkAddress 7%N false 0 0 None)]>
           (memory learned).
Proof.
  apply (add_then_delete_restores_the_agent 2 1024 two_properties learned 2%nat 3 0%nat
           (mkNet 3 100000 2048 100000 2048) (Addr.mkAddress 7%N false 0 0 None)
           0%nat (the_agent learned) 1%nat).
  - reflexivity.
  - reflexivity.
  - vm_compute. discriminate.
  - reflexivity.
  - reflexivity.
  - reflexivity.
  - reflexivity.
  - repeat split; repeat constructor.
  - vm_compute. intros [H|[]]. discriminate.
  - reflexivity.
  - vm_compute. reflexivity.
Defined.

Lemma get_preferred_address_of_learned :
  GAS_ril_get_preferred_address 2 two_properties learned 7%N
  = Some (mkHandle (solver_step_count learned) (step_time learned) (next_step learned)
            (parameters learned)
            (<[0%nat := charged (bw_in (the_agent learned)) (bw_out (the_agent learned))
                          (mkNet 3 100000 2048 100000 2048)]> (network_entries learned))
            (<[0%nat := set_active true (the_agent learned)]> (agents learned))
            (<[1%nat := with_activity true
                          (Addr.mkAddress 7%N true 262144 262144 (Some 0%nat))]>
               (memory learned))
            (bandwidth_changed_cb learned)
            (add_delayed learned),
          Some 1%nat).
Proof.
  apply (get_preferred_address_activates_silently 2 two_properties learned 7%N 0%nat
           (the_agent learned) 1%nat (Addr.mkAddress 7%N true 262144 262144 (Some 0%nat))
           0%nat (mkNet 3 100000 2048 100000 2048)); reflexivity.
Defined.

Lemma stop_after_get_on_idle_address :
  exists s1,
    GAS_ril_get_preferred_address 2 two_properties idle_address 7%N = Some (s1, Some 1%nat)
    /\ GAS_ril_stop_get_preferred_address 2 two_properties s1 7%N = Some idle_address.
Proof.
  apply (stop_undoes_get_preferred_address 2 two_properties idle_address 7%N 0%nat
           (the_agent idle_address) 1%nat
           (Addr.mkAddress 7%N false 262144 262144 (Some 0%nat))
           0%nat (mkNet 3 100000 1024 100000 1024));
    try reflexivity; vm_compute; split; congruence.
Defined.

Lemma periodic_step_of_idle_address :
  forallb idle (agents idle_address) = true
  /\ ril_periodic_step 2 1024 two_properties (fun _ => mkInput 1 false RIL_ACTION_NOTHING)
       2 idle_address
     = Some (mkHandle 1 3000 2 (parameters idle_address) (network_entries idle_address)
               (agents idle_address) (memory idle_address)
               (bandwidth_changed_cb idle_address) [(1000, 1); (3000, 2)]).
Proof.
  split; [reflexivity|].
  apply (periodic_step_without_working_agents 2 1024 two_properties
           (fun _ => mkInput 1 false RIL_ACTION_NOTHING) 2 idle_address).
  reflexivity.
Defined.

Lemma periodic_step_of_one_address :
  network_entries stepped = network_entries one_address
  /\ length (agents stepped) = length (agents one_address)
  /\ forall i a, agents one_address !! i = Some a ->
       (idle a = true -> agents stepped !! i = Some a)
       /\ exists a1, agents stepped !! i = Some a1 /\ same_agent a a1.
Proof.
  apply (periodic_step_frame 2 1024 two_properties
           (fun _ => mkInput 1 false RIL_ACTION_NOTHING) 2 one_address stepped).
  vm_compute. reflexivity.
Defined.

Lemma first_address_of_peer_seven :
  GAS_ril_address_add 2 1024 two_properties empty_solver 1%nat 3
  = Some (mkHandle (solver_step_count empty_solver) (step_time empty_solver)
            (next_step empty_solver)
            (parameters empty_solver)
            (<[0%nat := charged 1024 1024 (mkNet 3 100000 0 100000 0)]>
               (network_entries empty_solver))
            (agents empty_solver
             ++ [with_suggestion 1%nat 1024
                   (grown 2 1%nat
                      (fresh_agent empty_solver
                         (Addr.peer (Addr.mkAddress 7%N false 0 0 None))))])
            (<[1%nat := suggested false 1024 (Some 0%nat)
                          (Addr.mkAddress 7%N false 0 0 None)]> (memory empty_solver))
            (bandwidth_changed_cb empty_solver)
            (add_delayed empty_solver)).
Proof.
  apply (first_address_of_a_new_peer 2 1024 two_properties empty_solver 1%nat 3 0%nat
           (mkNet 3 100000 0 100000 0) (Addr.mkAddress 7%N false 0 0 None));
    try reflexivity.
  vm_compute. discriminate.
Defined.

Lemma first_address_after_the_request_of_peer_seven :
  exists s1,
    GAS_ril_get_preferred_address 2 two_properties empty_solver
      (Addr.peer (Addr.mkAddress 7%N false 0 0 None)) = Some (s1, None)
    /\ GAS_ril_address_add 2 1024 two_properties s1 1%nat 3
       = Some (mkHandle (solver_step_count empty_solver) (step_time empty_solver)
                 (next_step empty_solver)
                 (parameters empty_solver)
                 (<[0%nat := charged 1024 1024 (mkNet 3 100000 0 100000 0)]>
                    (network_entries empty_solver))
                 (agents empty_solver
                  ++ [with_suggestion 1%nat 1024
                        (grown 2 1%nat
                           (set_active true
                              (fresh_agent empty_solver
                                 (Addr.peer (Addr.mkAddress 7%N false 0 0 None)))))])
                 (<[1%nat := suggested true 1024 (Some 0%nat)
                               (Addr.mkAddress 7%N false 0 0 None)]>
                    (memory empty_solver))
                 (bandwidth_changed_cb empty_solver
                  ++ [(1%nat, suggested true 1024 (Some 0%nat)
                                (Addr.mkAddress 7%N false 0 0 None))])
                 (add_delayed empty_solver)).
Proof.
  apply (first_address_of_a_waiting_peer 2 1024 two_properties empty_solver 1%nat 3 0%nat
           (mkNet 3 100000 0 100000 0) (Addr.mkAddress 7%N false 0 0 None));
    try reflexivity.
  vm_compute. discriminate.
Defined.

Lemma address_of_the_starved_network :
  exists s1,
    GAS_ril_address_add 2 1024 two_properties starved_solver 1%nat 3 = Some s1
    /\ s1 = set_memory (<[1%nat := in_network (Some 0%nat)
                                     (Addr.mkAddress 7%N false 0 0 None)]>
                          (memory starved_solver)) starved_solver
    /\ GAS_ril_address_delete 2 1024 two_properties s1 1%nat false = Some s1.
Proof.
  apply (address_of_a_network_without_bandwidth 2 1024 two_properties starved_solver
           1%nat 3 0%nat (mkNet 3 100000 0 500 0) (Addr.mkAddress 7%N false 0 0 None)
           false); try reflexivity.
Defined.

Lemma second_delete_aborts :
  GAS_ril_address_delete 2 1024 two_properties forgotten 2%nat false = None.
Proof.
  apply (delete_of_an_address_never_added_aborts 2 1024 two_properties forgotten 2%nat
           (Addr.mkAddress 7%N false 0 0 (Some 0%nat)) 0%nat
           (mkNet 3 100000 2048 100000 2048) false); try reflexivity.
  vm_compute. discriminate.
Defined.

Lemma agent_address_get_index_from_last l t : forall i,
  List.NoDup l -> last l = Some t ->
  agent_address_get_index_from i l t = i + Z.of_nat (length l).
Proof.
  induction l as [|c l IH]; intros i Hnd Hl; [discriminate|].
  inversion Hnd as [|? ? Hnin Hnd']; subst.
  cbn [agent_address_get_index_from].
  destruct l as [|d l].
  - simpl in Hl. injection Hl as ->. rewrite Nat.eqb_refl. simpl. lia.
  - assert (last (d :: l) = Some t) as Hl' by exact Hl.
    destruct (Nat.eqb_spec c t) as [->|Hne].
    + exfalso. apply Hnin. apply list_elem_of_In. eapply last_Some_elem_of. exact Hl'.
    + rewrite (IH (i + 1) Hnd' Hl'). cbn [length]. lia.
Qed.

Section Switch.

Variable min_bw : Z.

Lemma envi_do_action_switch solver agent action :
  RIL_ACTION_TYPE_NUM <= action ->
  envi_do_action min_bw solver agent action
  = if (RIL_ACTION_TYPE_NUM <=? action) && (action <? Z.of_nat (n agent))
    then
      let address_index := action - RIL_ACTION_TYPE_NUM in
      match last (addresses agent) with
      | Some tail =>
          if negb (0 <=? address_index) then None
          else if negb (address_index <=? agent_address_get_index agent tail) then None
          else envi_action_address_switch solver agent (Z.to_nat address_index)
      | None => None
      end
    else None.
Proof.
  unfold RIL_ACTION_TYPE_NUM. intros H.
  destruct action as [|p|p]; [lia| |lia].
  do 4 (destruct p as [p|p|]; try lia; try reflexivity).
Qed.

(** X26.  The action [RIL_ACTION_TYPE_NUM + i] switches to the address
    with index [i] of the agent and keeps its bandwidths;
    [bandwidth_changed_cb] is called, once, exactly when the agent is
    active and was not using that address.  No action below zero or from
    [n] on is carried out: the assertion of [envi_do_action] fails. *)
Theorem switch_action_selects_the_address :
  forall s agent idx p,
    n agent = (Z.to_nat RIL_ACTION_TYPE_NUM + length (addresses agent))%nat ->
    List.NoDup (addresses agent) ->
    addresses agent !! idx = Some p ->
    is_Some (memory s !! p) ->
    (forall q, address_inuse agent = Some q -> is_Some (memory s !! q)) ->
    (exists s1 a1,
       envi_do_action min_bw s agent (RIL_ACTION_TYPE_NUM + Z.of_nat idx) = Some (s1, a1)
       /\ address_inuse a1 = Some p
       /\ bw_in a1 = bw_in agent /\ bw_out a1 = bw_out agent
       /\ frame s s1 /\ frame_agent agent a1
       /\ exists l,
            bandwidth_changed_cb s1 = bandwidth_changed_cb s ++ l
            /\ length l = if active agent && bool_decide (address_inuse agent <> Some p)
                          then 1%nat else 0%nat)
    /\ forall action,
         action < 0 \/ Z.of_nat (n agent) <= action ->
         envi_do_action min_bw s agent action = None.
Proof.
  intros s agent idx p Hn Hnd Hp Hmem Hin.
  assert (Z.to_nat RIL_ACTION_TYPE_NUM = 9%nat) as H9 by reflexivity.
  assert (RIL_ACTION_TYPE_NUM = 9) as H9' by reflexivity.
  pose proof (lookup_lt_Some _ _ _ Hp) as Hlt.
  split.
  - rewrite envi_do_action_switch by lia.
    assert ((RIL_ACTION_TYPE_NUM <=? RIL_ACTION_TYPE_NUM + Z.of_nat idx) = true) as ->
      by (apply Z.leb_le; lia).
    assert ((RIL_ACTION_TYPE_NUM + Z.of_nat idx <? Z.of_nat (n agent)) = true) as ->
      by (apply Z.ltb_lt; lia).
    cbn [andb]. cbv zeta.
    replace (RIL_ACTION_TYPE_NUM + Z.of_nat idx - RIL_ACTION_TYPE_NUM) with (Z.of_nat idx)
      by lia.
    destruct (last (addresses agent)) as [tail|] eqn:Hl.
    2:{ apply last_None in Hl. rewrite Hl in Hp. discriminate. }
    unfold agent_address_get_index.
    rewrite (agent_address_get_index_from_last _ _ _ Hnd Hl).
    assert ((0 <=? Z.of_nat idx) = true) as -> by (apply Z.leb_le; lia).
    assert ((Z.of_nat idx <=? -1 + Z.of_nat (length (addresses agent))) = true) as ->
      by (apply Z.leb_le; lia).
    cbn [negb]. rewrite Nat2Z.id. unfold envi_action_address_switch. rewrite Hp.
    destruct (envi_set_active_suggestion_is_Some s agent (Some p) (bw_in agent)
                (bw_out agent) false Hin) as [[s1 a1] E].
    { intros ? [= <-]. exact Hmem. }
    exists s1, a1. split; [exact E|].
    apply envi_set_active_suggestion_post in E.
    destruct E as (Fs & Fa & Hi & Hb & _ & l & Hc & Hlen).
    destruct (Hb p eq_refl) as (Bi & Bo & _).
    repeat (split; [assumption|]).
    exists l. split; [exact Hc|]. rewrite Hlen.
    unfold calls, changed. rewrite !Z.eqb_refl. cbn [negb orb andb].
    rewrite (bool_decide_true (Some p <> None)) by discriminate.
    rewrite orb_false_r, orb_true_l, !andb_true_r, andb_comm. reflexivity.
  - intros action [Hneg|Hbig].
    + destruct action as [|q|q]; try lia. reflexivity.
    + rewrite envi_do_action_switch by lia.
      assert ((action <? Z.of_nat (n agent)) = false) as -> by (apply Z.ltb_ge; lia).
      now rewrite andb_false_r.
Qed.

End Switch.

Lemma switch_action_of_learned_two :
  (exists s1 a1,
     envi_do_action 1024 learned_two (the_agent learned_two)
       (RIL_ACTION_TYPE_NUM + Z.of_nat 1) = Some (s1, a1)
     /\ address_inuse a1 = Some 2%nat
     /\ bw_in a1 = bw_in (the_agent learned_two)
     /\ bw_out a1 = bw_out (the_agent learned_two)
     /\ frame learned_two s1 /\ frame_agent (the_agent learned_two) a1
     /\ exists l,
          bandwidth_changed_cb s1 = bandwidth_changed_cb learned_two ++ l
          /\ length l = if active (the_agent learned_two)
                           && bool_decide (address_inuse (the_agent learned_two)
                                           <> Some 2%nat)
                        then 1%nat else 0%nat)
  /\ forall action,
       action < 0 \/ Z.of_nat (n (the_agent learned_two)) <= action ->
       envi_do_action 1024 learned_two (the_agent learned_two) action = None.
Proof.
  apply (switch_action_selects_the_address 1024 learned_two (the_agent learned_two)
           1%nat 2%nat).
  - reflexivity.
  - vm_compute. repeat constructor; simpl; intuition discriminate.
  - reflexivity.
  - vm_compute. eauto.
  - intros q Hq. injection Hq as <-. vm_compute. eauto.
Defined.

Lemma ril_get_network_from_types l l' t : forall i,
  map type l' = map type l ->
  ril_get_network_from i l' t = ril_get_network_from i l t.
Proof.
  revert l'. induction l as [|c l IH]; intros [|c' l'] i H; try discriminate;
    [reflexivity|].
  simpl in H. injection H as Hc Hl. simpl. rewrite Hc.
  destruct (type c =? t); [reflexivity|]. now apply IH.
Qed.

Lemma map_type_insert_charged l k net d_in d_out :
  l !! k = Some net -> map type (<[k := charged d_in d_out net]> l) = map type l.
Proof.
  intros H. rewrite list_fmap_insert. cbn [type charged].
  apply list_insert_id. rewrite list_lookup_fmap, H. reflexivity.
Qed.

Lemma charged_charged d1 d2 e1 e2 net :
  charged d2 e2 (charged d1 e1 net) = charged (d1 + d2) (e1 + e2) net.
Proof.
  unfold charged. cbn [type bw_in_available bw_in_assigned bw_out_available
                       bw_out_assigned].
  unfold wrap64. rewrite !Zplus_mod_idemp_l. now rewrite !Z.add_assoc.
Qed.

Lemma assign_eq k net d_in d_out s :
  network_entries s !! k = Some net ->
  assign (Some k) d_in d_out s
  = Some (set_network_entries (<[k := charged d_in d_out net]> (network_entries s)) s).
Proof. intros Hn. unfold assign, update_at. now rewrite Hn. Qed.

Section Move.

Variable Q : nat.
Variable min_bw : Z.
Variable get_property : nat -> list float.

Lemma GAS_ril_address_change_network_eq s address A B kA kB netA netB aa pos agent :
  memory s !! address = Some aa ->
  ril_get_agent_from 0 (agents s) (Addr.peer aa) = Some pos ->
  agents s !! pos = Some agent ->
  ril_get_network s A = Some kA -> ril_get_network s B = Some kB -> kA <> kB ->
  network_entries s !! kA = Some netA -> network_entries s !! kB = Some netB ->
  (Addr.active aa = true -> min_bw <= bw_out_available netB) ->
  GAS_ril_address_change_network Q min_bw get_property s address A B
  = Some (mkHandle (solver_step_count s) (step_time s) (next_step s)
            (parameters s)
            (<[kB := charged (- min_bw) (- min_bw) netB]>
               (<[kA := charged (- bw_in agent) (- bw_out agent) netA]>
                  (network_entries s)))
            (agents s)
            (<[address := in_network (Some kB) aa]> (memory s))
            (bandwidth_changed_cb s)
            (add_delayed s)).
Proof.
  intros Ha Hpos Hag HA HB Hne HnA HnB Hbw.
  unfold GAS_ril_address_change_network. rewrite Ha.
  assert ((if Addr.active aa
           then match ril_network_is_active min_bw s B with
                | Some is_active => Some (negb is_active)
                | None => None
                end
           else Some false) = Some false) as ->.
  { destruct (Addr.active aa); [|reflexivity].
    rewrite (ril_network_is_active_eq min_bw s B kB netB HB HnB).
    assert ((bw_out_available netB <? min_bw) = false) as ->
      by (apply Z.ltb_ge; auto).
    reflexivity. }
  unfold ril_get_agent. rewrite Hpos. cbv beta iota. rewrite Hag, HA.
  rewrite (assign_eq kA netA _ _ s HnA).
  set (sA := set_network_entries _ s).
  assert (ril_get_network sA B = Some kB) as HB'.
  { unfold ril_get_network in *. subst sA. cbn [network_entries set_network_entries].
    rewrite (ril_get_network_from_types (network_entries s)); [exact HB|].
    now apply map_type_insert_charged. }
  cbv zeta. rewrite HB'.
  rewrite (assign_eq kB netB _ _ sA)
    by (subst sA; cbn [network_entries set_network_entries];
        now rewrite list_lookup_insert_ne by congruence).
  unfold write. subst sA. cbn [memory set_network_entries]. rewrite Ha. reflexivity.
Qed.

(** X27.  Moving an address of a peer that has an agent to another network
    changes no agent and calls no one: the record of the address points
    to the new network, the old network loses the bandwidths of the
    agent from what it counts as assigned and the new network loses the
    minimum bandwidth.  After moving the address back the record is
    where it was, and both networks have lost the bandwidth of the agent
    and the minimum bandwidth. *)
Theorem change_network_there_and_back :
  forall s address A B kA kB netA netB aa pos agent,
    memory s !! address = Some aa ->
    ril_get_agent_from 0 (agents s) (Addr.peer aa) = Some pos ->
    agents s !! pos = Some agent ->
    ril_get_network s A = Some kA -> ril_get_network s B = Some kB -> kA <> kB ->
    network_entries s !! kA = Some netA -> network_entries s !! kB = Some netB ->
    (Addr.active aa = true ->
     min_bw <= bw_out_available netA /\ min_bw <= bw_out_available netB) ->
    exists s1 s2,
      GAS_ril_address_change_network Q min_bw get_property s address A B = Some s1
      /\ agents s1 = agents s /\ bandwidth_changed_cb s1 = bandwidth_changed_cb s
      /\ memory s1 = <[address := in_network (Some kB) aa]> (memory s)
      /\ network_entries s1
         = <[kB := charged (- min_bw) (- min_bw) netB]>
             (<[kA := charged (- bw_in agent) (- bw_out agent) netA]> (network_entries s))
      /\ GAS_ril_address_change_network Q min_bw get_property s1 address B A = Some s2
      /\ agents s2 = agents s /\ bandwidth_changed_cb s2 = bandwidth_changed_cb s
      /\ memory s2 = <[address := in_network (Some kA) aa]> (memory s)
      /\ network_entries s2
         = <[kB := charged (- min_bw + - bw_in agent) (- min_bw + - bw_out agent) netB]>
             (<[kA := charged (- bw_in agent + - min_bw) (- bw_out agent + - min_bw) netA]>
                (network_entries s)).
Proof.
  intros s address A B kA kB netA netB aa pos agent Ha Hpos Hag HA HB Hne HnA HnB Hbw.
  pose proof (lookup_lt_Some _ _ _ HnA) as HltA.
  pose proof (lookup_lt_Some _ _ _ HnB) as HltB.
  eexists _, _. split.
  { apply (GAS_ril_address_change_network_eq s address A B kA kB netA netB aa pos agent);
      try assumption. intros H. now apply Hbw. }
  do 4 (split; [reflexivity|]).
  set (s1 := mkHandle _ _ _ _ _ _ _ _ _).
  assert (map type (network_entries s1) = map type (network_entries s)) as Ht.
  { subst s1. cbn [network_entries].
    rewrite map_type_insert_charged by (now rewrite list_lookup_insert_ne by congruence).
    now apply map_type_insert_charged. }
  rewrite (GAS_ril_address_change_network_eq s1 address B A kB kA
             (charged (- min_bw) (- min_bw) netB)
             (charged (- bw_in agent) (- bw_out agent) netA)
             (in_network (Some kB) aa) pos agent).
  - split; [reflexivity|]. subst s1.
    cbn [solver_step_count step_time next_step add_delayed parameters
         network_entries agents memory bandwidth_changed_cb].
    do 2 (split; [reflexivity|]). split.
    + rewrite insert_insert_eq. reflexivity.
    + rewrite !charged_charged.
      rewrite list_insert_insert_eq.
      rewrite (list_insert_insert_ne _ kA kB) by congruence.
      rewrite list_insert_insert_eq. reflexivity.
  - subst s1. cbn [memory]. apply lookup_insert_eq.
  - exact Hpos.
  - exact Hag.
  - unfold ril_get_network in *. now rewrite (ril_get_network_from_types _ _ _ _ Ht).
  - unfold ril_get_network in *. now rewrite (ril_get_network_from_types _ _ _ _ Ht).
  - congruence.
  - subst s1. cbn [network_entries]. apply list_lookup_insert_eq.
    now rewrite length_insert.
  - subst s1. cbn [network_entries]. rewrite list_lookup_insert_ne by congruence.
    now apply list_lookup_insert_eq.
  - cbn [Addr.active in_network charged bw_out_available]. intros H. now apply Hbw.
Qed.

End Move.

Lemma change_network_of_two_networks :
  exists s1 s2,
    GAS_ril_address_change_network 2 1024 two_properties two_networks 1%nat 3 2 = Some s1
    /\ agents s1 = agents two_networks
    /\ bandwidth_changed_cb s1 = bandwidth_changed_cb two_networks
    /\ memory s1
       = <[1%nat := in_network (Some 1%nat)
                      (Addr.mkAddress 7%N true 262144 262144 (Some 0%nat))]>
           (memory two_networks)
    /\ network_entries s1
       = <[1%nat := charged (- 1024) (- 1024) (mkNet 2 100000 0 100000 0)]>
           (<[0%nat := charged (- bw_in (the_agent two_networks))
                         (- bw_out (the_agent two_networks))
                         (mkNet 3 100000 2048 100000 2048)]>
              (network_entries two_networks))
    /\ GAS_ril_address_change_network 2 1024 two_properties s1 1%nat 2 3 = Some s2
    /\ agents s2 = agents two_networks
    /\ bandwidth_changed_cb s2 = bandwidth_changed_cb two_networks
    /\ memory s2
       = <[1%nat := in_network (Some 0%nat)
                      (Addr.mkAddress 7%N true 262144 262144 (Some 0%nat))]>
           (memory two_networks)
    /\ network_entries s2
       = <[1%nat := charged (- 1024 + - bw_in (the_agent two_networks))
                      (- 1024 + - bw_out (the_agent two_networks))
                      (mkNet 2 100000 0 100000 0)]>
           (<[0%nat := charged (- bw_in (the_agent two_networks) + - 1024)
                         (- bw_out (the_agent two_networks) + - 1024)
                         (mkNet 3 100000 2048 100000 2048)]>
              (network_entries two_networks)).
Proof.
  apply (change_network_there_and_back 2 1024 two_properties two_networks 1%nat 3 2
           0%nat 1%nat (mkNet 3 100000 2048 100000 2048) (mkNet 2 100000 0 100000 0)
           (Addr.mkAddress 7%N true 262144 262144 (Some 0%nat)) 0%nat
           (the_agent two_networks)); try reflexivity.
  - lia.
  - intros _. simpl. lia.
Defined.

End RilProperties.
